(* ===== verification/_CoqProject ===== *)
-Q . S2P
Prelude.v
ActionLog.v
GoStrings.v
GoFlag.v
GoFloat.v
Splice.v
Encoding.v
Exposition.v
Regex.v
Json.v
NetIP.v
GoUrl.v
AttestProtocol.v
AttestMetrics.v
AttestExposition.v
AttestServer.v
AttestServerState.v
AttestResponder.v
AttestRun.v
AttestAgent.v
AttestEndToEnd.v
AttestAdapters.v
AttestMain.v
AgentConfig.v
AgentWorker.v
AgentWorkerService.v
AgentBPF.v
AgentDNS.v
AgentDNSService.v
AgentNetwork.v
AgentCgroup.v
AgentController.v
AgentOwnership.v
AgentGate.v
AgentSandbox.v
AgentServe.v
AgentHandover.v
IdentityConfig.v
IdentityExporter.v
IdentityHealth.v
IdentityObserve.v
IdentityExamples.v
IdentityExposition.v
IdentityServe.v
IdentityDaemon.v
HelperRegister.v
HelperGate.v
HelperProcess.v
PyStd.v
Quota.v
RustStd.v
FileWatcher.v
ShpoolMux.v
WgRefresh.v
Oo7Session.v
