(* ===== verification/Prelude.v ===== *)
(** * Realm identity and egress stack: verification library

    A model of the Go programs (and the BPF program) that give the workloads of
    these hosts their identities and their only way to the network, and of the
    Python, Rust and Nushell tools beside them, with the theorems that make them
    correct.  Definitions are shallow translations of the sources under
    [src/pkgs] and [src/script]: pure code is functions, fallible code returns
    [result] (a value, an error or a panic), stateful code is the state monad
    [SM] or a step function over a record, concurrent code is a step relation or
    a sequence of events in any order.  Everything that runs is executable, so
    the concrete examples are evaluated by the kernel.

    ** The programs and how they interact

    - [realm-node-attest] proves to a SPIRE server that a node controls its host
      name.  The server issues a challenge; the agent signs it and publishes the
      proof through the responder on the node; the server fetches it over a
      pinned address and verifies it.
    - [realm-agent] captures the connections of a workload.  The BPF programs on
      the workload's cgroup redirect them to a sandboxed worker in the same
      network namespace, which looks up where they were meant to go, applies the
      destination policy and forwards them through an egress socket or answers
      them as a resolver.  The host service attributes workloads by cgroup,
      prepares their namespaces and gates their start.
    - [realm-helper] is the user-space half inside the workload: it waits at the
      gate, bridges sockets, supervises the application and registers the
      declared entries with SPIRE.
    - [realm-identity-metrics] observes the certificates of the host and of its
      workloads and exports their state.
    - Tools that stand alone: [adonbox-quota.py] stops a unit when its monthly
      transfer is used up; [helix-file-watcher] reports changes of the files an
      editor has open; [shpool-mux] gives each terminal window a session;
      [wg-refresh.nu] restarts links whose peer moved; [oo7-session.py] looks
      after the credential, the backup and the readiness of the keyring.

    ** Files

    Foundations:
    - [Prelude]: errors, results, the state monad, machine integers, the
      notations of [go_scope], the tactics and the [go_bool] hint database;
      [ActionLog]: sequences of system calls with a log of those that succeeded,
      and when what one of them did is undone by a later one.
    - [GoStrings], [Encoding] (hex, base64, SHA-1, SHA-256), [Regex], [Json],
      [NetIP], [GoUrl], [GoFlag], [GoFloat] (the shortest decimal of a double):
      what the sources use of Go's standard library; [PyStd] and [RustStd]: what
      they use of Python and Rust.
    - [Exposition]: the text format of the metrics endpoints and its reader.
    - [Splice]: the two concurrent copies of a spliced connection, for
      [realm-helper/proxy.go] and [realm-agent/proxy.go].

    [realm-node-attest]:
    - [AttestProtocol] ([protocol.go], [address.go]): documents, keys, proofs;
      JOSE is the class [Jose].
    - [AttestMetrics] ([metrics.go], [metrics_listener.go]): the registry over
      IEEE doubles, listener reconfiguration, error classes; [AttestExposition]:
      what its endpoint writes.
    - [AttestServer], [AttestServerState] ([server.go]): sessions, quota and the
      interleavings of concurrent calls.
    - [AttestResponder] ([responder_linux.go]) and [AttestRun], its listeners,
      connections and shutdown; [AttestAgent] ([agent.go]), [AttestAdapters]
      ([adapters.go]), [AttestMain] (the commands under [cmd]), and
      [AttestEndToEnd], where agent, responder and server are composed.

    [realm-agent]:
    - [AgentConfig] ([config.go]): the configuration and the destination policy.
    - [AgentBPF] ([bpf/realm.bpf.c], [bpf.go]): the kernel programs over their
      maps, at byte level; [AgentWorker] ([worker.go], [proxy.go]): from an
      accepted connection to its egress, and [AgentWorkerService], all
      connections of a worker at once; [AgentDNS] ([dns.go]): the resolver, over
      the classes [DnsLib] and [DnsLaws] for the message library, and
      [AgentDNSService], its readers and workers.
    - [AgentNetwork] ([network.go]), [AgentCgroup] ([agent.go], [resources.go]):
      namespaces and attribution.
    - [AgentController], [AgentOwnership] ([agent.go], [recovery.go],
      [resources.go]): one controller and the handles and processes it owns;
      [AgentGate]: what stands behind the gate it opens.
    - [AgentSandbox] ([sandbox.go]); [AgentServe] ([agent.go], [resources.go],
      [worker.go], [main.go]): the start of the service and of a worker;
      [AgentHandover]: the command line, environment, descriptors and sealed
      configuration a worker is given, with the class [NamespaceTool] for
      [nsenter].

    [realm-identity-metrics]: [IdentityConfig] ([config.go], [admin.go],
    [workloads.go]), [IdentityExporter] ([certificates.go], [exporter.go],
    [workload_state.go], [workloads.go]), [IdentityHealth], [IdentityObserve]
    (their properties), [IdentityExamples], [IdentityExposition] (what the
    endpoint writes), [IdentityServe] (rounds, endpoints, command),
    [IdentityDaemon] (the running process).

    [realm-helper]: [HelperRegister] ([spireregister.go]) over the classes
    [SpireServer], [SpireLaws] and [SpireAnswers]; [HelperGate] ([container.go]
    and the other side of the gate in [realm-agent/agent.go]); [HelperProcess]
    ([main.go], [activation.go], [bridge.go], [proxy.go], [container.go],
    [waitspire.go]).

    Tools: [Quota] ([adonbox-quota.py]), [FileWatcher]
    ([helix-file-watcher/src/lib.rs]), [ShpoolMux]
    ([by-name/shpool-mux/src/main.rs]), [WgRefresh] ([script/wg-refresh.nu]),
    [Oo7Session] ([script/oo7-session.py]).

    ** What the theorems show

    - Attestation: an honest run succeeds; a proof is accepted only for the
      challenge, key and name of its session; capacity, rate and single use hold
      under every interleaving; the responder serves what was published and
      nothing after its end, within its bounds, and closes what it opened.
    - Capture: a workload reaches only loopback addresses; what it connects to is
      what the worker looks up, or an error and never another destination, if no
      two open connections agree in all their addresses and ports; answers and
      peer names are mapped back; the worker forwards exactly what the policy allows,
      within its limit and without leaks, also with all connections at once;
      every datagram of the resolver answers a different one it received, to the
      peer and from the socket of that one.
    - Isolation: a gate opens only for an attributed process, behind a capture of
      its own cgroup and a worker in its own namespace that said it is ready; no
      handle, process or group is leaked on any path, and the service undoes all
      it opened; the sandbox executes last, with every privilege dropped;
      readiness is reported last; a worker decodes the configuration its
      controller sealed and keeps the descriptors meant for it and no others.
    - Helpers: reconciliation leaves exactly the declared entries; the application
      starts after the gate and its listeners; a splice loses nothing and returns.
    - Exporter: health and freshness are those of the recorded history; the order
      of concurrent collectors does not matter; what a scrape reads is exactly
      what was gathered, and the daemon returns with everything closed.
    - Tools: the count of the quota never exceeds the traffic and bounds what it
      misses, and the unit is started only below the limit, over any restarts;
      polling returns exactly the watched files that changed; no window kills or
      takes over the session of another; a stored credential is never lost or
      incomplete, and a manifest stands for a verified backup.

    ** Bounds and fuel

    Integers keep their width where it matters ([u16], [u32], [u64], [i64]); the
    places where they wrap are theorems.  Loops over input recurse on it or on
    fuel that a lemma shows to be enough (the JSON parser by the length of its
    input, the bundle reader by the bytes left, the flag parser by the arguments
    left).  Loops that wait take the sequence of what they see as input and
    return [None] while it has not decided.  Map lookups of the worker are at
    most 20, health checks at most 30, as in the sources.

    ** Findings

    - [AgentConfig.overlap_accepted_at_top]: the overlap test of listener ports
      wraps at the top of the port range.
    - [AgentBPF.stale_peername]: the state of a captured socket survives a later
      connect to a loopback port.
    - [AgentBPF.mapped_loopback_captured]: loopback adapters are not preserved
      for IPv4-mapped addresses.
    - [HelperRegister.missing_stale_blocks]: an entry of the state file that is
      gone from the server blocks every later run.
    - [HelperRegister.failed_run_orphans]: what a failed run created is not
      recorded.
    - [Quota.full_disk_keeps_running]: when the directory cannot be written the
      unit is not stopped.
    - [FileWatcher.stale_directory]: a directory that was deleted is never
      watched again, and calls fail from then on.
    - [WgRefresh.deferred_restart_lost]: a restart that is put off never happens.

    ** Not modelled

    - Cryptography and third-party protocols (JOSE, X.509 and PEM decoding, TLS,
      gRPC, DNS message packing, the SPIRE server): parameters, with the laws the
      code relies on as classes, each with an instance.
    - The kernel beyond the BPF programs: outcomes of system calls are inputs.
    - The HTTP implementation below the handlers and its timeouts; pauses and the
      pace of timers; log output; error texts beyond their fixed part.
    - The Nix configuration, which another language evaluates; the Scheme plugin
      of the editor, which is callbacks over an interface outside the
      repository; [autosign.ts], a series of requests to a web service. *)

From Stdlib Require Export Ascii.
From stdpp Require Export base tactics numbers option gmap strings list.

#[export] Set Default Goal Selector "!".

(** ** Go error values

    The Go code returns [error] values that its callers only inspect with
    [errors.Is], [errors.As] and [status.Code]; the constructors are the
    error types the sources build. *)
Inductive grpc_code :=
| CodeOK | CodeCanceled | CodeUnknown | CodeInvalidArgument | CodeDeadlineExceeded
| CodeFailedPrecondition | CodeInternal | CodeUnauthenticated.

Inductive error :=
| ErrNew (msg : string)
| ErrWrap (msg : string) (inner : error)
| ErrEOF
| ErrCanceled
| ErrDeadlineExceeded
| ErrStatus (code : grpc_code) (msg : string)
| ErrObserved (inner : error) (stage reason : string).

(** A Go call returns a value, an error, or panics. *)
Inductive result (A : Type) :=
| Ok (a : A)
| Err (e : error)
| Panic (msg : string).
Arguments Ok {A} _.
Arguments Err {A} _.
Arguments Panic {A} _.

#[export] Instance grpc_code_eq_dec : EqDecision grpc_code.
Proof. solve_decision. Defined.
#[export] Instance error_eq_dec : EqDecision error.
Proof. solve_decision. Defined.
#[export] Instance result_eq_dec `{EqDecision A} : EqDecision (result A).
Proof. solve_decision. Defined.

Declare Scope go_scope.
Delimit Scope go_scope with go.
Open Scope go_scope.

Definition rbind {A B} (m : result A) (k : A -> result B) : result B :=
  match m with
  | Ok a => k a
  | Err e => Err e
  | Panic p => Panic p
  end.

Notation "'let!' x := m 'in' k" := (rbind m (fun x => k))
  (at level 200, x pattern, m at level 100, k at level 200, right associativity) : go_scope.

(** [require b e k]: the early return [if !b { return e }; k]. *)
Notation "'require' b 'else' e ';' k" := (if b then k else Err e)
  (at level 200, b at level 100, e at level 100, k at level 200, right associativity) : go_scope.

(** [reject b e k]: the early return [if b { return e }; k]. *)
Notation "'reject' b 'with' e ';' k" := (if b then Err e else k)
  (at level 200, b at level 100, e at level 100, k at level 200, right associativity) : go_scope.

(** Stateful code: a step from a state to a result and the state after it.
    The state survives an error, as the effects of a Go call do. *)
Definition SM (S A : Type) : Type := S -> result A * S.

Definition sret {S A} (a : A) : SM S A := fun s => (Ok a, s).
Definition slift {S A} (r : result A) : SM S A := fun s => (r, s).
Definition sfail {S A} (e : error) : SM S A := fun s => (Err e, s).
Definition sbind {S A B} (m : SM S A) (k : A -> SM S B) : SM S B := fun s =>
  match m s with
  | (Ok a, s') => k a s'
  | (Err e, s') => (Err e, s')
  | (Panic p, s') => (Panic p, s')
  end.

(** [defer cleanup]: run when the rest of the function returns, however it does. *)
Definition defer {S A} (cleanup : S -> S) (body : SM S A) : SM S A := fun s =>
  let '(r, s') := body s in (r, cleanup s').

(** [defer func() { if !ok { cleanup } }()], where [ok] is set before the
    successful return. *)
Definition defer_unless_ok {S A} (cleanup : S -> S) (body : SM S A) : SM S A := fun s =>
  let '(r, s') := body s in (r, match r with Ok _ => s' | _ => cleanup s' end).

Notation "'do!' x '<-' m ';' k" := (sbind m (fun x => k))
  (at level 200, x pattern, m at level 100, k at level 200, right associativity) : go_scope.
Notation "'run!' m ';' k" := (sbind m (fun _ => k))
  (at level 200, m at level 100, k at level 200, right associativity) : go_scope.

Notation "a =? b" := (bool_decide (a = b)) (at level 70) : go_scope.
Notation "a <>? b" := (negb (bool_decide (a = b))) (at level 70) : go_scope.

(** [errors.Is(err, target)] for the two context errors. *)
Fixpoint error_is (target e : error) : bool :=
  (e =? target) ||
  match e with
  | ErrWrap _ inner => error_is target inner
  | ErrObserved inner _ _ => error_is target inner
  | _ => false
  end.

Definition is_ok {A} (r : result A) : bool :=
  match r with Ok _ => true | _ => false end.

Definition is_panic {A} (r : result A) : bool :=
  match r with Panic _ => true | _ => false end.

(** ** Machine integers *)
Definition wrap (w : Z) (x : Z) : Z := (x mod 2 ^ w)%Z.
Definition u16 : Z -> Z := wrap 16.
Definition u32 : Z -> Z := wrap 32.
Definition u64 : Z -> Z := wrap 64.
(** Two's complement [int] and [int64]. *)
Definition i64 (x : Z) : Z := ((x + 2 ^ 63) mod 2 ^ 64 - 2 ^ 63)%Z.
Definition maxInt64 : Z := (2 ^ 63 - 1)%Z.
Definition minInt64 : Z := (- 2 ^ 63)%Z.

(** ** Time: [time.Time] is a count of nanoseconds since the Unix epoch *)
Definition Second : Z := 1000000000.
Definition Minute : Z := (60 * Second)%Z.
Definition Unix (t : Z) : Z := (t / Second)%Z.

(** ** Tactics *)

(** Turn boolean tests of the code into propositions. *)
Ltac bprop :=
  repeat match goal with
  | H : Is_true _ |- _ => apply Is_true_true in H
  | H : andb _ _ = true |- _ => apply andb_true_iff in H as [? ?]
  | H : orb _ _ = false |- _ => apply orb_false_iff in H as [? ?]
  | H : negb _ = true |- _ => apply negb_true_iff in H
  | H : negb _ = false |- _ => apply negb_false_iff in H
  | H : bool_decide _ = true |- _ => apply bool_decide_eq_true in H
  | H : bool_decide _ = false |- _ => apply bool_decide_eq_false in H
  | H : (_ <=? _)%Z = true |- _ => apply Z.leb_le in H
  | H : (_ <=? _)%Z = false |- _ => apply Z.leb_gt in H
  | H : (_ <? _)%Z = true |- _ => apply Z.ltb_lt in H
  | H : (_ <? _)%Z = false |- _ => apply Z.ltb_ge in H
  | H : (_ <=? _)%nat = true |- _ => apply Nat.leb_le in H
  | H : (_ <=? _)%nat = false |- _ => apply Nat.leb_gt in H
  | H : (_ <? _)%nat = true |- _ => apply Nat.ltb_lt in H
  | H : (_ <? _)%nat = false |- _ => apply Nat.ltb_ge in H
  end.

(** [lia] with division and modulo by constants. *)
Ltac divlia := Z.to_euclidean_division_equations; lia.

(** Conditions of the sources as propositions: [bspec] turns equations between
    booleans into the conjunction or disjunction of what they test. *)
Create HintDb go_bool.
#[export] Hint Rewrite andb_true_iff orb_true_iff andb_false_iff orb_false_iff negb_true_iff negb_false_iff
  @bool_decide_eq_true @bool_decide_eq_false Z.ltb_lt Z.ltb_ge Z.leb_le Z.leb_gt : go_bool.
Ltac bspec := autorewrite with go_bool.
Tactic Notation "bspec" "in" hyp(H) := autorewrite with go_bool in H.

(** Split the next test, or the next bind, in the hypothesis that says what a
    call returned; close the branches whose outcome contradicts it. *)
Ltac go_step H :=
  match type of H with
  | context [rbind ?m _] =>
      let E := fresh "E" in destruct m eqn:E; cbn [rbind] in H
  | context [if ?b then _ else _] =>
      let E := fresh "E" in destruct b eqn:E
  | context [match ?m with _ => _ end] =>
      let E := fresh "E" in destruct m eqn:E
  end; try discriminate H.

Ltac go_inv H := repeat go_step H; try (injection H as H); bprop.

(** ** Generic lemmas *)
Lemma rbind_Ok {A B} (m : result A) (k : A -> result B) (b : B) :
  rbind m k = Ok b <-> exists a, m = Ok a /\ k a = Ok b.
Proof. destruct m; simpl; naive_solver. Qed.

Lemma sbind_Ok {S A B} (m : SM S A) (k : A -> SM S B) s b s'' :
  sbind m k s = (Ok b, s'') <-> exists a s', m s = (Ok a, s') /\ k a s' = (Ok b, s'').
Proof. unfold sbind. destruct (m s) as [[a|e|p] s']; naive_solver. Qed.

Lemma reject_Ok {A} (b : bool) (e : error) (k : result A) (x : A) :
  (reject b with e; k) = Ok x <-> b = false /\ k = Ok x.
Proof. destruct b; naive_solver. Qed.

Lemma require_Ok {A} (b : bool) (e : error) (k : result A) (x : A) :
  (require b else e; k) = Ok x <-> b = true /\ k = Ok x.
Proof. destruct b; naive_solver. Qed.

Lemma Unix_mono (s t : Z) : (s <= t)%Z -> (Unix s <= Unix t)%Z.
Proof. intros H. unfold Unix, Second. apply Z.div_le_mono; lia. Qed.

Lemma Unix_add_seconds (t k : Z) : Unix (t + k * Second) = (Unix t + k)%Z.
Proof. unfold Unix, Second. rewrite Z.div_add; lia. Qed.

Lemma wrap_range (w x : Z) : (0 <= w)%Z -> (0 <= wrap w x < 2 ^ w)%Z.
Proof. intros H. apply Z.mod_pos_bound. lia. Qed.

Lemma wrap_small (w x : Z) : (0 <= x < 2 ^ w)%Z -> wrap w x = x.
Proof. apply Z.mod_small. Qed.

Lemma wrap_add_l (w x y : Z) : (0 <= w)%Z -> wrap w (wrap w x + y) = wrap w (x + y).
Proof. intros H. unfold wrap. apply Z.add_mod_idemp_l. lia. Qed.

Lemma i64_small (x : Z) : (minInt64 <= x <= maxInt64)%Z -> i64 x = x.
Proof. unfold i64, minInt64, maxInt64. intros H. rewrite Z.mod_small; lia. Qed.

Lemma i64_add_l (x y : Z) : i64 (i64 x + y) = i64 (x + y).
Proof.
  unfold i64. f_equal.
  replace ((x + 2 ^ 63) mod 2 ^ 64 - 2 ^ 63 + y + 2 ^ 63)%Z with ((x + 2 ^ 63) mod 2 ^ 64 + y)%Z by lia.
  rewrite Z.add_mod_idemp_l by lia. f_equal. lia.
Qed.

Lemma mapM_cons_Some {A B} (f : A -> option B) (x : A) (l : list A) (k : list B) :
  mapM f (x :: l) = Some k <-> exists y k', f x = Some y /\ mapM f l = Some k' /\ k = y :: k'.
Proof.
  rewrite mapM_Some. split.
  - inversion 1; subst. do 2 eexists. rewrite mapM_Some. eauto.
  - intros (y & k' & Hy & Hk & ->). rewrite mapM_Some in Hk. by constructor.
Qed.

Lemma list_bind_ext_in {A B} (f g : A -> list B) l : (forall x, x ∈ l -> f x = g x) -> l ≫= f = l ≫= g.
Proof.
  induction l as [|x l IH]; intros H; [done|]. rewrite !bind_cons, H by (by left). f_equal. apply IH. intros y Hy. apply H. by right.
Qed.

Lemma list_fmap_of_bind {A B C} (f : A -> list B) (g : B -> C) l : g <$> (l ≫= f) = l ≫= fun x => g <$> f x.
Proof. induction l as [|x l IH]; [done|]. by rewrite !bind_cons, fmap_app, IH. Qed.

Lemma map_to_list_inj {K V} `{Countable K} (f : gmap K V) x y : x ∈ map_to_list f -> y ∈ map_to_list f -> x.1 = y.1 -> x = y.
Proof. destruct x as [k v], y as [k' v']. rewrite !elem_of_map_to_list. cbn. intros H1 H2 ->. congruence. Qed.
