(* ===== verification/ActionLog.v ===== *)
(** * Programs that act in sequence

    Set-up code in several of the programs is a sequence of system calls, each
    of which may fail and end it.  Such code is a state monad over the log of
    the actions that succeeded; [logs] is the contract the components share: the
    log only grows, by allowed actions, and by what the contract says when the
    code returns a value. *)

From S2P Require Import Prelude.

Section action_log.
Context {A : Type}.

(** A call that succeeds, or fails with an error and is not logged. *)
Definition act (a : A) (outcome : option error) : SM (list A) unit := fun log =>
  match outcome with None => (Ok tt, log ++ [a]) | Some e => (Err e, log) end.

Definition logs {B} (allowed : A -> Prop) (m : SM (list A) B) (whole : B -> list A -> Prop) : Prop :=
  forall log r log', m log = (r, log') ->
    exists acts, log' = log ++ acts /\ Forall allowed acts /\ (forall b, r = Ok b -> whole b acts).

Context (allowed : A -> Prop).

Lemma logs_act a o : allowed a -> logs allowed (act a o) (fun _ l => l = [a]).
Proof.
  intros Ha log r log'. unfold act. destruct o; intros [= <- <-]; [exists []|exists [a]]; rewrite ?app_nil_r; split_and!; auto; done.
Qed.

Lemma logs_lift {B} (x : result B) : logs allowed (slift x) (fun b l => x = Ok b /\ l = []).
Proof. intros log r log' [= <- <-]. exists []. rewrite app_nil_r. split_and!; auto. Qed.

Lemma logs_ret {B} (b : B) : logs allowed (sret b) (fun b' l => b' = b /\ l = []).
Proof. intros log r log' [= <- <-]. exists []. rewrite app_nil_r. split_and!; auto. intros b' [= <-]. done. Qed.

Lemma logs_fail {B} (e : error) (Q : B -> list A -> Prop) : logs allowed (sfail e) Q.
Proof. intros log r log' [= <- <-]. exists []. rewrite app_nil_r. split_and!; auto. done. Qed.

Lemma logs_bind {B C} (m : SM (list A) B) (k : B -> SM (list A) C) Q1 Q2 :
  logs allowed m Q1 -> (forall b, logs allowed (k b) (Q2 b)) ->
  logs allowed (sbind m k) (fun c l => exists b l1 l2, Q1 b l1 /\ Q2 b c l2 /\ l = l1 ++ l2).
Proof.
  intros Hm Hk log r log'. unfold sbind. destruct (m log) as [r1 log1] eqn:E1. destruct (Hm _ _ _ E1) as (a1 & -> & N1 & O1).
  destruct r1 as [b|e|p]; [|intros [= <- <-]; exists a1; split_and!; auto; done..].
  intros E2. destruct (Hk b _ _ _ E2) as (a2 & -> & N2 & O2). exists (a1 ++ a2). rewrite app_assoc. split; [done|]. split; [by apply Forall_app|].
  intros c ->. exists b, a1, a2. auto.
Qed.

Lemma logs_weaken {B} (m : SM (list A) B) (Q Q' : B -> list A -> Prop) :
  logs allowed m Q -> (forall b l, Q b l -> Q' b l) -> logs allowed m Q'.
Proof. intros Hm HQ log r log' E. destruct (Hm _ _ _ E) as (acts & ? & ? & O). exists acts. split_and!; auto. Qed.

(** A call, then the rest. *)
Lemma logs_step {C} a o (k : SM (list A) C) Q : allowed a -> logs allowed k Q ->
  logs allowed (run! act a o; k) (fun c l => exists l', l = a :: l' /\ Q c l').
Proof.
  intros Ha Hk. eapply logs_weaken; [apply (logs_bind _ _ (fun _ l => l = [a]) (fun _ => Q)); [by apply logs_act|intros b; exact Hk]|].
  intros c l (b & l1 & l2 & H1 & H2 & Hl). subst. by exists l2.
Qed.

(** A value computed without acting, then the rest. *)
Lemma logs_value {B C} (x : result B) (k : B -> SM (list A) C) Q : (forall b, x = Ok b -> logs allowed (k b) (Q b)) ->
  logs allowed (sbind (slift x) k) (fun c l => exists b, x = Ok b /\ Q b c l).
Proof.
  intros Hk log r log'. unfold sbind. cbn [slift]. destruct x as [b|e|p]; [|intros [= <- <-]; exists []; rewrite app_nil_r; split_and!; auto; done..].
  intros E. destruct (Hk b eq_refl _ _ _ E) as (acts & ? & ? & O). exists acts. split_and!; auto. eauto.
Qed.
End action_log.

(** ** Actions that are undone

    [ends x y]: [y] undoes [x].  In a log that is [paired] every action that
    can be undone is, later on. *)
Section paired.
Context {A : Type} (ends : A -> A -> Prop).

Definition paired (l : list A) : Prop := forall pre x post y, l = pre ++ x :: post -> ends x y -> y ∈ post.

(** There is nothing to undo. *)
Definition inert (x : A) : Prop := forall y, ~ ends x y.

Lemma paired_cons x l : paired (x :: l) <-> (forall y, ends x y -> y ∈ l) /\ paired l.
Proof.
  split.
  - intros H. split; [intros y; by apply (H [] x l)|]. intros pre z post y ->. by apply (H (x :: pre) z).
  - intros [Hx Hl] pre z post y E Hz. destruct pre as [|z' pre]; cbn in E; injection E as <- ->; [by apply Hx|by apply (Hl pre z)].
Qed.

Lemma paired_nil : paired [].
Proof. intros pre x post y E. by destruct pre. Qed.

Lemma paired_inert l : Forall inert l -> paired l.
Proof. induction 1 as [|x l Hx _ IH]; [apply paired_nil|]. apply paired_cons. split; [|done]. intros y Hy. by destruct (Hx y). Qed.

Lemma paired_app l1 l2 : paired l1 -> paired l2 -> paired (l1 ++ l2).
Proof.
  induction l1 as [|x l1 IH]; [done|]. intros [Hx H1]%paired_cons H2. cbn. apply paired_cons.
  split; [|by apply IH]. intros y Hy. apply elem_of_app. left. by apply Hx.
Qed.

(** Actions that what follows undoes. *)
Lemma paired_undone l post : (forall x y, x ∈ l -> ends x y -> y ∈ post) -> paired post -> paired (l ++ post).
Proof.
  intros Hl Hp. induction l as [|x l IH]; [done|]. cbn. apply paired_cons. split.
  - intros y Hy. rewrite elem_of_app. right. apply (Hl x); [by left|done].
  - apply IH. intros z y Hz. apply Hl. by right.
Qed.
End paired.
