(* ===== verification/GoStrings.v ===== *)
(** * Byte strings: the parts of [strings], [path/filepath] and [strconv] in use

    A Go [string] or [[]byte] is a sequence of bytes, modelled as
    [String.string].  The functions below are the ones the sources call, with
    the behaviour of the Go standard library on Linux: [Split], [Join],
    [HasPrefix], [HasSuffix], [TrimPrefix], [Contains], [ContainsAny],
    [Count], [Cut], [filepath.IsAbs/Clean/Dir/Base/Join],
    [strconv.Itoa] and [strconv.Atoi]. *)

From Stdlib Require Import Sorting.Sorted.
From stdpp Require Import sorting.
From S2P Require Import Prelude.

Open Scope Z_scope.
Open Scope go_scope.


Definition code (c : ascii) : Z := Z.of_N (N_of_ascii c).
Definition char (z : Z) : ascii := ascii_of_N (Z.to_N z).
Definition len (s : string) : Z := Z.of_nat (String.length s).

Definition in_range (lo hi : Z) (c : ascii) : bool := (lo <=? code c) && (code c <=? hi).
Definition is_digit : ascii -> bool := in_range 48 57.
Definition is_lower : ascii -> bool := in_range 97 122.
Definition is_upper : ascii -> bool := in_range 65 90.

Definition hexval (c : ascii) : option Z :=
  if is_digit c then Some (code c - 48)
  else if in_range 97 102 c then Some (code c - 87)
  else if in_range 65 70 c then Some (code c - 55)
  else None.

(** ** [strings] *)
Fixpoint hasPrefix (s p : string) {struct p} : bool :=
  match p, s with
  | EmptyString, _ => true
  | String d p', String c s' => (c =? d) && hasPrefix s' p'
  | String _ _, EmptyString => false
  end.

Fixpoint drop (n : nat) (s : string) : string :=
  match n, s with
  | S n', String _ s' => drop n' s'
  | _, _ => s
  end.

Fixpoint take (n : nat) (s : string) : string :=
  match n, s with
  | S n', String c s' => String c (take n' s')
  | _, _ => EmptyString
  end.

Definition hasSuffix (s p : string) : bool :=
  (len p <=? len s) && (drop (String.length s - String.length p) s =? p).

Definition trimPrefix (s p : string) : string :=
  if hasPrefix s p then drop (String.length p) s else s.

(** [strings.Contains(s, p)]. *)
Fixpoint contains (s p : string) : bool :=
  hasPrefix s p ||
  match s with
  | EmptyString => false
  | String _ s' => contains s' p
  end.

(** [all_chars P s]: every byte of [s] satisfies [P]. *)
Fixpoint all_chars (P : ascii -> bool) (s : string) : bool :=
  match s with
  | EmptyString => true
  | String c s' => P c && all_chars P s'
  end.

Definition mem_char (c : ascii) (s : string) : bool := negb (all_chars (fun d => c <>? d) s).

(** [strings.ContainsAny(s, chars)]. *)
Definition containsAny (s chars : string) : bool :=
  negb (all_chars (fun c => negb (mem_char c chars)) s).

(** [strings.Split(s, sep)] for a one-byte separator. *)
Fixpoint split (sep : ascii) (s : string) : list string :=
  match s with
  | EmptyString => [EmptyString]
  | String c s' =>
      if c =? sep then EmptyString :: split sep s'
      else match split sep s' with
           | h :: t => String c h :: t
           | [] => [String c EmptyString]
           end
  end.

(** [strings.Join(elems, sep)]. *)
Fixpoint join (sep : string) (l : list string) : string :=
  match l with
  | [] => EmptyString
  | [x] => x
  | x :: l' => x +:+ sep +:+ join sep l'
  end.

(** [strings.Count(s, sep)] for a one-byte separator. *)
Fixpoint count_char (sep : ascii) (s : string) : Z :=
  match s with
  | EmptyString => 0
  | String c s' => (if c =? sep then 1 else 0) + count_char sep s'
  end.

(** [strings.Cut(s, sep)] for a one-byte separator. *)
Fixpoint cut (sep : ascii) (s : string) : option (string * string) :=
  match s with
  | EmptyString => None
  | String c s' =>
      if c =? sep then Some (EmptyString, s')
      else match cut sep s' with
           | Some (a, b) => Some (String c a, b)
           | None => None
           end
  end.

(** ** [path/filepath] on Unix *)
Definition slash : ascii := "/".

Definition isAbs (p : string) : bool := hasPrefix p "/".

(** The element stack of [filepath.Clean]: empty and "." elements vanish and
    ".." removes the element before it, if there is one to remove. *)
Fixpoint clean_stack (rooted : bool) (stack elems : list string) : list string :=
  match elems with
  | [] => stack
  | e :: elems' =>
      if (e =? "") || (e =? ".") then clean_stack rooted stack elems'
      else if e =? ".." then
        match stack with
        | top :: rest =>
            if top =? ".." then clean_stack rooted (".." :: stack) elems'
            else clean_stack rooted rest elems'
        | [] => clean_stack rooted (if rooted then [] else [".."]) elems'
        end
      else clean_stack rooted (e :: stack) elems'
  end.

Definition clean (p : string) : string :=
  let rooted := isAbs p in
  let body := join "/" (rev (clean_stack rooted [] (split slash p))) in
  if rooted then "/" +:+ body else if body =? "" then "." else body.

(** Everything up to and including the last slash. *)
Fixpoint through_last_slash (p : string) : string :=
  match p with
  | EmptyString => EmptyString
  | String c p' =>
      if mem_char slash p' then String c (through_last_slash p')
      else if c =? slash then String c EmptyString else EmptyString
  end.

Definition dir (p : string) : string := clean (through_last_slash p).

Definition base (p : string) : string :=
  if p =? "" then "." else
  match List.find (fun e => e <>? "") (rev (split slash p)) with
  | Some e => e
  | None => "/"
  end.

Definition path_join (a b : string) : string :=
  if a <>? "" then clean (a +:+ "/" +:+ b) else if b <>? "" then clean b else "".

(** ** [strconv] *)
Fixpoint dec_digits (fuel : nat) (n : Z) (acc : string) : string :=
  match fuel with
  | O => acc
  | S fuel' =>
      let acc' := String (char (48 + n mod 10)) acc in
      if (n / 10 =? 0)%go then acc' else dec_digits fuel' (n / 10) acc'
  end.

(** [strconv.Itoa] and [FormatInt(_, 10)]. *)
Definition itoa (z : Z) : string :=
  let digits n := dec_digits (S (Z.to_nat (Z.log2 n))) n EmptyString in
  if z <? 0 then String "-" (digits (- z)) else digits z.

Fixpoint parse_digits (acc : Z) (s : string) : option Z :=
  match s with
  | EmptyString => Some acc
  | String c s' => if is_digit c then parse_digits (acc * 10 + (code c - 48)) s' else None
  end.

(** [strconv.ParseUint(s, 10, bits)]: digits only, no sign. *)
Definition parseUint (bits : Z) (s : string) : option Z :=
  if s =? "" then None else
  match parse_digits 0 s with
  | Some n => if n <? 2 ^ bits then Some n else None
  | None => None
  end.

(** [strconv.Atoi] and [ParseInt(_, 10, 64)]: optional sign, digits, int64 range. *)
Definition atoi (s : string) : option Z :=
  let in_int64 z := if (minInt64 <=? z) && (z <=? maxInt64) then Some z else None in
  match s with
  | String c rest =>
      if (c =? "+"%char) || (c =? "-"%char) then
        if rest =? "" then None else
        match parse_digits 0 rest with
        | Some n => in_int64 (if c =? "-"%char then - n else n)
        | None => None
        end
      else match parse_digits 0 s with
           | Some n => in_int64 n
           | None => None
           end
  | EmptyString => None
  end.

(** ** Lemmas *)
Lemma code_range c : 0 <= code c < 256.
Proof.
  unfold code. pose proof (N_ascii_bounded c). lia.
Qed.

Lemma char_code c : char (code c) = c.
Proof. unfold char, code. rewrite N2Z.id. apply ascii_N_embedding. Qed.

Lemma code_char z : 0 <= z < 256 -> code (char z) = z.
Proof. intros H. unfold char, code. rewrite N_ascii_embedding, Z2N.id; lia. Qed.

Lemma code_inj c d : code c = code d -> c = d.
Proof. intros H. by rewrite <- (char_code c), <- (char_code d), H. Qed.

Lemma append_cons c s t : String c s +:+ t = String c (s +:+ t).
Proof. reflexivity. Qed.

Lemma append_nil_l s : "" +:+ s = s.
Proof. reflexivity. Qed.

Lemma append_nil_r s : s +:+ "" = s.
Proof. induction s as [|c s IH]; [done|]. by rewrite append_cons, IH. Qed.

Lemma append_assoc s t u : (s +:+ t) +:+ u = s +:+ t +:+ u.
Proof. induction s as [|c s IH]; [done|]. by rewrite !append_cons, IH. Qed.

Lemma length_append s t : String.length (s +:+ t) = (String.length s + String.length t)%nat.
Proof. induction s as [|c s IH]; [done|]. rewrite append_cons. simpl. by rewrite IH. Qed.

Lemma len_append s t : len (s +:+ t) = len s + len t.
Proof. unfold len. rewrite length_append. lia. Qed.

Lemma len_nonneg s : 0 <= len s.
Proof. unfold len. lia. Qed.

Lemma len_cons c s : len (String c s) = 1 + len s.
Proof. unfold len. simpl String.length. lia. Qed.

Lemma append_inj_l s t u : s +:+ t = s +:+ u -> t = u.
Proof.
  induction s as [|c s IH]; [done|]. rewrite !append_cons. intros [= H]. auto.
Qed.

Lemma append_inj_r s t u : s +:+ u = t +:+ u -> s = t.
Proof.
  revert t. induction s as [|c s IH]; intros [|d t] H; [done| | |].
  - apply (f_equal String.length) in H. rewrite !length_append in H. simpl in H. lia.
  - apply (f_equal String.length) in H. rewrite !length_append in H. simpl in H. lia.
  - rewrite !append_cons in H. injection H as -> H. f_equal. auto.
Qed.

Lemma hasPrefix_spec s p : hasPrefix s p = true <-> exists r, s = p +:+ r.
Proof.
  revert s. induction p as [|d p IH]; intros s; simpl.
  - split; [eexists; reflexivity|]. by destruct s.
  - destruct s as [|c s]; [split; [done|intros [r H]; discriminate H]|].
    simpl. rewrite andb_true_iff, bool_decide_eq_true, IH. split.
    + intros [-> [r ->]]. by exists r.
    + intros [r H]. rewrite append_cons in H. injection H as -> ->. eauto.
Qed.

Lemma hasPrefix_append p r : hasPrefix (p +:+ r) p = true.
Proof. apply hasPrefix_spec. eauto. Qed.

Lemma drop_append p r : drop (String.length p) (p +:+ r) = r.
Proof. by induction p as [|c p IH]; [destruct r|]. Qed.

Lemma trimPrefix_append p r : trimPrefix (p +:+ r) p = r.
Proof. unfold trimPrefix. by rewrite hasPrefix_append, drop_append. Qed.

Lemma drop_length_spec n s : (n <= String.length s)%nat -> exists p, String.length p = n /\ s = p +:+ drop n s.
Proof.
  revert s. induction n as [|n IH]; intros s H.
  - exists "". by destruct s.
  - destruct s as [|c s]; simpl in H; [lia|].
    destruct (IH s) as (p & Hp & Hs); [lia|].
    exists (String c p). simpl. rewrite Hp. split; [done|].
    rewrite append_cons. by f_equal.
Qed.

Lemma hasSuffix_spec s p : hasSuffix s p = true <-> exists r, s = r +:+ p.
Proof.
  unfold hasSuffix. rewrite andb_true_iff, Z.leb_le, bool_decide_eq_true. split.
  - intros [Hl <-]. unfold len in Hl.
    destruct (drop_length_spec (String.length s - String.length p) s) as (r & _ & Hs); [lia|].
    eauto.
  - intros [r ->]. rewrite len_append, length_append. pose proof (len_nonneg r).
    split; [lia|]. rewrite Nat.add_sub. apply drop_append.
Qed.

Lemma all_chars_spec P s :
  all_chars P s = true <-> forall c, c ∈ String.list_ascii_of_string s -> P c = true.
Proof.
  induction s as [|d s IH]; simpl.
  - split; [|done]. intros _ c Hc. by apply elem_of_nil in Hc.
  - rewrite andb_true_iff, IH. setoid_rewrite elem_of_cons. naive_solver.
Qed.

Lemma all_chars_append P s t : all_chars P (s +:+ t) = all_chars P s && all_chars P t.
Proof.
  induction s as [|c s IH]; [done|]. rewrite append_cons. simpl.
  by rewrite IH, andb_assoc.
Qed.

Lemma all_chars_impl (P Q : ascii -> bool) s :
  (forall c, P c = true -> Q c = true) -> all_chars P s = true -> all_chars Q s = true.
Proof.
  intros HPQ. induction s as [|c s IH]; simpl; [done|].
  rewrite !andb_true_iff. naive_solver.
Qed.

Lemma take_all n s : (String.length s <= n)%nat -> take n s = s.
Proof. revert n. induction s as [|c s IH]; intros [|n] H; simpl in *; [done|done|lia|]. rewrite IH; [done|lia]. Qed.

Lemma len_take n s : len (take n s) = Z.min (Z.of_nat n) (len s).
Proof.
  revert n. induction s as [|c s IH]; intros [|n]; [done|unfold len; simpl; lia|unfold len; simpl; lia|].
  simpl. rewrite !len_cons, IH. lia.
Qed.

Lemma take_drop n : forall s, take n s +:+ drop n s = s.
Proof. induction n as [|n IH]; intros [|c s]; cbn; try done. by rewrite append_cons, IH. Qed.

Lemma length_drop n s : (String.length (drop n s) = String.length s - n)%nat.
Proof. revert s. induction n as [|n IH]; intros [|c s]; cbn; auto. Qed.

Lemma split_cons_inv sep s : exists h t, split sep s = h :: t.
Proof.
  destruct s as [|c s]; simpl; [eauto|]. case_bool_decide; [eauto|].
  destruct (split sep s); eauto.
Qed.

Lemma join_split sep s : join (String sep "") (split sep s) = s.
Proof.
  induction s as [|c s IH]; [done|]. simpl.
  destruct (split_cons_inv sep s) as (h & t & Hs). rewrite Hs in IH |- *.
  case_bool_decide as Hc.
  - rewrite Hc. change (join (String sep "") ("" :: h :: t)) with
      (String sep (join (String sep "") (h :: t))). by rewrite IH.
  - destruct t as [|h' t]; simpl in IH |- *; by rewrite <- IH.
Qed.

Lemma split_no_sep sep s :
  Forall (fun e => all_chars (fun c => c <>? sep) e = true) (split sep s).
Proof.
  induction s as [|c s IH]; simpl; [by repeat constructor|].
  case_bool_decide as Hc; [by constructor|].
  destruct (split_cons_inv sep s) as (h & t & Hs). rewrite Hs in IH |- *.
  inversion IH; subst. constructor; [|done]. simpl.
  apply andb_true_iff. split; [|done]. by rewrite bool_decide_false.
Qed.

Lemma split_app_no_sep sep x s :
  all_chars (fun c => c <>? sep) x = true ->
  split sep (x +:+ String sep s) = x :: split sep s.
Proof.
  induction x as [|c x IH]; simpl; intros H.
  - by rewrite bool_decide_true.
  - bprop. rewrite IH by done. by rewrite bool_decide_false.
Qed.

Lemma split_single sep x :
  all_chars (fun c => c <>? sep) x = true -> split sep x = [x].
Proof.
  induction x as [|c x IH]; simpl; intros H; [done|].
  bprop. rewrite IH by done. by rewrite bool_decide_false.
Qed.

Lemma split_join sep l :
  l <> [] -> Forall (fun e => all_chars (fun c => c <>? sep) e = true) l ->
  split sep (join (String sep "") l) = l.
Proof.
  induction l as [|x l IH]; intros Hne HF; [done|].
  inversion HF as [|? ? Hx Hl]; subst. destruct l as [|y l].
  - simpl. by apply split_single.
  - change (join (String sep "") (x :: y :: l)) with
      (x +:+ String sep "" +:+ join (String sep "") (y :: l)).
    rewrite append_cons, append_nil_l, split_app_no_sep by done.
    f_equal. by apply IH.
Qed.

Lemma cut_app_no_sep sep x s :
  all_chars (fun c => c <>? sep) x = true -> cut sep (x +:+ String sep s) = Some (x, s).
Proof.
  induction x as [|c x IH]; simpl; intros H.
  - by rewrite bool_decide_true.
  - bprop. rewrite bool_decide_false by done. by rewrite IH.
Qed.

Lemma cut_none sep x : all_chars (fun c => c <>? sep) x = true -> cut sep x = None.
Proof.
  induction x as [|c x IH]; simpl; intros H; [done|]. bprop. rewrite bool_decide_false by done. by rewrite IH.
Qed.

(** *** Decimal numbers *)
Lemma digit_char n : 0 <= n < 10 -> is_digit (char (48 + n)) = true /\ code (char (48 + n)) = 48 + n.
Proof.
  intros H. rewrite code_char by lia. unfold is_digit, in_range. rewrite code_char by lia.
  split; [|done]. apply andb_true_iff; split; apply Z.leb_le; lia.
Qed.

Lemma parse_dec_digits fuel n acc :
  0 <= n < 2 ^ Z.of_nat fuel -> (0 < fuel)%nat ->
  exists k, 0 < k /\ forall a,
    parse_digits a (dec_digits fuel n acc) = parse_digits (a * 10 ^ k + n) acc.
Proof.
  revert n acc. induction fuel as [|fuel IH]; intros n acc Hn Hf; [lia|]. simpl.
  assert (Hmod : 0 <= n mod 10 < 10) by (apply Z.mod_pos_bound; lia).
  destruct (digit_char _ Hmod) as [Hd Hc].
  case_bool_decide as Hq.
  - exists 1. split; [lia|]. intros a. simpl. rewrite Hd, Hc. f_equal.
    rewrite (Z.div_mod n 10) at 2 by lia. rewrite Hq. lia.
  - assert (Hlt : 0 <= n / 10 < 2 ^ Z.of_nat fuel).
    { split; [apply Z.div_pos; lia|]. apply Z.div_lt_upper_bound; [lia|].
      rewrite Nat2Z.inj_succ, Z.pow_succ_r in Hn by lia. lia. }
    destruct fuel as [|fuel']; [simpl in Hlt; lia|].
    destruct (IH (n / 10) (String (char (48 + n mod 10)) acc) Hlt) as (k & Hk & Hp); [lia|].
    exists (k + 1). split; [lia|]. intros a. rewrite Hp. simpl. rewrite Hd, Hc. f_equal.
    rewrite Z.pow_add_r by lia. pose proof (Z.div_mod n 10). lia.
Qed.

Lemma log2_fuel n : 0 <= n -> 0 <= n < 2 ^ Z.of_nat (S (Z.to_nat (Z.log2 n))).
Proof.
  intros H. split; [done|]. rewrite Nat2Z.inj_succ, Z2Nat.id by apply Z.log2_nonneg.
  destruct (decide (n = 0)) as [->|]; [done|]. apply Z.log2_spec. lia.
Qed.

Lemma parse_digits_append x : forall a y, parse_digits a (x +:+ y) = b ← parse_digits a x; parse_digits b y.
Proof. induction x as [|c x IH]; intros a y; [done|]. rewrite append_cons. cbn. destruct (is_digit c); [apply IH|done]. Qed.

Lemma parse_itoa_nonneg n : 0 <= n -> parse_digits 0 (itoa n) = Some n.
Proof.
  intros H. unfold itoa. rewrite (proj2 (Z.ltb_ge n 0)) by lia.
  destruct (parse_dec_digits _ n "" (log2_fuel n H)) as (k & _ & Hp); [lia|].
  rewrite Hp. done.
Qed.

Lemma dec_digits_digits fuel n acc :
  0 <= n -> all_chars is_digit acc = true -> all_chars is_digit (dec_digits fuel n acc) = true.
Proof.
  revert n acc. induction fuel as [|fuel IH]; intros n acc Hn Hacc; [done|]. simpl.
  assert (Hmod : 0 <= n mod 10 < 10) by (apply Z.mod_pos_bound; lia).
  destruct (digit_char _ Hmod) as [Hd _].
  case_bool_decide; [simpl; by rewrite Hd|].
  apply IH; [apply Z.div_pos; lia|]. simpl. by rewrite Hd.
Qed.

(** The first digit is not a zero unless the number is zero. *)
Lemma dec_digits_head fuel n acc :
  0 < n < 2 ^ Z.of_nat fuel ->
  exists d rest, dec_digits fuel n acc = String (char (48 + d)) rest /\ 0 < d < 10.
Proof.
  revert n acc. induction fuel as [|fuel IH]; intros n acc Hn; [simpl in Hn; lia|]. simpl.
  assert (Hmod : 0 <= n mod 10 < 10) by (apply Z.mod_pos_bound; lia).
  pose proof (Z.div_mod n 10).
  case_bool_decide as Hq.
  - exists (n mod 10), acc. split; [done|]. lia.
  - apply IH. split; [|apply Z.div_lt_upper_bound; [lia|]].
    + pose proof (Z.div_pos n 10). lia.
    + rewrite Nat2Z.inj_succ, Z.pow_succ_r in Hn by lia. lia.
Qed.

Lemma itoa_digits n : 0 <= n -> all_chars is_digit (itoa n) = true.
Proof.
  intros H. unfold itoa. rewrite (proj2 (Z.ltb_ge n 0)) by lia. by apply dec_digits_digits.
Qed.

(** Text up to the first mark is determined. *)
Lemma split_mark P c x : forall x' y y', all_chars P x = true -> all_chars P x' = true -> P c = false ->
  x +:+ String c y = x' +:+ String c y' -> x = x' /\ y = y'.
Proof.
  induction x as [|d x IH]; intros [|d' x'] y y' Hx Hx' Hc H; rewrite ?append_nil_l, ?append_cons in H.
  - by injection H.
  - injection H as -> _. cbn in Hx'. by rewrite Hc in Hx'.
  - injection H as -> _. cbn in Hx. by rewrite Hc in Hx.
  - injection H as -> H. cbn in Hx, Hx'. apply andb_true_iff in Hx as [_ Hx]. apply andb_true_iff in Hx' as [_ Hx'].
    by destruct (IH x' y y' Hx Hx' Hc H) as [-> ->].
Qed.

Definition numeral (c : ascii) : bool := is_digit c || bool_decide (c = "-"%char).

Lemma itoa_cases z : 0 <= z /\ all_chars is_digit (itoa z) = true \/
  z < 0 /\ itoa z = String "-" (itoa (- z)).
Proof.
  destruct (decide (0 <= z)) as [H|H]; [left; split; [done|by apply itoa_digits]|right; split; [lia|]].
  unfold itoa. rewrite (proj2 (Z.ltb_lt z 0)), (proj2 (Z.ltb_ge (- z) 0)) by lia. done.
Qed.

Lemma itoa_numeral z : all_chars numeral (itoa z) = true.
Proof.
  assert (Hd : forall s, all_chars is_digit s = true -> all_chars numeral s = true).
  { intros s. apply all_chars_impl. intros c Hc. unfold numeral. by rewrite Hc. }
  destruct (itoa_cases z) as [[_ H]|[Hz ->]]; [by apply Hd|]. cbn. apply Hd, itoa_digits. lia.
Qed.

Lemma itoa_inj a b : itoa a = itoa b -> a = b.
Proof.
  assert (Hnn : forall x y, 0 <= x -> 0 <= y -> itoa x = itoa y -> x = y).
  { intros x y Hx Hy E. pose proof (parse_itoa_nonneg x Hx) as Ex. rewrite E, parse_itoa_nonneg in Ex by done. congruence. }
  intros E. destruct (itoa_cases a) as [[Ha Da]|[Ha Ea]], (itoa_cases b) as [[Hb Db]|[Hb Eb]].
  - by apply Hnn.
  - by rewrite E, Eb in Da.
  - by rewrite <- E, Ea in Db.
  - rewrite Ea, Eb in E. injection E as E. apply Hnn in E; lia.
Qed.

Lemma itoa_head n : 0 < n -> exists d rest, itoa n = String (char (48 + d)) rest /\ 0 < d < 10.
Proof.
  intros H. unfold itoa. rewrite (proj2 (Z.ltb_ge n 0)) by lia.
  apply dec_digits_head. pose proof (log2_fuel n). lia.
Qed.

Lemma itoa_nonempty n : 0 <= n -> itoa n <> "".
Proof.
  intros H. destruct (decide (n = 0)) as [->|]; [done|].
  destruct (itoa_head n) as (d & rest & -> & _); [lia|done].
Qed.

Lemma digit_not_sign c : is_digit c = true -> c <> "+"%char /\ c <> "-"%char.
Proof. intros H. split; intros ->; discriminate H. Qed.

Lemma atoi_itoa_nonneg n : 0 <= n <= maxInt64 -> atoi (itoa n) = Some n.
Proof.
  intros H. pose proof (parse_itoa_nonneg n) as Hp. pose proof (itoa_digits n) as Hd.
  pose proof (itoa_nonempty n) as Hne.
  destruct (itoa n) as [|c rest] eqn:E; [naive_solver lia|].
  unfold atoi. simpl in Hd. destruct (digit_not_sign c) as [H1 H2].
  { specialize (Hd ltac:(lia)). by bprop. }
  rewrite !bool_decide_false by done. simpl orb. cbv iota. rewrite Hp by lia.
  assert (Hr : (minInt64 <=? n) && (n <=? maxInt64) = true).
  { apply andb_true_iff; split; apply Z.leb_le; unfold minInt64 in *; lia. }
  by rewrite Hr.
Qed.

Lemma dec_digits_len fuel n acc (k : Z) :
  0 <= n < 10 ^ k -> 0 < k -> len (dec_digits fuel n acc) <= k + len acc.
Proof.
  revert n acc k. induction fuel as [|fuel IH]; intros n acc k Hn Hk; simpl; [lia|].
  case_bool_decide; [rewrite len_cons; lia|].
  destruct (decide (k = 1)) as [->|]; [exfalso; rewrite Z.div_small in *; lia|].
  replace k with ((k - 1) + 1) in Hn by lia. rewrite Z.pow_add_r in Hn by lia.
  specialize (IH (n / 10) (String (char (48 + n mod 10)) acc) (k - 1)).
  rewrite len_cons in IH. assert (0 <= n / 10 < 10 ^ (k - 1)); [|lia].
  split; [apply Z.div_pos; lia|apply Z.div_lt_upper_bound; lia].
Qed.

Lemma len_itoa_le (k n : Z) : 0 < k -> 0 <= n < 10 ^ k -> len (itoa n) <= k.
Proof.
  intros Hk Hn. unfold itoa. rewrite (proj2 (Z.ltb_ge n 0)) by lia.
  pose proof (dec_digits_len (S (Z.to_nat (Z.log2 n))) n "" k Hn Hk). change (len "") with 0 in *. lia.
Qed.

Lemma parse_digits_nonneg s : forall acc n, 0 <= acc -> parse_digits acc s = Some n -> 0 <= n.
Proof.
  induction s as [|c s IH]; simpl; intros acc n Hacc H; [by injection H as <-|].
  destruct (is_digit c) eqn:E; [|discriminate H]. unfold is_digit, in_range in E. bprop.
  apply (IH (acc * 10 + (code c - 48)) n); [lia|done].
Qed.

Lemma parseUint_range bits s n : parseUint bits s = Some n -> 0 <= n < 2 ^ bits.
Proof.
  unfold parseUint. intros H. destruct (s =? ""); [discriminate H|].
  destruct (parse_digits 0 s) as [m|] eqn:E; [|discriminate H].
  destruct (m <? 2 ^ bits) eqn:E2; [|discriminate H]. injection H as <-. bprop.
  split; [|done]. by apply (parse_digits_nonneg s 0).
Qed.

(** ** [slices.Sort] and [sort.Strings], which compare bytewise *)
Fixpoint insert_sorted (s : string) (l : list string) : list string :=
  match l with
  | [] => [s]
  | x :: l' => if String.leb s x then s :: l else x :: insert_sorted s l'
  end.
Definition slices_Sort (l : list string) : list string := foldr insert_sorted [] l.

Lemma insert_sorted_perm s l : insert_sorted s l ≡ₚ s :: l.
Proof.
  induction l as [|x l IH]; cbn [insert_sorted]; [done|]. destruct (String.leb s x); [done|].
  rewrite IH. apply Permutation_swap.
Qed.

Lemma sort_perm l : slices_Sort l ≡ₚ l.
Proof. induction l as [|s l IH]; [done|]. cbn. by rewrite insert_sorted_perm, IH. Qed.

Definition sle (s t : string) : Prop := String.leb s t = true.

Lemma sle_cons a s b t : sle (String a s) (String b t) <-> code a < code b \/ a = b /\ sle s t.
Proof.
  unfold sle, String.leb. cbn [String.compare]. unfold Ascii.compare, code.
  destruct (N.compare_spec (N_of_ascii a) (N_of_ascii b)) as [E|E|E].
  - assert (a = b) by (rewrite <- (ascii_N_embedding a), <- (ascii_N_embedding b); by rewrite E). subst b.
    destruct (String.compare s t); split; intros H; try done; try (right; by split); destruct H as [H|[_ H]]; try done; lia.
  - split; [left; lia|done].
  - split; [done|]. intros [H|[-> _]]; lia.
Qed.

Lemma sle_trans s : forall t u, sle s t -> sle t u -> sle s u.
Proof.
  induction s as [|a s IH]; intros [|b t] [|c u] H1 H2; try done.
  apply sle_cons in H1, H2. apply sle_cons. destruct H1 as [H1|[-> H1]], H2 as [H2|[-> H2]]; [left; lia|by left|by left|].
  right. split; [done|]. by eapply IH.
Qed.

Lemma insert_sorted_sorted s l : StronglySorted sle l -> StronglySorted sle (insert_sorted s l).
Proof.
  induction 1 as [|x l Hl IH Hx]; cbn [insert_sorted]; [by repeat constructor|].
  destruct (String.leb s x) eqn:E.
  - constructor; [by constructor|]. constructor; [done|]. eapply Forall_impl; [exact Hx|].
    intros y Hy. by eapply sle_trans.
  - constructor; [done|]. rewrite insert_sorted_perm. constructor; [|done].
    unfold sle. destruct (String.leb_total s x) as [|]; [congruence|done].
Qed.

Lemma sort_sorted l : StronglySorted sle (slices_Sort l).
Proof. induction l as [|s l IH]; [constructor|]. by apply insert_sorted_sorted. Qed.

#[export] Instance sle_antisymm : AntiSymm (=) sle.
Proof. intros s t. apply String.leb_antisym. Qed.

(** The order of the input does not matter. *)
Lemma sort_unique l l' : l ≡ₚ l' -> slices_Sort l = slices_Sort l'.
Proof. intros H. apply (StronglySorted_unique sle); [apply sort_sorted..|]. by rewrite !sort_perm. Qed.

(** The keys of a map, sorted. *)
Definition sortedKeys {V} (m : gmap string V) : list string := slices_Sort (map_to_list m).*1.

Lemma sortedKeys_elem {V} (m : gmap string V) k : k ∈ sortedKeys m <-> is_Some (m !! k).
Proof.
  unfold sortedKeys. rewrite sort_perm, list_elem_of_fmap. split.
  - intros ([k' v] & -> & Hk%elem_of_map_to_list). by exists v.
  - intros [v Hv]. exists (k, v). split; [done|]. by apply elem_of_map_to_list.
Qed.

Lemma sortedKeys_NoDup {V} (m : gmap string V) : NoDup (sortedKeys m).
Proof. unfold sortedKeys. rewrite sort_perm. apply NoDup_fst_map_to_list. Qed.
