(* ===== verification/GoFlag.v ===== *)
(** * Package [flag]

    String and integer options of a [FlagSet], as the commands of
    [src/pkgs/realm-helper], [src/pkgs/realm-identity-metrics/main.go],
    [src/pkgs/realm-agent/main.go] and the responder's [main.go] use them, and
    the round trip of a command line.  The value of an integer option is
    [strconv.ParseInt(s, 0, 64)], with its prefixes and underscores. *)

From S2P Require Import Prelude GoStrings.

Open Scope Z_scope.
Open Scope go_scope.

(** ** [strconv.ParseInt(s, 0, 64)] *)
Definition lower_code (c : ascii) : Z := Z.lor (code c) 32.

(** The value of a digit or a letter. *)
Definition digit_value (c : ascii) : option Z :=
  if is_digit c then Some (code c - 48)
  else if (97 <=? lower_code c) && (lower_code c <=? 122) then Some (lower_code c - 87)
  else None.

(** The digits in a base; [None] on another byte or beyond 64 bits. *)
Fixpoint base_digits (base acc : Z) (s : string) : option Z :=
  match s with
  | EmptyString => Some acc
  | String c s' =>
      if c =? "_"%char then base_digits base acc s'
      else
        d ← digit_value c;
        if (base <=? d) || (2 ^ 64 <=? acc * base + d) then None else base_digits base (acc * base + d) s'
  end.

Inductive seen := AtStart | Digit | Underscore | OtherByte.
#[export] Instance seen_eq_dec : EqDecision seen.
Proof. solve_decision. Defined.

(** Underscores only between digits, a base prefix counting as one. *)
Fixpoint underscores_at (hex : bool) (last : seen) (s : string) : bool :=
  match s with
  | EmptyString => last <>? Underscore
  | String c s' =>
      if is_digit c || (hex && ((97 <=? lower_code c) && (lower_code c <=? 102))) then underscores_at hex Digit s'
      else if c =? "_"%char then (last =? Digit) && underscores_at hex Underscore s'
      else (last <>? Underscore) && underscores_at hex OtherByte s'
  end.

(** The base of a literal, and its digits. *)
Definition int_base (s : string) : Z * string :=
  match s with
  | String "0" (String b (String d rest)) =>
      if lower_code b =? 98 then (2, String d rest)
      else if lower_code b =? 111 then (8, String d rest)
      else if lower_code b =? 120 then (16, String d rest)
      else (8, String b (String d rest))
  | String "0" rest => (8, rest)
  | _ => (10, s)
  end.

Definition underscoreOK (s : string) : bool :=
  match s with
  | String "0" (String b rest) =>
      if (lower_code b =? 98) || (lower_code b =? 111) || (lower_code b =? 120)
      then underscores_at (lower_code b =? 120) Digit rest else underscores_at false AtStart s
  | _ => underscores_at false AtStart s
  end.

Definition parse_magnitude (s : string) : option Z :=
  if s =? "" then None else
  let '(base, digits) := int_base s in
  n ← base_digits base 0 digits;
  if (0 <? count_char "_"%char digits) && negb (underscoreOK s) then None else Some n.

Definition parseInt0 (s : string) : option Z :=
  match s with
  | String "-" rest => n ← parse_magnitude rest; if n <=? 2 ^ 63 then Some (- n) else None
  | String "+" rest => n ← parse_magnitude rest; if n <? 2 ^ 63 then Some n else None
  | _ => n ← parse_magnitude s; if n <? 2 ^ 63 then Some n else None
  end.

(** ** Options *)

(** The name and the value of [name=value]; the sign at the first byte is not a
    separator. *)
Definition flag_cut (name : string) : string * option string :=
  match name with
  | EmptyString => ("", None)
  | String c rest =>
      match cut "="%char rest with
      | Some (a, b) => (String c a, Some b)
      | None => (name, None)
      end
  end.

(** The name of a flag argument, without its one or two minus signs. *)
Definition flag_name (s : string) : string := drop (if hasPrefix s "--" then 2 else 1) s.

(** [accepts] tells whether the value of an option can be set. *)
Definition any_value (name value : string) : bool := true.

Fixpoint flag_parse (accepts : string -> string -> bool) (fuel : nat) (values : gmap string string) (args : list string) : result (gmap string string * list string) :=
  match fuel with
  | O => Panic "fuel"
  | S fuel' =>
      match args with
      | [] => Ok (values, [])
      | s :: rest =>
          if (len s <? 2) || negb (hasPrefix s "-") then Ok (values, args)
          else if s =? "--" then Ok (values, rest)
          else
            let name := flag_name s in
            reject (name =? "") || hasPrefix name "-" || hasPrefix name "=" with ErrNew ("bad flag syntax: " +:+ s);
            let '(name, value) := flag_cut name in
            match values !! name with
            | None =>
                if (name =? "help") || (name =? "h") then Err (ErrNew "flag: help requested")
                else Err (ErrNew ("flag provided but not defined: -" +:+ name))
            | Some _ =>
                match value, rest with
                | Some v, _ =>
                    require accepts name v else ErrNew ("invalid value for flag -" +:+ name);
                    flag_parse accepts fuel' (<[name := v]> values) rest
                | None, v :: rest' =>
                    require accepts name v else ErrNew ("invalid value for flag -" +:+ name);
                    flag_parse accepts fuel' (<[name := v]> values) rest'
                | None, [] => Err (ErrNew ("flag needs an argument: -" +:+ name))
                end
            end
      end
  end.

(** [flags.Parse] with the given options, empty by default; every turn consumes
    an argument. *)
Definition parseFlags (names args : list string) : result (gmap string string * list string) :=
  flag_parse any_value (S (length args)) (list_to_map ((fun n => (n, "")) <$> names)) args.

(** With integer options too, whose defaults are given. *)
Definition parseFlagsInt (names : list string) (ints : list (string * Z)) (args : list string) :
    result (gmap string string * list string) :=
  flag_parse (fun name v => negb (bool_decide (name ∈ ints.*1)) || bool_decide (is_Some (parseInt0 v)))
    (S (length args)) (list_to_map (((fun n => (n, "")) <$> names) ++ ((fun kv => (kv.1, itoa kv.2)) <$> ints))) args.

(** The value of an integer option. *)
Definition int_value (values : gmap string string) (name : string) : Z :=
  default 0 (values !! name ≫= parseInt0).

(** ** Properties *)

Lemma digit_not_underscore c : is_digit c = true -> c <> "_"%char.
Proof. by intros H ->. Qed.

Lemma parse_digits_ge s : forall acc n, 0 <= acc -> parse_digits acc s = Some n -> acc <= n.
Proof.
  induction s as [|c s IH]; simpl; intros acc n Hacc H; [injection H as <-; lia|].
  destruct (is_digit c) eqn:E; [|discriminate H]. unfold is_digit, in_range in E. bprop.
  apply IH in H; lia.
Qed.

Lemma base_digits_dec s : forall acc n, 0 <= acc -> parse_digits acc s = Some n -> n < 2 ^ 64 -> base_digits 10 acc s = Some n.
Proof.
  induction s as [|c s IH]; intros acc n Hacc H Hn; [done|]. cbn [parse_digits] in H.
  destruct (is_digit c) eqn:E; [|discriminate H]. cbn [base_digits]. rewrite bool_decide_false by by apply digit_not_underscore.
  unfold digit_value. rewrite E. unfold is_digit, in_range in E. bprop. cbn.
  pose proof (parse_digits_ge s (acc * 10 + (code c - 48)) n ltac:(lia) H).
  rewrite (proj2 (Z.leb_gt 10 (code c - 48))), (proj2 (Z.leb_gt (2 ^ 64) _)) by lia. apply IH; [lia|done|done].
Qed.

Lemma count_underscores s : all_chars is_digit s = true -> count_char "_"%char s = 0.
Proof.
  induction s as [|c s IH]; [done|]. cbn [all_chars count_char]. intros H. bprop. rewrite IH by done.
  by rewrite bool_decide_false by by apply digit_not_underscore.
Qed.

(** A number an integer option is printed with is read back. *)
Lemma parseInt0_itoa n : 0 <= n < 2 ^ 63 -> parseInt0 (itoa n) = Some n.
Proof.
  intros Hn. destruct (decide (n = 0)) as [-> | Hz]; [done|].
  pose proof (itoa_digits n ltac:(lia)) as Hd. pose proof (parse_itoa_nonneg n ltac:(lia)) as Hp.
  assert (Hm : parse_magnitude (itoa n) = Some n).
  { unfold parse_magnitude. rewrite bool_decide_false by (apply itoa_nonempty; lia).
    assert (Hb : int_base (itoa n) = (10, itoa n)).
    { destruct (itoa_head n ltac:(lia)) as (d & rest & E & Hdr). rewrite E.
      assert (Hne : char (48 + d) <> "0"%char).
      { intros Hc. apply (f_equal code) in Hc. rewrite code_char in Hc by lia. change (code "0") with 48 in Hc. lia. }
      revert Hne. generalize (char (48 + d)). intros [[] [] [] [] [] [] [] []] Hne; first [reflexivity | by destruct Hne]. }
    rewrite Hb, (base_digits_dec _ 0 n) by (done || lia). cbn. by rewrite count_underscores. }
  unfold parseInt0. destruct (itoa n) as [|c rest]; [done|]. cbn [all_chars] in Hd. bprop.
  destruct (digit_not_sign c H) as [H1 H2].
  assert (Hlt : (n <? 2 ^ 63) = true) by by apply Z.ltb_lt; lia. revert H1 H2 Hm. generalize c.
  intros [[] [] [] [] [] [] [] []] H1 H2 Hm; try (by destruct H1); try (by destruct H2); by rewrite Hm; cbn [mbind option_bind]; rewrite Hlt.
Qed.

Section parser.
Context (accepts : string -> string -> bool).

(** Every turn of the parser consumes an argument, so its fuel suffices. *)
Lemma flag_parse_total fuel : forall values args, (length args < fuel)%nat -> is_panic (flag_parse accepts fuel values args) = false.
Proof.
  induction fuel as [|fuel IH]; intros values args Hf; [lia|]. cbn [flag_parse]. destruct args as [|s rest]; [done|]. cbn [length] in Hf.
  destruct (_ || _); [done|]. case_bool_decide; [done|]. destruct (_ || _); [done|]. destruct (flag_cut _) as [name value].
  destruct (values !! name); [|by destruct (_ || _)].
  destruct value as [v|]; [destruct (accepts name v); [apply IH; lia|done]|].
  destruct rest as [|v rest]; [done|]. cbn [length] in Hf. destruct (accepts name v); [apply IH; lia|done].
Qed.

(** A name an option can be given by. *)
Definition option_name (name : string) : Prop :=
  exists c rest, name = String c rest /\ c <> "-"%char /\ c <> "="%char /\ cut "="%char rest = None.

Lemma hasPrefix_char c s d : hasPrefix (String c s) (String d "") = (c =? d).
Proof. cbn [hasPrefix]. by rewrite andb_true_r. Qed.

Lemma flag_parse_option fuel values name v rest : option_name name -> is_Some (values !! name) -> accepts name v = true ->
  flag_parse accepts (S fuel) values (("--" +:+ name) :: v :: rest) = flag_parse accepts fuel (<[name := v]> values) rest.
Proof.
  intros (c & t & -> & H1 & H2 & H3) [x Hx] Ha. change ("--" +:+ String c t) with (String "-" (String "-" (String c t))).
  cbn [flag_parse]. rewrite !len_cons. pose proof (len_nonneg t). rewrite (proj2 (Z.ltb_ge _ 2)) by lia.
  rewrite hasPrefix_char, bool_decide_eq_true_2 by done. cbn [negb orb].
  rewrite bool_decide_eq_false_2 by done. change (flag_name (String "-" (String "-" (String c t)))) with (String c t).
  rewrite bool_decide_eq_false_2 by done. rewrite !hasPrefix_char, !bool_decide_eq_false_2 by done. cbn [orb flag_cut].
  by rewrite H3, Hx, Ha.
Qed.

Definition option_args (l : list (string * string)) : list string := l ≫= fun kv => ["--" +:+ kv.1; kv.2].
Definition assign (l : list (string * string)) (values : gmap string string) : gmap string string :=
  foldl (fun m kv => <[kv.1 := kv.2]> m) values l.

Lemma flag_parse_options l : forall fuel values rest, (length (option_args l ++ rest) < fuel)%nat ->
  Forall (fun kv => option_name kv.1 /\ is_Some (values !! kv.1) /\ accepts kv.1 kv.2 = true) l ->
  exists fuel', (length rest < fuel')%nat /\
    flag_parse accepts fuel values (option_args l ++ rest) = flag_parse accepts fuel' (assign l values) rest.
Proof.
  induction l as [|[k v] l IH]; intros fuel values rest Hf Ho; [by exists fuel|]. apply Forall_cons in Ho as [(Hn & Hs & Ha) Ho].
  destruct fuel as [|fuel]; [lia|]. change (option_args ((k, v) :: l)) with (("--" +:+ k) :: v :: option_args l) in *. cbn [app length] in *.
  rewrite flag_parse_option by done. apply IH; [lia|]. eapply Forall_impl; [exact Ho|]. intros [k' v'] (? & ? & ?). split_and!; [done| |done].
  cbn [fst] in *. destruct (decide (k = k')) as [->|Hne]; [rewrite lookup_insert_eq; eauto|by rewrite lookup_insert_ne].
Qed.

(** An argument at which the parser stops. *)
Definition positional (args : list string) : Prop :=
  match args with [] => True | s :: _ => hasPrefix s "-" = false end.

Lemma flag_parse_roundtrip values l rest :
  Forall (fun kv => option_name kv.1 /\ is_Some (values !! kv.1) /\ accepts kv.1 kv.2 = true) l -> positional rest ->
  flag_parse accepts (S (length (option_args l ++ rest))) values (option_args l ++ rest) = Ok (assign l values, rest).
Proof.
  intros Hl Hr.
  destruct (flag_parse_options l (S (length (option_args l ++ rest))) values rest) as (fuel & Hf & ->); [lia|done|].
  destruct fuel as [|fuel]; [lia|]. cbn [flag_parse]. destruct rest as [|s rest]; [done|]. cbn [positional] in Hr. rewrite Hr. cbn [negb].
  by rewrite orb_true_r.
Qed.
End parser.

(** The options of a command line, given as [--name value], are parsed as they
    were given, the last value of a repeated option counting; the rest is left
    as positional arguments. *)
Theorem parseFlags_roundtrip names l rest : Forall (fun kv => option_name kv.1 /\ kv.1 ∈ names) l -> positional rest ->
  parseFlags names (option_args l ++ rest) = Ok (assign l (list_to_map ((fun n => (n, "")) <$> names)), rest).
Proof.
  intros Hl Hr. apply flag_parse_roundtrip; [|done].
  eapply Forall_impl; [exact Hl|]. intros [k v] [? Hk]. split_and!; [done| |done]. cbn [fst] in *.
  apply elem_of_dom. rewrite dom_list_to_map_L, elem_of_list_to_set, <- list_fmap_compose. apply list_elem_of_fmap. by exists k.
Qed.

Module FlagExamples.
Example ints : parseInt0 <$> ["0"; "0x1F"; "0b1_01"; "-010"; "1_000"; "1__0"; "_1"; "0x"; "08"; "9223372036854775808"; "-9223372036854775808"; ""] =
  [Some 0; Some 31; Some 5; Some (-8); Some 1000; None; None; None; None; None; Some (- 2 ^ 63); None].
Proof. vm_compute. reflexivity. Qed.

Lemma parseFlags_roundtrip_witness :
  parseFlags ["spire-agent"; "socket"] ["--spire-agent"; "/bin/spire-agent"; "--socket"; "-"; "extra"] =
    Ok (assign [("spire-agent", "/bin/spire-agent"); ("socket", "-")] (list_to_map [("spire-agent", ""); ("socket", "")]), ["extra"]).
Proof.
  apply (parseFlags_roundtrip ["spire-agent"; "socket"] [("spire-agent", "/bin/spire-agent"); ("socket", "-")] ["extra"]); [|reflexivity].
  repeat constructor; eexists _, _; (split; [reflexivity|]); split_and!; done.
Defined.
End FlagExamples.
