(* ===== verification/GoFloat.v ===== *)
(** * [float64] and its text

    Doubles with round to nearest even, and [strconv.FormatFloat(_, 'g', -1, 64)],
    which is the verb [%g]: the decimal with the largest unit among those that
    round to it, the nearest of these, printed with an exponent when it is small
    or has more than six integer digits.  [shortest_correct] shows that the
    search finds a decimal, that it rounds to the double and that no decimal of
    a larger unit does; [formatFloat_reads] that the text denotes it. *)

From Stdlib Require Import SpecFloat.
From S2P Require Import Prelude GoStrings.

Open Scope Z_scope.
Open Scope go_scope.

(** ** [float64]: IEEE 754 binary64 with round to nearest even *)
Definition float64 : Type := spec_float.
Definition f64_of_Z (z : Z) : float64 := binary_normalize 53 1024 z 0 false.
Definition f64_add : float64 -> float64 -> float64 := SFadd 53 1024.
Definition f64_div : float64 -> float64 -> float64 := SFdiv 53 1024.
Definition f64_leb : float64 -> float64 -> bool := SFleb.

(** ** [x * 2^e] against the decimals of unit [10^k]

    [x * 2^e / 10^k] is [num x e k / den e k]. *)
Definition num (x e k : Z) : Z := x * 2 ^ Z.max e 0 * 10 ^ Z.max (- k) 0.
Definition den (e k : Z) : Z := 2 ^ Z.max (- e) 0 * 10 ^ Z.max k 0.

(** The numbers that round to [m * 2^e], in quarters of its unit: half a unit
    up, and down half a unit, or a quarter where the exponent below has half the
    unit; with the ends when [m] is even. *)
Definition min_exp : Z := -1074.
Definition upper4 (m : Z) : Z := 4 * m + 2.
Definition lower4 (m e : Z) : Z := if (m =? 2 ^ 52)%Z && (min_exp <? e) then 4 * m - 1 else 4 * m - 2.

(** [d * 10^k] rounds to [m * 2^e], to nearest with ties to even. *)
Definition above_lower (m e d k : Z) : bool :=
  if Z.even m then num (lower4 m e) (e - 2) k <=? d * den (e - 2) k else num (lower4 m e) (e - 2) k <? d * den (e - 2) k.
Definition below_upper (m e d k : Z) : bool :=
  if Z.even m then d * den (e - 2) k <=? num (upper4 m) (e - 2) k else d * den (e - 2) k <? num (upper4 m) (e - 2) k.
Definition rounds_to (m e d k : Z) : bool := above_lower m e d k && below_upper m e d k.

(** ** The shortest decimal ([roundShortest]) *)

(** The choice at one unit: the decimals next to the value, the nearer one if
    both round to it, with ties to even. *)
Definition candidate (m e k : Z) : option Z :=
  let n := num (4 * m) (e - 2) k in
  let b := den (e - 2) k in
  let down := n / b in
  let up := down + 1 in
  match above_lower m e down k, below_upper m e up k with
  | true, true =>
      let r := 2 * (n mod b) in
      Some (if (b <? r) || ((r =? b)%Z && Z.odd down) then up else down)
  | true, false => Some down
  | false, true => Some up
  | false, false => None
  end.

Fixpoint search (fuel : nat) (m e k : Z) : option (Z * Z) :=
  match fuel with
  | O => None
  | S fuel' => match candidate m e k with Some d => Some (d, k) | None => search fuel' m e (k - 1) end
  end.

(** From a power of ten above the value down to a unit of which it is a
    multiple. *)
Definition top_unit (m e : Z) : Z := Z.max 0 (Z.log2 m + e + 3).
Definition search_fuel (m e : Z) : nat := Z.to_nat (top_unit m e - Z.min (e - 2) 0 + 1).
Definition shortest (m e : Z) : option (Z * Z) := search (search_fuel m e) m e (top_unit m e).

(** ** The text of a decimal ([%e], [%f]), of digits [ds] and point after [dp] *)
Definition zeros (n : Z) : string := String.string_of_list_ascii (replicate (Z.to_nat n) "0"%char).

(** The exponent, with at least two digits. *)
Definition fmt_exp (x : Z) : string :=
  (if x <? 0 then "e-" else "e+") +:+ (if Z.abs x <? 10 then "0" else "") +:+ itoa (Z.abs x).

Definition fmtE (ds : string) (dp : Z) : string :=
  take 1 ds +:+ (if 1 <? len ds then "." +:+ drop 1 ds else "") +:+ fmt_exp (dp - 1).

Definition fmtF (ds : string) (dp : Z) : string :=
  if dp <=? 0 then "0." +:+ zeros (- dp) +:+ ds
  else if dp <? len ds then take (Z.to_nat dp) ds +:+ "." +:+ drop (Z.to_nat dp) ds
  else ds +:+ zeros (dp - len ds).

Definition fmtG (ds : string) (dp : Z) : string :=
  if (dp - 1 <? -4) || (6 <=? dp - 1) then fmtE ds dp else fmtF ds dp.

Definition fmt_decimal (d k : Z) : string := fmtG (itoa d) (len (itoa d) + k).

Definition sign (s : bool) : string := if s then "-" else "".

Definition formatFloat (f : spec_float) : string :=
  match f with
  | S754_zero s => sign s +:+ "0"
  | S754_infinity s => if s then "-Inf" else "+Inf"
  | S754_nan => "NaN"
  | S754_finite s m e => match shortest (Zpos m) e with Some (d, k) => sign s +:+ fmt_decimal d k | None => "" end
  end.

(** ** Reading a number *)
Definition read_mantissa (s : string) : option (Z * Z) :=
  match cut "." s with
  | Some (i, f) => d ← parse_digits 0 (i +:+ f); Some (d, - len f)
  | None => d ← parse_digits 0 s; Some (d, 0)
  end.

(** A decimal [d * 10^k]. *)
Definition read_unsigned (s : string) : option (Z * Z) :=
  match cut "e" s with
  | Some (i, x) => '(d, k) ← read_mantissa i; x ← atoi x; Some (d, k + x)
  | None => read_mantissa s
  end.

Definition read_decimal (s : string) : option (bool * Z * Z) :=
  match s with
  | String "-" s' => '(d, k) ← read_unsigned s'; Some (true, d, k)
  | _ => '(d, k) ← read_unsigned s; Some (false, d, k)
  end.

(** The text is that of [f], or a decimal that rounds to it. *)
Definition reads_as (s : string) (f : spec_float) : Prop :=
  match f with
  | S754_zero b => read_decimal s = Some (b, 0, 0)
  | S754_infinity b => s = if b then "-Inf" else "+Inf"
  | S754_nan => s = "NaN"
  | S754_finite b m e => exists d k, read_decimal s = Some (b, d, k) /\ rounds_to (Zpos m) e d k = true
  end.

(** ** The search *)
Lemma den_pos e k : 0 < den e k.
Proof. unfold den. apply Z.mul_pos_pos; apply Z.pow_pos_nonneg; lia. Qed.

Lemma num_lt x y e k : x < y -> num x e k < num y e k.
Proof. intros H. unfold num. repeat apply Z.mul_lt_mono_pos_r; [apply Z.pow_pos_nonneg; lia..|done]. Qed.

Lemma lower_lt m e k : num (lower4 m e) (e - 2) k < num (4 * m) (e - 2) k.
Proof. apply num_lt. unfold lower4. destruct (_ && _); lia. Qed.

Lemma upper_gt m e k : num (4 * m) (e - 2) k < num (upper4 m) (e - 2) k.
Proof. apply num_lt. unfold upper4. lia. Qed.

Lemma above_lower_mono m e k d d' : d <= d' -> above_lower m e d k = true -> above_lower m e d' k = true.
Proof.
  intros Hd. pose proof (Z.mul_le_mono_nonneg_r d d' (den (e - 2) k)). pose proof (den_pos (e - 2) k).
  unfold above_lower. destruct (Z.even m); intros ?; bprop; bspec; lia.
Qed.

Lemma below_upper_anti m e k d d' : d' <= d -> below_upper m e d k = true -> below_upper m e d' k = true.
Proof.
  intros Hd. pose proof (Z.mul_le_mono_nonneg_r d' d (den (e - 2) k)). pose proof (den_pos (e - 2) k).
  unfold below_upper. destruct (Z.even m); intros ?; bprop; bspec; lia.
Qed.

(** The decimals next to the value are on their side of the bounds. *)
Lemma down_below m e k : below_upper m e (num (4 * m) (e - 2) k / den (e - 2) k) k = true.
Proof.
  pose proof (upper_gt m e k). pose proof (Z.mul_div_le (num (4 * m) (e - 2) k) _ (den_pos (e - 2) k)).
  unfold below_upper. destruct (Z.even m); bspec; lia.
Qed.

Lemma up_above m e k : above_lower m e (num (4 * m) (e - 2) k / den (e - 2) k + 1) k = true.
Proof.
  pose proof (lower_lt m e k). pose proof (Z.mul_succ_div_gt (num (4 * m) (e - 2) k) _ (den_pos (e - 2) k)).
  unfold above_lower. destruct (Z.even m); bspec; lia.
Qed.

Lemma candidate_sound m e k d : candidate m e k = Some d -> rounds_to m e d k = true.
Proof.
  unfold candidate, rounds_to. pose proof (down_below m e k). pose proof (up_above m e k).
  destruct (above_lower _ _ (_ / _) _) eqn:E1, (below_upper _ _ (_ + 1) _) eqn:E2; intros [= <-]; try (apply andb_true_iff; done).
  destruct (_ || _); apply andb_true_iff; done.
Qed.

Lemma candidate_complete m e k d : rounds_to m e d k = true -> candidate m e k <> None.
Proof.
  unfold rounds_to. intros H. bprop. unfold candidate.
  destruct (decide (d <= num (4 * m) (e - 2) k / den (e - 2) k)).
  - rewrite (above_lower_mono _ _ _ _ _ l) by done. case_match; discriminate.
  - rewrite (below_upper_anti m e k d) by (done || lia). case_match; discriminate.
Qed.

Lemma search_spec fuel m e : forall k,
  match search fuel m e k with
  | Some (d, k') => rounds_to m e d k' = true /\ forall d1 k1, k' < k1 <= k -> rounds_to m e d1 k1 = false
  | None => forall d1 k1, k - Z.of_nat fuel < k1 <= k -> rounds_to m e d1 k1 = false
  end.
Proof.
  induction fuel as [|fuel IH]; intros k; cbn [search]; [intros; lia|].
  destruct (candidate m e k) as [d|] eqn:E; [split; [by apply candidate_sound|intros; lia]|].
  assert (Hk : forall d1, rounds_to m e d1 k = false).
  { intros d1. destruct (rounds_to m e d1 k) eqn:E1; [|done]. by apply candidate_complete in E1. }
  specialize (IH (k - 1)). destruct (search fuel m e (k - 1)) as [[d k']|].
  - destruct IH as [Hd Hlow]. split; [done|]. intros d1 k1 Hr. destruct (decide (k1 = k)) as [->|]; [done|]. apply Hlow. lia.
  - intros d1 k1 Hr. destruct (decide (k1 = k)) as [->|]; [done|]. apply IH. lia.
Qed.

(** A unit above the value has no multiple that rounds to it. *)
Lemma above_top m e d k : 0 < m -> top_unit m e <= k -> rounds_to m e d k = false.
Proof.
  intros Hm Hk. destruct (rounds_to m e d k) eqn:E; [|done]. exfalso. unfold rounds_to in E. bprop.
  assert (Hlow : 0 < num (lower4 m e) (e - 2) k).
  { unfold num. repeat apply Z.mul_pos_pos; [|apply Z.pow_pos_nonneg; lia..]. unfold lower4. destruct (_ && _); lia. }
  pose proof (den_pos (e - 2) k) as Hden.
  assert (Hd : 1 <= d).
  { unfold above_lower in *. destruct (Z.even m); bprop; enough (0 < d) by lia; apply (Z.mul_pos_cancel_r d (den (e - 2) k)); lia. }
  assert (Hup : num (upper4 m) (e - 2) k < den (e - 2) k); [|unfold below_upper in *; pose proof (Z.mul_le_mono_nonneg_r 1 d (den (e - 2) k)); destruct (Z.even m); bprop; lia].
  pose proof (Z.log2_nonneg m). unfold top_unit in Hk. pose proof (Z.log2_spec m Hm) as [_ HL].
  assert (Hu : upper4 m < 2 ^ (Z.log2 m + 3)).
  { unfold upper4. replace (Z.log2 m + 3) with (Z.succ (Z.log2 m) + 2) by lia. rewrite Z.pow_add_r by lia. lia. }
  assert (H10 : 2 ^ k <= 10 ^ k) by (apply Z.pow_le_mono_l; lia).
  unfold num, den. rewrite (Z.max_r (- k) 0), (Z.max_l k 0) by lia. rewrite Z.mul_1_r. destruct (decide (2 <= e)).
  - rewrite (Z.max_l (e - 2)), (Z.max_r (- (e - 2))) by lia. rewrite Z.mul_1_l.
    apply Z.lt_le_trans with (2 ^ (Z.log2 m + 3) * 2 ^ (e - 2)); [apply Z.mul_lt_mono_pos_r; [apply Z.pow_pos_nonneg; lia|done]|].
    rewrite <- Z.pow_add_r by lia. etransitivity; [apply Z.pow_le_mono_r; [lia|]|exact H10]. lia.
  - rewrite (Z.max_r (e - 2)), (Z.max_l (- (e - 2))) by lia. rewrite Z.mul_1_r.
    apply Z.lt_le_trans with (2 ^ (- (e - 2)) * 2 ^ k); [|apply Z.mul_le_mono_nonneg_l; [apply Z.pow_nonneg; lia|done]].
    rewrite <- Z.pow_add_r by lia. eapply Z.lt_le_trans; [exact Hu|]. apply Z.pow_le_mono_r; lia.
Qed.

(** The value is a multiple of a small enough unit. *)
Lemma exact_unit m e : exists d, rounds_to m e d (Z.min (e - 2) 0) = true.
Proof.
  set (k := Z.min (e - 2) 0).
  assert (Hex : exists d, d * den (e - 2) k = num (4 * m) (e - 2) k).
  { unfold num, den, k. destruct (decide (2 <= e)).
    - rewrite Z.min_r, (Z.max_r (- (e - 2))) by lia. exists (4 * m * 2 ^ Z.max (e - 2) 0). done.
    - rewrite Z.min_l, (Z.max_r (e - 2) 0) by lia. rewrite Z.mul_1_r. exists (4 * m * 5 ^ Z.max (- (e - 2)) 0).
      rewrite Z.mul_1_r, <- Z.mul_assoc, <- Z.pow_mul_l. done. }
  destruct Hex as [d Hd]. exists d. pose proof (lower_lt m e k). pose proof (upper_gt m e k).
  unfold rounds_to, above_lower, below_upper. rewrite Hd. apply andb_true_iff. destruct (Z.even m); bspec; lia.
Qed.

(** The search finds a decimal that rounds to the double, and no decimal of a
    larger unit does. *)
Lemma shortest_correct m e : 0 < m ->
  exists d k, shortest m e = Some (d, k) /\ rounds_to m e d k = true /\ forall d1 k1, k < k1 -> rounds_to m e d1 k1 = false.
Proof.
  intros Hm. unfold shortest. pose proof (search_spec (search_fuel m e) m e (top_unit m e)) as Hs.
  destruct (search _ _ _ _) as [[d k]|].
  - destruct Hs as [Hr Hl]. exists d, k. split_and!; [done..|]. intros d1 k1 Hk.
    destruct (decide (k1 <= top_unit m e)); [apply Hl; lia|apply above_top; lia].
  - exfalso. destruct (exact_unit m e) as [d Hd]. unfold search_fuel in Hs. rewrite Hs in Hd; [done|]. unfold top_unit. lia.
Qed.

(** ** The text *)
Lemma len_zeros n : 0 <= n -> len (zeros n) = n.
Proof. intros Hn. unfold zeros, len. rewrite <- (Z2Nat.id n) at 2 by done. f_equal. induction (Z.to_nat n) as [|m IH]; cbn; congruence. Qed.

Lemma digits_without c s : is_digit c = false -> all_chars is_digit s = true -> all_chars (fun d => d <>? c) s = true.
Proof.
  intros Hc. apply all_chars_impl. intros d Hd. apply negb_true_iff, bool_decide_eq_false. intros ->. congruence.
Qed.

Lemma parse_zeros n : 0 <= n -> forall a, parse_digits a (zeros n) = Some (a * 10 ^ n).
Proof.
  unfold zeros. revert n. apply (natlike_ind (fun n => forall a, parse_digits a (String.string_of_list_ascii (replicate (Z.to_nat n) "0"%char)) = Some (a * 10 ^ n))).
  - intros a. change (Some a = Some (a * 1)). by rewrite Z.mul_1_r.
  - intros n Hn IH a. rewrite Z2Nat.inj_succ by done. rewrite Z.pow_succ_r by done. replace (a * (10 * 10 ^ n)) with ((a * 10 + (code "0" - 48)) * 10 ^ n) by (change (code "0") with 48; lia).
    rewrite <- IH. reflexivity.
Qed.

Lemma zeros_digits n : all_chars is_digit (zeros n) = true.
Proof. unfold zeros. induction (Z.to_nat n) as [|m IH]; [done|]. exact IH. Qed.

Lemma digits_take n s : all_chars is_digit s = true -> all_chars is_digit (take n s) = true /\ all_chars is_digit (drop n s) = true.
Proof. intros H. rewrite <- (take_drop n s), all_chars_append in H. by apply andb_true_iff in H. Qed.

Lemma len_drop n s : 0 <= n <= len s -> len (drop (Z.to_nat n) s) = len s - n.
Proof. unfold len. rewrite length_drop. lia. Qed.

(** A mantissa with a point. *)
Lemma read_point i f d : all_chars is_digit i = true -> all_chars is_digit f = true -> parse_digits 0 (i +:+ f) = Some d ->
  read_mantissa (i +:+ String "." f) = Some (d, - len f).
Proof. intros Hi Hf Hd. unfold read_mantissa. rewrite cut_app_no_sep by (by apply digits_without). by rewrite Hd. Qed.

Lemma read_integer s d : all_chars is_digit s = true -> parse_digits 0 s = Some d -> read_mantissa s = Some (d, 0).
Proof. intros Hs Hd. unfold read_mantissa. rewrite cut_none by (by apply digits_without). by rewrite Hd. Qed.

Lemma read_no_exp s : all_chars (fun c => c <>? "e"%char) s = true -> read_unsigned s = read_mantissa s.
Proof. intros H. unfold read_unsigned. by rewrite cut_none. Qed.

Lemma atoi_signed (neg : bool) ds n : ds <> "" -> parse_digits 0 ds = Some n -> minInt64 <= (if neg then - n else n) <= maxInt64 ->
  atoi (String (if neg then "-" else "+") ds) = Some (if neg then - n else n).
Proof.
  intros Hne Hds Hv. unfold atoi. rewrite (bool_decide_false (ds = "")) by done. rewrite Hds.
  assert (Hb : forall v, minInt64 <= v <= maxInt64 -> (minInt64 <=? v) && (v <=? maxInt64) = true) by (intros v ?; apply andb_true_iff; bspec; lia).
  destruct neg.
  - change (bool_decide ("-"%char = "+"%char)) with false. change (bool_decide ("-"%char = "-"%char)) with true. by rewrite Hb.
  - change (bool_decide ("+"%char = "+"%char)) with true. change (bool_decide ("+"%char = "-"%char)) with false. by rewrite Hb.
Qed.

(** The exponent reads back. *)
Lemma fmt_exp_reads x : Z.abs x <= 10000 -> exists t, fmt_exp x = String "e" t /\ atoi t = Some x.
Proof.
  intros Hx. unfold fmt_exp. set (ds := (if Z.abs x <? 10 then "0" else "") +:+ itoa (Z.abs x)).
  assert (Hds : parse_digits 0 ds = Some (Z.abs x)).
  { unfold ds. rewrite parse_digits_append. destruct (Z.abs x <? 10); cbn [parse_digits mbind option_bind]; apply parse_itoa_nonneg; lia. }
  assert (Hne : ds <> "").
  { unfold ds. destruct (Z.abs x <? 10); [done|]. apply itoa_nonempty. lia. }
  assert (Hv : (if x <? 0 then - Z.abs x else Z.abs x) = x) by (destruct (x <? 0) eqn:E; bprop; lia).
  exists (String (if x <? 0 then "-" else "+") ds). split; [by destruct (x <? 0)|].
  rewrite (atoi_signed _ _ _ Hne Hds); rewrite Hv; [done|unfold minInt64, maxInt64; lia].
Qed.

(** A decimal of digits [ds] is read back, with the zeros it was printed with. *)
Lemma fmtG_reads ds dp d : all_chars is_digit ds = true -> ds <> "" -> parse_digits 0 ds = Some d -> Z.abs (dp - 1) <= 10000 ->
  exists z, 0 <= z /\ (z = 0 \/ z = dp - len ds) /\ read_unsigned (fmtG ds dp) = Some (d * 10 ^ z, dp - len ds - z).
Proof.
  intros Hds Hne Hd Hdp. assert (Hlen : 1 <= len ds) by (destruct ds; [done|rewrite len_cons; pose proof (len_nonneg ds); lia]).
  assert (He : forall s, all_chars is_digit s = true -> all_chars (fun c => c <>? "e"%char) s = true) by (intros s; by apply digits_without).
  unfold fmtG. destruct (_ || _).
  - exists 0. split_and!; [lia|by left|]. rewrite Z.mul_1_r, Z.sub_0_r. unfold fmtE.
    destruct (fmt_exp_reads (dp - 1) Hdp) as (t & -> & Ht). destruct (digits_take 1 ds Hds) as [H1 H2].
    assert (Hm : read_mantissa (take 1 ds +:+ (if 1 <? len ds then "." +:+ drop 1 ds else "")) = Some (d, 1 - len ds)).
    { destruct (1 <? len ds) eqn:E; bprop.
      - rewrite append_cons, append_nil_l. rewrite (read_point _ _ d) by (done || by rewrite take_drop). pose proof (len_drop 1 ds) as Hl. change (Z.to_nat 1) with 1%nat in Hl. rewrite Hl by lia. f_equal. f_equal. lia.
      - rewrite append_nil_r, take_all by (unfold len in *; lia). rewrite (read_integer _ d) by done. f_equal. f_equal. lia. }
    rewrite <- append_assoc. unfold read_unsigned. rewrite cut_app_no_sep.
    { rewrite Hm. cbn [mbind option_bind]. rewrite Ht. cbn. f_equal. f_equal. lia. }
    rewrite all_chars_append, He by done. destruct (1 <? len ds); [|done]. rewrite all_chars_append, (He (drop 1 ds)) by done. done.
  - unfold fmtF. destruct (dp <=? 0) eqn:E1; bprop; [|destruct (dp <? len ds) eqn:E2; bprop].
    + exists 0. split_and!; [lia|by left|]. rewrite Z.mul_1_r, Z.sub_0_r. change ("0." +:+ zeros (- dp) +:+ ds) with ("0" +:+ String "." (zeros (- dp) +:+ ds)).
      assert (Hf : all_chars is_digit (zeros (- dp) +:+ ds) = true) by (rewrite all_chars_append, zeros_digits; done).
      rewrite read_no_exp by (rewrite all_chars_append; cbn [all_chars]; rewrite (He (zeros (- dp) +:+ ds)) by done; done).
      rewrite (read_point _ _ d); [|done..|].
      * rewrite len_append, len_zeros by lia. f_equal. f_equal. lia.
      * rewrite append_cons, append_nil_l. cbn [parse_digits]. rewrite parse_digits_append. change (0 * 10 + (code "0" - 48)) with 0. cbn [is_digit]. rewrite (parse_zeros (- dp)) by lia. exact Hd.
    + exists 0. split_and!; [lia|by left|]. rewrite Z.mul_1_r, Z.sub_0_r. destruct (digits_take (Z.to_nat dp) ds Hds) as [H1 H2].
      rewrite append_cons, append_nil_l. rewrite read_no_exp by (rewrite all_chars_append; cbn [all_chars]; rewrite !He by done; done).
      rewrite (read_point _ _ d) by (done || by rewrite take_drop). rewrite len_drop by lia. f_equal. f_equal. lia.
    + exists (dp - len ds). split_and!; [lia|by right|]. pose proof (zeros_digits (dp - len ds)) as Hz.
      assert (Hall : all_chars is_digit (ds +:+ zeros (dp - len ds)) = true) by (rewrite all_chars_append, Hds; done).
      rewrite read_no_exp by auto. rewrite (read_integer _ (d * 10 ^ (dp - len ds))); [f_equal; f_equal; lia|done|].
      rewrite parse_digits_append, Hd. cbn [mbind option_bind]. apply parse_zeros. lia.
Qed.

Lemma rounds_to_shift m e d k : 0 <= k -> rounds_to m e (d * 10 ^ k) 0 = rounds_to m e d k.
Proof.
  intros Hk. assert (Hn : forall x, num x (e - 2) k = num x (e - 2) 0) by (intros x; unfold num; by rewrite (Z.max_r (- k) 0) by lia).
  assert (Hd : den (e - 2) k = 10 ^ k * den (e - 2) 0) by (unfold den; rewrite (Z.max_l k), (Z.max_l 0) by lia; lia).
  unfold rounds_to, above_lower, below_upper. by rewrite !Hn, !Hd, !Z.mul_assoc.
Qed.

(** The digits of a double, and its exponent, are bounded. *)
Lemma rounds_to_pos m e d k : 0 < m -> rounds_to m e d k = true -> 0 < d.
Proof.
  intros Hm H. unfold rounds_to in H. bprop.
  assert (0 < num (lower4 m e) (e - 2) k).
  { unfold num. repeat apply Z.mul_pos_pos; [|apply Z.pow_pos_nonneg; lia..]. unfold lower4. destruct (_ && _); lia. }
  pose proof (den_pos (e - 2) k). unfold above_lower in *. destruct (Z.even m); bprop; apply (Z.mul_pos_cancel_r d (den (e - 2) k)); lia.
Qed.

Lemma pow_le_10 a b c : 0 <= a <= c -> 0 < b <= 10 -> b ^ a <= 10 ^ c.
Proof. intros Ha Hb. transitivity (10 ^ a); [apply Z.pow_le_mono_l; lia|apply Z.pow_le_mono_r; lia]. Qed.

Lemma rounds_to_bound m e d k : 0 < m < 2 ^ 53 -> e <= 971 -> -1076 <= k -> rounds_to m e d k = true -> d < 10 ^ 2200.
Proof.
  intros Hm He Hk H. pose proof (rounds_to_pos _ _ _ _ (proj1 Hm) H) as Hd. unfold rounds_to in H. bprop.
  assert (Hle : d <= num (upper4 m) (e - 2) k).
  { pose proof (den_pos (e - 2) k). pose proof (Z.mul_le_mono_nonneg_l 1 (den (e - 2) k) d). unfold below_upper in *. destruct (Z.even m); bprop; lia. }
  eapply Z.le_lt_trans; [exact Hle|]. unfold num. apply Z.le_lt_trans with (10 ^ 56 * 10 ^ 971 * 10 ^ 1076); [|vm_compute; done].
  pose proof (pow_le_10 (Z.max (e - 2) 0) 2 971). pose proof (pow_le_10 (Z.max (- k) 0) 10 1076).
  pose proof (Z.pow_nonneg 2 (Z.max (e - 2) 0)). pose proof (Z.pow_nonneg 10 (Z.max (- k) 0)). assert (0 <= upper4 m <= 10 ^ 56) by (unfold upper4; lia).
  repeat apply Z.mul_le_mono_nonneg; try (apply Z.mul_nonneg_nonneg); lia.
Qed.

Lemma shortest_range m e d k : 0 < m < 2 ^ 53 -> -1074 <= e <= 971 -> shortest m e = Some (d, k) ->
  rounds_to m e d k = true /\ 0 < d /\ Z.abs (len (itoa d) + k - 1) <= 10000.
Proof.
  intros Hm He Hs. destruct (shortest_correct m e) as (d' & k' & Hs' & Hr & Hmin); [lia|]. rewrite Hs in Hs'. injection Hs' as <- <-.
  pose proof (rounds_to_pos m e d k) as Hd. split_and!; [done|naive_solver lia|].
  assert (Hlow : Z.min (e - 2) 0 <= k).
  { destruct (exact_unit m e) as [d1 Hd1]. destruct (decide (k < Z.min (e - 2) 0)); [|lia]. rewrite Hmin in Hd1; [done|lia]. }
  assert (Htop : k < top_unit m e).
  { destruct (decide (k < top_unit m e)); [done|]. rewrite above_top in Hr; [done|lia..]. }
  assert (Z.log2 m < 53) by (apply Z.log2_lt_pow2; lia). unfold top_unit in Htop.
  pose proof (rounds_to_bound m e d k Hm). pose proof (len_itoa_le 2200 d). pose proof (len_nonneg (itoa d)). naive_solver lia.
Qed.

(** ** The round trip: the text of a double reads as the double. *)
Definition valid_double (f : spec_float) : Prop :=
  match f with S754_finite _ m e => Zpos m < 2 ^ 53 /\ -1074 <= e <= 971 | _ => True end.

Lemma read_signed s t r : hasPrefix t "-" = false -> read_unsigned t = Some r -> read_decimal (sign s +:+ t) = Some (s, r.1, r.2).
Proof.
  intros Ht Hr. destruct s; cbn [sign].
  - rewrite append_cons, append_nil_l. cbn [read_decimal]. rewrite Hr. by destruct r.
  - rewrite append_nil_l. destruct t as [|c t]; [cbn [read_decimal]; rewrite Hr; by destruct r|].
    destruct (decide (c = "-"%char)) as [->|]; [done|].
    transitivity ('(d, k) ← read_unsigned (String c t); Some (false, d, k)); [|rewrite Hr; by destruct r].
    destruct c as [[] [] [] [] [] [] [] []]; done.
Qed.

Lemma digits_no_minus ds t : all_chars is_digit ds = true -> ds <> "" -> hasPrefix (ds +:+ t) "-" = false.
Proof.
  destruct ds as [|c ds]; [done|]. intros H _. rewrite append_cons. cbn in *. bprop. apply digit_not_sign in H as [_ H].
  by rewrite bool_decide_false.
Qed.

Lemma fmtG_no_minus ds dp : all_chars is_digit ds = true -> ds <> "" -> hasPrefix (fmtG ds dp) "-" = false.
Proof.
  intros Hds Hne. unfold fmtG, fmtE, fmtF. destruct (_ || _); [|destruct (dp <=? 0) eqn:E; [done|destruct (dp <? len ds)]]; bprop;
    apply digits_no_minus; try done; try (by apply digits_take).
  - by destruct ds.
  - destruct ds; [done|]. destruct (Z.to_nat dp) eqn:E1; [lia|done].
Qed.

Lemma formatFloat_reads f : valid_double f -> reads_as (formatFloat f) f.
Proof.
  destruct f as [s|s| |s m e]; cbn [valid_double reads_as formatFloat]; [by destruct s|done..|]. intros [Hm He].
  destruct (shortest_correct (Zpos m) e) as (d & k & Hs & _); [lia|]. rewrite Hs.
  destruct (shortest_range (Zpos m) e d k) as (Hr & Hd & Hdp); [lia..|done|]. unfold fmt_decimal.
  assert (Hds : all_chars is_digit (itoa d) = true) by (apply itoa_digits; lia).
  assert (Hne : itoa d <> "") by (apply itoa_nonempty; lia).
  destruct (fmtG_reads (itoa d) (len (itoa d) + k) d) as (z & Hz & Hzk & Hread); [done..|by apply parse_itoa_nonneg; lia|done|].
  rewrite (read_signed _ _ _ (fmtG_no_minus _ _ Hds Hne) Hread). cbn [fst snd]. do 2 eexists. split; [done|].
  destruct Hzk as [-> | ->].
  - rewrite Z.mul_1_r. replace (len (itoa d) + k - len (itoa d) - 0) with k by lia. done.
  - replace (len (itoa d) + k - len (itoa d)) with k in * by lia. rewrite Z.sub_diag, rounds_to_shift; done.
Qed.

(** The text is a word. *)
Definition word_char (c : ascii) : bool := in_range 33 126 c.

Lemma digits_word s : all_chars is_digit s = true -> all_chars word_char s = true.
Proof. apply all_chars_impl. unfold is_digit, word_char, in_range. intros c H. bprop. apply andb_true_iff. bspec. lia. Qed.

Lemma fmtG_word ds dp : all_chars is_digit ds = true -> all_chars word_char (fmtG ds dp) = true.
Proof.
  intros H. pose proof (digits_word _ H). destruct (digits_take 1 ds H) as [H1%digits_word H2%digits_word].
  destruct (digits_take (Z.to_nat dp) ds H) as [H3%digits_word H4%digits_word].
  unfold fmtG, fmtE, fmtF, fmt_exp. pose proof (fun n => digits_word _ (zeros_digits n)). pose proof (digits_word _ (itoa_digits (Z.abs (dp - 1)) ltac:(lia))).
  repeat case_match; rewrite !all_chars_append; repeat (apply andb_true_iff; split); auto.
Qed.

Lemma formatFloat_word f : all_chars word_char (formatFloat f) = true.
Proof.
  destruct f as [s|s| |s m e]; [by destruct s|by destruct s|done|]. cbn [formatFloat].
  destruct (shortest_correct (Zpos m) e) as (d & k & -> & Hr & _); [lia|]. apply rounds_to_pos in Hr; [|lia].
  rewrite all_chars_append. apply andb_true_iff. split; [by destruct s|]. apply fmtG_word, itoa_digits. lia.
Qed.
