(* ===== verification/Splice.v ===== *)
(** * Splicing two connections

    Models [proxy] and [closeWrite] of [src/pkgs/realm-helper/proxy.go] and
    [splice] of [src/pkgs/realm-agent/proxy.go].  The two copies run
    concurrently, so a splice is a step relation; what each end sends before it
    ends, and errors, are inputs. *)

From S2P Require Import Prelude GoStrings.

(** ** Connections *)

(** [BufferedConn] is realm-agent's [bufferedConn] around a connection with a
    half-close or without. *)
Inductive connKind := TCPConn | UnixConn | BufferedConn (half : bool) | OtherConn.

(** What a program does to the destination of a copy that is over. *)
Inductive ending := HalfClose | FullClose | NoClose.
#[export] Instance ending_eq_dec : EqDecision ending.
Proof. solve_decision. Defined.

(** [closeWrite] of realm-helper. *)
Definition helperCloseWrite (k : connKind) : ending :=
  match k with TCPConn | UnixConn => HalfClose | _ => FullClose end.

(** The end of [copyOne] in realm-agent's [splice]. *)
Definition agentCloseWrite (k : connKind) : ending :=
  match k with TCPConn | UnixConn | BufferedConn true => HalfClose | _ => NoClose end.

Inductive program := Helper | Agent.
Definition closeWrite (p : program) : connKind -> ending :=
  match p with Helper => helperCloseWrite | Agent => agentCloseWrite end.

(** ** State *)

(** One direction: what its source still sends before it ends, what its
    destination was given, whether the copy is over, whether it ended on an
    error, and whether the destination was told that nothing follows. *)
Record flow := Flow { fl_left : string; fl_given : string; fl_done : bool; fl_failed : bool; fl_eof : bool }.

(** The flow to the upstream and the flow to the client, the ends, each closed
    or not, and whether the call returned. *)
Record splice := Splice {
  sp_client : connKind; sp_upstream : connKind; sp_clientClosed : bool; sp_upstreamClosed : bool;
  sp_up : flow; sp_down : flow; sp_returned : bool
}.

Inductive side := Up | Down.

Definition get_flow (d : side) (s : splice) : flow := match d with Up => sp_up s | Down => sp_down s end.
Definition set_flow (d : side) (f : flow) (s : splice) : splice :=
  match d with
  | Up => Splice (sp_client s) (sp_upstream s) (sp_clientClosed s) (sp_upstreamClosed s) f (sp_down s) (sp_returned s)
  | Down => Splice (sp_client s) (sp_upstream s) (sp_clientClosed s) (sp_upstreamClosed s) (sp_up s) f (sp_returned s)
  end.
Definition destination_kind (d : side) (s : splice) : connKind := match d with Up => sp_upstream s | Down => sp_client s end.
Definition close_destination (d : side) (s : splice) : splice :=
  match d with
  | Up => Splice (sp_client s) (sp_upstream s) (sp_clientClosed s) true (sp_up s) (sp_down s) (sp_returned s)
  | Down => Splice (sp_client s) (sp_upstream s) true (sp_upstreamClosed s) (sp_up s) (sp_down s) (sp_returned s)
  end.

(** ** Steps *)
Section program.
Context (p : program).

(** A copy ends and its destination is told, as far as the program does. *)
Definition finish (d : side) (failed : bool) (s : splice) : splice :=
  let f := get_flow d s in
  match closeWrite p (destination_kind d s) with
  | HalfClose => set_flow d (Flow (fl_left f) (fl_given f) true failed true) s
  | FullClose => close_destination d (set_flow d (Flow (fl_left f) (fl_given f) true failed true) s)
  | NoClose => set_flow d (Flow (fl_left f) (fl_given f) true failed (fl_eof f)) s
  end.

Definition told (f : flow) : flow := Flow (fl_left f) (fl_given f) (fl_done f) (fl_failed f) true.

(** A copy moves some bytes while both ends are open, ends at the end of its
    source, or ends on an error; when both are over the ends are closed. *)
Inductive splice_step : splice -> splice -> Prop :=
| StepCopy d s n : fl_done (get_flow d s) = false -> sp_clientClosed s = false -> sp_upstreamClosed s = false ->
    (0 < n <= String.length (fl_left (get_flow d s)))%nat ->
    splice_step s (set_flow d (Flow (drop n (fl_left (get_flow d s))) (fl_given (get_flow d s) +:+ take n (fl_left (get_flow d s)))
      false false (fl_eof (get_flow d s))) s)
| StepEOF d s : fl_done (get_flow d s) = false -> sp_clientClosed s = false -> sp_upstreamClosed s = false ->
    fl_left (get_flow d s) = "" -> splice_step s (finish d false s)
| StepError d s : fl_done (get_flow d s) = false -> splice_step s (finish d true s)
| StepReturn s : fl_done (sp_up s) = true -> fl_done (sp_down s) = true -> sp_returned s = false ->
    splice_step s (Splice (sp_client s) (sp_upstream s) true true (told (sp_up s)) (told (sp_down s)) true).
End program.

Definition spliced (client upstream : connKind) (up down : string) : splice :=
  Splice client upstream false false (Flow up "" false false false) (Flow down "" false false false) false.

(** ** Properties *)
Section splice_laws.
Context (p : program) (client upstream : connKind) (up down : string).

(** The ends realm-helper splices are TCP and Unix sockets; realm-agent's can
    also be a [bufferedConn] or a connection of any other kind. *)
Definition spliceable (k : connKind) : Prop :=
  p = Agent \/ k = TCPConn \/ k = UnixConn.
Definition supported : Prop := spliceable client /\ spliceable upstream.
Context (Hsupported : supported).

(** The connections on which the end of one direction can be announced while
    the other goes on. *)
Definition half_closable (k : connKind) : Prop :=
  k = TCPConn \/ k = UnixConn \/ k = BufferedConn true.

Lemma closeWrite_spliceable k : spliceable k ->
  closeWrite p k <> FullClose /\ (half_closable k -> closeWrite p k = HalfClose).
Proof.
  unfold closeWrite, helperCloseWrite, agentCloseWrite. intros [-> | [-> | ->]]; [|by destruct p..].
  split; [by destruct k as [| |[]|]|]. by intros [-> | [-> | ->]].
Qed.

Definition sent (d : side) : string := match d with Up => up | Down => down end.
Definition receiver (d : side) : connKind := match d with Up => upstream | Down => client end.

(** Nothing is lost, reordered or made up in a flow; a flow that ended without
    an error has given everything; the end of a flow is announced when it is
    over and not before; and the ends are closed exactly by the return. *)
Definition flow_ok (returned : bool) (d : side) (f : flow) : Prop :=
  fl_given f +:+ fl_left f = sent d /\
  (fl_done f = true -> fl_failed f = false -> fl_left f = "") /\
  (returned = true -> fl_done f = true) /\
  (fl_eof f = true -> fl_done f = true) /\
  (fl_done f = true -> half_closable (receiver d) -> fl_eof f = true).

Lemma receiver_spliceable d : spliceable (receiver d).
Proof. destruct Hsupported. by destruct d. Qed.

Definition splice_ok (s : splice) : Prop :=
  sp_client s = client /\ sp_upstream s = upstream /\
  (sp_clientClosed s = sp_returned s /\ sp_upstreamClosed s = sp_returned s) /\
  forall d, flow_ok (sp_returned s) d (get_flow d s).

Lemma set_flow_ok d f s : splice_ok s -> flow_ok (sp_returned s) d f -> splice_ok (set_flow d f s).
Proof.
  intros (Hc & Hu & Ho & Hf) Hd. destruct s as [c u cc uc fu fd ret].
  split; [by destruct d|]. split; [by destruct d|]. split; [by destruct d|].
  intros d'. pose proof (Hf d') as Hd'. destruct d, d'; cbn in *; done.
Qed.

Lemma finish_eq d failed s : splice_ok s -> finish p d failed s =
  set_flow d (Flow (fl_left (get_flow d s)) (fl_given (get_flow d s)) true failed
    (if decide (closeWrite p (receiver d) = HalfClose) then true else fl_eof (get_flow d s))) s.
Proof.
  intros (Hc & Hu & _). unfold finish.
  assert (E : destination_kind d s = receiver d) by (destruct d; done). rewrite E.
  destruct (closeWrite_spliceable _ (receiver_spliceable d)) as [H _].
  by destruct (closeWrite p (receiver d)).
Qed.

Lemma finish_ok d failed s : splice_ok s -> (failed = false -> fl_left (get_flow d s) = "") -> splice_ok (finish p d failed s).
Proof.
  intros Hs Hl. rewrite finish_eq by done. apply set_flow_ok; [done|]. destruct Hs as (_ & _ & _ & Hf). destruct (Hf d) as (H1 & _).
  unfold flow_ok. cbn [fl_given fl_left fl_done fl_failed fl_eof]. split; [done|]. split; [auto|]. split; [done|]. split; [done|].
  intros _ E. rewrite decide_True; [done|]. by apply closeWrite_spliceable; [apply receiver_spliceable|].
Qed.

Lemma splice_ok_step s s' : splice_ok s -> splice_step p s s' -> splice_ok s'.
Proof.
  intros Hs Hstep. pose proof Hs as (Hc & Hu & Ho & Hf). destruct Hstep as [d s n Hd _ _ Hn|d s Hd _ _ Hl|d s Hd|s Hd1 Hd2 Hr].
  - apply set_flow_ok; [done|]. destruct (Hf d) as (H1 & _ & H3 & H4 & _). unfold flow_ok. cbn [fl_given fl_left fl_done fl_failed fl_eof].
    split; [by rewrite append_assoc, take_drop|]. split; [done|]. rewrite Hd in H3, H4. done.
  - by apply finish_ok.
  - by apply finish_ok.
  - split; [done|]. split; [done|]. split; [done|]. intros d. destruct (Hf d) as (H1 & H2 & _).
    unfold flow_ok. cbn [sp_returned]. destruct d; cbn in *; split_and!; auto.
Qed.

Lemma splice_ok_reachable s : rtc (splice_step p) (spliced client upstream up down) s -> splice_ok s.
Proof.
  intros H. remember (spliced client upstream up down) as s0 eqn:E. assert (H0 : splice_ok s0).
  { subst s0. split; [done|]. split; [done|]. split; [done|]. intros d. unfold flow_ok. by destruct d; cbn; split_and!. }
  clear E. induction H as [|s0 s1 s2 H1 _ IH]; [done|]. apply IH. by eapply splice_ok_step.
Qed.

(** The steps left: each shortens what is to be copied, ends a copy or returns. *)
Definition splice_measure (s : splice) : nat :=
  String.length (fl_left (sp_up s)) + String.length (fl_left (sp_down s)) + Nat.b2n (negb (fl_done (sp_up s))) +
  Nat.b2n (negb (fl_done (sp_down s))) + Nat.b2n (negb (sp_returned s)).

Lemma splice_measure_step s s' : splice_ok s -> splice_step p s s' -> (splice_measure s' < splice_measure s)%nat.
Proof.
  intros Hs Hstep. destruct Hstep as [d s n Hd _ _ Hn|d s Hd _ _ _|d s Hd|s Hd1 Hd2 Hr]; [|rewrite finish_eq by done..|];
    unfold splice_measure.
  1-3: destruct d; cbn [set_flow get_flow sp_up sp_down sp_returned fl_left fl_done] in *; rewrite ?length_drop, ?Hd; cbn [Nat.b2n negb]; lia.
  cbn. rewrite Hd1, Hd2, Hr. cbn. lia.
Qed.

Lemma splice_progress s : sp_returned s = false -> exists s', splice_step p s s'.
Proof.
  intros Hr. destruct (fl_done (sp_up s)) eqn:Eu; [|exists (finish p Up true s); by apply (StepError p Up)].
  destruct (fl_done (sp_down s)) eqn:Ed; [|exists (finish p Down true s); by apply (StepError p Down)]. eexists. by apply StepReturn.
Qed.

Lemma flow_copies d s : splice_ok s -> fl_done (get_flow d s) = false -> exists s', rtc (splice_step p) s s' /\ fl_given (get_flow d s') = sent d.
Proof.
  intros (_ & _ & [O1 O2] & Hf) Hd. destruct (Hf d) as (H1 & _ & H3 & _).
  destruct (sp_returned s) eqn:Er; [rewrite H3 in Hd by done; done|].
  destruct (fl_left (get_flow d s)) as [|c t] eqn:El; [exists s; split; [done|by rewrite append_nil_r in H1]|].
  eexists. split; [apply rtc_once, (StepCopy p d s (String.length (fl_left (get_flow d s)))); [done..|rewrite El; cbn; lia]|].
  assert (E : forall f, get_flow d (set_flow d f s) = f) by (intros f; by destruct d). rewrite E. cbn [fl_given].
  assert (Et : forall u, take (String.length u) u = u) by (induction u as [|a u IHu]; [done|]; cbn; by rewrite IHu).
  by rewrite Et, El.
Qed.

(** C29: What one side was given is always a prefix of what the other sent; a copy
    that ends without an error has given all of it.  When a copy is over, a
    destination that is a TCP socket, a Unix socket or realm-agent's buffered
    connection with a half-close has been told that nothing follows, and none is
    told before; and the end of one direction never closes an end: until the
    call returns both are open, and what is left in the other direction can
    still be copied. *)
Theorem splice_lossless s d : rtc (splice_step p) (spliced client upstream up down) s ->
  hasPrefix (sent d) (fl_given (get_flow d s)) = true /\
  (fl_done (get_flow d s) = true -> fl_failed (get_flow d s) = false -> fl_given (get_flow d s) = sent d) /\
  (fl_eof (get_flow d s) = true -> fl_done (get_flow d s) = true) /\
  (fl_done (get_flow d s) = true -> receiver d = TCPConn \/ receiver d = UnixConn \/ receiver d = BufferedConn true ->
   fl_eof (get_flow d s) = true) /\
  (sp_clientClosed s = sp_returned s /\ sp_upstreamClosed s = sp_returned s) /\
  (fl_done (get_flow d s) = false -> exists s', rtc (splice_step p) s s' /\ fl_given (get_flow d s') = sent d).
Proof.
  intros Hs%splice_ok_reachable. destruct (Hs) as (_ & _ & Ho & Hf). destruct (Hf d) as (H1 & H2 & H3 & H4 & H5).
  split; [|split; [|split; [|split; [|split]]]]; try done.
  - apply hasPrefix_spec. eauto.
  - intros Hd Hx. rewrite H2, append_nil_r in H1; done.
  - by apply flow_copies.
Qed.

(** A splice returns: no run of it goes on for ever, and one that can go no
    further has returned with both ends closed. *)
Theorem splice_returns s : rtc (splice_step p) (spliced client upstream up down) s ->
  Acc (fun b a => splice_step p a b) s /\
  ((forall s', ~ splice_step p s s') -> sp_returned s = true /\ sp_clientClosed s = true /\ sp_upstreamClosed s = true).
Proof.
  intros Hs%splice_ok_reachable. split.
  - revert Hs. induction s as [s IH] using (induction_ltof1 _ splice_measure). intros Hs. constructor. intros s' Hst.
    apply IH; [by apply splice_measure_step|by eapply splice_ok_step].
  - intros Hno. destruct (sp_returned s) eqn:Er; [|destruct (splice_progress s Er) as [s' H]; by destruct (Hno s')].
    destruct Hs as (_ & _ & [-> ->] & _). by rewrite Er.
Qed.
End splice_laws.

(** ** The properties at a concrete splice *)
Module SpliceExamples.
Definition half : splice :=
  Splice TCPConn (BufferedConn true) false false (Flow "" "GET" true false true) (Flow "OK" "" false false false) false.

Lemma half_supported : supported Agent TCPConn (BufferedConn true).
Proof. split; by left. Qed.

Lemma half_reached : rtc (splice_step Agent) (spliced TCPConn (BufferedConn true) "GET" "OK") half.
Proof.
  eapply rtc_l; [apply (StepCopy Agent Up _ 3); [reflexivity..|cbn; lia]|].
  eapply rtc_l; [apply (StepEOF Agent Up); reflexivity|]. apply rtc_refl.
Qed.

(** The client has sent its request and closed its side; the answer still comes. *)
Lemma splice_lossless_witness : exists s', rtc (splice_step Agent) half s' /\ fl_given (get_flow Down s') = "OK".
Proof. apply (splice_lossless Agent TCPConn (BufferedConn true) "GET" "OK" half_supported half Down half_reached). reflexivity. Defined.

Lemma splice_returns_witness : Acc (fun b a => splice_step Agent a b) half.
Proof. apply (splice_returns Agent TCPConn (BufferedConn true) "GET" "OK" half_supported half half_reached). Defined.
End SpliceExamples.
