(* ===== verification/Encoding.v ===== *)
(** * [encoding/base64.RawURLEncoding], [crypto/sha256] and [crypto/sha1]

    The unpadded URL alphabet of RFC 4648, with Go's decoder (CR and LF are
    skipped, [Strict] rejects non-zero trailing bits), and the two hash
    functions of FIPS 180-4, all on byte strings. *)

From S2P Require Import Prelude GoStrings.

Open Scope Z_scope.
Open Scope go_scope.

(** ** Base64, URL alphabet, no padding *)
Definition b64char (n : Z) : ascii :=
  if n <? 26 then char (65 + n)
  else if n <? 52 then char (97 + (n - 26))
  else if n <? 62 then char (48 + (n - 52))
  else if n =? 62 then "-"%char else "_"%char.

Definition b64val (c : ascii) : option Z :=
  if is_upper c then Some (code c - 65)
  else if is_lower c then Some (code c - 97 + 26)
  else if is_digit c then Some (code c - 48 + 52)
  else if c =? "-"%char then Some 62
  else if c =? "_"%char then Some 63
  else None.

Fixpoint b64_encode (s : string) : string :=
  match s with
  | EmptyString => EmptyString
  | String a EmptyString =>
      String (b64char (code a / 4)) (String (b64char (code a mod 4 * 16)) EmptyString)
  | String a (String b EmptyString) =>
      String (b64char (code a / 4)) (String (b64char (code a mod 4 * 16 + code b / 16))
        (String (b64char (code b mod 16 * 4)) EmptyString))
  | String a (String b (String c r)) =>
      String (b64char (code a / 4)) (String (b64char (code a mod 4 * 16 + code b / 16))
        (String (b64char (code b mod 16 * 4 + code c / 64))
          (String (b64char (code c mod 64)) (b64_encode r))))
  end.

(** The strict decoder on an input without line breaks. *)
Fixpoint b64_quanta (s : string) : option string :=
  match s with
  | EmptyString => Some EmptyString
  | String _ EmptyString => None
  | String p (String q EmptyString) =>
      x ← b64val p; y ← b64val q;
      if y mod 16 =? 0 then Some (String (char (x * 4 + y / 16)) EmptyString) else None
  | String p (String q (String r EmptyString)) =>
      x ← b64val p; y ← b64val q; z ← b64val r;
      if z mod 4 =? 0
      then Some (String (char (x * 4 + y / 16)) (String (char (y mod 16 * 16 + z / 4)) EmptyString))
      else None
  | String p (String q (String r (String t rest))) =>
      x ← b64val p; y ← b64val q; z ← b64val r; w ← b64val t;
      tl ← b64_quanta rest;
      Some (String (char (x * 4 + y / 16)) (String (char (y mod 16 * 16 + z / 4))
             (String (char (z mod 4 * 64 + w)) tl)))
  end.

Fixpoint skip_newlines (s : string) : string :=
  match s with
  | EmptyString => EmptyString
  | String c s' =>
      if (code c =? 10) || (code c =? 13) then skip_newlines s' else String c (skip_newlines s')
  end.

(** [base64.RawURLEncoding.Strict().DecodeString]. *)
Definition b64_decode_strict (s : string) : option string := b64_quanta (skip_newlines s).

(** ** SHA-2 and SHA-1 words *)
Definition rotr (n x : Z) : Z := Z.lor (Z.shiftr x n) (u32 (Z.shiftl x (32 - n))).
Definition rotl (n x : Z) : Z := rotr (32 - n) x.
Definition ch (x y z : Z) : Z := Z.lxor (Z.land x y) (Z.land (Z.lxor x 4294967295) z).
Definition maj (x y z : Z) : Z := Z.lxor (Z.land x y) (Z.lxor (Z.land x z) (Z.land y z)).

Definition word_bytes (w : Z) : string :=
  String (char (Z.land (Z.shiftr w 24) 255)) (String (char (Z.land (Z.shiftr w 16) 255))
    (String (char (Z.land (Z.shiftr w 8) 255)) (String (char (Z.land w 255)) EmptyString))).

Fixpoint words_bytes (l : list Z) : string :=
  match l with
  | [] => EmptyString
  | w :: l' => word_bytes w +:+ words_bytes l'
  end.

Fixpoint words (s : string) : list Z :=
  match s with
  | String a (String b (String c (String d r))) =>
      (((code a * 256 + code b) * 256 + code c) * 256 + code d) :: words r
  | _ => []
  end.

Fixpoint zeros (n : nat) : string :=
  match n with
  | O => EmptyString
  | S n' => String (char 0) (zeros n')
  end.

(** A one bit, zeros up to 56 modulo 64 bytes, and the bit length. *)
Definition pad (s : string) : string :=
  let bits := 8 * len s in
  s +:+ String (char 128) (zeros (Z.to_nat ((55 - len s) mod 64))) +:+
  word_bytes (bits / 2 ^ 32) +:+ word_bytes (bits mod 2 ^ 32).

(** Split a word list in blocks of sixteen. *)
Fixpoint blocks (fuel : nat) (l : list Z) : list (list Z) :=
  match fuel, l with
  | S fuel', _ :: _ => firstn 16 l :: blocks fuel' (skipn 16 l)
  | _, _ => []
  end.

Module Sha256.

(** The constants of FIPS 180-4: the first 32 bits of the fractional parts of
    the cube roots (rounds) and square roots (initial value) of the primes. *)
Definition is_prime (n : Z) : bool :=
  forallb (fun d => n mod Z.of_nat d <>? 0) (seq 2 (Z.to_nat (Z.sqrt n) - 1)).
Definition primes : list Z := List.filter is_prime (Z.of_nat <$> seq 2 310).

(** Integer cube root, one bit at a time. *)
Definition cbrt (bits : nat) (n : Z) : Z :=
  fold_left (fun r i => let r' := r + 2 ^ Z.of_nat i in if r' * r' * r' <=? n then r' else r)
    (rev (seq 0 bits)) 0.

Definition K : list Z := Eval vm_compute in (fun p => u32 (cbrt 40 (p * 2 ^ 96))) <$> primes.

Record digest := Digest { da : Z; db : Z; dc : Z; dd : Z; de : Z; df : Z; dg : Z; dh : Z }.

Definition init : digest := Eval vm_compute in
  let h i := u32 (Z.sqrt (nth i primes 0 * 2 ^ 64)) in
  Digest (h 0%nat) (h 1%nat) (h 2%nat) (h 3%nat) (h 4%nat) (h 5%nat) (h 6%nat) (h 7%nat).

Definition sigma0 (x : Z) : Z := Z.lxor (rotr 7 x) (Z.lxor (rotr 18 x) (Z.shiftr x 3)).
Definition sigma1 (x : Z) : Z := Z.lxor (rotr 17 x) (Z.lxor (rotr 19 x) (Z.shiftr x 10)).
Definition Sigma0 (x : Z) : Z := Z.lxor (rotr 2 x) (Z.lxor (rotr 13 x) (rotr 22 x)).
Definition Sigma1 (x : Z) : Z := Z.lxor (rotr 6 x) (Z.lxor (rotr 11 x) (rotr 25 x)).

(** The message schedule as a sliding window of the last sixteen words. *)
Definition round (st : digest * list Z) (k : Z) : digest * list Z :=
  let '(d, w) := st in
  let w0 := nth 0 w 0 in
  let t1 := dh d + Sigma1 (de d) + ch (de d) (df d) (dg d) + k + w0 in
  let t2 := Sigma0 (da d) + maj (da d) (db d) (dc d) in
  let w16 := u32 (sigma1 (nth 14 w 0) + nth 9 w 0 + sigma0 (nth 1 w 0) + w0) in
  (Digest (u32 (t1 + t2)) (da d) (db d) (dc d) (u32 (dd d + t1)) (de d) (df d) (dg d),
   tail w ++ [w16]).

Definition compress (d : digest) (block : list Z) : digest :=
  let e := fst (fold_left round K (d, block)) in
  Digest (u32 (da d + da e)) (u32 (db d + db e)) (u32 (dc d + dc e)) (u32 (dd d + dd e))
         (u32 (de d + de e)) (u32 (df d + df e)) (u32 (dg d + dg e)) (u32 (dh d + dh e)).

Definition sum (s : string) : string :=
  let l := words (pad s) in
  let d := fold_left compress (blocks (length l) l) init in
  words_bytes [da d; db d; dc d; dd d; de d; df d; dg d; dh d].

End Sha256.

Module Sha1.

Record digest := Digest { da : Z; db : Z; dc : Z; dd : Z; de : Z }.

Definition init : digest := Digest 0x67452301 0xefcdab89 0x98badcfe 0x10325476 0xc3d2e1f0.

Definition round (st : digest * list Z) (t : nat) : digest * list Z :=
  let '(d, w) := st in
  let fk := if (t <? 20)%nat then (ch (db d) (dc d) (dd d), 0x5a827999)
            else if (t <? 40)%nat then (Z.lxor (db d) (Z.lxor (dc d) (dd d)), 0x6ed9eba1)
            else if (t <? 60)%nat then (maj (db d) (dc d) (dd d), 0x8f1bbcdc)
            else (Z.lxor (db d) (Z.lxor (dc d) (dd d)), 0xca62c1d6) in
  let w0 := nth 0 w 0 in
  let w16 := rotl 1 (Z.lxor (nth 13 w 0) (Z.lxor (nth 8 w 0) (Z.lxor (nth 2 w 0) w0))) in
  (Digest (u32 (rotl 5 (da d) + fst fk + de d + snd fk + w0)) (da d) (rotl 30 (db d)) (dc d) (dd d),
   tail w ++ [w16]).

Definition compress (d : digest) (block : list Z) : digest :=
  let e := fst (fold_left round (seq 0 80) (d, block)) in
  Digest (u32 (da d + da e)) (u32 (db d + db e)) (u32 (dc d + dc e)) (u32 (dd d + dd e))
         (u32 (de d + de e)).

Definition sum (s : string) : string :=
  let l := words (pad s) in
  let d := fold_left compress (blocks (length l) l) init in
  words_bytes [da d; db d; dc d; dd d; de d].

End Sha1.

(** [hex.EncodeToString]. *)
Definition hexchar (n : Z) : ascii := if n <? 10 then char (48 + n) else char (87 + n).

Fixpoint hex_encode (s : string) : string :=
  match s with
  | EmptyString => EmptyString
  | String c s' => String (hexchar (code c / 16)) (String (hexchar (code c mod 16)) (hex_encode s'))
  end.

(** ** Published test vectors *)
Example sha256_abc : hex_encode (Sha256.sum "abc") =
  "ba7816bf8f01cfea414140de5dae2223b00361a396177a9cb410ff61f20015ad".
Proof. vm_compute. reflexivity. Qed.

Example sha256_two_blocks :
  hex_encode (Sha256.sum "abcdbcdecdefdefgefghfghighijhijkijkljklmklmnlmnomnopnopq") =
  "248d6a61d20638b8e5c026930c3e6039a33ce45964ff2167f6ecedd419db06c1".
Proof. vm_compute. reflexivity. Qed.

Example sha1_abc : hex_encode (Sha1.sum "abc") = "a9993e364706816aba3e25717850c26c9cd0d89d".
Proof. vm_compute. reflexivity. Qed.

(** ** Lemmas *)
Lemma b64val_b64char n : 0 <= n < 64 -> b64val (b64char n) = Some n.
Proof.
  intros H. assert (Hall : forallb (fun i => match b64val (b64char (Z.of_nat i)) with
    | Some m => Z.of_nat i =? m | None => false end) (List.seq 0 64) = true) by (vm_compute; done).
  rewrite forallb_forall in Hall. specialize (Hall (Z.to_nat n)).
  rewrite in_seq, Z2Nat.id in Hall by lia.
  destruct (b64val (b64char n)); [|discriminate Hall; lia].
  specialize (Hall ltac:(lia)). bprop. congruence.
Qed.

Lemma ascii_code_forall (P : ascii -> bool) :
  forallb (fun i => P (char (Z.of_nat i))) (List.seq 0 256) = true -> forall c, P c = true.
Proof.
  intros H c. rewrite forallb_forall in H. specialize (H (Z.to_nat (code c))).
  pose proof (code_range c). rewrite in_seq, Z2Nat.id, char_code in H by lia. apply H. lia.
Qed.

Lemma b64char_b64val c n : b64val c = Some n -> b64char n = c /\ 0 <= n < 64.
Proof.
  pose proof (ascii_code_forall (fun c => match b64val c with
    | Some n => (b64char n =? c) && (0 <=? n) && (n <? 64) | None => true end)
    ltac:(vm_compute; done) c) as H. simpl in H.
  intros E. rewrite E in H. bprop. done.
Qed.

(** The alphabet of an encoded value. *)
Definition b64_alphabet (c : ascii) : bool :=
  is_upper c || is_lower c || is_digit c || (c =? "-"%char) || (c =? "_"%char).

Lemma b64val_alphabet c : b64_alphabet c = bool_decide (is_Some (b64val c)).
Proof.
  unfold b64_alphabet, b64val. destruct (is_upper c), (is_lower c), (is_digit c); try done.
  by destruct (c =? "-"%char), (c =? "_"%char).
Qed.

Ltac b64_bytes :=
  repeat match goal with
  | |- context [code ?c] =>
      lazymatch goal with
      | _ : 0 <= code c < 256 |- _ => fail
      | _ => pose proof (code_range c)
      end
  end.

(** Decoding inverts encoding. *)
Lemma b64_quanta_encode s : b64_quanta (b64_encode s) = Some s.
Proof.
  revert s. fix IH 1. intros [|a [|b [|c r]]]; [done| | |]; cbn [b64_encode b64_quanta]; b64_bytes.
  - rewrite !b64val_b64char by divlia. simpl. rewrite bool_decide_true by divlia.
    do 2 f_equal. apply code_inj. rewrite code_char; divlia.
  - rewrite !b64val_b64char by divlia. simpl. rewrite bool_decide_true by divlia.
    do 2 f_equal; [|f_equal]; apply code_inj; rewrite code_char; divlia.
  - rewrite !b64val_b64char by divlia. simpl. rewrite IH. simpl.
    do 2 f_equal; [|do 2 f_equal]; apply code_inj; rewrite code_char; divlia.
Qed.

Lemma skip_newlines_alphabet s : all_chars b64_alphabet s = true -> skip_newlines s = s.
Proof.
  induction s as [|c s IH]; simpl; intros H; [done|]. bprop. rewrite IH by done.
  destruct ((code c =? 10) || (code c =? 13)) eqn:E; [|done].
  exfalso. apply orb_true_iff in E as [E|E]; bprop;
    apply (f_equal char) in E; rewrite char_code in E; subst c; discriminate.
Qed.

Lemma b64char_alphabet n : 0 <= n < 64 -> b64_alphabet (b64char n) = true.
Proof. intros H. rewrite b64val_alphabet, b64val_b64char by done. by rewrite bool_decide_true. Qed.

Lemma b64_encode_alphabet s : all_chars b64_alphabet (b64_encode s) = true.
Proof.
  revert s. fix IH 1. intros [|a [|b [|c r]]]; [done| | |]; cbn [b64_encode all_chars]; b64_bytes;
    rewrite !b64char_alphabet by divlia; try done. by rewrite IH.
Qed.

Lemma b64_decode_encode s : b64_decode_strict (b64_encode s) = Some s.
Proof.
  unfold b64_decode_strict. rewrite skip_newlines_alphabet by apply b64_encode_alphabet.
  apply b64_quanta_encode.
Qed.

(** The strict decoder accepts no second spelling of a value. *)
Lemma b64_encode_quanta s d : b64_quanta s = Some d -> b64_encode d = s.
Proof.
  revert s d. fix IH 1. intros [|p [|q [|r [|t rest]]]] d H; cbn [b64_quanta] in H;
    [by simplify_eq|done| | |].
  all: repeat match type of H with
    | context [b64val ?c] => let E := fresh "E" in destruct (b64val c) eqn:E; simpl in H; [|done];
        apply b64char_b64val in E as [<- ?]
    end.
  - case_bool_decide; simplify_eq. simpl. rewrite !code_char by divlia.
    repeat f_equal; divlia.
  - case_bool_decide; simplify_eq. simpl. rewrite !code_char by divlia.
    repeat f_equal; divlia.
  - destruct (b64_quanta rest) eqn:E; simplify_eq/=. apply IH in E.
    rewrite !code_char by divlia. rewrite E. repeat f_equal; divlia.
Qed.

Lemma len_word_bytes w : len (word_bytes w) = 4.
Proof. reflexivity. Qed.

Lemma sha256_len s : len (Sha256.sum s) = 32.
Proof. unfold Sha256.sum. by cbn. Qed.

Lemma sha1_len s : len (Sha1.sum s) = 20.
Proof. unfold Sha1.sum. by cbn. Qed.

Lemma b64_encode_inj s t : b64_encode s = b64_encode t -> s = t.
Proof.
  intros H. apply (f_equal b64_quanta) in H. rewrite !b64_quanta_encode in H. by simplify_eq.
Qed.

(** Unpadded encoding of n bytes takes 4n/3 characters, rounded up. *)
Lemma b64_encode_len s : len (b64_encode s) = (4 * len s + 2) / 3.
Proof.
  revert s. fix IH 1. intros [|a [|b [|c r]]]; [done|done|done|].
  cbn [b64_encode]. rewrite !len_cons, IH. divlia.
Qed.

(** ** Hexadecimal text *)
Definition lower_hex (c : ascii) : bool := is_digit c || in_range 97 102 c.
Definition hex_text (n : nat) (s : string) : Prop := String.length s = n /\ all_chars lower_hex s = true.

Lemma hexchar_lower n : 0 <= n < 16 -> lower_hex (hexchar n) = true.
Proof.
  intros H. unfold lower_hex, hexchar, is_digit, in_range.
  destruct (Z.ltb_spec n 10); rewrite code_char by lia; apply orb_true_iff; [left|right]; bspec; lia.
Qed.

Lemma hex_encode_text s : hex_text (2 * String.length s) (hex_encode s).
Proof.
  induction s as [|c s [IH1 IH2]]; [done|]. pose proof (code_range c) as Hc. cbn [hex_encode String.length]. split; [cbn; lia|].
  cbn [all_chars]. rewrite !hexchar_lower, IH2 by divlia. done.
Qed.
