(* ===== verification/Exposition.v ===== *)
(** * The text of a metrics endpoint

    What [realm-node-attest/metrics.go] and [realm-identity-metrics/exporter.go]
    write: comments and samples, one to a line, label values quoted with
    [strconv.Quote] (the verb [%q]).  [scrape] reads such a text the way a
    collector does, and [scrape_render] shows that it finds the samples that were
    written and nothing else. *)

From S2P Require Import Prelude GoStrings GoFloat Encoding.

Open Scope Z_scope.
Open Scope go_scope.

Definition dquote : ascii := char 34.
Definition newline : ascii := char 10.
Definition backslash : ascii := char 92.

(** ** [strconv.Quote] *)
(** The escapes of the control characters [\a] to [\r]. *)
Definition control_escapes : list ascii := ["a"; "b"; "t"; "n"; "v"; "f"; "r"]%char.

Definition quote_char (c : ascii) : string :=
  if (c =? dquote) || (c =? backslash) then String backslash (String c "")
  else if in_range 32 126 c then String c ""
  else match control_escapes !! Z.to_nat (code c - 7) with
       | Some e => if 7 <=? code c then String backslash (String e "") else String backslash (String "x" (String "0" (String (hexchar (code c)) "")))
       | None => String backslash (String "x" (String (hexchar (code c / 16)) (String (hexchar (code c mod 16)) "")))
       end.

Fixpoint quote_body (s : string) : string :=
  match s with EmptyString => "" | String c s' => quote_char c +:+ quote_body s' end.

Definition is_ascii (c : ascii) : bool := code c <? 128.

(** A line of the text. *)
Record series := Series { se_name : string; se_labels : list (string * string); se_value : string }.

Inductive line := Comment (text : string) | Entry (s : series).

#[export] Instance series_eq_dec : EqDecision series.
Proof. solve_decision. Defined.

Section exposition.
(** How text beyond ASCII is quoted depends on the Unicode tables. *)
Variable quote_unicode : string -> string.

Definition go_quote (s : string) : string :=
  if all_chars is_ascii s then String dquote (quote_body s +:+ String dquote "") else quote_unicode s.

Definition label_text (l : string * string) : string := l.1 +:+ "=" +:+ go_quote l.2.

Definition sample_line (s : series) : string :=
  se_name s +:+ (match se_labels s with [] => "" | ls => "{" +:+ join "," (label_text <$> ls) +:+ "}" end) +:+
  " " +:+ se_value s +:+ String newline "".

Definition line_text (l : line) : string :=
  match l with Comment t => "#" +:+ t +:+ String newline "" | Entry s => sample_line s end.

Fixpoint render (doc : list line) : string :=
  match doc with [] => "" | l :: doc' => line_text l +:+ render doc' end.
End exposition.

(** ** Reading *)

(** The text of a label value up to its closing quote. *)
Fixpoint unquote (s : string) : option (string * string) :=
  match s with
  | EmptyString => None
  | String c s' =>
      if c =? dquote then Some ("", s')
      else if c =? backslash then
        match s' with
        | String d s'' =>
            c' ← (if (d =? dquote) || (d =? backslash) then Some d else if d =? "n"%char then Some newline else None);
            '(v, r) ← unquote s''; Some (String c' v, r)
        | EmptyString => None
        end
      else '(v, r) ← unquote s'; Some (String c v, r)
  end.

(** The labels after an opening brace, and what follows the closing one. *)
Fixpoint read_labels (fuel : nat) (s : string) : option (list (string * string) * string) :=
  match fuel with
  | O => None
  | S fuel' =>
      '(k, s1) ← cut "=" s;
      match s1 with
      | String q s2 =>
          if q <>? dquote then None else
          '(v, s3) ← unquote s2;
          match s3 with
          | String c s4 =>
              if c =? ","%char then '(ls, r) ← read_labels fuel' s4; Some ((k, v) :: ls, r)
              else if c =? "}"%char then Some ([(k, v)], s4) else None
          | EmptyString => None
          end
      | EmptyString => None
      end
  end.

Definition name_char (c : ascii) : bool := is_digit c || is_lower c || is_upper c || (c =? "_"%char) || (c =? ":"%char).

(** The longest name at the start. *)
Fixpoint read_name (s : string) : string * string :=
  match s with
  | String c s' => if name_char c then let '(n, r) := read_name s' in (String c n, r) else ("", s)
  | EmptyString => ("", "")
  end.

Definition read_sample (s : string) : option series :=
  let '(name, r) := read_name s in
  '(ls, r) ← match r with
             | String c r' => if c =? "{"%char then read_labels (String.length r') r' else Some ([], r)
             | EmptyString => None
             end;
  match r with
  | String c v => if c =? " "%char then Some (Series name ls v) else None
  | EmptyString => None
  end.

Definition is_data (l : string) : bool := (l <>? "") && negb (hasPrefix l "#").

Definition scrape (text : string) : option (list series) := mapM read_sample (filter (fun l => is_data l = true) (split newline text)).

(** ** Round trip *)
Definition printable (c : ascii) : bool := in_range 32 126 c.
Definition name_ok (s : string) : Prop := s <> "" /\ all_chars name_char s = true.
Definition word (s : string) : Prop := all_chars (fun c => c <>? newline) s = true.

(** Names are names, label values are printable, the value is on the line. *)
Definition series_ok (s : series) : Prop :=
  name_ok (se_name s) /\ Forall (fun l => name_ok l.1 /\ all_chars printable l.2 = true) (se_labels s) /\ word (se_value s).
Definition line_ok (l : line) : Prop := match l with Comment t => word t | Entry s => series_ok s end.
Definition samples_of (doc : list line) : list series := omap (fun l => match l with Entry s => Some s | Comment _ => None end) doc.

Lemma quote_printable c : printable c = true -> quote_char c = (if (c =? dquote) || (c =? backslash) then String backslash (String c "") else String c "").
Proof. unfold quote_char, printable. intros ->. done. Qed.

Lemma unquote_body s r : all_chars printable s = true -> unquote (quote_body s +:+ String dquote r) = Some (s, r).
Proof.
  induction s as [|c s IH]; intros H; cbn [quote_body all_chars] in *.
  - rewrite append_nil_l. cbn [unquote]. by rewrite bool_decide_true.
  - bprop. rewrite append_assoc, quote_printable by done. destruct ((c =? dquote) || (c =? backslash)) eqn:E.
    + rewrite !append_cons, append_nil_l. cbn [unquote]. change (bool_decide (backslash = dquote)) with false. change (bool_decide (backslash = backslash)) with true.
      cbv iota. rewrite E. cbn [mbind option_bind]. by rewrite IH.
    + apply orb_false_iff in E as [E1 E2]. rewrite append_cons, append_nil_l. cbn [unquote]. rewrite E1, E2, IH by done. done.
Qed.

Lemma ascii_printable s : all_chars printable s = true -> all_chars is_ascii s = true.
Proof. apply all_chars_impl. unfold printable, in_range, is_ascii. intros c H. bprop. bspec. lia. Qed.

Lemma name_no c s : name_char c = false -> all_chars name_char s = true -> all_chars (fun d => d <>? c) s = true.
Proof. intros Hc. apply all_chars_impl. intros d Hd. apply negb_true_iff, bool_decide_eq_false. intros ->. congruence. Qed.

Lemma read_name_app n r : all_chars name_char n = true -> (match r with String c _ => name_char c | EmptyString => false end) = false ->
  read_name (n +:+ r) = (n, r).
Proof.
  intros Hn Hr. induction n as [|c n IH]; cbn [all_chars] in *.
  - rewrite append_nil_l. destruct r as [|d r]; cbn [read_name]; [done|]. by rewrite Hr.
  - bprop. rewrite append_cons. cbn [read_name]. rewrite H, IH by done. done.
Qed.

Section round_trip.
Context (quote_unicode : string -> string).

Lemma read_label k v r : name_ok k -> all_chars printable v = true ->
  exists s2, cut "=" (label_text quote_unicode (k, v) +:+ r) = Some (k, String dquote s2) /\ unquote s2 = Some (v, r).
Proof.
  intros [_ Hk] Hv. unfold label_text, go_quote. cbn [fst snd]. rewrite ascii_printable by done. rewrite !append_assoc, !append_cons, append_nil_l.
  rewrite cut_app_no_sep by (by apply name_no). eexists. split; [done|]. rewrite append_assoc, append_cons, append_nil_l. by apply unquote_body.
Qed.

Lemma label_length l : (1 <= String.length (label_text quote_unicode l))%nat.
Proof. unfold label_text. rewrite !length_append. cbn. lia. Qed.

Lemma read_labels_join ls : forall fuel r, ls <> [] -> Forall (fun l => name_ok l.1 /\ all_chars printable l.2 = true) ls ->
  (String.length (join "," (label_text quote_unicode <$> ls)) <= fuel)%nat ->
  read_labels fuel (join "," (label_text quote_unicode <$> ls) +:+ String "}" r) = Some (ls, r).
Proof.
  induction ls as [|[k v] ls IH]; intros fuel r Hne HF Hfuel; [done|]. apply Forall_cons in HF as [[Hk Hv] HF].
  pose proof (label_length (k, v)) as Hlen. destruct ls as [|l ls].
  - cbn [fmap list_fmap join] in *. destruct fuel as [|fuel]; [lia|]. cbn [read_labels].
    destruct (read_label k v (String "}" r) Hk Hv) as (s2 & -> & Hu). cbn [mbind option_bind]. rewrite bool_decide_true by done. cbn [negb].
    rewrite Hu. done.
  - change (join "," (label_text quote_unicode <$> (k, v) :: l :: ls)) with
      (label_text quote_unicode (k, v) +:+ String "," (join "," (label_text quote_unicode <$> l :: ls))) in *.
    rewrite length_append in Hfuel. cbn [String.length] in Hfuel. rewrite append_assoc, append_cons. destruct fuel as [|fuel]; [lia|]. cbn [read_labels].
    destruct (read_label k v (String "," (join "," (label_text quote_unicode <$> l :: ls) +:+ String "}" r)) Hk Hv) as (s2 & -> & Hu).
    cbn [mbind option_bind]. rewrite bool_decide_true by done. cbn [negb]. rewrite Hu. cbn [mbind option_bind]. rewrite bool_decide_true by done.
    rewrite IH; [done..|lia].
Qed.

Definition sample_text (s : series) : string :=
  se_name s +:+ (match se_labels s with [] => "" | ls => "{" +:+ join "," (label_text quote_unicode <$> ls) +:+ "}" end) +:+ " " +:+ se_value s.

Lemma read_sample_text s : series_ok s -> read_sample (sample_text s) = Some s.
Proof.
  intros ([Hne Hn] & Hls & Hv). destruct s as [n ls v]. unfold sample_text, read_sample. cbn [se_name se_labels se_value] in *. destruct ls as [|l ls].
  - rewrite append_nil_l, read_name_app by done. done.
  - rewrite !append_assoc, append_cons, append_nil_l, read_name_app by done. cbn [bool_decide]. rewrite bool_decide_true by done.
    rewrite append_cons, append_nil_l, append_cons, append_nil_l. rewrite read_labels_join; [done..|]. rewrite length_append. lia.
Qed.

(** Lines have no newline of their own. *)
Lemma printable_no_newline s : all_chars printable s = true -> word s.
Proof.
  apply all_chars_impl. intros c H. apply negb_true_iff, bool_decide_eq_false. intros ->. discriminate H.
Qed.

Lemma word_append s t : word (s +:+ t) <-> word s /\ word t.
Proof. unfold word. rewrite all_chars_append. apply andb_true_iff. Qed.

Lemma word_quote v : all_chars printable v = true -> word (quote_body v).
Proof.
  induction v as [|c v IH]; intros H; [done|]. cbn [all_chars] in H. bprop. cbn [quote_body]. apply word_append. split; [|auto].
  rewrite quote_printable by done. apply printable_no_newline. destruct (_ || _); cbn [all_chars]; rewrite H; done.
Qed.

Lemma word_labels ls : Forall (fun l => name_ok l.1 /\ all_chars printable l.2 = true) ls -> word (join "," (label_text quote_unicode <$> ls)).
Proof.
  induction 1 as [|l ls [[_ Hk] Hv] HF IH]; [done|]. assert (Hl : word (label_text quote_unicode l)).
  { unfold label_text, go_quote. rewrite ascii_printable by done. rewrite !word_append. split_and!; [by apply name_no|done|].
    change (String dquote (quote_body l.2 +:+ String dquote "")) with (String dquote "" +:+ quote_body l.2 +:+ String dquote "").
    rewrite !word_append. split_and!; [done|by apply word_quote|done]. }
  destruct ls as [|l' ls]; [done|]. cbn [fmap list_fmap join] in IH |- *. rewrite !word_append. split_and!; done.
Qed.

Lemma word_sample s : series_ok s -> word (sample_text s).
Proof.
  intros ([_ Hn] & Hls & Hv). unfold sample_text. rewrite !word_append. split_and!; [by apply name_no| |done..].
  apply word_labels in Hls. destruct (se_labels s); [done|]. rewrite !word_append. done.
Qed.

Definition line_body (l : line) : string := match l with Comment t => "#" +:+ t | Entry s => sample_text s end.

Lemma line_text_body l : line_text quote_unicode l = line_body l +:+ String newline "".
Proof. destruct l as [t|s]; cbn [line_text line_body]; [by rewrite append_assoc|]. unfold sample_line, sample_text. by rewrite !append_assoc. Qed.

Lemma split_render doc : Forall line_ok doc -> split newline (render quote_unicode doc) = (line_body <$> doc) ++ [""].
Proof.
  induction 1 as [|l doc Hl HF IH]; [done|]. cbn [render fmap list_fmap app]. rewrite line_text_body, append_assoc, append_cons, append_nil_l.
  rewrite split_app_no_sep; [by rewrite IH|]. destruct l as [t|s]; cbn [line_ok line_body] in *; [by apply word_append|by apply word_sample].
Qed.

Lemma sample_is_data s : series_ok s -> is_data (sample_text s) = true.
Proof.
  intros ([Hne Hn] & _). unfold sample_text. destruct (se_name s) as [|c n]; [done|]. cbn [all_chars] in Hn. bprop.
  rewrite append_cons. unfold is_data. cbn [hasPrefix]. rewrite (bool_decide_false (c = "#"%char)); [done|]. intros ->. discriminate H.
Qed.

(** A scrape finds the samples of the document. *)
Lemma scrape_render doc : Forall line_ok doc -> scrape (render quote_unicode doc) = Some (samples_of doc).
Proof.
  intros HF. unfold scrape. rewrite split_render by done. rewrite filter_app. cbn [filter list_filter]. rewrite app_nil_r.
  induction HF as [|l doc Hl HF IH]; [done|]. cbn [fmap list_fmap samples_of omap list_omap]. rewrite filter_cons.
  destruct l as [t|s]; cbn [line_body line_ok] in *.
  - rewrite decide_False by done. exact IH.
  - rewrite decide_True by (by apply sample_is_data). cbn [mapM]. rewrite read_sample_text by done. cbn [mbind option_bind].
    fold (samples_of doc). rewrite IH. done.
Qed.
End round_trip.

(** ** Documents *)
Lemma render_app q a b : render q (a ++ b) = render q a +:+ render q b.
Proof. induction a as [|l a IH]; [done|]. cbn [render app]. by rewrite IH, append_assoc. Qed.

Lemma samples_app a b : samples_of (a ++ b) = samples_of a ++ samples_of b.
Proof. apply omap_app. Qed.

Lemma samples_of_samples l : samples_of (Entry <$> l) = l.
Proof. induction l as [|s l IH]; [done|]. change (s :: samples_of (Entry <$> l) = s :: l). by rewrite IH. Qed.

(** ** Values *)
Lemma word_itoa z : word (itoa z).
Proof.
  assert (Hd : forall n, 0 <= n -> word (itoa n)) by (intros n Hn; apply digits_without; [done|by apply itoa_digits]).
  destruct (decide (0 <= z)); [auto|]. unfold itoa. rewrite (proj2 (Z.ltb_lt z 0)) by lia. specialize (Hd (- z) ltac:(lia)). unfold itoa in Hd.
  rewrite (proj2 (Z.ltb_ge (- z) 0)) in Hd by lia. exact Hd.
Qed.

Lemma word_float f : word (formatFloat f).
Proof.
  eapply all_chars_impl; [|apply formatFloat_word]. intros c Hc. apply negb_true_iff, bool_decide_eq_false. intros ->. discriminate Hc.
Qed.

Lemma printable_float f : all_chars printable (formatFloat f) = true.
Proof. eapply all_chars_impl; [|apply formatFloat_word]. unfold word_char, printable, in_range. intros c H. bprop. apply andb_true_iff. bspec. lia. Qed.
