(* ===== verification/Regex.v ===== *)
(** * The regular expressions of the sources

    Go's [regexp] patterns in use are anchored and built from ASCII classes,
    so matching byte by byte is exact.  A pattern is a term of [regex];
    [matchString] runs it with Brzozowski derivatives; [matches] is its
    language, and the two agree. *)

From S2P Require Import Prelude GoStrings.

Open Scope Z_scope.
Open Scope go_scope.

Inductive regex :=
| RNone
| REps
| RCls (p : ascii -> bool)
| RSeq (r s : regex)
| RAlt (r s : regex)
| RStar (r : regex).

Inductive matches : regex -> string -> Prop :=
| MEps : matches REps ""
| MCls p c : p c = true -> matches (RCls p) (String c "")
| MSeq r s x y : matches r x -> matches s y -> matches (RSeq r s) (x +:+ y)
| MAltL r s x : matches r x -> matches (RAlt r s) x
| MAltR r s x : matches s x -> matches (RAlt r s) x
| MStarNil r : matches (RStar r) ""
| MStarApp r x y : matches r x -> matches (RStar r) y -> matches (RStar r) (x +:+ y).

(** Pattern syntax: [r?], [r+], [r{0,n}], a literal byte, a literal text. *)
Definition ropt (r : regex) : regex := RAlt REps r.
Definition rplus (r : regex) : regex := RSeq r (RStar r).
Fixpoint rupto (n : nat) (r : regex) : regex :=
  match n with
  | O => REps
  | S n' => ropt (RSeq r (rupto n' r))
  end.
Definition rchar (c : ascii) : regex := RCls (fun d => d =? c).
Fixpoint rlit (s : string) : regex :=
  match s with
  | EmptyString => REps
  | String c s' => RSeq (rchar c) (rlit s')
  end.

Fixpoint nullable (r : regex) : bool :=
  match r with
  | RNone | RCls _ => false
  | REps | RStar _ => true
  | RSeq r s => nullable r && nullable s
  | RAlt r s => nullable r || nullable s
  end.

Definition seq (r s : regex) : regex :=
  match r with RNone => RNone | REps => s | _ => RSeq r s end.
Definition alt (r s : regex) : regex :=
  match r with RNone => s | _ => match s with RNone => r | _ => RAlt r s end end.

Fixpoint deriv (c : ascii) (r : regex) : regex :=
  match r with
  | RNone | REps => RNone
  | RCls p => if p c then REps else RNone
  | RSeq r s => alt (seq (deriv c r) s) (if nullable r then deriv c s else RNone)
  | RAlt r s => alt (deriv c r) (deriv c s)
  | RStar r => seq (deriv c r) (RStar r)
  end.

Fixpoint matchString (r : regex) (s : string) : bool :=
  match s with
  | EmptyString => nullable r
  | String c s' => matchString (deriv c r) s'
  end.

Create HintDb regex.
#[export] Hint Constructors matches : regex.

(** ** Languages of the building blocks *)
Lemma matches_seq r s x : matches (RSeq r s) x <-> exists a b, x = a +:+ b /\ matches r a /\ matches s b.
Proof.
  split; [intros H; inversion H; subst; eauto|]. intros (a & b & -> & ? & ?). eauto with regex.
Qed.

Lemma matches_alt r s x : matches (RAlt r s) x <-> matches r x \/ matches s x.
Proof. split; [intros H; inversion H; auto|]. intros [H|H]; eauto with regex. Qed.

Lemma matches_eps x : matches REps x <-> x = "".
Proof. split; [by intros H; inversion H|]. intros ->. constructor. Qed.

Lemma matches_cls p x : matches (RCls p) x <-> exists c, x = String c "" /\ p c = true.
Proof. split; [intros H; inversion H; eauto|]. intros (c & -> & H). eauto with regex. Qed.

(** ** The matcher decides the language *)
Lemma nullable_spec r : nullable r = true <-> matches r "".
Proof.
  split.
  - induction r; simpl; intros H; bprop; eauto with regex; try discriminate.
    + apply (MSeq _ _ "" ""); auto.
    + apply orb_true_iff in H as [H|H]; eauto with regex.
  - remember "" as x eqn:Ex. induction 1; simpl; try done.
    + destruct x; [|discriminate Ex]. rewrite append_nil_l in Ex. subst. rewrite IHmatches1, IHmatches2; done.
    + by rewrite IHmatches.
    + rewrite IHmatches by done. apply orb_true_r.
Qed.

Lemma seq_spec r s x : matches (seq r s) x <-> matches (RSeq r s) x.
Proof.
  destruct r; simpl; try done; split; intros H.
  - inversion H.
  - inversion H as [| |? ? a b Ha Hb| | | |]; subst. inversion Ha.
  - rewrite <- (append_nil_l x). eauto with regex.
  - inversion H as [| |? ? a b Ha Hb| | | |]; subst. by inversion Ha; subst.
Qed.

Lemma alt_spec r s x : matches (alt r s) x <-> matches (RAlt r s) x.
Proof.
  assert (HN : forall x, ~ matches RNone x) by (intros ? H; inversion H).
  destruct r; destruct s; simpl; split; intros H; eauto with regex; inversion H; subst; try done;
    naive_solver.
Qed.

Lemma deriv_spec r c x : matches (deriv c r) x <-> matches r (String c x).
Proof.
  revert x. induction r as [| |p|r IHr s IHs|r IHr s IHs|r IHr]; intros x; simpl.
  - split; intros H; inversion H.
  - split; intros H; inversion H.
  - destruct (p c) eqn:E; split; intros H; inversion H; subst; eauto with regex; congruence.
  - rewrite alt_spec. split.
    + intros H. inversion H as [| | |? ? ? H'|? ? ? H'| |]; subst.
      * apply seq_spec in H'. inversion H' as [| |? ? a b Ha Hb| | | |]; subst.
        rewrite <- append_cons. constructor; [by apply IHr|done].
      * destruct (nullable r) eqn:E; [|inversion H']. apply nullable_spec in E.
        rewrite <- (append_nil_l (String c x)). constructor; [done|by apply IHs].
    + intros H. apply matches_seq in H as (a & b & E & Ha & Hb). destruct a as [|c' a].
      * rewrite append_nil_l in E; subst. apply MAltR. apply nullable_spec in Ha. rewrite Ha.
        by apply IHs.
      * rewrite append_cons in E. injection E as <- ->. apply MAltL, seq_spec.
        constructor; [by apply IHr|done].
  - rewrite alt_spec. split; intros H; inversion H; subst; naive_solver eauto with regex.
  - rewrite seq_spec. split.
    + intros H. inversion H as [| |? ? a b Ha Hb| | | |]; subst.
      rewrite <- append_cons. apply MStarApp; [by apply IHr|done].
    + remember (RStar r) as q eqn:Eq. remember (String c x) as y eqn:Ey. intros H.
      revert Eq x Ey. induction H as [| | | | |r'|r' a b Ha _ Hb IHb]; intros Eq z Ez; try discriminate.
      injection Eq as ->. destruct a as [|c' a].
      * rewrite append_nil_l in Ez. by apply IHb.
      * rewrite append_cons in Ez. injection Ez as -> <-. constructor; [by apply IHr|done].
Qed.

Lemma matchString_spec r s : matchString r s = true <-> matches r s.
Proof.
  revert r. induction s as [|c s IH]; intros r; simpl; [apply nullable_spec|].
  by rewrite IH, deriv_spec.
Qed.

Lemma matches_opt r x : matches (ropt r) x <-> x = "" \/ matches r x.
Proof. unfold ropt. by rewrite matches_alt, matches_eps. Qed.

Lemma matches_upto_cls p n x :
  matches (rupto n (RCls p)) x <-> (String.length x <= n)%nat /\ all_chars p x = true.
Proof.
  revert x. induction n as [|n IH]; intros x; simpl.
  - rewrite matches_eps. destruct x; simpl; split; naive_solver lia.
  - rewrite matches_opt, matches_seq. setoid_rewrite matches_cls. split.
    + intros [->|(a & b & -> & (c & -> & Hc) & Hb)]; [simpl; split; [lia|done]|].
      apply IH in Hb as [Hl Hb]. rewrite append_cons, append_nil_l. simpl. rewrite Hc. split; [lia|done].
    + intros [Hl Hx]. destruct x as [|c x]; [by left|]. right. simpl in *. bprop.
      exists (String c ""), x. split; [done|]. split; [eauto|]. apply IH. split; [lia|done].
Qed.

Lemma matches_star_cls p x : matches (RStar (RCls p)) x <-> all_chars p x = true.
Proof.
  split.
  - remember (RStar (RCls p)) as q eqn:Eq. induction 1 as [| | | | |r|r a b Ha _ Hb IHb]; try discriminate.
    + done.
    + injection Eq as ->. apply matches_cls in Ha as (c & -> & Hc).
      rewrite append_cons, append_nil_l. simpl. rewrite Hc. by apply IHb.
  - induction x as [|c x IH]; intros H; [constructor|]. simpl in H. bprop.
    change (String c x) with (String c "" +:+ x). eauto with regex.
Qed.

Lemma matches_lit t x : matches (rlit t) x <-> x = t.
Proof.
  revert x. induction t as [|c t IH]; intros x; simpl; [apply matches_eps|].
  rewrite matches_seq. unfold rchar. setoid_rewrite matches_cls. split.
  - intros (a & b & -> & (d & -> & Hd) & Hb). apply IH in Hb as ->. bprop. by subst.
  - intros ->. exists (String c ""), t. split; [done|]. split; [|by apply IH].
    exists c. split; [done|]. by apply bool_decide_eq_true.
Qed.

(** [^[first](?:[mid]{0,n}[last])?$]: the shape of the label patterns. *)
Definition rlabel (ends mid : ascii -> bool) (n : nat) : regex :=
  RSeq (RCls ends) (ropt (RSeq (rupto n (RCls mid)) (RCls ends))).

(** The last byte of a string, if any. *)
Fixpoint last_char (s : string) : option ascii :=
  match s with
  | EmptyString => None
  | String c EmptyString => Some c
  | String _ s' => last_char s'
  end.

Definition head_char (s : string) : option ascii :=
  match s with EmptyString => None | String c _ => Some c end.

Lemma last_char_app s c : last_char (s +:+ String c "") = Some c.
Proof.
  induction s as [|d s IH]; [done|]. rewrite append_cons.
  destruct (s +:+ String c "") eqn:E; [destruct s; discriminate E|]. exact IH.
Qed.

Lemma last_char_inv s c : last_char s = Some c -> exists p, s = p +:+ String c "".
Proof.
  induction s as [|d s IH]; [done|]. destruct s as [|e s].
  - intros [= ->]. by exists "".
  - intros H. destruct (IH H) as [p Hp]. exists (String d p). by rewrite append_cons, <- Hp.
Qed.

(** A label: between one and [n + 2] bytes, all in [mid] or [ends], the first
    and the last in [ends]. *)
Lemma matches_label ends mid n x :
  (forall c, ends c = true -> mid c = true) ->
  matches (rlabel ends mid n) x <->
  (1 <= String.length x <= n + 2)%nat /\ all_chars mid x = true /\
  (exists c, head_char x = Some c /\ ends c = true) /\
  (exists c, last_char x = Some c /\ ends c = true).
Proof.
  intros Hsub. unfold rlabel. rewrite matches_seq. setoid_rewrite matches_opt.
  setoid_rewrite matches_seq. setoid_rewrite matches_upto_cls. setoid_rewrite matches_cls. split.
  - intros (a & b & -> & (c & -> & Hc) & [->|(m & z & -> & (Hl & Hm) & (d & -> & Hd))]).
    + rewrite append_nil_r. simpl. rewrite Hsub by done. split_and!; eauto; lia.
    + rewrite append_cons, append_nil_l. simpl String.length. rewrite length_append. simpl.
      rewrite all_chars_append. simpl. rewrite (Hsub c Hc), (Hsub d Hd), Hm.
      split_and!; [lia|lia|done|eauto|]. exists d. split; [|done].
      change (last_char (String c m +:+ String d "") = Some d). apply last_char_app.
  - intros ([Hl1 Hl2] & Hall & (c & Hc & Hce) & (d & Hd & Hde)).
    destruct x as [|c' x]; [done|]. simpl in Hc. injection Hc as ->.
    exists (String c ""), x. split; [done|]. split; [eauto|].
    destruct x as [|c' x]; [by left|]. right.
    destruct (last_char_inv (String c' x) d Hd) as [p Hp].
    exists p, (String d ""). split; [done|].
    cbn [all_chars] in Hall. apply andb_true_iff in Hall as [_ Hall].
    change (all_chars mid (String c' x) = true) in Hall.
    pose proof (f_equal String.length Hp) as Hlen. rewrite length_append in Hlen. simpl in Hlen, Hl2.
    rewrite Hp, all_chars_append in Hall. bprop.
    split; [split; [lia|done]|eauto].
Qed.
