(* ===== verification/Json.v ===== *)
(** * [encoding/json]: scanner, [Unmarshal] into structs, [Marshal]

    Documents are byte strings.  [parse] is the grammar of Go's scanner
    (RFC 8259, nesting at most 10000), [unquote] its string literals (escapes,
    surrogate pairs, U+FFFD for malformed UTF-8).  Decoding into a struct is a
    fold over the members: a member is matched to a field by its exact name,
    then by its case-folded name; a later duplicate overwrites an earlier one;
    [null] leaves a field as it was; an unknown member is an error under
    [DisallowUnknownFields] and skipped otherwise.  A decoder takes the value
    the target had before and returns [None] when Go reports an error. *)

From S2P Require Import Prelude GoStrings.

Open Scope Z_scope.
Open Scope go_scope.

Inductive json :=
| JNull
| JBool (b : bool)
| JNum (lit : string)
| JStr (s : string)
| JArr (l : list json)
| JObj (l : list (string * json)).

(** ** Text *)
Definition is_ws (c : ascii) : bool :=
  (code c =? 32) || (code c =? 9) || (code c =? 13) || (code c =? 10).

Fixpoint skip_ws (s : string) : string :=
  match s with
  | String c s' => if is_ws c then skip_ws s' else s
  | EmptyString => EmptyString
  end.

(** *** UTF-8 *)
Definition cont (c : ascii) : bool := in_range 128 191 c.

(** The bytes of a well-formed multi-byte sequence at the head, if any. *)
Definition utf8_seq (s : string) : option (string * string) :=
  match s with
  | String a (String b r) =>
      if in_range 194 223 a && cont b then Some (String a (String b ""), r) else
      match r with
      | String c r' =>
          if (code a =? 224) && in_range 160 191 b && cont c
             || (in_range 225 236 a || in_range 238 239 a) && cont b && cont c
             || (code a =? 237) && in_range 128 159 b && cont c
          then Some (String a (String b (String c "")), r') else
          match r' with
          | String d r'' =>
              if (code a =? 240) && in_range 144 191 b && cont c && cont d
                 || in_range 241 243 a && cont b && cont c && cont d
                 || (code a =? 244) && in_range 128 143 b && cont c && cont d
              then Some (String a (String b (String c (String d ""))), r'') else None
          | _ => None
          end
      | _ => None
      end
  | _ => None
  end.

Fixpoint valid_utf8 (fuel : nat) (s : string) : bool :=
  match fuel, s with
  | S fuel', String c r =>
      if code c <? 128 then valid_utf8 fuel' r else match utf8_seq s with Some (_, rest) => valid_utf8 fuel' rest | None => false end
  | _, _ => true
  end.
Definition is_utf8 (s : string) : bool := valid_utf8 (String.length s) s.

(** U+FFFD. *)
Definition replacement : string := String (char 239) (String (char 191) (String (char 189) "")).

(** [utf8.EncodeRune]. *)
Definition encode_rune (r : Z) : string :=
  if r <? 128 then String (char r) ""
  else if r <? 2048 then String (char (192 + r / 64)) (String (char (128 + r mod 64)) "")
  else if r <? 65536 then
    String (char (224 + r / 4096)) (String (char (128 + r / 64 mod 64)) (String (char (128 + r mod 64)) ""))
  else
    String (char (240 + r / 262144)) (String (char (128 + r / 4096 mod 64))
      (String (char (128 + r / 64 mod 64)) (String (char (128 + r mod 64)) ""))).

(** The four hexadecimal digits of a [\u] escape. *)
Definition hex4 (s : string) : option (Z * string) :=
  match s with
  | String a (String b (String c (String d r))) =>
      w ← hexval a; x ← hexval b; y ← hexval c; z ← hexval d;
      Some (((w * 16 + x) * 16 + y) * 16 + z, r)
  | _ => None
  end.

Definition is_high (r : Z) : bool := (55296 <=? r) && (r <? 56320).
Definition is_low (r : Z) : bool := (56320 <=? r) && (r <? 57344).

Definition simple_escape (c : ascii) : option ascii :=
  if c =? "b"%char then Some (char 8)
  else if c =? "f"%char then Some (char 12)
  else if c =? "n"%char then Some (char 10)
  else if c =? "r"%char then Some (char 13)
  else if c =? "t"%char then Some (char 9)
  else if (c =? char 34) || (c =? char 92) || (c =? char 47) then Some c
  else None.

(** The rest of a string literal after its opening quote. *)
Fixpoint unquote (fuel : nat) (s : string) : option (string * string) :=
  match fuel with
  | O => None
  | S fuel' =>
      match s with
      | EmptyString => None
      | String c r =>
          if code c =? 34 then Some ("", r)
          else if code c =? 92 then
            match r with
            | EmptyString => None
            | String e r' =>
                if e =? "u"%char then
                  '(u, r2) ← hex4 r';
                  if is_high u || is_low u then
                    match r2 with
                    | String b1 (String b2 r3) =>
                        match (if (code b1 =? 92) && (b2 =? "u"%char) then hex4 r3 else None) with
                        | Some (v, r4) =>
                            if is_high u && is_low v then
                              '(t, rest) ← unquote fuel' r4;
                              Some (encode_rune (65536 + (u - 55296) * 1024 + (v - 56320)) +:+ t, rest)
                            else '(t, rest) ← unquote fuel' r2; Some (replacement +:+ t, rest)
                        | None => '(t, rest) ← unquote fuel' r2; Some (replacement +:+ t, rest)
                        end
                    | _ => '(t, rest) ← unquote fuel' r2; Some (replacement +:+ t, rest)
                    end
                  else '(t, rest) ← unquote fuel' r2; Some (encode_rune u +:+ t, rest)
                else
                  x ← simple_escape e;
                  '(t, rest) ← unquote fuel' r';
                  Some (String x t, rest)
            end
          else if code c <? 32 then None
          else if code c <? 128 then
            '(t, rest) ← unquote fuel' r; Some (String c t, rest)
          else match utf8_seq s with
               | Some (bytes, r') => '(t, rest) ← unquote fuel' r'; Some (bytes +:+ t, rest)
               | None => '(t, rest) ← unquote fuel' r; Some (replacement +:+ t, rest)
               end
      end
  end.

Definition string_lit (s : string) : option (string * string) := unquote (S (String.length s)) s.
Arguments string_lit : simpl never.

(** *** Numbers *)
Fixpoint span_digits (s : string) : string * string :=
  match s with
  | String c s' => if is_digit c then let '(d, r) := span_digits s' in (String c d, r) else ("", s)
  | EmptyString => ("", "")
  end.

Definition digits1 (s : string) : option (string * string) :=
  let '(d, r) := span_digits s in if d =? "" then None else Some (d, r).

Definition int_part (s : string) : option (string * string) :=
  match s with
  | String c r =>
      if c =? "0"%char then Some (String c "", r)
      else if in_range 49 57 c then let '(d, r') := span_digits r in Some (String c d, r')
      else None
  | EmptyString => None
  end.

Definition frac_part (s : string) : option (string * string) :=
  match s with
  | String c r => if c =? "."%char then '(d, r') ← digits1 r; Some (String c d, r') else Some ("", s)
  | EmptyString => Some ("", "")
  end.

Definition exp_part (s : string) : option (string * string) :=
  match s with
  | String c r =>
      if (c =? "e"%char) || (c =? "E"%char) then
        match r with
        | String d r' =>
            if (d =? "+"%char) || (d =? "-"%char)
            then '(x, rest) ← digits1 r'; Some (String c (String d x), rest)
            else '(x, rest) ← digits1 r; Some (String c x, rest)
        | EmptyString => None
        end
      else Some ("", s)
  | EmptyString => Some ("", "")
  end.

Definition number_lit (s : string) : option (string * string) :=
  let '(sign, s0) := match s with
    | String c r => if c =? "-"%char then (String c "", r) else ("", s)
    | EmptyString => ("", s)
    end in
  '(i, s1) ← int_part s0; '(f, s2) ← frac_part s1; '(e, s3) ← exp_part s2;
  Some (sign +:+ i +:+ f +:+ e, s3).

(** ** Values *)
Definition maxNestingDepth : Z := 10000.

Fixpoint value (fuel : nat) (depth : Z) (s : string) : option (json * string) :=
  match fuel with
  | O => None
  | S fuel' =>
      match skip_ws s with
      | EmptyString => None
      | String c r =>
          if c =? "{"%char then
            if maxNestingDepth <=? depth then None else
            match skip_ws r with
            | String d r' =>
                if d =? "}"%char then Some (JObj [], r')
                else '(l, rest) ← members fuel' (depth + 1) (String d r'); Some (JObj l, rest)
            | EmptyString => None
            end
          else if c =? "["%char then
            if maxNestingDepth <=? depth then None else
            match skip_ws r with
            | String d r' =>
                if d =? "]"%char then Some (JArr [], r')
                else '(l, rest) ← elements fuel' (depth + 1) (String d r'); Some (JArr l, rest)
            | EmptyString => None
            end
          else if code c =? 34 then '(t, rest) ← string_lit r; Some (JStr t, rest)
          else if hasPrefix (String c r) "true" then Some (JBool true, drop 3 r)
          else if hasPrefix (String c r) "false" then Some (JBool false, drop 4 r)
          else if hasPrefix (String c r) "null" then Some (JNull, drop 3 r)
          else '(n, rest) ← number_lit (String c r); Some (JNum n, rest)
      end
  end
with elements (fuel : nat) (depth : Z) (s : string) : option (list json * string) :=
  match fuel with
  | O => None
  | S fuel' =>
      '(v, s1) ← value fuel' depth s;
      match skip_ws s1 with
      | String c r =>
          if c =? ","%char then '(l, rest) ← elements fuel' depth r; Some (v :: l, rest)
          else if c =? "]"%char then Some ([v], r)
          else None
      | EmptyString => None
      end
  end
with members (fuel : nat) (depth : Z) (s : string) : option (list (string * json) * string) :=
  match fuel with
  | O => None
  | S fuel' =>
      match skip_ws s with
      | String q r =>
          if code q =? 34 then
            '(k, s1) ← string_lit r;
            match skip_ws s1 with
            | String c s2 =>
                if c =? ":"%char then
                  '(v, s3) ← value fuel' depth s2;
                  match skip_ws s3 with
                  | String d r' =>
                      if d =? ","%char
                      then '(l, rest) ← members fuel' depth r'; Some ((k, v) :: l, rest)
                      else if d =? "}"%char then Some ([(k, v)], r')
                      else None
                  | EmptyString => None
                  end
                else None
            | EmptyString => None
            end
          else None
      | EmptyString => None
      end
  end.

(** One value at the head of a stream; every nested call consumes a byte of
    the input or descends once more, so twice the length is enough fuel. *)
Definition parse (s : string) : option (json * string) :=
  value (2 * String.length s + 2) 0 s.

(** [json.Unmarshal]: one value and nothing but white space after it. *)
Definition parse_all (s : string) : option json :=
  '(v, rest) ← parse s;
  if skip_ws rest =? "" then Some v else None.

(** ** Decoding into Go values *)
Definition decoder (A : Type) := A -> json -> option A.

Definition dec_string : decoder string := fun old v =>
  match v with JStr s => Some s | JNull => Some old | _ => None end.

Definition dec_bool : decoder bool := fun old v =>
  match v with JBool b => Some b | JNull => Some old | _ => None end.

Definition dec_int : decoder Z := fun old v =>
  match v with JNum n => atoi n | JNull => Some old | _ => None end.

Definition dec_uint16 : decoder Z := fun old v =>
  match v with JNum n => parseUint 16 n | JNull => Some old | _ => None end.

(** A JSON array decodes element by element over the old elements. *)
Fixpoint dec_elems {A} (dec : decoder A) (zero : A) (old : list A) (l : list json) : option (list A) :=
  match l with
  | [] => Some []
  | v :: l' =>
      x ← dec (List.hd zero old) v;
      xs ← dec_elems dec zero (List.tl old) l';
      Some (x :: xs)
  end.

Definition dec_slice {A} (dec : decoder A) (zero : A) : decoder (list A) := fun old v =>
  match v with
  | JArr l => dec_elems dec zero old l
  | JNull => Some []
  | _ => None
  end.

(** A JSON object decodes into a map; each element starts from zero. *)
Fixpoint dec_entries {A} (dec : decoder A) (zero : A) (m : gmap string A)
    (l : list (string * json)) : option (gmap string A) :=
  match l with
  | [] => Some m
  | (k, v) :: l' => x ← dec zero v; dec_entries dec zero (<[k := x]> m) l'
  end.

Definition dec_map {A} (dec : decoder A) (zero : A) : decoder (gmap string A) := fun old v =>
  match v with
  | JObj l => dec_entries dec zero old l
  | JNull => Some ∅
  | _ => None
  end.

(** A pointer: [null] sets it to nil, anything else allocates and decodes. *)
Definition dec_ptr {A} (dec : decoder A) (zero : A) : decoder (option A) := fun old v =>
  match v with
  | JNull => Some None
  | _ => x ← dec (default zero old) v; Some (Some x)
  end.

(** [foldName]: ASCII letters to upper case; U+017F and U+212A are the only
    other runes whose fold is an ASCII letter. *)
Fixpoint fold_name (s : string) : string :=
  match s with
  | EmptyString => ""
  | String a r =>
      if is_lower a then String (char (code a - 32)) (fold_name r) else
      match r with
      | String b r' =>
          if (code a =? 197) && (code b =? 191) then String "S" (fold_name r') else
          match r' with
          | String c r'' =>
              if (code a =? 226) && (code b =? 132) && (code c =? 170)
              then String "K" (fold_name r'') else String a (fold_name r)
          | EmptyString => String a (fold_name r)
          end
      | EmptyString => String a (fold_name r)
      end
  end.

(** A struct field: its JSON name and how a value is stored in it. *)
Definition field (A : Type) : Type := string * (A -> json -> option A).

Definition mk_field {A B} (name : string) (get : A -> B) (set : A -> B -> A) (dec : decoder B) : field A :=
  (name, fun old v => x ← dec (get old) v; Some (set old x)).

Definition find_field {A} (fields : list (field A)) (key : string) : option (A -> json -> option A) :=
  match List.find (fun f => f.1 =? key) fields with
  | Some f => Some f.2
  | None => snd <$> List.find (fun f => fold_name f.1 =? fold_name key) fields
  end.

Fixpoint dec_members {A} (strict : bool) (fields : list (field A)) (old : A)
    (l : list (string * json)) : option A :=
  match l with
  | [] => Some old
  | (k, v) :: l' =>
      match find_field fields k with
      | Some set => x ← set old v; dec_members strict fields x l'
      | None => if strict then None else dec_members strict fields old l'
      end
  end.

Definition dec_struct {A} (strict : bool) (fields : list (field A)) : decoder A := fun old v =>
  match v with
  | JObj l => dec_members strict fields old l
  | JNull => Some old
  | _ => None
  end.

(** What every field keeps, decoding a struct keeps. *)
Definition keeps {A} (P : A -> Prop) (f : field A) : Prop :=
  forall old v x, P old -> f.2 old v = Some x -> P x.

Lemma find_field_In {A} (fields : list (field A)) key set :
  find_field fields key = Some set -> exists f, In f fields /\ f.2 = set.
Proof.
  unfold find_field. destruct (List.find (fun f => f.1 =? key) fields) as [f|] eqn:E.
  - intros [= <-]. apply find_some in E as [? _]. eauto.
  - intros H. apply fmap_Some in H as (f & Hf & ->). apply find_some in Hf as [? _]. eauto.
Qed.

Lemma dec_struct_keeps {A} (P : A -> Prop) strict (fields : list (field A)) :
  (forall f, In f fields -> keeps P f) ->
  forall old v x, P old -> dec_struct strict fields old v = Some x -> P x.
Proof.
  intros Hf old v x Hold. destruct v as [| | | | |l]; try discriminate; [by intros [= <-]|]. simpl.
  revert old Hold. induction l as [|[k v] l IH]; intros old Hold; simpl; [by intros [= <-]|].
  destruct (find_field fields k) as [set|] eqn:Ek.
  - intros H. apply bind_Some in H as (y & Hy & H). apply find_field_In in Ek as (f & Hin & <-).
    apply (IH y); [|done]. by apply (Hf f Hin old v).
  - destruct strict; [discriminate|]. by apply IH.
Qed.

Lemma mk_field_keeps {A B} (P : A -> Prop) name (get : A -> B) set dec :
  (forall old v x, P old -> dec (get old) v = Some x -> P (set old x)) ->
  keeps P (mk_field name get set dec).
Proof.
  intros H old v x Hold Hx. apply bind_Some in Hx as (y & Hy & [= <-]). eauto.
Qed.

Lemma dec_elems_Forall {A} (P : A -> Prop) (dec : decoder A) zero l : forall old k,
  P zero -> (forall old v x, P old -> dec old v = Some x -> P x) -> Forall P old ->
  dec_elems dec zero old l = Some k -> Forall P k.
Proof.
  induction l as [|v l IH]; intros old k Hz Hd Ho H; simpl in H; [by injection H as <-|].
  apply bind_Some in H as (x & Hx & H). apply bind_Some in H as (xs & Hxs & [= <-]). constructor.
  - apply (Hd (List.hd zero old) v); [|done]. destruct Ho; done.
  - apply (IH (List.tl old)); try done. destruct Ho; done.
Qed.

Lemma dec_slice_Forall {A} (P : A -> Prop) (dec : decoder A) zero old v k :
  P zero -> (forall old v x, P old -> dec old v = Some x -> P x) -> Forall P old ->
  dec_slice dec zero old v = Some k -> Forall P k.
Proof.
  intros Hz Hd Ho H. destruct v; try discriminate H; simpl in H; [by injection H as <-|].
  by eapply dec_elems_Forall.
Qed.

Lemma dec_uint16_range old v x : 0 <= old < 65536 -> dec_uint16 old v = Some x -> 0 <= x < 65536.
Proof.
  intros Ho H. destruct v; try discriminate H; simpl in H; [by injection H as <-|].
  by apply (parseUint_range 16) in H.
Qed.

(** ** [json.Marshal] *)
Definition hexdigit (n : Z) : ascii := if n <? 10 then char (48 + n) else char (87 + n).

Definition u_escape (n : Z) : string :=
  String (char 92) (String "u" (String (hexdigit (n / 4096)) (String (hexdigit (n / 256 mod 16))
    (String (hexdigit (n / 16 mod 16)) (String (hexdigit (n mod 16)) ""))))).

Definition escape_ascii (c : ascii) : string :=
  let backslash d := String (char 92) (String d "") in
  if code c =? 34 then backslash c
  else if code c =? 92 then backslash c
  else if code c =? 8 then backslash "b"%char
  else if code c =? 12 then backslash "f"%char
  else if code c =? 10 then backslash "n"%char
  else if code c =? 13 then backslash "r"%char
  else if code c =? 9 then backslash "t"%char
  else if (code c <? 32) || (code c =? 60) || (code c =? 62) || (code c =? 38)
  then u_escape (code c)
  else String c "".

(** U+2028 and U+2029 are escaped, malformed UTF-8 becomes U+FFFD, escaped. *)
Fixpoint quote_body (fuel : nat) (s : string) : string :=
  match fuel with
  | O => ""
  | S fuel' =>
      match s with
      | EmptyString => ""
      | String c r =>
          if code c <? 128 then escape_ascii c +:+ quote_body fuel' r
          else match utf8_seq s with
               | Some (bytes, r') =>
                   (if bytes =? encode_rune 8232 then u_escape 8232
                    else if bytes =? encode_rune 8233 then u_escape 8233 else bytes)
                   +:+ quote_body fuel' r'
               | None => u_escape 65533 +:+ quote_body fuel' r
               end
      end
  end.

Definition quote (s : string) : string :=
  String (char 34) (quote_body (S (String.length s)) s +:+ String (char 34) "").

Fixpoint marshal (v : json) : string :=
  match v with
  | JNull => "null"
  | JBool true => "true"
  | JBool false => "false"
  | JNum n => n
  | JStr s => quote s
  | JArr l => "[" +:+ join "," (marshal <$> l) +:+ "]"
  | JObj l => "{" +:+ join "," ((fun kv => quote kv.1 +:+ ":" +:+ marshal kv.2) <$> l) +:+ "}"
  end.

(** ** Round trip of plain documents

    Printable ASCII without the characters [Marshal] escapes, and
    non-negative integers: what the attestation documents are made of. *)
Definition plain (c : ascii) : bool :=
  in_range 32 127 c && (code c <>? 34) && (code c <>? 92) &&
  (code c <>? 60) && (code c <>? 62) && (code c <>? 38).

Fixpoint plainv (v : json) : Prop :=
  match v with
  | JNum n => exists z, 0 <= z /\ n = itoa z
  | JStr s => all_chars plain s = true
  | JArr l => foldr (fun v P => plainv v /\ P) True l
  | JObj l => foldr (fun kv P => all_chars plain kv.1 = true /\ plainv kv.2 /\ P) True l
  | _ => True
  end.

(** Texts of any UTF-8, and non-negative integers. *)
Fixpoint textv (v : json) : Prop :=
  match v with
  | JNum n => exists z, 0 <= z /\ n = itoa z
  | JStr s => is_utf8 s = true
  | JArr l => foldr (fun v P => textv v /\ P) True l
  | JObj l => foldr (fun kv P => is_utf8 kv.1 = true /\ textv kv.2 /\ P) True l
  | _ => True
  end.

Fixpoint jsize (v : json) : nat :=
  match v with
  | JArr l => S (sum_list_with (fun v => S (jsize v)) l)
  | JObj l => S (sum_list_with (fun kv => S (jsize kv.2)) l)
  | _ => 1
  end.

Fixpoint jheight (v : json) : Z :=
  match v with
  | JArr l => 1 + foldr Z.max 0 (jheight <$> l)
  | JObj l => 1 + foldr Z.max 0 ((fun kv => jheight kv.2) <$> l)
  | _ => 0
  end.

(** What may follow a number without continuing it. *)
Definition delimited (rest : string) : bool :=
  match rest with
  | EmptyString => true
  | String c _ => (c =? ","%char) || (c =? "}"%char) || (c =? "]"%char) || (c =? char 10)
  end.

Section json_induction.
Variable P : json -> Prop.
Hypothesis HNull : P JNull.
Hypothesis HBool : forall b, P (JBool b).
Hypothesis HNum : forall n, P (JNum n).
Hypothesis HStr : forall s, P (JStr s).
Hypothesis HArr : forall l, Forall P l -> P (JArr l).
Hypothesis HObj : forall l, Forall (fun kv => P kv.2) l -> P (JObj l).

Lemma json_induction : forall v, P v.
Proof.
  fix IH 1. intros [|b|n|s|l|l]; [apply HNull|apply HBool|apply HNum|apply HStr|apply HArr|apply HObj].
  - induction l; constructor; auto.
  - induction l as [|[k v] l]; constructor; auto.
Qed.
End json_induction.

Lemma plain_escape c : plain c = true -> code c < 128 /\ escape_ascii c = String c "".
Proof.
  unfold plain, in_range. intros H. bprop. split; [lia|].
  unfold escape_ascii. rewrite !bool_decide_false by lia. simpl orb.
  by rewrite (proj2 (Z.ltb_ge (code c) 32)) by lia.
Qed.

Lemma quote_body_plain fuel s :
  all_chars plain s = true -> (String.length s < fuel)%nat -> quote_body fuel s = s.
Proof.
  revert fuel. induction s as [|c s IH]; intros [|fuel] H Hf; simpl in *; [lia|done|lia|].
  bprop. destruct (plain_escape c) as [Hc ->]; [done|].
  rewrite (proj2 (Z.ltb_lt (code c) 128)) by lia. rewrite IH by (done || lia). done.
Qed.

Lemma quote_plain s :
  all_chars plain s = true -> quote s = String (char 34) (s +:+ String (char 34) "").
Proof. intros H. unfold quote. rewrite quote_body_plain by (done || lia). done. Qed.

Lemma unquote_plain fuel s rest :
  all_chars plain s = true -> (String.length s < fuel)%nat ->
  unquote fuel (s +:+ String (char 34) rest) = Some (s, rest).
Proof.
  revert fuel. induction s as [|c s IH]; intros [|fuel] H Hf; simpl in *; [lia|done|lia|].
  unfold plain at 1, in_range in H. bprop. rewrite !bool_decide_false by lia.
  rewrite (proj2 (Z.ltb_ge (code c) 32)) by lia. rewrite IH by (done || lia). simpl.
  destruct (code c <? 128) eqn:E; [done|]. bprop. exfalso.
  assert (code c = 127 \/ code c < 127) by lia. lia.
Qed.

Lemma string_lit_plain s rest :
  all_chars plain s = true -> string_lit (s +:+ String (char 34) rest) = Some (s, rest).
Proof. intros H. apply unquote_plain; [done|]. rewrite length_append. lia. Qed.

Lemma digit_cases c : is_digit c = true ->
  c ∈ (["0"; "1"; "2"; "3"; "4"; "5"; "6"; "7"; "8"; "9"]%char : list ascii).
Proof.
  unfold is_digit, in_range. intros H. bprop. rewrite <- (char_code c).
  assert (Hk : exists k : nat, (k < 10)%nat /\ code c = 48 + Z.of_nat k).
  { exists (Z.to_nat (code c - 48)). lia. }
  destruct Hk as (k & Hk & ->).
  do 10 (destruct k as [|k]; [vm_compute; set_solver|]). lia.
Qed.

Lemma span_digits_app d rest :
  all_chars is_digit d = true ->
  match rest with String c _ => is_digit c = false | EmptyString => True end ->
  span_digits (d +:+ rest) = (d, rest).
Proof.
  induction d as [|c d IH]; intros Hd Hr; simpl in *.
  - destruct rest as [|c r]; [done|]. simpl. by rewrite Hr.
  - bprop. rewrite H, IH by done. done.
Qed.

Lemma delimited_cases rest : delimited rest = true ->
  rest = "" \/ exists c r, rest = String c r /\ c ∈ [","%char; "}"%char; "]"%char; char 10].
Proof.
  destruct rest as [|c r]; [by left|]. simpl. intros H. right. exists c, r. split; [done|].
  rewrite !orb_true_iff, !bool_decide_eq_true in H. set_solver.
Qed.

Lemma number_lit_itoa z rest :
  0 <= z -> delimited rest = true -> number_lit (itoa z +:+ rest) = Some (itoa z, rest).
Proof.
  intros Hz Hr.
  assert (Hrest : frac_part rest = Some ("", rest) /\ exp_part rest = Some ("", rest) /\
    match rest with String c _ => is_digit c = false | EmptyString => True end).
  { apply delimited_cases in Hr as [->|(c & r & -> & Hc)]; [done|].
    repeat (apply elem_of_cons in Hc as [->|Hc]; [done|]). by apply elem_of_nil in Hc. }
  destruct Hrest as (Hf & He & Hd). unfold number_lit.
  destruct (decide (z = 0)) as [->|Hnz].
  { change (itoa 0 +:+ rest) with (String "0" rest). simpl. rewrite Hf. simpl. rewrite He. done. }
  destruct (itoa_head z) as (d & ds & Ei & Hdr); [lia|].
  pose proof (itoa_digits z Hz) as Hdig. rewrite Ei in *. simpl in Hdig. bprop.
  rewrite append_cons. destruct (digit_not_sign _ H) as [_ Hm].
  rewrite bool_decide_false by done. simpl.
  rewrite bool_decide_false.
  2: { intros E. apply (f_equal code) in E. rewrite code_char in E by lia.
       change (code "0") with 48 in E. lia. }
  assert (Hin : in_range 49 57 (char (48 + d)) = true).
  { unfold in_range. rewrite code_char by lia. apply andb_true_iff; split; apply Z.leb_le; lia. }
  rewrite Hin, span_digits_app by done. simpl. rewrite Hf. simpl. rewrite He. simpl.
  by rewrite !append_nil_r.
Qed.

Lemma value_digit fuel depth c r :
  is_digit c = true ->
  value (S fuel) depth (String c r) = ('(n, rest) ← number_lit (String c r); Some (JNum n, rest)).
Proof.
  intros H. apply digit_cases in H.
  repeat (apply elem_of_cons in H as [->|H]; [done|]). by apply elem_of_nil in H.
Qed.

(** *** Strings *)
Lemma hexval_hexdigit n : 0 <= n < 16 -> hexval (hexdigit n) = Some n.
Proof.
  intros H. assert (Hin : n ∈ Z.of_nat <$> seq 0 16).
  { apply list_elem_of_fmap. exists (Z.to_nat n). split; [lia|]. apply elem_of_seq. lia. }
  repeat (apply elem_of_cons in Hin as [-> | Hin]; [reflexivity|]). by apply elem_of_nil in Hin.
Qed.

Lemma hex4_u_escape n tail : 0 <= n < 65536 ->
  hex4 (String (hexdigit (n / 4096)) (String (hexdigit (n / 256 mod 16)) (String (hexdigit (n / 16 mod 16))
    (String (hexdigit (n mod 16)) tail)))) = Some (n, tail).
Proof.
  intros H. unfold hex4. rewrite !hexval_hexdigit by (Z.to_euclidean_division_equations; lia). cbn [mbind option_bind].
  do 2 f_equal. Z.to_euclidean_division_equations; lia.
Qed.

(** What an escape stands for. *)
Lemma unquote_u fuel n tail : 0 <= n < 55296 ->
  unquote (S fuel) (u_escape n +:+ tail) = ('(t, rest) ← unquote fuel tail; Some (encode_rune n +:+ t, rest)).
Proof.
  intros H. unfold u_escape. rewrite !append_cons, append_nil_l.
  cbn -[hex4 hexdigit encode_rune is_high is_low Z.div Z.modulo]. rewrite hex4_u_escape by lia. cbn [mbind option_bind].
  assert (is_high n = false) as -> by (unfold is_high; destruct (55296 <=? n) eqn:E; [bprop; lia|done]).
  assert (is_low n = false) as -> by (unfold is_low; destruct (56320 <=? n) eqn:E; [bprop; lia|done]). done.
Qed.

Lemma unquote_simple fuel e x tail : simple_escape e = Some x -> e <> "u"%char ->
  unquote (S fuel) (String (char 92) (String e tail)) = ('(t, rest) ← unquote fuel tail; Some (String x t, rest)).
Proof. intros He Hu. cbn [unquote]. change (code (char 92) =? 34) with false. change (code (char 92) =? 92) with true. cbv iota. rewrite bool_decide_false by done. by rewrite He. Qed.

Lemma unquote_ascii fuel c tail : code c < 128 ->
  unquote (S fuel) (escape_ascii c +:+ tail) = ('(t, rest) ← unquote fuel tail; Some (String c t, rest)).
Proof.
  intros Hc. pose proof (code_range c) as Hr. unfold escape_ascii.
  assert (Hcode : forall n, code c = n -> c = char n) by (intros n <-; by rewrite char_code).
  case_bool_decide as H34; [apply Hcode in H34; subst c; rewrite !append_cons, append_nil_l; by apply unquote_simple|].
  case_bool_decide as H92; [apply Hcode in H92; subst c; rewrite !append_cons, append_nil_l; by apply unquote_simple|].
  repeat (case_bool_decide as Hx; [apply Hcode in Hx; subst c; rewrite !append_cons, append_nil_l; by apply unquote_simple|clear Hx]).
  destruct (_ || _) eqn:E.
  - rewrite unquote_u by lia. unfold encode_rune. rewrite (proj2 (Z.ltb_lt (code c) 128)) by done. by rewrite char_code.
  - rewrite !orb_false_iff in E. destruct E as (((E & _) & _) & _). rewrite append_cons, append_nil_l. cbn [unquote].
    rewrite !bool_decide_false by done. rewrite E. by rewrite (proj2 (Z.ltb_lt (code c) 128)) by done.
Qed.

(** A multi-byte sequence stands for itself, whatever follows. *)
Lemma utf8_seq_spec s bytes rest : utf8_seq s = Some (bytes, rest) ->
  s = bytes +:+ rest /\ (1 < String.length bytes)%nat /\ (forall tail, utf8_seq (bytes +:+ tail) = Some (bytes, tail)) /\
  exists c r, bytes = String c r /\ 128 <= code c.
Proof.
  intros H. unfold utf8_seq in H. destruct s as [|a [|b r]]; [done..|].
  destruct (in_range 194 223 a && cont b) eqn:E1.
  { injection H as <- <-. split; [done|]. split; [cbn; lia|]. split; [intros tail; rewrite !append_cons, append_nil_l; unfold utf8_seq; by rewrite E1|].
    exists a, (String b ""). split; [done|]. unfold in_range in E1. bprop. lia. }
  destruct r as [|c r]; [done|].
  match type of H with (if ?x then _ else _) = _ => destruct x eqn:E2 end.
  { injection H as <- <-. split; [done|]. split; [cbn; lia|]. split; [intros tail; rewrite !append_cons, append_nil_l; unfold utf8_seq; by rewrite E1, E2|].
    exists a, (String b (String c "")). split; [done|]. unfold in_range in E2. rewrite !orb_true_iff, !andb_true_iff, ?bool_decide_eq_true, !Z.leb_le in E2. lia. }
  destruct r as [|d r]; [done|].
  match type of H with (if ?x then _ else _) = _ => destruct x eqn:E3 end; [|done].
  injection H as <- <-. split; [done|]. split; [cbn; lia|]. split; [intros tail; rewrite !append_cons, append_nil_l; unfold utf8_seq; by rewrite E1, E2, E3|].
  exists a, (String b (String c (String d ""))). split; [done|]. unfold in_range in E3. rewrite !orb_true_iff, !andb_true_iff, ?bool_decide_eq_true, !Z.leb_le in E3. lia.
Qed.

Lemma unquote_bytes fuel s bytes r tail : utf8_seq s = Some (bytes, r) ->
  unquote (S fuel) (bytes +:+ tail) = ('(t, rest) ← unquote fuel tail; Some (bytes +:+ t, rest)).
Proof.
  intros (_ & _ & Hs & c & b & -> & Hc)%utf8_seq_spec. specialize (Hs tail). rewrite append_cons in Hs |- *.
  cbn -[utf8_seq]. rewrite !bool_decide_false by lia. rewrite Hs.
  by rewrite (proj2 (Z.ltb_ge (code c) 32)), (proj2 (Z.ltb_ge (code c) 128)) by lia.
Qed.

Lemma unquote_quote s : forall fq fv fu rest, valid_utf8 fv s = true -> (String.length s <= fv)%nat ->
  (String.length s < fq)%nat -> (String.length s < fu)%nat ->
  unquote fu (quote_body fq s +:+ String (char 34) rest) = Some (s, rest) /\ (String.length s <= String.length (quote_body fq s))%nat.
Proof.
  induction s as [s IH] using (induction_ltof1 _ String.length). unfold ltof in IH.
  intros [|fq] [|fv] [|fu] rest Hv Lv Lq Lu; try lia.
  - destruct s; [by split|cbn in Lv; lia].
  - destruct s as [|c r]; [by split|]. cbn [String.length valid_utf8] in Hv, Lv, Lq, Lu. cbn [quote_body].
    destruct (code c <? 128) eqn:Ec.
    + destruct (IH r ltac:(cbn; lia) fq fv fu rest Hv ltac:(lia) ltac:(lia) ltac:(lia)) as [IH1 IH2].
      rewrite append_assoc. bprop. rewrite unquote_ascii by done. rewrite IH1. split; [done|]. rewrite length_append. cbn [String.length].
      assert (1 <= String.length (escape_ascii c))%nat; [|lia].
      unfold escape_ascii. repeat match goal with |- context [if ?b then _ else _] => destruct b end; cbn; lia.
    + destruct (utf8_seq (String c r)) as [[bytes r']|] eqn:Es; [|done].
      pose proof (utf8_seq_spec _ _ _ Es) as (Happ & Hlen & _). pose proof (f_equal String.length Happ) as Hl. rewrite length_append in Hl. cbn [String.length] in Hl.
      destruct (IH r' ltac:(cbn; lia) fq fv fu rest Hv ltac:(lia) ltac:(lia) ltac:(lia)) as [IH1 IH2]. rewrite append_assoc, length_append, Happ, length_append.
      case_bool_decide as E8; [rewrite unquote_u, IH1 by done; rewrite E8; by split; [|change (String.length (encode_rune 8232)) with 3%nat; cbn -[encode_rune]; lia]|].
      case_bool_decide as E9; [rewrite unquote_u, IH1 by done; rewrite E9; by split; [|change (String.length (encode_rune 8233)) with 3%nat; cbn -[encode_rune]; lia]|].
      rewrite (unquote_bytes fu _ _ _ _ Es), IH1. split; [done|lia].
Qed.

Lemma string_lit_quote s rest : is_utf8 s = true ->
  string_lit (quote_body (S (String.length s)) s +:+ String (char 34) rest) = Some (s, rest).
Proof.
  intros Hs. unfold string_lit.
  pose proof (fun fu => unquote_quote s (S (String.length s)) (String.length s) fu rest Hs ltac:(lia) ltac:(lia)) as H.
  apply H. rewrite length_append. destruct (H (S (String.length s)) ltac:(lia)) as [_ Hl]. lia.
Qed.

Lemma plain_utf8 s : all_chars plain s = true -> is_utf8 s = true.
Proof.
  unfold is_utf8. induction s as [|c s IH]; [done|]. cbn [all_chars]. intros [Hc Hs]%andb_true_iff. cbn [String.length valid_utf8].
  destruct (plain_escape c Hc) as [H _]. rewrite (proj2 (Z.ltb_lt (code c) 128)) by done. by apply IH.
Qed.

Lemma plainv_textv v : plainv v -> textv v.
Proof.
  induction v as [|b|n|s|l IH|l IH] using json_induction; cbn [plainv textv]; try done.
  - apply plain_utf8.
  - induction IH as [|v l Hv _ IHl]; cbn; [done|]. intros [H1 H2]. auto.
  - induction IH as [|v l Hv _ IHl]; cbn; [done|]. intros (H1 & H2 & H3). split; [by apply plain_utf8|]. auto.
Qed.

(** The first byte of a rendered value is neither white space nor a closing bracket. *)
Lemma marshal_head v rest :
  textv v -> exists c r, marshal v +:+ rest = String c r /\ is_ws c = false /\
    c <> "]"%char /\ c <> "}"%char.
Proof.
  destruct v as [|[]|n|s|l|l]; simpl; intros H; try by (do 2 eexists; split_and!; [reflexivity|done..]).
  destruct H as (z & Hz & ->). pose proof (itoa_digits z Hz) as Hd.
  pose proof (itoa_nonempty z Hz) as Hn. destruct (itoa z) as [|c r]; [done|].
  simpl in Hd. bprop. exists c, (r +:+ rest). split; [done|].
  apply digit_cases in H. repeat (apply elem_of_cons in H as [->|H]; [done|]). by apply elem_of_nil in H.
Qed.

Lemma skip_ws_marshal v rest : textv v -> skip_ws (marshal v +:+ rest) = marshal v +:+ rest.
Proof.
  intros H. destruct (marshal_head v rest H) as (c & r & -> & Hw & _). simpl. by rewrite Hw.
Qed.

Definition renders (v : json) : Prop :=
  forall fuel depth rest, (jsize v <= fuel)%nat -> depth + jheight v <= maxNestingDepth ->
    delimited rest = true -> value fuel depth (marshal v +:+ rest) = Some (v, rest).

Lemma value_skip_ws fuel depth s : value fuel depth (skip_ws s) = value fuel depth s.
Proof.
  destruct fuel as [|fuel]; [done|]. cbn [value].
  replace (skip_ws (skip_ws s)) with (skip_ws s); [done|].
  induction s as [|c s IH]; [done|]. simpl. destruct (is_ws c) eqn:E; [done|]. simpl. by rewrite E.
Qed.

Lemma elements_marshal l : forall fuel depth rest,
  l <> [] -> Forall (fun v => textv v /\ renders v) l ->
  (sum_list_with (fun v => S (jsize v)) l <= fuel)%nat ->
  depth + foldr Z.max 0 (jheight <$> l) <= maxNestingDepth ->
  elements fuel depth (join "," (marshal <$> l) +:+ String "]" rest) = Some (l, rest).
Proof.
  induction l as [|v l IH]; intros fuel depth rest Hne HF Hf Hh; [done|].
  inversion HF as [|? ? [Hp Hr] HF']; subst.
  rewrite fmap_cons in Hh. cbn [sum_list_with foldr] in Hf, Hh.
  destruct fuel as [|fuel]; [lia|]. cbn [elements]. destruct l as [|w l].
  - simpl join. rewrite Hr by (done || lia). simpl. done.
  - change (join "," (marshal <$> v :: w :: l)) with
      (marshal v +:+ "," +:+ join "," (marshal <$> w :: l)).
    rewrite append_assoc, Hr by (done || lia).
    specialize (IH fuel depth rest ltac:(done) HF' ltac:(lia) ltac:(lia)).
    simpl in IH |- *. rewrite append_nil_l, IH. done.
Qed.

Definition member (kv : string * json) : string := quote kv.1 +:+ ":" +:+ marshal kv.2.

Lemma members_marshal l : forall fuel depth rest,
  l <> [] -> Forall (fun kv => is_utf8 kv.1 = true /\ textv kv.2 /\ renders kv.2) l ->
  (sum_list_with (fun kv => S (jsize kv.2)) l <= fuel)%nat ->
  depth + foldr Z.max 0 ((fun kv => jheight kv.2) <$> l) <= maxNestingDepth ->
  members fuel depth (join "," (member <$> l) +:+ String "}" rest) = Some (l, rest).
Proof.
  induction l as [|[k v] l IH]; intros fuel depth rest Hne HF Hf Hh; [done|].
  inversion HF as [|? ? (Hk & Hp & Hr) HF']; subst.
  rewrite fmap_cons in Hh. cbn [sum_list_with foldr snd fst] in Hf, Hh, Hk, Hp, Hr.
  pose proof (fun rest => string_lit_quote k rest Hk) as Hlit.
  assert (Hquote : quote k = String (char 34) (quote_body (S (String.length k)) k +:+ String (char 34) "")) by done.
  set (body := quote_body (S (String.length k)) k) in *. clearbody body.
  assert (Hmem : forall tail, delimited tail = true -> (jsize v <= Nat.pred fuel)%nat ->
    member (k, v) +:+ tail = String (char 34) (body +:+ String (char 34) (String ":" (marshal v +:+ tail))) /\
    value (Nat.pred fuel) depth (marshal v +:+ tail) = Some (v, tail)).
  { intros tail Ht Hs. split; [|apply Hr; [done|lia|done]].
    unfold member. cbn [fst snd]. rewrite Hquote. by rewrite !append_cons, !append_assoc. }
  destruct fuel as [|fuel]; [lia|]. cbn [Nat.pred] in Hmem. destruct l as [|w l].
  - destruct (Hmem (String "}" rest)) as [E1 E2]; [done|lia|].
    change (join "," (member <$> [(k, v)])) with (member (k, v)). rewrite E1. cbn [members].
    simpl. rewrite Hlit. simpl. rewrite E2. done.
  - change (join "," (member <$> (k, v) :: w :: l)) with
      (member (k, v) +:+ "," +:+ join "," (member <$> w :: l)).
    rewrite append_assoc.
    destruct (Hmem (("," +:+ join "," (member <$> w :: l)) +:+ String "}" rest)) as [E1 E2]; [done|lia|].
    rewrite E1. cbn [members]. simpl. rewrite Hlit. simpl in E2 |- *.
    rewrite E2. specialize (IH fuel depth rest ltac:(done) HF' ltac:(lia) ltac:(lia)).
    simpl in IH |- *. rewrite append_nil_l, IH. done.
Qed.

Lemma foldr_textv_arr l : foldr (fun v P => textv v /\ P) True l -> Forall textv l.
Proof. induction l; simpl; [constructor|]. intros [? ?]. constructor; auto. Qed.

Lemma foldr_textv_obj l :
  foldr (fun kv P => is_utf8 kv.1 = true /\ textv kv.2 /\ P) True l ->
  Forall (fun kv => is_utf8 kv.1 = true /\ textv kv.2) l.
Proof. induction l; simpl; [constructor|]. intros (? & ? & ?). constructor; auto. Qed.

Lemma value_open_array fuel depth c r :
  depth < maxNestingDepth -> is_ws c = false -> c <> "]"%char ->
  value (S fuel) depth (String "[" (String c r)) =
    ('(l, rest) ← elements fuel (depth + 1) (String c r); Some (JArr l, rest)).
Proof.
  intros Hd Hw Hc. simpl. rewrite (proj2 (Z.leb_gt _ _)) by done. rewrite Hw.
  by rewrite bool_decide_false.
Qed.

Lemma value_open_object fuel depth c r :
  depth < maxNestingDepth -> is_ws c = false -> c <> "}"%char ->
  value (S fuel) depth (String "{" (String c r)) =
    ('(l, rest) ← members fuel (depth + 1) (String c r); Some (JObj l, rest)).
Proof.
  intros Hd Hw Hc. simpl. rewrite (proj2 (Z.leb_gt _ _)) by done. rewrite Hw.
  by rewrite bool_decide_false.
Qed.

Lemma join_cons_head sep x l : exists tail, join sep (x :: l) = x +:+ tail.
Proof. destruct l; simpl; [exists ""; by rewrite append_nil_r|eauto]. Qed.

Lemma foldr_max_nonneg l : 0 <= foldr Z.max 0 l.
Proof. induction l; simpl; lia. Qed.

Lemma renders_array v l :
  Forall (fun v => textv v /\ renders v) (v :: l) -> renders (JArr (v :: l)).
Proof.
  intros HF [|fuel] depth rest Hf Hh Hd; [simpl in Hf; lia|].
  cbn [jsize jheight] in Hf, Hh. pose proof (foldr_max_nonneg (jheight <$> v :: l)).
  pose proof (elements_marshal (v :: l) fuel (depth + 1) rest ltac:(done) HF ltac:(lia) ltac:(lia)) as He.
  inversion HF as [|? ? [Hpv _] _]; subst.
  destruct (join_cons_head "," (marshal v) (marshal <$> l)) as [tail Hj].
  change (marshal <$> v :: l) with (marshal v :: (marshal <$> l)) in He.
  change (marshal (JArr (v :: l))) with (String "[" (join "," (marshal v :: (marshal <$> l)) +:+ "]")).
  rewrite Hj, append_assoc in He. rewrite Hj, append_cons, !append_assoc.
  destruct (marshal_head v (tail +:+ String "]" rest) Hpv) as (c & r & Ec & Hw & Hc & _).
  change ("]" +:+ rest) with (String "]" rest). rewrite Ec in He |- *.
  rewrite value_open_array by (done || lia). by rewrite He.
Qed.

Lemma renders_object kv l :
  Forall (fun kv => is_utf8 kv.1 = true /\ textv kv.2 /\ renders kv.2) (kv :: l) ->
  renders (JObj (kv :: l)).
Proof.
  intros HF [|fuel] depth rest Hf Hh Hd; [simpl in Hf; lia|].
  cbn [jsize jheight] in Hf, Hh. pose proof (foldr_max_nonneg ((fun kv => jheight kv.2) <$> kv :: l)).
  pose proof (members_marshal (kv :: l) fuel (depth + 1) rest ltac:(done) HF ltac:(lia) ltac:(lia)) as He.
  destruct (join_cons_head "," (member kv) (member <$> l)) as [tail Hj].
  change (member <$> kv :: l) with (member kv :: (member <$> l)) in He.
  change (marshal (JObj (kv :: l))) with (String "{" (join "," (member kv :: (member <$> l)) +:+ "}")).
  rewrite Hj, append_assoc in He. rewrite Hj, append_cons, !append_assoc.
  unfold member, quote in He |- *. change ("}" +:+ rest) with (String "}" rest).
  rewrite !append_cons in He |- *.
  rewrite value_open_object by (done || lia). by rewrite He.
Qed.

Lemma text_marshal v : textv v -> renders v.
Proof.
  induction v as [|b|n|s|l IH|l IH] using json_induction; intros Hp.
  - by intros [|fuel] depth rest Hf Hh Hd; [simpl in Hf; lia|].
  - by intros [|fuel] depth rest Hf Hh Hd; [simpl in Hf; lia|destruct b].
  - intros [|fuel] depth rest Hf Hh Hd; [simpl in Hf; lia|].
    destruct Hp as (z & Hz & ->). simpl marshal.
    pose proof (number_lit_itoa z rest Hz Hd) as Hn. pose proof (itoa_digits z Hz) as Hdig.
    pose proof (itoa_nonempty z Hz) as Hne. destruct (itoa z) as [|c r]; [done|].
    simpl in Hdig. bprop. change (String c r +:+ rest) with (String c (r +:+ rest)) in *.
    rewrite value_digit by done. rewrite Hn. done.
  - intros [|fuel] depth rest Hf Hh Hd; [simpl in Hf; lia|]. simpl marshal.
    pose proof (string_lit_quote s rest Hp) as Hlit. unfold quote. rewrite append_cons, append_assoc, append_cons, append_nil_l.
    set (body := quote_body _ s) in *. clearbody body. simpl. by rewrite Hlit.
  - apply foldr_textv_arr in Hp. destruct l as [|v l].
    + intros [|fuel] depth rest Hf Hh Hd; simpl in Hf, Hh; [lia|]. simpl.
      by rewrite (proj2 (Z.leb_gt _ _)) by lia.
    + apply renders_array. rewrite Forall_forall in IH, Hp |- *. auto.
  - apply foldr_textv_obj in Hp. destruct l as [|v l].
    + intros [|fuel] depth rest Hf Hh Hd; simpl in Hf, Hh; [lia|]. simpl.
      by rewrite (proj2 (Z.leb_gt _ _)) by lia.
    + apply renders_object. rewrite Forall_forall in IH, Hp |- *. intros kv Hin.
      destruct (Hp kv Hin). auto.
Qed.

Lemma length_join_ge {A} (n : A -> nat) (f : A -> string) l :
  Forall (fun x => (n x <= String.length (f x))%nat) l ->
  (sum_list_with (fun x => S (n x)) l <= S (String.length (join "," (f <$> l))))%nat.
Proof.
  induction 1 as [|x l Hx HF IH]; [simpl; lia|]. destruct l as [|y l]; [simpl in *; lia|].
  change (join "," (f <$> x :: y :: l)) with (f x +:+ "," +:+ join "," (f <$> y :: l)).
  rewrite !length_append. cbn [sum_list_with] in *. simpl String.length at 2. lia.
Qed.

Lemma jsize_marshal v : textv v -> (jsize v <= String.length (marshal v))%nat.
Proof.
  induction v as [|b|n|s|l IH|l IH] using json_induction; intros Hp; cbn [jsize marshal].
  - simpl. lia.
  - destruct b; simpl; lia.
  - destruct Hp as (z & Hz & ->). pose proof (itoa_nonempty z Hz). destruct (itoa z); simpl; [done|lia].
  - simpl. lia.
  - apply foldr_textv_arr in Hp. rewrite !length_append. simpl String.length at 1 3.
    assert (HF : Forall (fun v => (jsize v <= String.length (marshal v))%nat) l).
    { rewrite Forall_forall in IH, Hp |- *. auto. }
    apply length_join_ge in HF. lia.
  - apply foldr_textv_obj in Hp. rewrite !length_append. simpl String.length at 1 3.
    assert (HF : Forall (fun kv => (jsize kv.2 <= String.length (member kv))%nat) l).
    { rewrite Forall_forall in IH, Hp |- *. intros kv Hin. destruct (Hp kv Hin).
      unfold member. rewrite !length_append. specialize (IH kv Hin). naive_solver lia. }
    apply (length_join_ge (fun kv => jsize kv.2)) in HF.
    change ((fun kv => quote kv.1 +:+ ":" +:+ marshal kv.2) <$> l) with (member <$> l). lia.
Qed.

(** [Marshal] then [Decode]: a document of UTF-8 comes back, escapes undone,
    with what follows it left over. *)
Lemma parse_marshal_text v rest : textv v -> jheight v <= maxNestingDepth -> delimited rest = true ->
  parse (marshal v +:+ rest) = Some (v, rest).
Proof.
  intros Hp Hh Hr. unfold parse. apply text_marshal; [done| |lia|done].
  pose proof (jsize_marshal v Hp). rewrite length_append. lia.
Qed.

Lemma value_marshal v : plainv v -> renders v.
Proof. intros H. by apply text_marshal, plainv_textv. Qed.

Lemma parse_marshal_rest v rest : plainv v -> jheight v <= maxNestingDepth -> delimited rest = true ->
  parse (marshal v +:+ rest) = Some (v, rest).
Proof. intros H. by apply parse_marshal_text, plainv_textv. Qed.

Lemma parse_marshal v : plainv v -> jheight v <= maxNestingDepth -> parse (marshal v) = Some (v, "").
Proof. intros Hp Hh. rewrite <- (append_nil_r (marshal v)). by apply parse_marshal_rest. Qed.
