(* ===== verification/NetIP.v ===== *)
(** * [net/netip]: addresses, prefixes and their text forms

    An address is the zero [Addr], an IPv4 value below 2^32, or an IPv6 value
    below 2^128 with a zone.  [parseAddr] and [parsePrefix] follow the parser
    of the Go standard library; the classification predicates treat
    IPv4-mapped IPv6 addresses as Go does since 1.22.4. *)

From S2P Require Import Prelude GoStrings.

Open Scope Z_scope.
Open Scope go_scope.

Inductive addr :=
| AddrZero
| Addr4 (v : Z)
| Addr6 (v : Z) (zone : string).

#[export] Instance addr_eq_dec : EqDecision addr.
Proof. solve_decision. Defined.

Record prefix := Prefix { p_addr : addr; p_bits : Z }.
Record addrPort := AddrPort { ap_addr : addr; ap_port : Z }.

#[export] Instance addrPort_eq_dec : EqDecision addrPort.
Proof. solve_decision. Defined.

(** ** Parsing *)

(** [parseIPv4Fields]: the fields read so far, the current octet and its digits. *)
Fixpoint fields4 (done : list Z) (val digits : Z) (s : string) : option (list Z) :=
  match s with
  | EmptyString => if (length done <? 3)%nat then None else Some (done ++ [val])
  | String c r =>
      if is_digit c then
        if (digits =? 1) && (val =? 0) then None else
        let val' := val * 10 + (code c - 48) in
        if 255 <? val' then None else fields4 done val' (digits + 1) r
      else if c =? "."%char then
        if (digits =? 0) || (r =? "") then None
        else if (length done =? 3)%nat then None
        else fields4 (done ++ [val]) 0 0 r
      else None
  end.

Definition bytes_value (l : list Z) : Z := foldl (fun acc b => acc * 256 + b) 0 l.

Definition parse4 (s : string) : option Z := bytes_value <$> fields4 [] 0 0 s.

(** At most four hexadecimal digits, and what follows them. *)
Fixpoint hex_group (off acc : Z) (s : string) : option (Z * Z * string) :=
  match s with
  | String c r =>
      match hexval c with
      | Some v => if 3 <? off then None else hex_group (off + 1) (acc * 16 + v) r
      | None => Some (off, acc, s)
      end
  | EmptyString => Some (off, acc, s)
  end.

(** The loop of [parseIPv6]: 16-bit groups, where the ellipsis was, the rest. *)
Fixpoint groups6 (fuel : nat) (groups : list Z) (ellipsis : option nat) (s : string)
    : option (list Z * option nat * string) :=
  match fuel with
  | O => Some (groups, ellipsis, s)
  | S fuel' =>
      '(off, acc, s1) ← hex_group 0 0 s;
      if off =? 0 then None else
      match s1 with
      | EmptyString => Some (groups ++ [acc], ellipsis, "")
      | String c s2 =>
          if c =? "."%char then
            if (ellipsis =? None) && (length groups <>? 6%nat) then None
            else if (6 <? length groups)%nat then None
            else v ← parse4 s; Some (groups ++ [v / 65536; v mod 65536], ellipsis, "")
          else if c =? ":"%char then
            let groups' := groups ++ [acc] in
            match s2 with
            | EmptyString => None
            | String d s3 =>
                if d =? ":"%char then
                  if ellipsis <>? None then None
                  else if s3 =? "" then Some (groups', Some (length groups'), "")
                  else groups6 fuel' groups' (Some (length groups')) s3
                else groups6 fuel' groups' ellipsis s2
            end
          else None
      end
  end.

Definition groups_value (l : list Z) : Z := foldl (fun acc g => acc * 65536 + g) 0 l.

(** Expand the ellipsis to zero groups; it must stand for at least one. *)
Definition expand6 (groups : list Z) (ellipsis : option nat) : option Z :=
  if (length groups <? 8)%nat then
    match ellipsis with
    | Some e => Some (groups_value (firstn e groups ++ replicate (8 - length groups) 0 ++ skipn e groups))
    | None => None
    end
  else match ellipsis with Some _ => None | None => Some (groups_value groups) end.

Definition parse6 (s : string) : option addr :=
  let finish zone body :=
    let start := if hasPrefix body "::" then (Some 0%nat, drop 2 body) else (None, body) in
    if (fst start =? Some 0%nat) && (snd start =? "") then Some (Addr6 0 zone)
    else
      '(groups, ellipsis, rest) ← groups6 8 [] (fst start) (snd start);
      if rest <>? "" then None
      else v ← expand6 groups ellipsis; Some (Addr6 v zone) in
  match cut "%"%char s with
  | Some (body, zone) => if zone =? "" then None else finish zone body
  | None => finish "" s
  end.

Fixpoint first_mark (s : string) : option ascii :=
  match s with
  | EmptyString => None
  | String c r =>
      if (c =? "."%char) || (c =? ":"%char) || (c =? "%"%char) then Some c else first_mark r
  end.

(** [netip.ParseAddr]. *)
Definition parseAddr (s : string) : option addr :=
  match first_mark s with
  | Some c =>
      if c =? "."%char then Addr4 <$> parse4 s
      else if c =? ":"%char then parse6 s
      else None
  | None => None
  end.

(** ** Classification *)
Definition isValid (a : addr) : bool := a <>? AddrZero.
Definition is4 (a : addr) : bool := match a with Addr4 _ => true | _ => false end.
Definition is6 (a : addr) : bool := match a with Addr6 _ _ => true | _ => false end.
Definition zone (a : addr) : string := match a with Addr6 _ z => z | _ => "" end.
Definition is4In6 (a : addr) : bool :=
  match a with Addr6 v _ => v / 2 ^ 32 =? 65535 | _ => false end.
Definition unmap (a : addr) : addr :=
  match a with
  | Addr6 v _ => if is4In6 a then Addr4 (v mod 2 ^ 32) else a
  | _ => a
  end.
Definition bitLen (a : addr) : Z :=
  match a with AddrZero => 0 | Addr4 _ => 32 | Addr6 _ _ => 128 end.

Definition isLoopback (a : addr) : bool :=
  match unmap a with
  | Addr4 v => v / 2 ^ 24 =? 127
  | Addr6 v _ => v =? 1
  | AddrZero => false
  end.
Definition isMulticast (a : addr) : bool :=
  match unmap a with
  | Addr4 v => Z.land (v / 2 ^ 24) 240 =? 224
  | Addr6 v _ => v / 2 ^ 120 =? 255
  | AddrZero => false
  end.
Definition isLinkLocalUnicast (a : addr) : bool :=
  match unmap a with
  | Addr4 v => v / 2 ^ 16 =? 169 * 256 + 254
  | Addr6 v _ => Z.land (v / 2 ^ 112) 65472 =? 65152
  | AddrZero => false
  end.
Definition isGlobalUnicast (a : addr) : bool :=
  if a =? AddrZero then false else
  let ip := unmap a in
  if (ip =? Addr4 0) || (ip =? Addr4 4294967295) then false else
  (ip <>? Addr6 0 "") && negb (isLoopback ip) && negb (isMulticast ip) && negb (isLinkLocalUnicast ip).

(** The address is in the range of its kind. *)
Definition addr_ok (a : addr) : Prop :=
  match a with
  | AddrZero => True
  | Addr4 v => 0 <= v < 2 ^ 32
  | Addr6 v _ => 0 <= v < 2 ^ 128
  end.

(** ** Prefixes *)

(** Text after the last slash, and before it. *)
Fixpoint cut_last (sep : ascii) (s : string) : option (string * string) :=
  match s with
  | EmptyString => None
  | String c r =>
      match cut_last sep r with
      | Some (a, b) => Some (String c a, b)
      | None => if c =? sep then Some ("", r) else None
      end
  end.

(** [netip.ParsePrefix]. *)
Definition parsePrefix (s : string) : option prefix :=
  '(ip_text, bits_text) ← cut_last slash s;
  ip ← parseAddr ip_text;
  if is6 ip && (zone ip <>? "") then None else
  if (1 <? len bits_text) && match bits_text with
                            | String c _ => negb (in_range 49 57 c)
                            | EmptyString => false
                            end then None else
  bits ← atoi bits_text;
  if (bits <? 0) || ((if is6 ip then 128 else 32) <? bits) then None else Some (Prefix ip bits).

(** [Prefix.Contains]: same family, no zone, equal leading bits. *)
Definition contains_addr (p : prefix) (a : addr) : bool :=
  match p_addr p, a with
  | Addr4 x, Addr4 y => Z.shiftr (Z.lxor y x) (32 - p_bits p) =? 0
  | Addr6 x _, Addr6 y z => (z =? "") && (Z.shiftr (Z.lxor y x) (128 - p_bits p) =? 0)
  | _, _ => false
  end.

(** ** Text form *)
Definition octet (v i : Z) : string := itoa (v / 2 ^ (8 * (3 - i)) mod 256).
Definition string4 (v : Z) : string :=
  octet v 0 +:+ "." +:+ octet v 1 +:+ "." +:+ octet v 2 +:+ "." +:+ octet v 3.

(** The eight 16-bit groups of an IPv6 address, and their hexadecimal text. *)
Definition group (v : Z) (i : nat) : Z := v / 2 ^ (16 * (7 - Z.of_nat i)) mod 65536.
Definition groups (v : Z) : list Z := group v <$> seq 0 8.

Definition hex_digit (d : Z) : ascii := if d <? 10 then char (48 + d) else char (87 + d).
Fixpoint hex_digits (fuel : nat) (n : Z) (acc : string) : string :=
  match fuel with
  | O => acc
  | S fuel' =>
      let acc' := String (hex_digit (n mod 16)) acc in
      if n / 16 =? 0 then acc' else hex_digits fuel' (n / 16) acc'
  end.
Definition hex_text (g : Z) : string := hex_digits 4 g "".

Fixpoint zero_run (l : list Z) : nat :=
  match l with
  | g :: l' => if g =? 0 then S (zero_run l') else O
  | [] => O
  end.

(** The first longest run of at least two zero groups: its start and length. *)
Definition longest_run (gs : list Z) : option (nat * nat) :=
  foldl (fun best i =>
    let l := zero_run (skipn i gs) in
    if (2 <=? l)%nat && (match best with Some (_, b) => b | None => O end <? l)%nat
    then Some (i, l) else best) None (seq 0 8).

Definition string6 (v : Z) (zone : string) : string :=
  let gs := groups v in
  let text l := join ":" (hex_text <$> l) in
  match longest_run gs with
  | Some (i, l) => text (firstn i gs) +:+ "::" +:+ text (skipn (i + l) gs)
  | None => text gs
  end +:+ (if zone =? "" then "" else "%" +:+ zone).

(** [Addr.String]. *)
Definition addr_string (a : addr) : string :=
  match a with
  | AddrZero => "invalid IP"
  | Addr4 v => string4 v
  | Addr6 v z =>
      if is4In6 a then "::ffff:" +:+ string4 (v mod 2 ^ 32) +:+ (if z =? "" then "" else "%" +:+ z)
      else string6 v z
  end.

(** ** [net.JoinHostPort] and [net.SplitHostPort] *)
Definition joinHostPort (host port : string) : string :=
  if mem_char ":" host then "[" +:+ host +:+ "]:" +:+ port else host +:+ ":" +:+ port.

Definition splitHostPort (hostport : string) : option (string * string) :=
  '(before, port) ← cut_last ":" hostport;
  match hostport with
  | String c rest =>
      if c =? "["%char then
        (* the bracket must close right before the last colon *)
        '(host, after) ← cut "]" rest;
        if after <>? ":" +:+ port then None
        else if mem_char "[" rest || mem_char "]" after then None
        else Some (host, port)
      else if mem_char ":" before then None
      else if mem_char "[" hostport || mem_char "]" hostport then None
      else Some (before, port)
  | EmptyString => None
  end.

(** ** Lemmas *)

(** [Contains] compares the leading bits. *)
Lemma shiftr_lxor_div x y k : 0 <= k -> Z.shiftr (Z.lxor y x) k = 0 <-> y / 2 ^ k = x / 2 ^ k.
Proof. intros Hk. rewrite Z.shiftr_lxor, Z.lxor_eq_0_iff, !Z.shiftr_div_pow2 by lia. done. Qed.

Lemma parsePrefix_bits s p : parsePrefix s = Some p ->
  0 <= p_bits p <= (if is6 (p_addr p) then 128 else 32).
Proof.
  unfold parsePrefix. intros H.
  apply bind_Some in H as ([i b] & _ & H). apply bind_Some in H as (ip & _ & H).
  destruct (is6 ip && _); [discriminate H|].
  destruct ((1 <? len b) && _); [discriminate H|].
  apply bind_Some in H as (bits & _ & H).
  destruct ((bits <? 0) || _) eqn:E; [discriminate H|]. injection H as <-. bprop.
  cbn [p_addr p_bits]. lia.
Qed.

Lemma contains4 p x v : p_addr p = Addr4 x -> 0 <= p_bits p <= 32 ->
  contains_addr p (Addr4 v) = true <-> v / 2 ^ (32 - p_bits p) = x / 2 ^ (32 - p_bits p).
Proof.
  intros Ha Hb. unfold contains_addr. rewrite Ha, bool_decide_eq_true. apply shiftr_lxor_div. lia.
Qed.

Lemma contains6 p x z v : p_addr p = Addr6 x z -> 0 <= p_bits p <= 128 ->
  contains_addr p (Addr6 v "") = true <-> v / 2 ^ (128 - p_bits p) = x / 2 ^ (128 - p_bits p).
Proof.
  intros Ha Hb. unfold contains_addr. rewrite Ha, andb_true_iff, !bool_decide_eq_true.
  rewrite shiftr_lxor_div by lia. naive_solver.
Qed.

(** *** Parsed examples *)
Example parse_v4 : parseAddr "93.184.216.34" = Some (Addr4 1572395042).
Proof. vm_compute. reflexivity. Qed.
Example parse_v6 : parseAddr "2001:4860:4860::8888" = Some (Addr6 0x20014860486000000000000000008888 "").
Proof. vm_compute. reflexivity. Qed.
Example parse_mapped : parseAddr "::ffff:93.184.216.34" = Some (Addr6 (65535 * 2 ^ 32 + 1572395042) "").
Proof. vm_compute. reflexivity. Qed.
Example parse_zone : parseAddr "fe80::1%eth0" = Some (Addr6 0xfe800000000000000000000000000001 "eth0").
Proof. vm_compute. reflexivity. Qed.
Example parse_bad :
  parseAddr "1.2.3" = None /\ parseAddr "01.2.3.4" = None /\ parseAddr "1.2.3.256" = None /\
  parseAddr "1::2::3" = None /\ parseAddr "1:2:3:4:5:6:7:8::" = None /\ parseAddr "12345::" = None /\
  parseAddr "localhost" = None.
Proof. vm_compute. done. Qed.
Example strings :
  addr_string (Addr4 1572395042) = "93.184.216.34" /\
  addr_string (Addr6 0x20014860486000000000000000008888 "") = "2001:4860:4860::8888" /\
  addr_string (Addr6 1 "") = "::1" /\ addr_string (Addr6 0 "") = "::" /\
  addr_string (Addr6 (0x1 * 2 ^ 112 + 0xab00) "") = "1::ab00" /\
  addr_string (Addr6 0x00010000000200030004000500060000 "eth0") = "1:0:2:3:4:5:6:0%eth0".
Proof. vm_compute. done. Qed.
Example hostports :
  splitHostPort "127.0.0.1:9100" = Some ("127.0.0.1", "9100") /\
  splitHostPort "[::1]:9100" = Some ("::1", "9100") /\ splitHostPort "::1:9100" = None /\
  splitHostPort "[::1]" = None /\ splitHostPort "host" = None /\ splitHostPort "[::1]x:1" = None /\
  joinHostPort "::1" "80" = "[::1]:80".
Proof. vm_compute. done. Qed.
