(* ===== verification/GoUrl.v ===== *)
(** * [net/url]

    [url.Parse] as the configuration code uses it: the scheme, whether there
    is user information, the host, and when parsing fails.  Paths, queries and
    fragments are only checked for malformed escapes. *)

From S2P Require Import Prelude GoStrings NetIP.

Open Scope Z_scope.
Open Scope go_scope.

Record url := Url { u_scheme : string; u_user : bool; u_host : string }.

Inductive mode := EncodePath | EncodeHost | EncodeZone | EncodeOther.

#[export] Instance mode_eq_dec : EqDecision mode.
Proof. solve_decision. Defined.

Definition is_alnum (c : ascii) : bool := is_lower c || is_upper c || is_digit c.

(** Bytes below 0x80 that a host may hold unescaped. *)
Definition host_char (c : ascii) : bool :=
  is_alnum c || mem_char c "!$&'()*+,;=:[]<>" || (code c =? 34) || mem_char c "-_.~".

(** [unescape]: [None] for a malformed escape or an invalid host byte. *)
Fixpoint unescape (m : mode) (s : string) : option string :=
  match s with
  | EmptyString => Some EmptyString
  | String c r =>
      if c =? "%"%char then
        match r with
        | String h (String l rest) =>
            match hexval h, hexval l with
            | Some vh, Some vl =>
                let v := char (vh * 16 + vl) in
                let percent := (vh =? 2) && (vl =? 5) in
                if ((m =? EncodeHost) && (vh <? 8) && negb percent) ||
                   ((m =? EncodeZone) && negb percent && (v <>? " "%char) && (code v <? 128) && negb (host_char v))
                then None
                else t ← unescape m rest; Some (String v t)
            | _, _ => None
            end
        | _ => None
        end
      else if ((m =? EncodeHost) || (m =? EncodeZone)) && (code c <? 128) && negb (host_char c) then None
      else t ← unescape m r; Some (String c t)
  end.

Definition validOptionalPort (port : string) : bool :=
  match port with
  | EmptyString => true
  | String c r => (c =? ":"%char) && all_chars is_digit r
  end.

(** [getScheme]: [None] for a missing scheme, else scheme and rest. *)
Fixpoint scheme_end (first : bool) (acc s : string) : option (option (string * string)) :=
  match s with
  | EmptyString => Some None
  | String c r =>
      if is_lower c || is_upper c then scheme_end false (acc +:+ String c "") r
      else if is_digit c || mem_char c "+-." then
        if first then Some None else scheme_end false (acc +:+ String c "") r
      else if c =? ":"%char then if first then None else Some (Some (acc, r))
      else Some None
  end.

Definition getScheme (raw : string) : option (string * string) :=
  match scheme_end true "" raw with
  | None => None
  | Some None => Some ("", raw)
  | Some (Some (scheme, rest)) => Some (scheme, rest)
  end.

Fixpoint toLower (s : string) : string :=
  match s with
  | EmptyString => EmptyString
  | String c r => String (if is_upper c then char (code c + 32) else c) (toLower r)
  end.

(** The text before the first [p]. *)
Fixpoint before (p s : string) : option (string * string) :=
  if hasPrefix s p then Some ("", s)
  else match s with
       | EmptyString => None
       | String c r => '(a, b) ← before p r; Some (String c a, b)
       end.

Definition parseHost (host : string) : option string :=
  if hasPrefix host "[" then
    '(inside, colonPort) ← cut_last "]" host;
    if negb (validOptionalPort colonPort) then None
    else match before "%25" inside with
         | Some (h, zone) =>
             h1 ← unescape EncodeHost h;
             h2 ← unescape EncodeZone zone;
             h3 ← unescape EncodeHost ("]" +:+ colonPort);
             Some (h1 +:+ h2 +:+ h3)
         | None => unescape EncodeHost host
         end
  else match cut_last ":" host with
       | Some (_, port) => if all_chars is_digit port then unescape EncodeHost host else None
       | None => unescape EncodeHost host
       end.

Definition userinfo_char (c : ascii) : bool := is_alnum c || mem_char c "-._:~!$&'()*+,;=%@".

(** Host, and whether there is user information. *)
Definition parseAuthority (authority : string) : option (string * bool) :=
  match cut_last "@" authority with
  | None => h ← parseHost authority; Some (h, false)
  | Some (userinfo, host) =>
      h ← parseHost host;
      if negb (all_chars userinfo_char userinfo) then None
      else match cut ":" userinfo with
           | None => _ ← unescape EncodeOther userinfo; Some (h, true)
           | Some (name, password) =>
               _ ← unescape EncodeOther name; _ ← unescape EncodeOther password; Some (h, true)
           end
  end.

Definition is_ctl (c : ascii) : bool := (code c <? 32) || (code c =? 127).

(** [parse(raw, false)]. *)
Definition parse_url (raw : string) : option url :=
  if negb (all_chars (fun c => negb (is_ctl c)) raw) then None
  else if raw =? "*" then Some (Url "" false "")
  else
    '(scheme0, rest0) ← getScheme raw;
    let scheme := toLower scheme0 in
    let rest := match cut "?" rest0 with Some (r, _) => r | None => rest0 end in
    if negb (hasPrefix rest "/") && (scheme <>? "") then Some (Url scheme false "")
    else if negb (hasPrefix rest "/") &&
            mem_char ":" (match cut slash rest with Some (seg, _) => seg | None => rest end) then None
    else if ((scheme <>? "") || negb (hasPrefix rest "///")) && hasPrefix rest "//" then
      let body := drop 2 rest in
      let '(authority, path) := match cut slash body with
                                | Some (a, p) => (a, String slash p)
                                | None => (body, "")
                                end in
      '(host, user) ← parseAuthority authority;
      _ ← unescape EncodePath path;
      Some (Url scheme user host)
    else _ ← unescape EncodePath rest; Some (Url scheme false "").

(** [url.Parse]. *)
Definition url_Parse (raw : string) : option url :=
  match cut "#" raw with
  | None => parse_url raw
  | Some (u, frag) => r ← parse_url u; _ ← unescape EncodeOther frag; Some r
  end.

(** [URL.Hostname]. *)
Definition hostname (u : url) : string :=
  let host := match cut_last ":" (u_host u) with
              | Some (h, port) => if all_chars is_digit port then h else u_host u
              | None => u_host u
              end in
  if hasPrefix host "[" && hasSuffix host "]" then take (String.length host - 2) (drop 1 host) else host.

(** *** Parsed examples *)
Example url_doh :
  url_Parse "https://cloudflare-dns.com/dns-query" = Some (Url "https" false "cloudflare-dns.com").
Proof. vm_compute. reflexivity. Qed.
Example url_user : url_Parse "https://user@host:443/" = Some (Url "https" true "host:443").
Proof. vm_compute. reflexivity. Qed.
Example url_v6 : hostname <$> url_Parse "HTTPS://[2001:db8::1]:8443/q?x#y" = Some "2001:db8::1".
Proof. vm_compute. reflexivity. Qed.
Example url_bad :
  url_Parse "https://a b/" = None /\ url_Parse ":x" = None /\ url_Parse "https://h:port/" = None /\
  url_Parse "https://h/%zz" = None /\ hostname <$> url_Parse "https:opaque" = Some "".
Proof. vm_compute. done. Qed.
