(* ===== verification/AttestProtocol.v ===== *)
(** * HTTP FQDN node attestation: documents and proofs

    Models [pkgs/realm-node-attest/protocol.go] and [address.go]: the JSON
    documents exchanged by the agent plugin, the server plugin and the
    responder, the checks on names, random values, keys and challenges, and
    the signed proof.  The JWS library (go-jose) is the parameter [Jose]. *)

From S2P Require Import Prelude GoStrings Encoding Regex Json NetIP.

Open Scope Z_scope.
Open Scope go_scope.

Definition PluginName : string := "http_fqdn".
Definition PathPrefix : string := "/.well-known/spire-node-attestation/v1/".
Definition DefaultPort : Z := 18091.
Definition MaxDocumentSize : Z := 8192.
Definition ChallengeTTL : Z := 120 * Second.
Definition proofType : string := "spire-http-node-attestation+jws".

(** [^[a-z0-9](?:[a-z0-9-]{0,61}[a-z0-9])?$] *)
Definition label_end (c : ascii) : bool := is_lower c || is_digit c.
Definition label_mid (c : ascii) : bool := label_end c || (c =? "-"%char).
Definition labelPattern : regex := rlabel label_end label_mid 61.

(** ** Documents *)
Record AgentConfig := {
  ac_FQDN : string;
  ac_TrustDomain : string;
  ac_ControlSocket : string;
  ac_MetricsAddress : string }.

Record NodePolicy := { np_FQDN : string; np_Addresses : list string }.

Record ServerConfig := {
  sc_TrustDomain : string;
  sc_Nodes : gmap string NodePolicy;
  sc_Port : Z;
  sc_TrustHTTPTransport : bool;
  sc_MetricsAddress : string }.

Record Result := { AgentID : string; SelectorValues : list string }.

Record publicJWK := JWK { Kty : string; Crv : string; X : string }.

Record request := Request { rq_Version : Z; rq_FQDN : string; rq_BootstrapJWK : publicJWK }.

Record challenge := Challenge {
  ch_Version : Z;
  ch_ID : string;
  ch_Nonce : string;
  ch_FQDN : string;
  ch_TrustDomain : string;
  ch_ServerID : string;
  ch_KeyThumbprint : string;
  ch_ExpiresAt : Z }.

Record ready := Ready { rd_Version : Z; rd_ID : string }.

Record proofDocument := ProofDocument { pd_BootstrapJWK : publicJWK; pd_Proof : string }.

#[export] Instance publicJWK_eq_dec : EqDecision publicJWK.
Proof. solve_decision. Defined.
#[export] Instance request_eq_dec : EqDecision request.
Proof. solve_decision. Defined.
#[export] Instance challenge_eq_dec : EqDecision challenge.
Proof. solve_decision. Defined.
#[export] Instance ready_eq_dec : EqDecision ready.
Proof. solve_decision. Defined.
#[export] Instance proofDocument_eq_dec : EqDecision proofDocument.
Proof. solve_decision. Defined.

(** ** JSON codecs

    The struct tags of a document type: its zero value, its fields and its
    rendering; [codec_wf] is what a value must satisfy for [Marshal] to write
    it without escapes, and the law is the round trip of one value. *)
Class JsonCodec (A : Type) := {
  json_zero : A;
  json_fields : list (field A);
  to_json : A -> json;
  codec_wf : A -> Prop;
  codec_plain : forall a, codec_wf a -> plainv (to_json a) /\ jheight (to_json a) <= maxNestingDepth;
  codec_decode : forall a, codec_wf a -> dec_struct true json_fields json_zero (to_json a) = Some a }.

Definition int64_nat (z : Z) : Prop := 0 <= z <= maxInt64.

Definition jwk_fields : list (field publicJWK) :=
  [mk_field "kty" Kty (fun j x => JWK x (Crv j) (X j)) dec_string;
   mk_field "crv" Crv (fun j x => JWK (Kty j) x (X j)) dec_string;
   mk_field "x" X (fun j x => JWK (Kty j) (Crv j) x) dec_string].
Definition jwk_json (j : publicJWK) : json :=
  JObj [("kty", JStr (Kty j)); ("crv", JStr (Crv j)); ("x", JStr (X j))].
Definition jwk_wf (j : publicJWK) : Prop :=
  all_chars plain (Kty j) = true /\ all_chars plain (Crv j) = true /\ all_chars plain (X j) = true.

Definition request_fields : list (field request) :=
  [mk_field "version" rq_Version (fun r x => Request x (rq_FQDN r) (rq_BootstrapJWK r)) dec_int;
   mk_field "fqdn" rq_FQDN (fun r x => Request (rq_Version r) x (rq_BootstrapJWK r)) dec_string;
   mk_field "bootstrap_jwk" rq_BootstrapJWK (fun r x => Request (rq_Version r) (rq_FQDN r) x)
     (dec_struct true jwk_fields)].
Definition request_json (r : request) : json :=
  JObj [("version", JNum (itoa (rq_Version r))); ("fqdn", JStr (rq_FQDN r));
        ("bootstrap_jwk", jwk_json (rq_BootstrapJWK r))].
Definition request_wf (r : request) : Prop :=
  int64_nat (rq_Version r) /\ all_chars plain (rq_FQDN r) = true /\ jwk_wf (rq_BootstrapJWK r).

Definition challenge_fields : list (field challenge) :=
  [mk_field "version" ch_Version (fun c x => Challenge x (ch_ID c) (ch_Nonce c) (ch_FQDN c)
     (ch_TrustDomain c) (ch_ServerID c) (ch_KeyThumbprint c) (ch_ExpiresAt c)) dec_int;
   mk_field "challenge_id" ch_ID (fun c x => Challenge (ch_Version c) x (ch_Nonce c) (ch_FQDN c)
     (ch_TrustDomain c) (ch_ServerID c) (ch_KeyThumbprint c) (ch_ExpiresAt c)) dec_string;
   mk_field "nonce" ch_Nonce (fun c x => Challenge (ch_Version c) (ch_ID c) x (ch_FQDN c)
     (ch_TrustDomain c) (ch_ServerID c) (ch_KeyThumbprint c) (ch_ExpiresAt c)) dec_string;
   mk_field "fqdn" ch_FQDN (fun c x => Challenge (ch_Version c) (ch_ID c) (ch_Nonce c) x
     (ch_TrustDomain c) (ch_ServerID c) (ch_KeyThumbprint c) (ch_ExpiresAt c)) dec_string;
   mk_field "trust_domain" ch_TrustDomain (fun c x => Challenge (ch_Version c) (ch_ID c) (ch_Nonce c)
     (ch_FQDN c) x (ch_ServerID c) (ch_KeyThumbprint c) (ch_ExpiresAt c)) dec_string;
   mk_field "server_id" ch_ServerID (fun c x => Challenge (ch_Version c) (ch_ID c) (ch_Nonce c)
     (ch_FQDN c) (ch_TrustDomain c) x (ch_KeyThumbprint c) (ch_ExpiresAt c)) dec_string;
   mk_field "bootstrap_key_thumbprint" ch_KeyThumbprint (fun c x => Challenge (ch_Version c) (ch_ID c)
     (ch_Nonce c) (ch_FQDN c) (ch_TrustDomain c) (ch_ServerID c) x (ch_ExpiresAt c)) dec_string;
   mk_field "expires_at" ch_ExpiresAt (fun c x => Challenge (ch_Version c) (ch_ID c) (ch_Nonce c)
     (ch_FQDN c) (ch_TrustDomain c) (ch_ServerID c) (ch_KeyThumbprint c) x) dec_int].
Definition challenge_json (c : challenge) : json :=
  JObj [("version", JNum (itoa (ch_Version c))); ("challenge_id", JStr (ch_ID c));
        ("nonce", JStr (ch_Nonce c)); ("fqdn", JStr (ch_FQDN c));
        ("trust_domain", JStr (ch_TrustDomain c)); ("server_id", JStr (ch_ServerID c));
        ("bootstrap_key_thumbprint", JStr (ch_KeyThumbprint c));
        ("expires_at", JNum (itoa (ch_ExpiresAt c)))].
Definition challenge_wf (c : challenge) : Prop :=
  int64_nat (ch_Version c) /\ int64_nat (ch_ExpiresAt c) /\
  Forall (fun s => all_chars plain s = true)
    [ch_ID c; ch_Nonce c; ch_FQDN c; ch_TrustDomain c; ch_ServerID c; ch_KeyThumbprint c].

Definition ready_fields : list (field ready) :=
  [mk_field "version" rd_Version (fun r x => Ready x (rd_ID r)) dec_int;
   mk_field "challenge_id" rd_ID (fun r x => Ready (rd_Version r) x) dec_string].
Definition ready_json (r : ready) : json :=
  JObj [("version", JNum (itoa (rd_Version r))); ("challenge_id", JStr (rd_ID r))].
Definition ready_wf (r : ready) : Prop := int64_nat (rd_Version r) /\ all_chars plain (rd_ID r) = true.

Definition proof_fields : list (field proofDocument) :=
  [mk_field "bootstrap_jwk" pd_BootstrapJWK (fun d x => ProofDocument x (pd_Proof d))
     (dec_struct true jwk_fields);
   mk_field "proof" pd_Proof (fun d x => ProofDocument (pd_BootstrapJWK d) x) dec_string].
Definition proof_json (d : proofDocument) : json :=
  JObj [("bootstrap_jwk", jwk_json (pd_BootstrapJWK d)); ("proof", JStr (pd_Proof d))].
Definition proof_wf (d : proofDocument) : Prop :=
  jwk_wf (pd_BootstrapJWK d) /\ all_chars plain (pd_Proof d) = true.

(** Discharge the two codec laws of a document type. *)
Ltac codec_plain_tac :=
  intros a H; repeat match goal with
  | H : _ /\ _ |- _ => destruct H
  | H : Forall _ (_ :: _) |- _ => inversion H; clear H; subst
  | H : int64_nat _ |- _ => destruct H
  end; split; [simpl; split_and!; eauto|vm_compute; done].
Ltac codec_decode_tac :=
  intros a H; repeat match goal with
  | H : _ /\ _ |- _ => destruct H
  | H : int64_nat _ |- _ => apply atoi_itoa_nonneg in H
  end; destruct a; lazy -[itoa atoi];
  repeat match goal with H : atoi _ = Some _ |- _ => cbn -[itoa atoi] in H; rewrite H; clear H end;
  reflexivity.

#[export, refine] Instance jwk_codec : JsonCodec publicJWK := {
  json_zero := JWK "" "" ""; json_fields := jwk_fields; to_json := jwk_json; codec_wf := jwk_wf }.
Proof. { unfold jwk_wf. codec_plain_tac. } { codec_decode_tac. } Defined.

#[export, refine] Instance request_codec : JsonCodec request := {
  json_zero := Request 0 "" (JWK "" "" ""); json_fields := request_fields;
  to_json := request_json; codec_wf := request_wf }.
Proof.
  { unfold request_wf, jwk_wf. codec_plain_tac. }
  { intros [v f [k c x]] [Hv _]. apply atoi_itoa_nonneg in Hv. lazy -[itoa atoi]. cbn in Hv. by rewrite Hv. }
Defined.

#[export, refine] Instance challenge_codec : JsonCodec challenge := {
  json_zero := Challenge 0 "" "" "" "" "" "" 0; json_fields := challenge_fields;
  to_json := challenge_json; codec_wf := challenge_wf }.
Proof. { unfold challenge_wf. codec_plain_tac. } { unfold challenge_wf. codec_decode_tac. } Defined.

#[export, refine] Instance ready_codec : JsonCodec ready := {
  json_zero := Ready 0 ""; json_fields := ready_fields; to_json := ready_json; codec_wf := ready_wf }.
Proof. { unfold ready_wf. codec_plain_tac. } { unfold ready_wf. codec_decode_tac. } Defined.

#[export, refine] Instance proof_codec : JsonCodec proofDocument := {
  json_zero := ProofDocument (JWK "" "" "") ""; json_fields := proof_fields;
  to_json := proof_json; codec_wf := proof_wf }.
Proof. { unfold proof_wf, jwk_wf. codec_plain_tac. } { by intros [[k c x] p] _. } Defined.

Definition Marshal {A} `{C : JsonCodec A} (a : A) : string := marshal (to_json a).

(** ** Names, random values and keys *)
Definition validFQDN (value : string) : bool :=
  if (253 <? len value) || negb (contains value ".") then false
  else forallb (fun label => matchString labelPattern label) (split "." value).

Definition serverID (domain : string) : string := "spiffe://" +:+ domain +:+ "/spire/server".

Definition decodeJSON {A} `{C : JsonCodec A} (data : string) : result A :=
  reject (len data =? 0) || (MaxDocumentSize <? len data) with ErrNew "invalid document size";
  match parse data with
  | None => Err (ErrNew "invalid document")
  | Some (v, rest) =>
      match dec_struct true json_fields json_zero v with
      | None => Err (ErrNew "invalid document")
      | Some target =>
          reject skip_ws rest <>? "" with ErrNew "trailing document data";
          Ok target
      end
  end.

(** [randomValue]: the 32 bytes read from the system, or its failure. *)
Definition randomValue (entropy : result string) : result string :=
  let! value := entropy in Ok (b64_encode value).

Definition validRandom (value : string) : bool :=
  match b64_decode_strict value with
  | Some decoded => (len decoded =? 32) && (b64_encode decoded =? value)
  | None => false
  end.

Definition PublicKeySize : Z := 32.

Definition jwkFor (key : string) : publicJWK := JWK "OKP" "Ed25519" (b64_encode key).

Definition jwk_key (j : publicJWK) : result string :=
  reject (Kty j <>? "OKP") || (Crv j <>? "Ed25519") with ErrNew "unsupported bootstrap key";
  match b64_decode_strict (X j) with
  | Some key =>
      reject (len key <>? PublicKeySize) || (b64_encode key <>? X j) with ErrNew "invalid bootstrap key";
      Ok key
  | None => Err (ErrNew "invalid bootstrap key")
  end.

Definition thumbprint (j : publicJWK) : string :=
  let canonical := marshal (JObj [("crv", JStr (Crv j)); ("kty", JStr (Kty j)); ("x", JStr (X j))]) in
  b64_encode (Sha256.sum canonical).

Definition validateChallenge (c : challenge) (now : Z) : result unit :=
  reject (ch_Version c <>? 1) || negb (validRandom (ch_ID c)) || negb (validRandom (ch_Nonce c)) ||
    negb (validFQDN (ch_FQDN c)) || negb (validFQDN (ch_TrustDomain c)) ||
    (ch_ServerID c <>? serverID (ch_TrustDomain c)) || negb (validRandom (ch_KeyThumbprint c))
  with ErrNew "invalid challenge";
  reject (ch_ExpiresAt c <=? Unix now) || (Unix (now + ChallengeTTL) <? ch_ExpiresAt c)
  with ErrNew "challenge outside validity window";
  Ok tt.

(** ** The JWS library

    [sign key typ payload] is the compact EdDSA serialization of a payload
    with the given "typ" header; [parseSigned] restricts the algorithm to
    EdDSA.  An Ed25519 private key is its 32-byte seed followed by the public
    key, so [Public] is a suffix. *)
Class Jose := {
  jws : Type;
  jose_sign : string -> string -> string -> option string;
  jose_parse : string -> option jws;
  jws_signatures : jws -> Z;
  jws_typ : jws -> option string;
  jws_verify : jws -> string -> option string }.

Definition Public (key : string) : string := drop 32 key.

(** What the code relies on: a compact serialization has three dot-separated
    base64url parts and verifies, with its type and payload, under the public
    half of the signing key. *)
Class JoseLaws (J : Jose) : Prop := {
  jose_compact : forall key typ payload compact,
    jose_sign key typ payload = Some compact ->
    count_char "." compact = 2 /\
    all_chars (fun c => b64_alphabet c || (c =? "."%char)) compact = true;
  jose_roundtrip : forall key typ payload compact,
    jose_sign key typ payload = Some compact ->
    exists o, jose_parse compact = Some o /\ jws_signatures o = 1 /\ jws_typ o = Some typ /\
              jws_verify o (Public key) = Some payload }.

Section proofs.
Context {J : Jose}.

Definition signProof (key rawChallenge : string) : result string :=
  match jose_sign key proofType rawChallenge with
  | None => Err (ErrNew "cannot sign")
  | Some compact => Ok (Marshal (ProofDocument (jwkFor (Public key)) compact))
  end.

Definition verifyProof (data : string) (expectedKey : publicJWK) : result string :=
  let! document := (decodeJSON data : result proofDocument) in
  reject pd_BootstrapJWK document <>? expectedKey with ErrNew "bootstrap key mismatch";
  let! key := jwk_key expectedKey in
  reject count_char "." (pd_Proof document) <>? 2 with ErrNew "compact JWS required";
  match jose_parse (pd_Proof document) with
  | None => Err (ErrNew "invalid JWS")
  | Some object =>
      reject jws_signatures object <>? 1 with ErrNew "invalid JWS";
      reject jws_typ object <>? Some proofType with ErrNew "invalid proof type";
      match jws_verify object key with
      | None => Err (ErrNew "invalid proof signature")
      | Some payload =>
          reject MaxDocumentSize <? len payload with ErrNew "proof payload too large";
          Ok payload
      end
  end.

Definition parseProof (data fqdn : string) (now : Z) : result challenge :=
  let! document := (decodeJSON data : result proofDocument) in
  let! payload := verifyProof data (pd_BootstrapJWK document) in
  let! c := (decodeJSON payload : result challenge) in
  let! _ := validateChallenge c now in
  reject (ch_FQDN c <>? fqdn) || (ch_KeyThumbprint c <>? thumbprint (pd_BootstrapJWK document))
  with ErrNew "proof does not match responder";
  Ok c.

End proofs.

(** ** [address.go] *)
Definition validAddress (address : addr) : bool :=
  if negb (isValid address) || (zone address <>? "") || is4In6 address ||
     negb (isGlobalUnicast address) || isLoopback address
  then false
  else match address with
       | Addr4 v => let first := v / 2 ^ 24 in (first <>? 0) && (first <? 224)
       | _ => true
       end.

(** ** Lemmas *)
Lemma decode_strict_encode s d : b64_decode_strict s = Some d -> b64_encode d = skip_newlines s.
Proof. apply b64_encode_quanta. Qed.

Lemma validRandom_spec s : validRandom s = true <-> exists d, len d = 32 /\ s = b64_encode d.
Proof.
  unfold validRandom. split.
  - destruct (b64_decode_strict s) as [d|]; [|done]. intros H. bprop. eauto.
  - intros (d & Hd & ->). rewrite b64_decode_encode, !bool_decide_true by done. done.
Qed.

Lemma jwk_key_spec j k : jwk_key j = Ok k <-> len k = PublicKeySize /\ j = jwkFor k.
Proof.
  unfold jwk_key, jwkFor. split.
  - intros H. go_inv H. subst.
    repeat match goal with E : orb _ _ = false |- _ => apply orb_false_iff in E as [? ?] end. bprop.
    destruct j as [kty crv x]; simpl in *. subst. done.
  - intros [Hk ->]. simpl. rewrite b64_decode_encode, !bool_decide_true by done. done.
Qed.

Lemma decodeJSON_Marshal {A} `{C : JsonCodec A} (a : A) :
  codec_wf a -> 0 < len (Marshal a) <= MaxDocumentSize -> decodeJSON (Marshal a) = Ok a.
Proof.
  intros Hwf Hlen. destruct (codec_plain a Hwf) as [Hp Hh]. unfold decodeJSON, Marshal in *.
  rewrite bool_decide_false by lia. rewrite (proj2 (Z.ltb_ge _ _)) by lia. simpl.
  rewrite parse_marshal, codec_decode by done. done.
Qed.

Lemma decodeJSON_size {A} `{C : JsonCodec A} data (a : A) :
  decodeJSON data = Ok a -> 0 < len data <= MaxDocumentSize.
Proof. unfold decodeJSON. intros H. go_inv H. pose proof (len_nonneg data). lia. Qed.

(** *** Character sets *)
Lemma b64_plain c : b64_alphabet c = true -> plain c = true.
Proof.
  pose proof (ascii_code_forall (fun c => implb (b64_alphabet c) (plain c)) ltac:(vm_compute; done) c) as H.
  simpl in H. intros E. by rewrite E in H.
Qed.

Lemma label_plain c : label_mid c = true -> plain c = true.
Proof.
  pose proof (ascii_code_forall (fun c => implb (label_mid c) (plain c)) ltac:(vm_compute; done) c) as H.
  simpl in H. intros E. by rewrite E in H.
Qed.

Lemma b64_encode_plain s : all_chars plain (b64_encode s) = true.
Proof. eapply all_chars_impl; [apply b64_plain|apply b64_encode_alphabet]. Qed.

Lemma validRandom_plain s : validRandom s = true -> all_chars plain s = true /\ len s = 43.
Proof.
  intros (d & Hd & ->)%validRandom_spec. split; [apply b64_encode_plain|].
  rewrite b64_encode_len, Hd. done.
Qed.

Lemma label_end_mid c : label_end c = true -> label_mid c = true.
Proof. unfold label_mid. intros ->. done. Qed.

Lemma all_chars_join P sep l :
  all_chars P sep = true -> Forall (fun e => all_chars P e = true) l -> all_chars P (join sep l) = true.
Proof.
  intros Hs. induction 1 as [|x l Hx HF IH]; [done|]. destruct l as [|y l]; [done|].
  change (join sep (x :: y :: l)) with (x +:+ sep +:+ join sep (y :: l)).
  by rewrite !all_chars_append, Hx, Hs, IH.
Qed.

Lemma contains_dot s : contains s "." = true <-> exists a b rest, split "." s = a :: b :: rest.
Proof.
  induction s as [|c s IH]; simpl.
  - split; [done|]. intros (? & ? & ? & ?). discriminate.
  - rewrite orb_true_iff, andb_true_r, bool_decide_eq_true.
    destruct (split_cons_inv "." s) as (h & t & Hs). rewrite Hs in *. case_bool_decide as Hc.
    + split; [eauto|]. intros _. left. by destruct s.
    + split.
      * intros [E|E]; [done|]. apply IH in E as (a & b & rest & E). simplify_eq. eauto.
      * intros (a & b & rest & E). right. apply IH. destruct t; simplify_eq. eauto.
Qed.

(** A DNS name as the protocol accepts it. *)
Definition dns_label (l : string) : Prop :=
  (1 <= String.length l <= 63)%nat /\ all_chars label_mid l = true /\
  head_char l <> Some "-"%char /\ last_char l <> Some "-"%char.

Lemma label_pattern_spec l : matchString labelPattern l = true <-> dns_label l.
Proof.
  rewrite matchString_spec. unfold labelPattern. rewrite matches_label by apply label_end_mid.
  unfold dns_label. assert (He : forall c, label_mid c = true -> (label_end c = true <-> c <> "-"%char)).
  { intros c Hc. pose proof (ascii_code_forall (fun c => implb (label_mid c)
      (Bool.eqb (label_end c) (c <>? "-"%char))) ltac:(vm_compute; done) c) as H.
    simpl in H. rewrite Hc in H. simpl in H. apply Bool.eqb_prop in H. rewrite H.
    by rewrite negb_true_iff, bool_decide_eq_false. }
  split.
  - intros (Hl & Hall & (c & Hc & Hce) & (d & Hd & Hde)). split_and!; [lia|lia|done| |].
    + intros E. rewrite Hc in E. injection E as ->. discriminate Hce.
    + intros E. rewrite Hd in E. injection E as ->. discriminate Hde.
  - intros (Hl & Hall & Hh & Ht). split; [lia|]. split; [done|].
    rewrite all_chars_spec in Hall. destruct l as [|c l]; [simpl in Hl; lia|].
    assert (Hex : exists d, last_char (String c l) = Some d /\
      d ∈ String.list_ascii_of_string (String c l)).
    { clear. revert c. induction l as [|e l IH]; intros c; [exists c; split; [done|set_solver]|].
      destruct (IH e) as (d & Hd & Hin). exists d. split; [done|]. simpl in *. set_solver. }
    destruct Hex as (d & Hd & Hin). split.
    + exists c. split; [done|]. apply He; [apply Hall; simpl; set_solver|]. naive_solver.
    + exists d. split; [done|]. apply He; [by apply Hall|]. naive_solver.
Qed.

Lemma validFQDN_chars s :
  validFQDN s = true -> all_chars (fun c => label_mid c || (c =? "."%char)) s = true /\ 0 < len s <= 253.
Proof.
  unfold validFQDN. destruct ((253 <? len s) || negb (contains s ".")) eqn:E; [done|]. bprop.
  intros Hf. rewrite forallb_forall in Hf. split.
  - rewrite <- (join_split "." s). apply all_chars_join; [done|]. apply Forall_forall. intros l Hl.
    rewrite list_elem_of_In in Hl. apply Hf, label_pattern_spec in Hl as (_ & Hl & _).
    eapply all_chars_impl; [|exact Hl]. by intros c ->.
  - split; [|done]. destruct s; [discriminate|]. rewrite len_cons. pose proof (len_nonneg s). lia.
Qed.

Lemma validFQDN_plain s : validFQDN s = true -> all_chars plain s = true /\ 0 < len s <= 253.
Proof.
  intros [Hc Hl]%validFQDN_chars. split; [|done]. eapply all_chars_impl; [|exact Hc].
  intros c [Hm|Hd]%orb_true_iff; [by apply label_plain|]. bprop. by subst.
Qed.

Lemma serverID_plain d : all_chars plain d = true -> all_chars plain (serverID d) = true.
Proof. intros H. unfold serverID. rewrite !all_chars_append, H. done. Qed.

Lemma thumbprint_valid j : validRandom (thumbprint j) = true.
Proof. apply validRandom_spec. eexists. split; [|reflexivity]. apply sha256_len. Qed.

Lemma len_quote s : all_chars plain s = true -> len (quote s) = len s + 2.
Proof.
  intros H. rewrite quote_plain by done. rewrite len_cons, len_append. unfold len. simpl. lia.
Qed.

(** A challenge that passes validation renders without escapes in less than
    [MaxDocumentSize] bytes. *)
Lemma validateChallenge_spec c now :
  validateChallenge c now = Ok tt <->
  ch_Version c = 1 /\ validRandom (ch_ID c) = true /\ validRandom (ch_Nonce c) = true /\
  validFQDN (ch_FQDN c) = true /\ validFQDN (ch_TrustDomain c) = true /\
  ch_ServerID c = serverID (ch_TrustDomain c) /\ validRandom (ch_KeyThumbprint c) = true /\
  Unix now < ch_ExpiresAt c <= Unix now + 120.
Proof.
  assert (Ht : Unix (now + ChallengeTTL) = Unix now + 120) by apply Unix_add_seconds.
  unfold validateChallenge. rewrite Ht. split.
  - intros H. go_inv H. split_and!; done || lia.
  - intros (-> & -> & -> & -> & -> & -> & -> & Hw). rewrite !bool_decide_true by done. simpl.
    rewrite (proj2 (Z.leb_gt _ _)), (proj2 (Z.ltb_ge _ _)) by lia. done.
Qed.

Lemma valid_challenge_size c now :
  0 <= Unix now -> ch_ExpiresAt c <= maxInt64 -> validateChallenge c now = Ok tt ->
  codec_wf c /\ 0 < len (Marshal c) <= 1400.
Proof.
  intros Hnow Hmax (Hv & Hid & Hno & Hf & Htd & Hs & Hk & Hw)%validateChallenge_spec.
  apply validRandom_plain in Hid as [Hid Lid], Hno as [Hno Lno], Hk as [Hk Lk].
  apply validFQDN_plain in Hf as [Hf Lf], Htd as [Htd Ltd].
  pose proof (serverID_plain _ Htd) as Hsp. rewrite <- Hs in Hsp.
  assert (Hwf : codec_wf c).
  { simpl. unfold challenge_wf, int64_nat. rewrite Hv. split_and!; try (done || lia).
    repeat constructor; done. }
  split; [done|]. unfold Marshal. simpl to_json. unfold challenge_json.
  cbn [marshal fmap list_fmap join fst snd]. rewrite !len_append.
  rewrite !len_quote by done. rewrite Hv, Hs. unfold serverID. rewrite !len_append.
  pose proof (len_itoa_le 19 (ch_ExpiresAt c)) as Hi. pose proof (len_nonneg (itoa (ch_ExpiresAt c))).
  unfold maxInt64 in *. specialize (Hi ltac:(lia) ltac:(lia)).
  rewrite Lid, Lno, Lk. repeat match goal with |- context [len ?s] =>
    let n := eval vm_compute in (len s) in
    lazymatch n with Z0 => idtac | Zpos _ => idtac end; change (len s) with n end.
  lia.
Qed.

Lemma valid_challenge_wf c now :
  0 <= Unix now -> ch_ExpiresAt c <= maxInt64 -> validateChallenge c now = Ok tt ->
  codec_wf c /\ 0 < len (Marshal c) <= MaxDocumentSize.
Proof.
  intros Hn Hm Hv. destruct (valid_challenge_size c now Hn Hm Hv). split; [done|unfold MaxDocumentSize; lia].
Qed.

Lemma jwk_plain k : jwk_wf (jwkFor k).
Proof. unfold jwk_wf, jwkFor. simpl. split_and!; [done|done|apply b64_encode_plain]. Qed.

Lemma signProof_wf {J : Jose} {JL : JoseLaws J} key payload compact :
  jose_sign key proofType payload = Some compact ->
  codec_wf (ProofDocument (jwkFor (Public key)) compact).
Proof.
  intros H. split; [apply jwk_plain|]. simpl.
  apply jose_compact in H as [_ H]. eapply all_chars_impl; [|exact H].
  intros c Hc. apply orb_true_iff in Hc as [Hc|Hc]; [by apply b64_plain|]. bprop. by subst.
Qed.

Lemma Public_len key : len key = 64 -> len (Public key) = PublicKeySize.
Proof.
  intros H. unfold Public, len, PublicKeySize in *.
  destruct (drop_length_spec 32 key) as (p & Hp & Hk); [lia|].
  apply (f_equal String.length) in Hk. rewrite length_append in Hk. lia.
Qed.

Lemma verifyProof_honest {J : Jose} {JL : JoseLaws J} key raw data :
  len key = 64 -> signProof key raw = Ok data ->
  0 < len data <= MaxDocumentSize -> len raw <= MaxDocumentSize ->
  verifyProof data (jwkFor (Public key)) = Ok raw.
Proof.
  intros Hk Hs Hd Hr. unfold signProof in Hs. destruct (jose_sign _ _ _) as [compact|] eqn:E; [|done].
  injection Hs as <-. pose proof (signProof_wf key raw compact E) as Hwf.
  unfold verifyProof. rewrite decodeJSON_Marshal by done. cbn [rbind pd_BootstrapJWK pd_Proof].
  rewrite bool_decide_true by done. cbn [negb].
  rewrite (proj2 (jwk_key_spec _ (Public key))) by (split; [by apply Public_len|done]). cbn [rbind].
  pose proof (jose_compact _ _ _ _ E) as [-> _].
  destruct (jose_roundtrip _ _ _ _ E) as (o & -> & -> & -> & ->).
  rewrite !bool_decide_true by done. cbn [negb].
  by rewrite (proj2 (Z.ltb_ge _ _)) by lia.
Qed.

Lemma honest_proof {J : Jose} {JL : JoseLaws J} key c now data :
  0 <= Unix now -> ch_ExpiresAt c <= maxInt64 -> validateChallenge c now = Ok tt ->
  len key = 64 -> ch_KeyThumbprint c = thumbprint (jwkFor (Public key)) ->
  signProof key (Marshal c) = Ok data -> 0 < len data <= MaxDocumentSize ->
  parseProof data (ch_FQDN c) now = Ok c /\
  verifyProof data (jwkFor (Public key)) = Ok (Marshal c).
Proof.
  intros Hn Hm Hv Hk Ht Hs Hd. destruct (valid_challenge_wf c now Hn Hm Hv) as [Hwf Hlen].
  pose proof (verifyProof_honest key (Marshal c) data Hk Hs Hd) as Hver.
  split; [|apply Hver; lia]. unfold parseProof. pose proof Hs as Hs'. unfold signProof in Hs.
  destruct (jose_sign _ _ _) as [compact|] eqn:E; [|done]. injection Hs as <-.
  rewrite (decodeJSON_Marshal (ProofDocument _ _)) by (eauto using signProof_wf). cbn [rbind pd_BootstrapJWK].
  rewrite Hver by lia. cbn [rbind]. rewrite decodeJSON_Marshal by done. cbn [rbind].
  rewrite Hv. cbn [rbind]. by rewrite !bool_decide_true.
Qed.

Lemma multicast_octet b : 0 <= b < 256 -> (Z.land b 240 =? 224) = (224 <=? b) && (b <? 240).
Proof.
  intros H. pose proof (ascii_code_forall (fun c => Bool.eqb (Z.land (code c) 240 =? 224)
    ((224 <=? code c) && (code c <? 240))) ltac:(vm_compute; done) (char b)) as E.
  simpl in E. rewrite code_char in E by done. by apply Bool.eqb_prop in E.
Qed.

Lemma linklocal_group w : 0 <= w < 2 ^ 16 -> Z.land w 65472 = 64 * (w / 64).
Proof.
  intros Hw. change 65472 with (Z.shiftl (Z.ones 10) 6).
  change 64 with (2 ^ 6) at 2. rewrite <- Z.shiftr_div_pow2 by lia.
  rewrite Z.mul_comm. change 64 with (2 ^ 6). rewrite <- Z.shiftl_mul_pow2 by lia.
  apply Z.bits_inj'. intros n Hn. rewrite Z.land_spec. destruct (decide (n < 6)).
  - rewrite !Z.shiftl_spec_low by lia. apply andb_false_r.
  - rewrite !Z.shiftl_spec, Z.shiftr_spec by lia. replace (n - 6 + 6) with n by lia.
    destruct (decide (n < 16)); [rewrite Z.ones_spec_low by lia; apply andb_true_r|].
    rewrite (Z.bits_above_log2 w n); [done|lia|].
    destruct (decide (w = 0)) as [->|]; [simpl; lia|]. apply Z.log2_lt_pow2; [lia|].
    apply Z.lt_le_trans with (2 ^ 16); [lia|]. apply Z.pow_le_mono_r; lia.
Qed.

(** ** Correctness of the documents and proofs *)

(** [validFQDN] accepts exactly the lower-case DNS names of at most 253
    bytes with at least two labels, each label of 1 to 63 letters, digits or
    hyphens that neither starts nor ends with a hyphen. *)
Theorem validFQDN_correct s :
  validFQDN s = true <->
  len s <= 253 /\ (2 <= length (split "." s))%nat /\ Forall dns_label (split "." s).
Proof.
  unfold validFQDN. rewrite Forall_forall. split.
  - destruct ((253 <? len s) || negb (contains s ".")) eqn:E; [done|]. bprop.
    intros Hf. rewrite forallb_forall in Hf. apply contains_dot in H0 as (a & b & r & E).
    split; [done|]. split; [rewrite E; simpl; lia|].
    intros l Hl. apply label_pattern_spec, Hf. by apply list_elem_of_In.
  - intros (Hl & Hn & Hf). rewrite (proj2 (Z.ltb_ge _ _)) by lia.
    assert (Hc : contains s "." = true).
    { apply contains_dot. destruct (split "." s) as [|a [|b r]]; simpl in Hn; [lia|lia|eauto]. }
    rewrite Hc. simpl. apply forallb_forall. intros l Hi. apply label_pattern_spec, Hf.
    by apply list_elem_of_In.
Qed.

(** A bootstrap JWK yields a key exactly when it is the canonical JWK of
    that 32-byte key, so two accepted JWKs with the same key are equal. *)
Theorem jwk_canonical j k :
  jwk_key j = Ok k <-> len k = PublicKeySize /\ j = jwkFor k.
Proof. apply jwk_key_spec. Qed.

(** A challenge that the server issues and that passes validation is
    decoded by the agent to the very same challenge. *)
Theorem challenge_roundtrip c now :
  0 <= Unix now -> ch_ExpiresAt c <= maxInt64 -> validateChallenge c now = Ok tt ->
  decodeJSON (Marshal c) = Ok c.
Proof.
  intros Hn Hm Hv. destruct (valid_challenge_wf c now Hn Hm Hv). by apply decodeJSON_Marshal.
Qed.

(** What [parseProof] accepts: a document whose JWK is the canonical form
    of a 32-byte key under which the JWS verifies with the attestation type,
    whose signed payload is a valid challenge for the responder's own FQDN,
    bound to that key by its thumbprint, and expiring in the next 120 s. *)
Theorem parseProof_sound {J : Jose} data fqdn now c :
  parseProof data fqdn now = Ok c ->
  exists doc key object payload,
    decodeJSON data = Ok doc /\ len key = PublicKeySize /\ pd_BootstrapJWK doc = jwkFor key /\
    jose_parse (pd_Proof doc) = Some object /\ jws_typ object = Some proofType /\
    jws_verify object key = Some payload /\ decodeJSON payload = Ok c /\
    ch_FQDN c = fqdn /\ ch_ServerID c = serverID (ch_TrustDomain c) /\
    ch_KeyThumbprint c = thumbprint (jwkFor key) /\
    Unix now < ch_ExpiresAt c <= Unix now + 120.
Proof.
  unfold parseProof. intros H.
  apply rbind_Ok in H as (doc & Hdoc & H). apply rbind_Ok in H as (payload & Hp & H).
  apply rbind_Ok in H as (c' & Hc & H). apply rbind_Ok in H as ([] & Hv & H).
  go_inv H. subst c'. apply validateChallenge_spec in Hv as (_ & _ & _ & _ & _ & Hs & _ & Hw).
  unfold verifyProof in Hp. rewrite Hdoc in Hp. cbn [rbind] in Hp.
  rewrite bool_decide_true in Hp by done. cbn [negb] in Hp.
  apply rbind_Ok in Hp as (key & Hk & Hp). go_inv Hp. subst.
  apply jwk_key_spec in Hk as [Hk1 Hk2]. rewrite Hk2 in *.
  exists doc, key, j, payload. split_and!; try done; lia.
Qed.

(** The proof an honest agent signs for its challenge is accepted by the
    responder, which recovers that challenge, and by the server's check
    against the key of the request, which recovers the signed bytes. *)
Theorem honest_proof_accepted {J : Jose} {JL : JoseLaws J} key c now data :
  0 <= Unix now -> ch_ExpiresAt c <= maxInt64 -> validateChallenge c now = Ok tt ->
  len key = 64 -> ch_KeyThumbprint c = thumbprint (jwkFor (Public key)) ->
  signProof key (Marshal c) = Ok data -> 0 < len data <= MaxDocumentSize ->
  parseProof data (ch_FQDN c) now = Ok c /\
  verifyProof data (jwkFor (Public key)) = Ok (Marshal c).
Proof. apply honest_proof. Qed.

(** Pinned destinations.  An IPv4 address is accepted exactly when its
    first octet is 1 to 223 and it is neither loopback nor link-local; an IPv6
    address exactly when it has no zone, is not IPv4-mapped and is none of the
    unspecified, loopback, multicast (ff00::/8) and link-local (fe80::/10)
    addresses. *)
Theorem validAddress_correct a :
  addr_ok a ->
  validAddress a = true <->
  match a with
  | AddrZero => False
  | Addr4 v => 1 <= v / 2 ^ 24 <= 223 /\ v / 2 ^ 24 <> 127 /\ v / 2 ^ 16 <> 169 * 256 + 254
  | Addr6 v z => z = "" /\ v / 2 ^ 32 <> 65535 /\ v <> 0 /\ v <> 1 /\
                 v / 2 ^ 120 <> 255 /\ v / 2 ^ 112 / 64 <> 1018
  end.
Proof.
  destruct a as [|v|v z]; intros Hv; [done| |].
  - unfold validAddress, isGlobalUnicast, isLoopback, isMulticast, isLinkLocalUnicast, isValid.
    cbn [unmap zone is4In6]. cbn [addr_ok] in Hv.
    assert (H0 : 0 <= v / 2 ^ 24 < 256).
    { change (2 ^ 24) with 16777216. change (2 ^ 32) with 4294967296 in Hv. divlia. }
    rewrite (multicast_octet _ H0).
    repeat case_bool_decide; simplify_eq/=; try (split; [done|]; naive_solver lia).
    all: destruct (224 <=? v / 2 ^ 24) eqn:E1, (v / 2 ^ 24 <? 240) eqn:E2, (v / 2 ^ 24 <? 224) eqn:E3;
      bprop; simpl; split; naive_solver lia.
  - unfold validAddress, isValid. cbn [zone]. destruct (is4In6 (Addr6 v z)) eqn:Em.
    + rewrite orb_true_r. simpl. split; [done|]. simpl in Em. bprop. naive_solver.
    + pose proof Em as Em'. simpl in Em'. bprop.
      unfold isGlobalUnicast, isLoopback, isMulticast, isLinkLocalUnicast.
      replace (unmap (Addr6 v z)) with (Addr6 v z) by (simpl in Em |- *; by rewrite Em).
      replace (unmap (Addr6 v z)) with (Addr6 v z) by (simpl in Em |- *; by rewrite Em).
      cbn [addr_ok] in Hv. rewrite linklocal_group.
      2: { split; [apply Z.div_pos; lia|apply Z.div_lt_upper_bound; lia]. }
      assert (Hll : 64 * (v / 2 ^ 112 / 64) = 65152 <-> v / 2 ^ 112 / 64 = 1018) by lia.
      repeat case_bool_decide; simplify_eq/=; split; naive_solver.
Qed.

(** ** A concrete JWS library

    An instance of the interface, with the public key in place of the
    signature: it shows that the laws can hold and runs the examples. *)
Module PlainJose.
Definition sign (key typ payload : string) : option string :=
  Some (b64_encode typ +:+ "." +:+ b64_encode payload +:+ "." +:+ b64_encode (Public key)).

Definition parse (compact : string) : option (string * string * string) :=
  match split "." compact with
  | [a; b; c] =>
      match b64_decode_strict a, b64_decode_strict b, b64_decode_strict c with
      | Some x, Some y, Some z => Some (x, y, z)
      | _, _, _ => None
      end
  | _ => None
  end.

#[export] Instance plain_jose : Jose := {
  jws := string * string * string;
  jose_sign := sign;
  jose_parse := parse;
  jws_signatures o := 1;
  jws_typ o := Some o.1.1;
  jws_verify o key := if o.2 =? key then Some o.1.2 else None }.

Lemma b64_no_dot s : all_chars (fun c => c <>? "."%char) (b64_encode s) = true.
Proof.
  eapply all_chars_impl; [|apply b64_encode_alphabet]. intros c Hc.
  apply negb_true_iff, bool_decide_eq_false. by intros ->.
Qed.

Lemma count_char_none c s : all_chars (fun d => d <>? c) s = true -> count_char c s = 0.
Proof.
  induction s as [|d s IH]; simpl; [done|]. intros H. bprop. rewrite IH by done.
  by rewrite bool_decide_false.
Qed.

Lemma count_char_append c s t : count_char c (s +:+ t) = count_char c s + count_char c t.
Proof. induction s as [|d s IH]; simpl; [done|]. rewrite IH. lia. Qed.

Lemma split_sign key typ payload compact :
  sign key typ payload = Some compact ->
  split "." compact = [b64_encode typ; b64_encode payload; b64_encode (Public key)].
Proof.
  intros [= <-]. rewrite !append_cons, !append_nil_l.
  rewrite split_app_no_sep by apply b64_no_dot. f_equal.
  rewrite split_app_no_sep by apply b64_no_dot. f_equal.
  apply split_single, b64_no_dot.
Qed.

#[export] Instance plain_jose_laws : JoseLaws plain_jose.
Proof.
  split; simpl; intros key typ payload compact H.
  - injection H as <-. split.
    + rewrite !count_char_append. assert (Hn : forall s, count_char "." (b64_encode s) = 0)
        by (intros s; apply count_char_none, b64_no_dot). by rewrite !Hn.
    + rewrite !all_chars_append. assert (Hb : forall s, all_chars (fun c => b64_alphabet c ||
        (c =? "."%char)) (b64_encode s) = true); [|by rewrite !Hb].
      intros s. eapply all_chars_impl; [|apply b64_encode_alphabet]. by intros c ->.
  - exists (typ, payload, Public key). split_and!; simpl; try done.
    + unfold parse. by rewrite (split_sign _ _ _ _ H), !b64_decode_encode.
    + by rewrite bool_decide_true.
Qed.
End PlainJose.

(** ** Concrete instances *)
Module ProtocolExamples.
Import PlainJose.

Definition seed : string := "0123456789abcdef0123456789abcdef".
Definition key : string := seed +:+ "ABCDEFGHIJKLMNOPQRSTUVWXYZABCDEF".
Definition now : Z := 1700000000 * Second.
Definition chall : challenge :=
  Challenge 1 (b64_encode seed) (b64_encode seed) "eihort.nyaw.xyz" "nyaw.xyz"
    (serverID "nyaw.xyz") (thumbprint (jwkFor (Public key))) 1700000120.
Definition data : string :=
  Eval vm_compute in match signProof key (Marshal chall) with Ok d => d | _ => "" end.

Lemma challenge_roundtrip_witness :
  validateChallenge chall now = Ok tt /\ decodeJSON (Marshal chall) = Ok chall.
Proof.
  assert (H : validateChallenge chall now = Ok tt) by (vm_compute; reflexivity).
  split; [exact H|]. apply (challenge_roundtrip chall now); [vm_compute; discriminate| |exact H].
  vm_compute; discriminate.
Defined.

Lemma parseProof_sound_witness :
  exists doc, decodeJSON data = Ok doc /\ pd_BootstrapJWK doc = jwkFor (Public key).
Proof.
  assert (H : parseProof data "eihort.nyaw.xyz" now = Ok chall) by (vm_compute; reflexivity).
  destruct (parseProof_sound _ _ _ _ H) as (doc & k & o & p & Hd & _).
  exists doc. split; [exact Hd|]. vm_compute in Hd. injection Hd as <-. vm_compute. reflexivity.
Defined.

Lemma honest_proof_accepted_witness :
  parseProof data (ch_FQDN chall) now = Ok chall /\
  verifyProof data (jwkFor (Public key)) = Ok (Marshal chall).
Proof.
  apply (honest_proof_accepted key chall now data); try (vm_compute; reflexivity).
  - vm_compute. discriminate.
  - vm_compute. discriminate.
  - split; vm_compute; [reflexivity|discriminate].
Defined.

Lemma validAddress_correct_witness : validAddress (Addr4 (198 * 2 ^ 24 + 51 * 2 ^ 16)) = true.
Proof.
  apply (validAddress_correct (Addr4 (198 * 2 ^ 24 + 51 * 2 ^ 16))); vm_compute; intuition discriminate.
Defined.
End ProtocolExamples.
