(* ===== verification/AttestMetrics.v ===== *)
(** * Attestation metrics

    Models [pkgs/realm-node-attest/metrics.go] and [metrics_listener.go]: the
    registry shared by the requests of one process, its label vocabulary, the
    classification of errors, and the loopback listener that serves it. *)

From Stdlib Require Import SpecFloat.
From S2P Require Import Prelude GoStrings GoFloat NetIP AttestProtocol.

Open Scope Z_scope.
Open Scope go_scope.

(** [time.Duration.Seconds]: division and remainder truncate towards zero. *)
Definition Seconds (d : Z) : float64 :=
  f64_add (f64_of_Z (Z.quot d Second)) (f64_div (f64_of_Z (Z.rem d Second)) (f64_of_Z 1000000000)).

(** [max(0, x)] for an [x] that is not a NaN. *)
Definition max0 (x : float64) : float64 := if f64_leb x (f64_of_Z 0) then f64_of_Z 0 else x.

(** ** The label vocabulary *)
Definition stages : list string :=
  ["start"; "payload"; "challenge"; "publish"; "response"; "fetch"; "verify";
   "quota"; "attributes"; "public"; "control"].
Definition reasons : list string :=
  ["internal"; "not_configured"; "invalid_payload"; "unknown_node"; "invalid_key"; "capacity";
   "stream_error"; "no_challenge"; "invalid_challenge"; "publish_failed"; "invalid_response";
   "expired"; "endpoint_failed"; "invalid_proof"; "session_ended"; "rate_limit"; "invalid_result";
   "attributes_sent"; "proof_submitted"; "canceled"; "deadline"; "method"; "invalid_request";
   "not_found"; "peer_denied"; "invalid_size"; "proof_served"; "proof_published"; "proof_deleted";
   "write_failed"].
Definition outcomes : list string := ["success"; "failure"; "skipped"].

(** A decimal constant is the double nearest to the quotient. *)
Definition durationBuckets : list float64 :=
  Eval vm_compute in
  [f64_div (f64_of_Z 1) (f64_of_Z 100); f64_div (f64_of_Z 5) (f64_of_Z 100);
   f64_div (f64_of_Z 1) (f64_of_Z 10); f64_div (f64_of_Z 5) (f64_of_Z 10); f64_of_Z 1;
   f64_div (f64_of_Z 25) (f64_of_Z 10); f64_of_Z 5; f64_of_Z 10; f64_of_Z 30; f64_of_Z 60;
   f64_of_Z 120].

Record metricLabels := MetricLabels { ml_node : string; ml_outcome : string; ml_stage : string; ml_reason : string }.
Record durationLabels := DurationLabels { dl_node : string; dl_outcome : string }.
Record durationMetric := DurationMetric { dm_count : Z; dm_sum : float64; dm_buckets : list Z }.

#[export] Instance metricLabels_eq_dec : EqDecision metricLabels.
Proof. solve_decision. Defined.
#[export] Instance durationLabels_eq_dec : EqDecision durationLabels.
Proof. solve_decision. Defined.
#[export] Instance metricLabels_countable : Countable metricLabels.
Proof.
  apply (inj_countable' (fun k => (ml_node k, ml_outcome k, ml_stage k, ml_reason k))
    (fun '(n, o, s, r) => MetricLabels n o s r)). by intros [].
Defined.
#[export] Instance durationLabels_countable : Countable durationLabels.
Proof.
  apply (inj_countable' (fun k => (dl_node k, dl_outcome k)) (fun '(n, o) => DurationLabels n o)).
  by intros [].
Defined.

(** ** The registry *)
Record metricsRegistry := Registry {
  component : string;
  mnodes : gset string;
  totals : gmap metricLabels Z;
  durations : gmap durationLabels durationMetric;
  lastSuccess : gmap string float64;
  pending : gmap string Z;
  capacity : Z;
  proofs : gmap string Z }.

Definition newMetrics (c : string) : result metricsRegistry :=
  if (c <>? "agent") && (c <>? "server") && (c <>? "responder") then Panic "invalid metrics component"
  else Ok (Registry c {["unknown"]} ∅ ∅ ∅ ∅ 0 ∅).

Definition register1 (m : metricsRegistry) (node : string) : metricsRegistry :=
  let m1 := Registry (component m) ({[node]} ∪ mnodes m) (totals m) (durations m) (lastSuccess m)
              (pending m) (capacity m) (proofs m) in
  match lastSuccess m !! node with
  | Some _ => m1
  | None => Registry (component m) ({[node]} ∪ mnodes m) (totals m) (durations m)
              (<[node := f64_of_Z 0]> (lastSuccess m)) (<[node := 0]> (pending m)) (capacity m) (proofs m)
  end.

Definition register (m : metricsRegistry) (nodes : list string) : metricsRegistry :=
  foldl register1 m nodes.

(** [metrics.capacity = n]. *)
Definition set_capacity (m : metricsRegistry) (n : Z) : metricsRegistry :=
  Registry (component m) (mnodes m) (totals m) (durations m) (lastSuccess m) (pending m) n (proofs m).

Definition nodeLocked (m : metricsRegistry) (node : string) : string :=
  if bool_decide (node ∈ mnodes m) then node else "unknown".

Definition bounded (value : string) (allowed : list string) (fallback : string) : string :=
  if bool_decide (value ∈ allowed) then value else fallback.

(** [pendingAdd] on a pointer that may be nil. *)
Definition pendingAdd (om : option metricsRegistry) (node : string) (delta : Z) : option metricsRegistry :=
  m ← om;
  let node := nodeLocked m node in
  Some (Registry (component m) (mnodes m) (totals m) (durations m) (lastSuccess m)
    (<[node := i64 (default 0 (pending m !! node) + delta)]> (pending m)) (capacity m) (proofs m)).

Definition proof (m : metricsRegistry) (action : string) : metricsRegistry :=
  if (action =? "published") || (action =? "deleted") || (action =? "expired") then
    Registry (component m) (mnodes m) (totals m) (durations m) (lastSuccess m) (pending m) (capacity m)
      (<[action := u64 (default 0 (proofs m !! action) + 1)]> (proofs m))
  else m.

(** The event [record] writes: the fields of its JSON object. *)
Record event := Event {
  ev_time : Z; ev_level : string; ev_component : string; ev_node : string; ev_outcome : string;
  ev_stage : string; ev_reason : string; ev_seconds : float64 }.

Definition zero_duration : durationMetric := DurationMetric 0 (f64_of_Z 0) (replicate 11 0).

Definition observe (h : durationMetric) (seconds : float64) : durationMetric :=
  DurationMetric (u64 (dm_count h + 1)) (f64_add (dm_sum h) seconds)
    (zip_with (fun n bound => if f64_leb seconds bound then u64 (n + 1) else n) (dm_buckets h) durationBuckets).

Definition record (om : option metricsRegistry) (node outcome stage reason : string) (duration now : Z)
    : option (metricsRegistry * event) :=
  m ← om;
  let node := nodeLocked m node in
  let outcome := bounded outcome outcomes "failure" in
  let stage := bounded stage stages "start" in
  let reason := bounded reason reasons "internal" in
  let labels := MetricLabels node outcome stage reason in
  let key := DurationLabels node outcome in
  let seconds := max0 (Seconds duration) in
  let m' := Registry (component m) (mnodes m)
    (<[labels := u64 (default 0 (totals m !! labels) + 1)]> (totals m))
    (<[key := observe (default zero_duration (durations m !! key)) seconds]> (durations m))
    (if (outcome =? "success") && ((component m <>? "responder") || (reason =? "proof_served"))
     then <[node := f64_div (f64_of_Z now) (f64_of_Z 1000000000)]> (lastSuccess m) else lastSuccess m)
    (pending m) (capacity m) (proofs m) in
  Some (m', Event now (if outcome =? "failure" then "warn" else "info") (component m)
    node outcome stage reason seconds).

(** ** The metrics listener

    The sockets of the process are a map from descriptors to the addresses
    they listen on; [server] and [listener] hold the same descriptor. *)
Record metricsListener := Listener {
  l_address : string;
  l_listener : option nat;
  l_server : option nat }.

Notation sockets := (gmap nat string).

Definition validateMetricsAddress (address : string) : result unit :=
  if address =? "" then Ok tt else
  match splitHostPort address with
  | None => Err (ErrNew "invalid metrics address")
  | Some (host, port) =>
      match parseAddr host with
      | None => Err (ErrNew "metrics address must use a literal loopback IP")
      | Some ip =>
          reject negb (isLoopback ip) || (zone ip <>? "") || is4In6 ip
          with ErrNew "metrics address must use a literal loopback IP";
          match atoi port with
          | None => Err (ErrNew "invalid metrics port")
          | Some number =>
              reject (number <? 0) || (65535 <? number) with ErrNew "invalid metrics port";
              Ok tt
          end
      end
  end.

Definition close_fd (fd : option nat) (socks : sockets) : sockets :=
  match fd with Some f => delete f socks | None => socks end.

(** [close]: [closeErr] is what closing the HTTP server reports. *)
Definition listener_close (m : metricsListener) (closeErr : result unit) (socks : sockets)
    : result unit * metricsListener * sockets :=
  match l_server m with
  | None => (Ok tt, m, socks)
  | Some _ => (closeErr, Listener "" None None, close_fd (l_listener m) (close_fd (l_server m) socks))
  end.

(** [configure]: [listen] is the descriptor [net.Listen] returns, if it does. *)
Definition configure (m : metricsListener) (address : string) (listen : option nat)
    (closeErr : result unit) (socks : sockets) : result unit * metricsListener * sockets :=
  match validateMetricsAddress address with
  | Ok _ =>
      if address =? l_address m then (Ok tt, m, socks)
      else if address =? "" then listener_close m closeErr socks
      else match listen with
           | None => (Err (ErrNew "cannot listen on metrics address"), m, socks)
           | Some fd =>
               let '(_, _, socks') := listener_close m closeErr (<[fd := address]> socks) in
               (Ok tt, Listener address (Some fd) (Some fd), socks')
           end
  | Err e => (Err e, m, socks)
  | Panic p => (Panic p, m, socks)
  end.

(** ** Classification of errors *)

(** [errors.As(err, *observationError)]: the outermost one of the chain. *)
Fixpoint as_observed (e : error) : option (string * string) :=
  match e with
  | ErrObserved _ stage reason => Some (stage, reason)
  | ErrWrap _ inner => as_observed inner
  | _ => None
  end.

(** [status.Code]: the first status of the chain, [Unknown] without one. *)
Fixpoint statusCode (e : error) : grpc_code :=
  match e with
  | ErrStatus code _ => code
  | ErrWrap _ inner => statusCode inner
  | ErrObserved inner _ _ => statusCode inner
  | _ => CodeUnknown
  end.

Definition ctx_is (target : error) (ctxErr : option error) : bool :=
  match ctxErr with Some e => error_is target e | None => false end.

Definition classifyError (ctxErr : option error) (err : error) (stage reason : string) : string * string :=
  let '(stage, reason) := default (stage, reason) (as_observed err) in
  if error_is ErrCanceled err || ctx_is ErrCanceled ctxErr || (statusCode err =? CodeCanceled)
  then (stage, "canceled")
  else if error_is ErrDeadlineExceeded err || ctx_is ErrDeadlineExceeded ctxErr ||
          (statusCode err =? CodeDeadlineExceeded)
  then (stage, "deadline")
  else (stage, reason).

Definition observeError {A} (r : result A) (stage reason : string) : result A :=
  match r with
  | Err e => Err (ErrObserved e stage reason)
  | _ => r
  end.

(** ** Histories of a registry *)

(** What a process does with its registry. *)
Inductive metrics_step : metricsRegistry -> metricsRegistry -> Prop :=
| step_register m nodes : metrics_step m (register m nodes)
| step_capacity m n : metrics_step m (set_capacity m n)
| step_pending m m' node delta : pendingAdd (Some m) node delta = Some m' -> metrics_step m m'
| step_proof m action : metrics_step m (proof m action)
| step_record m m' ev node outcome stage reason duration now :
    record (Some m) node outcome stage reason duration now = Some (m', ev) -> metrics_step m m'.

Definition metrics_reachable (m : metricsRegistry) : Prop :=
  exists c m0, newMetrics c = Ok m0 /\ rtc metrics_step m0 m.

(** Arguments of one [record] call. *)
Record call := Call {
  c_node : string; c_outcome : string; c_stage : string; c_reason : string; c_duration : Z; c_now : Z }.

Definition run1 (m : metricsRegistry) (c : call) : metricsRegistry :=
  match record (Some m) (c_node c) (c_outcome c) (c_stage c) (c_reason c) (c_duration c) (c_now c) with
  | Some (m', _) => m'
  | None => m
  end.
Definition run (m : metricsRegistry) (calls : list call) : metricsRegistry := foldl run1 m calls.

Definition call_key (m : metricsRegistry) (c : call) : durationLabels :=
  DurationLabels (nodeLocked m (c_node c)) (bounded (c_outcome c) outcomes "failure").

(** The durations recorded under a key. *)
Definition observed (m : metricsRegistry) (key : durationLabels) (calls : list call) : list float64 :=
  (fun c => max0 (Seconds (c_duration c))) <$> filter (fun c => call_key m c = key) calls.

(** ** Lemmas *)

(** Labels stay in the vocabulary, nodes in the configuration. *)
Record registry_inv (m : metricsRegistry) : Prop := {
  inv_unknown : "unknown" ∈ mnodes m;
  inv_totals k : is_Some (totals m !! k) ->
    ml_node k ∈ mnodes m /\ ml_outcome k ∈ outcomes /\ ml_stage k ∈ stages /\ ml_reason k ∈ reasons;
  inv_durations k : is_Some (durations m !! k) -> dl_node k ∈ mnodes m /\ dl_outcome k ∈ outcomes;
  inv_last n : is_Some (lastSuccess m !! n) -> n ∈ mnodes m;
  inv_pending n : is_Some (pending m !! n) -> n ∈ mnodes m;
  inv_proofs a : is_Some (proofs m !! a) -> a ∈ ["published"; "deleted"; "expired"] }.

Lemma bounded_in v allowed fb : fb ∈ allowed -> bounded v allowed fb ∈ allowed.
Proof. unfold bounded. by case_bool_decide. Qed.

Lemma nodeLocked_in m node : "unknown" ∈ mnodes m -> nodeLocked m node ∈ mnodes m.
Proof. unfold nodeLocked. by case_bool_decide. Qed.

Lemma inv_register1 m node : registry_inv m -> registry_inv (register1 m node).
Proof.
  intros [Hu Ht Hd Hl Hp Ha]. assert (Hup : forall n, n ∈ mnodes m -> n ∈ {[node]} ∪ mnodes m).
  { intros n. apply elem_of_union_r. }
  unfold register1. destruct (lastSuccess m !! node) eqn:E; split; simpl; auto.
  1, 3: intros k Hk; apply Ht in Hk; intuition.
  1, 2: intros k Hk; apply Hd in Hk; intuition.
  all: intros n; rewrite lookup_insert_is_Some;
    intros [<-|[_ Hn]]; [by apply elem_of_union_l, elem_of_singleton|auto].
Qed.

Lemma inv_register m nodes : registry_inv m -> registry_inv (register m nodes).
Proof.
  revert m. induction nodes as [|n nodes IH]; intros m H; [done|]. by apply IH, inv_register1.
Qed.

Lemma inv_step m m' : metrics_step m m' -> registry_inv m -> registry_inv m'.
Proof.
  intros [m0 nodes|m0 n|m0 m1 node delta E|m0 action|m0 m1 ev node outcome stage reason duration now E] H.
  - by apply inv_register.
  - by destruct H.
  - simpl in E. injection E as <-. destruct H. split; simpl; try done.
    intros n. rewrite lookup_insert_is_Some. intros [<-|[_ Hn]]; [by apply nodeLocked_in|auto].
  - unfold proof. destruct (_ || _) eqn:E; [|done]. destruct H. split; simpl; try done.
    intros a. rewrite lookup_insert_is_Some.
    rewrite !orb_true_iff, !bool_decide_eq_true in E. intros [<-|[_ Hn]]; [|auto].
    rewrite !elem_of_cons. tauto.
  - simpl in E. injection E as <- <-. destruct H.
    pose proof (nodeLocked_in m0 node inv_unknown0).
    pose proof (bounded_in outcome outcomes "failure" ltac:(by repeat constructor)).
    pose proof (bounded_in stage stages "start" ltac:(by repeat constructor)).
    pose proof (bounded_in reason reasons "internal" ltac:(by repeat constructor)).
    split; simpl; try done.
    + intros k. rewrite lookup_insert_is_Some. intros [<-|[_ Hk]]; [done|by apply inv_totals0].
    + intros k. rewrite lookup_insert_is_Some. intros [<-|[_ Hk]]; [done|by apply inv_durations0].
    + intros n. destruct (_ && _); [|apply inv_last0]. rewrite lookup_insert_is_Some.
      intros [<-|[_ Hn]]; auto.
Qed.

Lemma inv_reachable m : metrics_reachable m -> registry_inv m.
Proof.
  intros (c & m0 & Hn & Hs). assert (H0 : registry_inv m0).
  { unfold newMetrics in Hn. go_inv Hn. subst. split; simpl; [by apply elem_of_singleton|..].
    all: intros k [x Hx]; by rewrite lookup_empty in Hx. }
  clear Hn. induction Hs; eauto using inv_step.
Qed.

Lemma size_le_list {A} `{Countable A} (X : gset A) (l : list A) :
  (forall x, x ∈ X -> x ∈ l) -> (size X <= length l)%nat.
Proof.
  intros HX. transitivity (size (list_to_set l : gset A)).
  - apply subseteq_size. intros x Hx. apply elem_of_list_to_set. auto.
  - clear. induction l as [|a l IH]; simpl; [done|].
    destruct (decide (a ∈ (list_to_set l : gset A))) as [Hin|Hin].
    + rewrite subseteq_union_1_L by set_solver. lia.
    + rewrite size_union, size_singleton by set_solver. lia.
Qed.

Lemma length_bind_const {A B} (f : A -> list B) (l : list A) n :
  (forall x, length (f x) = n) -> length (l ≫= f) = (length l * n)%nat.
Proof.
  intros Hf. induction l as [|x l IH]; [done|]. rewrite bind_cons, length_app, Hf, IH. simpl. lia.
Qed.

(** Every label combination the vocabulary allows for a set of nodes. *)
Definition all_labels (ns : list string) : list metricLabels :=
  n ← ns; o ← outcomes; s ← stages; r ← reasons; [MetricLabels n o s r].
Definition all_keys (ns : list string) : list durationLabels :=
  n ← ns; o ← outcomes; [DurationLabels n o].

Lemma all_labels_length ns : length (all_labels ns) = (length ns * 990)%nat.
Proof. apply length_bind_const. intros n. reflexivity. Qed.

Lemma all_keys_length ns : length (all_keys ns) = (length ns * 3)%nat.
Proof. apply length_bind_const. intros n. reflexivity. Qed.

Lemma all_labels_in ns k :
  ml_node k ∈ ns -> ml_outcome k ∈ outcomes -> ml_stage k ∈ stages -> ml_reason k ∈ reasons ->
  k ∈ all_labels ns.
Proof.
  intros Hn Ho Hs Hr. unfold all_labels. apply list_elem_of_bind. exists (ml_node k). split; [|done].
  apply list_elem_of_bind. exists (ml_outcome k). split; [|done].
  apply list_elem_of_bind. exists (ml_stage k). split; [|done].
  apply list_elem_of_bind. exists (ml_reason k). split; [|done].
  destruct k. by constructor.
Qed.

Lemma all_keys_in ns k : dl_node k ∈ ns -> dl_outcome k ∈ outcomes -> k ∈ all_keys ns.
Proof.
  intros Hn Ho. unfold all_keys. apply list_elem_of_bind. exists (dl_node k). split; [|done].
  apply list_elem_of_bind. exists (dl_outcome k). split; [|done]. destruct k. by constructor.
Qed.

(** *** Histograms *)
Definition count_le (bound : float64) (ds : list float64) : Z :=
  Z.of_nat (length (List.filter (fun s => f64_leb s bound) ds)).

Lemma count_le_snoc bound ds s :
  count_le bound (ds ++ [s]) = count_le bound ds + (if f64_leb s bound then 1 else 0).
Proof.
  unfold count_le. rewrite List.filter_app, length_app. simpl. destruct (f64_leb s bound); simpl; lia.
Qed.

Lemma count_le_length bound ds : 0 <= count_le bound ds <= Z.of_nat (length ds).
Proof.
  unfold count_le. pose proof (List.filter_length_le (fun s => f64_leb s bound) ds). lia.
Qed.

Definition histogram_of (h : durationMetric) (ds : list float64) : Prop :=
  dm_count h = Z.of_nat (length ds) /\ dm_buckets h = (fun b => count_le b ds) <$> durationBuckets.

Lemma zip_with_fmap_same {A B C} (f : A -> C -> B) (g : C -> A) (l : list C) :
  zip_with f (g <$> l) l = (fun c => f (g c) c) <$> l.
Proof. induction l as [|c l IH]; [done|]. rewrite !fmap_cons. cbn [zip_with]. by rewrite IH. Qed.

Lemma histogram_observe h ds s :
  Z.of_nat (length ds) + 1 < 2 ^ 64 -> histogram_of h ds -> histogram_of (observe h s) (ds ++ [s]).
Proof.
  intros Hl [Hc Hb]. unfold histogram_of, observe. cbn [dm_count dm_buckets]. rewrite Hc, Hb. split.
  - unfold u64. rewrite wrap_small, length_app by lia. simpl. lia.
  - rewrite zip_with_fmap_same. apply list_fmap_ext. intros i b _. rewrite count_le_snoc.
    destruct (f64_leb s b); [|lia]. pose proof (count_le_length b ds). unfold u64. by rewrite wrap_small by lia.
Qed.

Lemma histogram_zero : histogram_of zero_duration [].
Proof. done. Qed.

Lemma leb_finite_trans m e m' e' s :
  f64_leb (S754_finite false m e) (S754_finite false m' e') = true ->
  f64_leb s (S754_finite false m e) = true -> f64_leb s (S754_finite false m' e') = true.
Proof.
  unfold f64_leb, SFleb, SFcompare. destruct s as [[]|[]| |[] ms es]; try done.
  destruct (Z.compare_spec e e'), (Z.compare_spec es e), (Z.compare_spec es e'); subst; try lia; try done;
    rewrite ?Pos.compare_cont_spec.
  all: destruct (Pos.compare_spec m m'), (Pos.compare_spec ms m), (Pos.compare_spec ms m'); subst; try lia; done.
Qed.

(** Consecutive bucket bounds increase. *)
Lemma buckets_increasing s i b b' :
  durationBuckets !! i = Some b -> durationBuckets !! S i = Some b' ->
  f64_leb s b = true -> f64_leb s b' = true.
Proof.
  do 11 (destruct i as [|i]; [cbn; intros [= <-] [= <-]; apply leb_finite_trans; done|]).
  intros Hi. by apply lookup_lt_Some in Hi; cbn in Hi; lia.
Qed.

Lemma count_le_mono b b' ds :
  (forall s, f64_leb s b = true -> f64_leb s b' = true) -> count_le b ds <= count_le b' ds.
Proof.
  intros H. unfold count_le. apply Nat2Z.inj_le. induction ds as [|s ds IH]; simpl; [done|].
  specialize (H s). destruct (f64_leb s b); [rewrite H by done; simpl; lia|].
  destruct (f64_leb s b'); simpl; lia.
Qed.

Lemma histogram_monotone h ds i n n' :
  histogram_of h ds -> dm_buckets h !! i = Some n -> dm_buckets h !! S i = Some n' -> n <= n'.
Proof.
  intros [_ ->]. rewrite !list_lookup_fmap.
  destruct (durationBuckets !! i) as [b|] eqn:E; [|done].
  destruct (durationBuckets !! S i) as [b'|] eqn:E'; [|done].
  intros [= <-] [= <-]. apply count_le_mono. intros s. by apply (buckets_increasing s i).
Qed.

Lemma call_key_run m calls c : call_key (run m calls) c = call_key m c.
Proof.
  assert (H : mnodes (run m calls) = mnodes m).
  { revert m. induction calls as [|d calls IH]; intros m; [done|]. unfold run in *. simpl. by rewrite IH. }
  unfold call_key, nodeLocked. by rewrite H.
Qed.

(** ** Correctness of the registry *)

(** No request can grow the label space: whatever is recorded, the series
    of a registry carry configured nodes and vocabulary labels only, so at most
    990 counters and 3 histograms exist per configured node. *)
Theorem registry_bounded m :
  metrics_reachable m ->
  (forall k, is_Some (totals m !! k) ->
     ml_node k ∈ mnodes m /\ ml_outcome k ∈ outcomes /\ ml_stage k ∈ stages /\ ml_reason k ∈ reasons) /\
  (size (totals m) <= size (mnodes m) * 990)%nat /\
  (size (durations m) <= size (mnodes m) * 3)%nat /\
  dom (lastSuccess m) ∪ dom (pending m) ⊆ mnodes m.
Proof.
  intros [Hu Ht Hd Hl Hp Ha]%inv_reachable. split; [exact Ht|]. rewrite <- !size_dom.
  split; [|split].
  - unfold size, set_size. simpl. rewrite <- all_labels_length. apply size_le_list.
    intros k Hk. apply elem_of_dom, Ht in Hk as (? & ? & ? & ?). apply all_labels_in; try done.
    by apply elem_of_elements.
  - unfold size, set_size. simpl. rewrite <- all_keys_length. apply size_le_list.
    intros k Hk. apply elem_of_dom, Hd in Hk as (? & ?). apply all_keys_in; [|done].
    by apply elem_of_elements.
  - intros n [Hn|Hn]%elem_of_union; apply elem_of_dom in Hn; auto.
Qed.

(** The histogram of a node and outcome counts exactly the durations
    recorded for them: its count is their number, bucket [i] the number that
    does not exceed bound [i], and the buckets are cumulative. *)
Theorem record_histogram m0 calls key :
  durations m0 !! key = None -> Z.of_nat (length calls) < 2 ^ 64 ->
  let ds := observed m0 key calls in
  match durations (run m0 calls) !! key with
  | None => ds = []
  | Some h => ds <> [] /\ histogram_of h ds /\
      forall i n n', dm_buckets h !! i = Some n -> dm_buckets h !! S i = Some n' -> n <= n'
  end.
Proof.
  intros H0. cbn zeta. revert calls. apply (rev_ind (fun calls => _ -> _)).
  { intros _. simpl. by rewrite H0. }
  intros c calls IH Hl. rewrite length_app in Hl. simpl in Hl. specialize (IH ltac:(lia)).
  unfold run. rewrite foldl_snoc. fold (run m0 calls).
  assert (Hd : durations (run1 (run m0 calls) c) = <[call_key (run m0 calls) c :=
    observe (default zero_duration (durations (run m0 calls) !! call_key (run m0 calls) c))
      (max0 (Seconds (c_duration c)))]> (durations (run m0 calls))) by done.
  rewrite Hd, call_key_run. unfold observed. rewrite filter_app, fmap_app. fold (observed m0 key calls).
  pose proof (length_filter (fun c => call_key m0 c = key) calls) as Hf.
  destruct (decide (call_key m0 c = key)) as [<-|Hne].
  - rewrite lookup_insert_eq. rewrite filter_cons_True by done. cbn [filter list_filter fmap list_fmap].
    assert (Hh : histogram_of (default zero_duration (durations (run m0 calls) !! call_key m0 c))
                   (observed m0 (call_key m0 c) calls)).
    { clear Hd. destruct (durations (run m0 calls) !! call_key m0 c) as [h|]; [by apply IH|].
      simpl. rewrite IH. apply histogram_zero. }
    apply (histogram_observe _ _ (max0 (Seconds (c_duration c)))) in Hh.
    2: { unfold observed. rewrite length_fmap. lia. }
    split; [by intros [_ ?]%app_nil|]. split; [exact Hh|]. intros i n n'. by apply (histogram_monotone _ _ i _ _ Hh).
  - rewrite lookup_insert_ne by done. rewrite filter_cons_False by done. cbn [filter list_filter fmap list_fmap].
    by rewrite app_nil_r.
Qed.

(** ** Correctness of the listener *)

(** The listener owns one open socket on its address, or none. *)
Definition listener_inv (m : metricsListener) (socks : sockets) : Prop :=
  l_server m = l_listener m /\
  match l_server m with
  | Some fd => l_address m <> "" /\ socks !! fd = Some (l_address m)
  | None => l_address m = ""
  end.

Lemma listener_close_spec m e socks r m' socks' :
  listener_inv m socks -> listener_close m e socks = (r, m', socks') ->
  m' = Listener "" None None /\ socks' = close_fd (l_server m) socks.
Proof.
  intros [Hl Hs] H. unfold listener_close in H. destruct m as [a l s]; simpl in *. subst l.
  destruct s as [fd|]; simplify_eq/=; [|done]. split; [done|]. unfold close_fd. apply delete_delete_eq.
Qed.

Lemma configure_spec m address listen closeErr socks r m' socks' :
  listener_inv m socks ->
  (forall fd, listen = Some fd -> socks !! fd = None) ->
  configure m address listen closeErr socks = (r, m', socks') ->
  listener_inv m' socks' /\
  (r = Ok tt -> l_address m' = address) /\
  (is_ok r = false -> address <> "" -> m' = m /\ socks' = socks) /\
  (forall fd, l_server m = Some fd -> m' <> m -> socks' !! fd = None) /\
  (forall fd, l_server m <> Some fd -> l_server m' <> Some fd -> socks' !! fd = socks !! fd).
Proof.
  intros Hi Hfresh H. unfold configure in H.
  destruct (validateMetricsAddress address); [|by simplify_eq..].
  case_bool_decide as Ha; [by simplify_eq|]. case_bool_decide as Hz.
  - subst address. destruct (listener_close_spec _ _ _ _ _ _ Hi H) as [-> ->].
    split_and!; try done; intros fd Hfd _; unfold close_fd.
    + by rewrite Hfd, lookup_delete_eq.
    + destruct (l_server m) as [f|]; [|done]. apply lookup_delete_ne. congruence.
  - destruct listen as [fd|]; [|by simplify_eq].
    specialize (Hfresh fd eq_refl).
    destruct (listener_close m closeErr (<[fd:=address]> socks)) as [[r0 m0] s0] eqn:Hc.
    simplify_eq. assert (Hne : l_server m <> Some fd).
    { intros E. destruct Hi as [_ Hs]. rewrite E in Hs. destruct Hs as [_ Hs]. congruence. }
    apply listener_close_spec in Hc as [_ ->].
    2: { destruct Hi as [He Hs]. split; [done|]. destruct (l_server m) as [f|]; [|done].
         rewrite lookup_insert_ne by congruence. done. }
    unfold listener_inv, close_fd. simpl. split_and!; try done.
    + destruct (l_server m) as [f|]; [rewrite lookup_delete_ne by congruence|]; by rewrite lookup_insert_eq.
    + intros f Hf _. by rewrite Hf, lookup_delete_eq.
    + intros f Hf Hf'. destruct (l_server m) as [g|];
        [rewrite lookup_delete_ne by congruence|]; by rewrite lookup_insert_ne by congruence.
Qed.

(** Reconfiguring the metrics listener keeps it consistent with the open
    sockets.  A successful call serves the requested address on one socket
    and has closed the previous one; a rejected address or a failed bind
    changes nothing; sockets the listener does not own are left alone. *)
Theorem configure_correct m address listen closeErr socks r m' socks' :
  listener_inv m socks ->
  (forall fd, listen = Some fd -> socks !! fd = None) ->
  configure m address listen closeErr socks = (r, m', socks') ->
  listener_inv m' socks' /\
  (r = Ok tt -> l_address m' = address) /\
  (is_ok r = false -> address <> "" -> m' = m /\ socks' = socks) /\
  (forall fd, l_server m = Some fd -> m' <> m -> socks' !! fd = None) /\
  (forall fd, l_server m <> Some fd -> l_server m' <> Some fd -> socks' !! fd = socks !! fd).
Proof. apply configure_spec. Qed.

(** The metrics endpoint is only ever bound to a literal loopback address:
    an accepted non-empty address is [host:port] with a host in 127.0.0.0/8 or
    [::1] without a zone, and a port below 65536. *)
Theorem metrics_address_loopback address :
  address <> "" -> validateMetricsAddress address = Ok tt ->
  exists host port ip number,
    splitHostPort address = Some (host, port) /\ parseAddr host = Some ip /\
    atoi port = Some number /\ 0 <= number <= 65535 /\
    ((exists v, ip = Addr4 v /\ v / 2 ^ 24 = 127) \/ ip = Addr6 1 "").
Proof.
  intros Hne H. unfold validateMetricsAddress in H. rewrite bool_decide_false in H by done.
  destruct (splitHostPort address) as [[host port]|]; [|done].
  destruct (parseAddr host) as [ip|] eqn:Hip; [|done].
  destruct (_ || _ || is4In6 ip) eqn:E in H; [done|].
  destruct (atoi port) as [number|] eqn:Hn; [|done]. go_inv H. bprop.
  exists host, port, ip, number. split_and!; try done.
  destruct ip as [|v|v z]; [done| |]; unfold isLoopback in *; cbn [unmap] in *.
  - bprop. eauto.
  - match goal with Hm : is4In6 _ = false |- _ => rewrite Hm in * end. cbn [zone] in *. bprop. subst. auto.
Qed.

(** ** Concrete instances *)
Module MetricsExamples.
Definition reg : metricsRegistry := Registry "server" {["unknown"; "eihort"]} ∅ ∅ ∅ ∅ 0 ∅.
Definition calls : list call :=
  [Call "eihort" "success" "verify" "attributes_sent" (30 * 1000000) 0;
   Call "eihort" "success" "verify" "attributes_sent" (3 * Second) 0;
   Call "forged" "success" "verify" "attributes_sent" Second 0].

Lemma registry_bounded_witness :
  (size (totals (run (register (Registry "server" {["unknown"]} ∅ ∅ ∅ ∅ 0 ∅) ["eihort"]) calls)) <= 2 * 990)%nat.
Proof.
  set (m := run _ _).
  assert (H : metrics_reachable m).
  { exists "server", (Registry "server" {["unknown"]} ∅ ∅ ∅ ∅ 0 ∅). split; [reflexivity|].
    eapply rtc_l; [apply (step_register _ ["eihort"])|].
    eapply rtc_l; [eapply step_record; reflexivity|]. eapply rtc_l; [eapply step_record; reflexivity|].
    eapply rtc_l; [eapply step_record; reflexivity|]. apply rtc_refl. }
  destruct (registry_bounded m H) as (_ & Hb & _). exact Hb.
Defined.

Lemma record_histogram_witness :
  exists h, durations (run reg calls) !! DurationLabels "eihort" "success" = Some h /\
    histogram_of h (observed reg (DurationLabels "eihort" "success") calls) /\
    dm_buckets h = [0; 1; 1; 1; 1; 1; 2; 2; 2; 2; 2].
Proof.
  pose proof (record_histogram reg calls (DurationLabels "eihort" "success") eq_refl eq_refl) as H.
  eexists. split; [reflexivity|]. split; [apply H|]. vm_compute. reflexivity.
Defined.

Lemma configure_correct_witness :
  l_address (configure (Listener "127.0.0.1:1" (Some 3%nat) (Some 3%nat)) "127.0.0.1:2" (Some 4%nat) (Ok tt)
    {[3%nat := "127.0.0.1:1"]}).1.2 = "127.0.0.1:2".
Proof.
  eapply (configure_correct (Listener "127.0.0.1:1" (Some 3%nat) (Some 3%nat)) "127.0.0.1:2" (Some 4%nat) (Ok tt)
    {[3%nat := "127.0.0.1:1"]}); [done| |vm_compute; reflexivity|reflexivity].
  intros fd [= <-]. reflexivity.
Defined.

Lemma metrics_address_loopback_witness :
  exists host port ip number, splitHostPort "[::1]:9108" = Some (host, port) /\
    parseAddr host = Some ip /\ atoi port = Some number.
Proof.
  destruct (metrics_address_loopback "[::1]:9108") as (h & p & ip & n & H); [done|vm_compute; reflexivity|].
  exists h, p, ip, n. tauto.
Defined.
End MetricsExamples.
