(* ===== verification/AttestExposition.v ===== *)
(** * The metrics endpoint of the attestation processes

    Models [ServeHTTP] of [pkgs/realm-node-attest/metrics.go]: the registry as
    text.  Go iterates over a map in any order, so the orders of the four
    iterations are inputs; [exposition_deterministic] shows that they do not
    matter, [exposition_exact] that a scrape reads the registry, every series
    once. *)

From stdpp Require Import sorting.
From Stdlib Require Import SpecFloat.
From S2P Require Import Prelude GoStrings GoFloat Exposition AttestProtocol AttestMetrics.

Open Scope Z_scope.
Open Scope go_scope.

(** ** [sort.Slice] *)
Section sort_slice.
Context {A : Type} (less : A -> A -> bool).

Fixpoint insert_by (x : A) (l : list A) : list A :=
  match l with
  | [] => [x]
  | y :: l' => if less y x then y :: insert_by x l' else x :: l
  end.
Definition sort_Slice (l : list A) : list A := foldr insert_by [] l.

Lemma insert_by_perm x l : insert_by x l ≡ₚ x :: l.
Proof.
  induction l as [|y l IH]; cbn [insert_by]; [done|]. destruct (less y x); [|done]. rewrite IH. apply Permutation_swap.
Qed.

Lemma sort_Slice_perm l : sort_Slice l ≡ₚ l.
Proof. induction l as [|x l IH]; [done|]. cbn. by rewrite insert_by_perm, IH. Qed.

Context (le : relation A) `{!Transitive le, !AntiSymm (=) le} (Hless : forall x y, if less x y then le x y else le y x).

Lemma insert_by_sorted x l : StronglySorted le l -> StronglySorted le (insert_by x l).
Proof.
  induction 1 as [|y l Hl IH Hy]; cbn [insert_by]; [by repeat constructor|]. pose proof (Hless y x) as Hle. destruct (less y x).
  - constructor; [done|]. rewrite insert_by_perm. by constructor.
  - constructor; [by constructor|]. constructor; [done|]. eapply Forall_impl; [exact Hy|]. intros z Hz. by etransitivity.
Qed.

Lemma sort_Slice_unique l l' : l ≡ₚ l' -> sort_Slice l = sort_Slice l'.
Proof.
  assert (Hs : forall l, StronglySorted le (sort_Slice l)).
  { intros k. induction k as [|x k IH]; [constructor|]. by apply insert_by_sorted. }
  intros H. apply (StronglySorted_unique le); [done..|]. by rewrite !sort_Slice_perm.
Qed.
End sort_slice.

(** ** The document *)

(** The orders in which [ServeHTTP] meets the entries of the maps. *)
Record orders := Orders {
  o_totals : list (metricLabels * Z); o_keys : list durationLabels; o_nodes : list string;
  o_rejections : list (metricLabels * Z) }.

Definition help (name text kind : string) : list line :=
  [Comment (" HELP " +:+ name +:+ " " +:+ text); Comment (" TYPE " +:+ name +:+ " " +:+ kind)].

Definition total_name : string := "realm_http_attestation_total".
Definition duration_name : string := "realm_http_attestation_duration_seconds".
Definition last_name : string := "realm_http_attestation_last_success_timestamp_seconds".
Definition pending_name : string := "realm_http_attestation_pending".
Definition rejections_name : string := "realm_http_attestation_rejections_total".
Definition capacity_name : string := "realm_http_attestation_capacity".
Definition proofs_name : string := "realm_http_responder_proofs_total".

Definition total_series (m : metricsRegistry) (kv : metricLabels * Z) : series :=
  Series total_name
    [("component", component m); ("node", ml_node kv.1); ("outcome", ml_outcome kv.1); ("stage", ml_stage kv.1); ("reason", ml_reason kv.1)]
    (itoa kv.2).

Definition key_less (a b : durationLabels) : bool :=
  if dl_node a <>? dl_node b then String.ltb (dl_node a) (dl_node b) else String.ltb (dl_outcome a) (dl_outcome b).

Definition histogram_series (m : metricsRegistry) (k : durationLabels) (h : durationMetric) : list series :=
  let labels := [("component", component m); ("node", dl_node k); ("outcome", dl_outcome k)] in
  imap (fun i bound => Series (duration_name +:+ "_bucket") (labels ++ [("le", formatFloat bound)])
                              (itoa (default 0 (dm_buckets h !! i)))) durationBuckets ++
  [Series (duration_name +:+ "_bucket") (labels ++ [("le", "+Inf")]) (itoa (dm_count h));
   Series (duration_name +:+ "_sum") labels (formatFloat (dm_sum h));
   Series (duration_name +:+ "_count") labels (itoa (dm_count h))].

Definition node_labels (m : metricsRegistry) (node : string) : list (string * string) :=
  [("component", component m); ("node", node)].

Definition last_series (m : metricsRegistry) (node : string) : series :=
  Series last_name (node_labels m node) (formatFloat (default (f64_of_Z 0) (lastSuccess m !! node))).

Definition pending_series (m : metricsRegistry) (node : string) : series :=
  Series pending_name (node_labels m node) (itoa (default 0 (pending m !! node))).

Definition is_rejection (kv : metricLabels * Z) : bool :=
  (ml_outcome kv.1 =? "failure") && ((ml_reason kv.1 =? "capacity") || (ml_reason kv.1 =? "rate_limit")).

Definition rejection_series (m : metricsRegistry) (kv : metricLabels * Z) : series :=
  Series rejections_name
    [("component", component m); ("node", ml_node kv.1); ("stage", ml_stage kv.1); ("reason", ml_reason kv.1)] (itoa kv.2).

Definition proof_series (m : metricsRegistry) (node action : string) : series :=
  Series proofs_name [("component", "responder"); ("node", node); ("action", action)] (itoa (default 0 (proofs m !! action))).

Definition proof_actions : list string := ["published"; "deleted"; "expired"].

Definition capacity_series (m : metricsRegistry) : series := Series capacity_name [("component", component m)] (itoa (capacity m)).

(** ** [ServeHTTP] *)
Record reply := Reply { rp_status : Z; rp_headers : list (string * string); rp_body : string }.

Section serve.
Variable quote_unicode : string -> string.

Definition write_lines (ls : list string) : string := foldr String.append "" ls.

Definition metrics_text (m : metricsRegistry) (o : orders) : string :=
  let nodes := slices_Sort (o_nodes o) in
  let text := render quote_unicode in
  text (help total_name "Completed local operations. Success does not assert SVID issuance." "counter") +:+
  write_lines (slices_Sort ((sample_line quote_unicode ∘ total_series m) <$> o_totals o)) +:+
  text (help duration_name "Duration of completed local operations." "histogram") +:+
  text (Entry <$> (k ← sort_Slice key_less (o_keys o); histogram_series m k (default zero_duration (durations m !! k)))) +:+
  text (help last_name "Last local proof success in this process. Zero means none." "gauge") +:+
  text (Entry <$> (last_series m <$> nodes)) +:+
  text (help pending_name "Current local attempts or stored responder proofs." "gauge") +:+
  text (Entry <$> (pending_series m <$> nodes)) +:+
  text (help rejections_name "Capacity and verified proof quota rejections." "counter") +:+
  write_lines (slices_Sort ((sample_line quote_unicode ∘ rejection_series m) <$> filter (fun kv => is_rejection kv = true) (o_rejections o))) +:+
  (if 0 <? capacity m then
     text (help capacity_name "Maximum pending operations per server generation or responder." "gauge" ++ [Entry (capacity_series m)])
   else "") +:+
  (if component m =? "responder" then
     text (help proofs_name "Stored proof lifecycle operations, not enrollments." "counter" ++
           (Entry <$> (node ← filter (fun n => n <> "unknown") nodes; proof_series m node <$> proof_actions)))
   else "").

Definition ServeHTTP (m : metricsRegistry) (o : orders) (method path : string) : reply :=
  if path <>? "/metrics" then
    Reply 404 [("Content-Type", "text/plain; charset=utf-8"); ("X-Content-Type-Options", "nosniff")] ("404 page not found" +:+ String newline "")
  else if method <>? "GET" then Reply 405 [("Allow", "GET")] ""
  else Reply 200 [("Content-Type", "text/plain; version=0.0.4; charset=utf-8"); ("Cache-Control", "no-store")] (metrics_text m o).
End serve.

(** The orders are those of iterations over the maps of [m]. *)
Definition iterates (m : metricsRegistry) (o : orders) : Prop :=
  o_totals o ≡ₚ map_to_list (totals m) /\ o_keys o ≡ₚ (map_to_list (durations m)).*1 /\
  o_nodes o ≡ₚ elements (mnodes m) /\ o_rejections o ≡ₚ map_to_list (totals m).

(** What the registry holds, as series. *)
Definition exported (m : metricsRegistry) : list series :=
  (total_series m <$> map_to_list (totals m)) ++
  (map_to_list (durations m) ≫= fun kh => histogram_series m kh.1 kh.2) ++
  (last_series m <$> elements (mnodes m)) ++
  (pending_series m <$> elements (mnodes m)) ++
  (rejection_series m <$> filter (fun kv => is_rejection kv = true) (map_to_list (totals m))) ++
  (if 0 <? capacity m then [capacity_series m] else []) ++
  (if component m =? "responder" then
     node ← filter (fun n => n <> "unknown") (elements (mnodes m)); proof_series m node <$> proof_actions
   else []).

Definition series_key (s : series) : string * list (string * string) := (se_name s, se_labels s).

(** ** The order of the maps does not matter *)
Lemma ltb_sle s t : if String.ltb s t then sle s t else sle t s.
Proof.
  unfold sle, String.ltb, String.leb. rewrite (String.compare_antisym t s). by destruct (String.compare s t).
Qed.

Definition key_le (a b : durationLabels) : Prop :=
  if decide (dl_node a = dl_node b) then sle (dl_outcome a) (dl_outcome b) else sle (dl_node a) (dl_node b).

#[export] Instance key_le_trans : Transitive key_le.
Proof.
  intros [n1 o1] [n2 o2] [n3 o3]. unfold key_le. cbn [dl_node dl_outcome]. intros Hab Hbc. repeat case_decide; subst; try done; try (by eapply sle_trans).
  exfalso. apply H. by apply (anti_symm sle).
Qed.

#[export] Instance key_le_antisymm : AntiSymm (=) key_le.
Proof.
  intros [n1 o1] [n2 o2]. unfold key_le. cbn [dl_node dl_outcome]. intros Hab Hba. repeat case_decide; subst; try done.
  - f_equal. by apply (anti_symm sle).
  - exfalso. apply H. by apply (anti_symm sle).
Qed.

Lemma key_less_le x y : if key_less x y then key_le x y else key_le y x.
Proof.
  unfold key_less, key_le. destruct (dl_node x <>? dl_node y) eqn:E; bprop.
  - pose proof (ltb_sle (dl_node x) (dl_node y)). destruct (String.ltb _ _); by rewrite decide_False by congruence.
  - pose proof (ltb_sle (dl_outcome x) (dl_outcome y)). destruct (String.ltb _ _); by rewrite decide_True by congruence.
Qed.

Lemma text_perm q m o o' : o_totals o ≡ₚ o_totals o' -> o_keys o ≡ₚ o_keys o' -> o_nodes o ≡ₚ o_nodes o' ->
  o_rejections o ≡ₚ o_rejections o' -> metrics_text q m o = metrics_text q m o'.
Proof.
  intros Ht Hk Hn Hr. unfold metrics_text. rewrite (sort_unique _ _ Hn), (sort_Slice_unique _ key_le key_less_le _ _ Hk).
  rewrite (sort_unique _ ((sample_line q ∘ total_series m) <$> o_totals o')) by (by rewrite Ht).
  rewrite (sort_unique (_ <$> filter _ (o_rejections o)) ((sample_line q ∘ rejection_series m) <$> filter (fun kv => is_rejection kv = true) (o_rejections o'))) by (by rewrite Hr).
  done.
Qed.

(** Go iterates over the maps of the registry in an arbitrary order; what the
    endpoint answers does not depend on it. *)
Theorem exposition_deterministic q m o o' method path : iterates m o -> iterates m o' ->
  ServeHTTP q m o method path = ServeHTTP q m o' method path.
Proof.
  intros (H1 & H2 & H3 & H4) (H1' & H2' & H3' & H4'). unfold ServeHTTP. rewrite (text_perm q m o o'); [done|..]; etransitivity; eauto; by symmetry.
Qed.

(** ** What a scrape reads *)

Lemma write_lines_render q l : write_lines (sample_line q <$> l) = render q (Entry <$> l).
Proof. induction l as [|s l IH]; [done|]. change (sample_line q s +:+ write_lines (sample_line q <$> l) = sample_line q s +:+ render q (Entry <$> l)). by rewrite IH. Qed.

(** Sorted lines are the lines of some order of the samples. *)
Lemma sorted_lines {A} q (f : A -> series) l :
  exists l', l' ≡ₚ f <$> l /\ write_lines (slices_Sort ((sample_line q ∘ f) <$> l)) = render q (Entry <$> l').
Proof.
  pose proof (sort_perm ((sample_line q ∘ f) <$> l)) as H. rewrite list_fmap_compose in H at 2.
  apply Permutation_map_inv in H as (l' & -> & Hp). exists l'. split; [by symmetry|]. apply write_lines_render.
Qed.

Definition comment_ok (l : line) : bool := match l with Comment t => all_chars (fun c => c <>? newline) t | Entry _ => true end.

Lemma line_ok_split doc : forallb comment_ok doc = true -> Forall series_ok (samples_of doc) -> Forall line_ok doc.
Proof.
  induction doc as [|l doc IH]; cbn [forallb]; intros Hc Hs; [constructor|]. apply andb_true_iff in Hc as [Hc Hcs]. constructor.
  - destruct l as [t|s]; [done|]. cbn in Hs. by apply Forall_cons in Hs as [Hs _].
  - apply IH; [done|]. destruct l as [t|s]; [done|]. cbn in Hs. by apply Forall_cons in Hs as [_ Hs].
Qed.

Lemma comment_ok_samples l : forallb comment_ok (Entry <$> l) = true.
Proof. by induction l. Qed.

Lemma render_if q (b : bool) doc : (if b then render q doc else "") = render q (if b then doc else []).
Proof. by destruct b. Qed.

(** The text is that of a document with the samples of the registry. *)
Lemma text_document q m o : iterates m o ->
  exists doc, metrics_text q m o = render q doc /\ forallb comment_ok doc = true /\ samples_of doc ≡ₚ exported m.
Proof.
  intros (Ht & Hk & Hn & Hr). destruct (sorted_lines q (total_series m) (o_totals o)) as (t & Htp & Het).
  destruct (sorted_lines q (rejection_series m) (filter (fun kv => is_rejection kv = true) (o_rejections o))) as (r & Hrp & Her).
  unfold metrics_text. cbv zeta. rewrite Het, Her, !render_if.
  assert (Hhist : forall ks, ks ≡ₚ (map_to_list (durations m)).*1 ->
    (k ← ks; histogram_series m k (default zero_duration (durations m !! k))) ≡ₚ (map_to_list (durations m) ≫= fun kh => histogram_series m kh.1 kh.2)).
  { intros ks ->. rewrite list_fmap_bind. erewrite list_bind_ext_in; [done|]. intros [k h] Hin. apply elem_of_map_to_list in Hin. cbn. by rewrite Hin. }
  assert (Hnodes : slices_Sort (o_nodes o) ≡ₚ elements (mnodes m)) by (by rewrite sort_perm). set (nodes := slices_Sort (o_nodes o)) in *.
  set (cap := if 0 <? capacity m then _ else []). set (prf := if component m =? "responder" then _ else []).
  eexists (help _ _ _ ++ (Entry <$> t) ++ help _ _ _ ++ (Entry <$> _) ++ help _ _ _ ++ (Entry <$> _) ++ help _ _ _ ++ (Entry <$> _) ++ help _ _ _ ++ (Entry <$> r) ++ cap ++ prf).
  split_and!.
  - rewrite !render_app. reflexivity.
  - rewrite !forallb_app, !comment_ok_samples. unfold cap, prf. by destruct (0 <? capacity m), (component m =? "responder"); rewrite ?forallb_app, ?comment_ok_samples.
  - assert (Hcap : samples_of cap = if 0 <? capacity m then [capacity_series m] else []) by (unfold cap; by destruct (0 <? capacity m)).
    assert (Hprf : samples_of prf ≡ₚ if component m =? "responder" then node ← filter (fun n => n <> "unknown") (elements (mnodes m)); proof_series m node <$> proof_actions else []).
    { unfold prf. destruct (component m =? "responder"); [|reflexivity]. rewrite samples_app, samples_of_samples, Hnodes. reflexivity. }
    rewrite !samples_app, !samples_of_samples, Hcap, Hprf. unfold exported. rewrite Htp, Hrp, Ht, Hr, Hnodes, Hhist; [done|]. by rewrite sort_Slice_perm.
Qed.

(** *** The samples are well formed *)
Definition plain_nodes (m : metricsRegistry) : Prop := forall n, n ∈ mnodes m -> all_chars printable n = true.

Lemma step_component m m' : metrics_step m m' -> component m' = component m.
Proof.
  intros [m0 nodes|m0 n|m0 m1 node delta E|m0 action|m0 m1 ev node outcome stage reason duration now E].
  - unfold register. revert m0. induction nodes as [|n nodes IH]; intros m0; [done|]. cbn [foldl]. rewrite IH. unfold register1. by case_match.
  - done.
  - simpl in E. by injection E as <-.
  - unfold proof. by case_match.
  - simpl in E. by injection E as <- <-.
Qed.

Lemma reachable_component m : metrics_reachable m -> all_chars printable (component m) = true.
Proof.
  intros (c & m0 & Hn & Hs). assert (Hc : component m = component m0).
  { clear Hn. induction Hs as [|x y z Hxy Hyz IH]; [done|]. rewrite IH. by apply step_component. }
  rewrite Hc. unfold newMetrics in Hn. destruct (_ && _) eqn:E; [done|]. injection Hn as <-. cbn [component].
  destruct (decide (c = "agent")) as [->|]; [done|]. destruct (decide (c = "server")) as [->|]; [done|]. destruct (decide (c = "responder")) as [->|]; [done|].
  rewrite !bool_decide_false in E by done. done.
Qed.

Lemma vocabulary_printable v : v ∈ outcomes ++ stages ++ reasons ++ proof_actions -> all_chars printable v = true.
Proof. revert v. apply Forall_forall. by repeat constructor. Qed.

Create HintDb exposition.
#[local] Hint Resolve word_itoa word_float printable_float vocabulary_printable : exposition.

Ltac labels_ok := repeat first [apply Forall_nil_2 | apply Forall_cons; split; [split; [by split|]; cbn [fst snd]; eauto with exposition|]].
Ltac sample_ok := split_and!; unfold total_series, last_series, pending_series, rejection_series, capacity_series, proof_series, node_labels; cbn [se_name se_labels se_value]; [by split|labels_ok|auto with exposition].

Lemma histogram_ok m k h : all_chars printable (component m) = true -> all_chars printable (dl_node k) = true -> all_chars printable (dl_outcome k) = true ->
  Forall series_ok (histogram_series m k h).
Proof.
  intros Hc Hn Ho. unfold histogram_series. cbv zeta.
  assert (Hl : Forall (fun l => name_ok l.1 /\ all_chars printable l.2 = true) [("component", component m); ("node", dl_node k); ("outcome", dl_outcome k)]) by labels_ok.
  apply Forall_app. split.
  - apply Forall_forall. intros s Hs. apply elem_of_lookup_imap in Hs as (i & b & -> & _). split_and!; cbn [se_name se_labels se_value]; [by split| |auto with exposition].
    apply Forall_app. split; [done|]. labels_ok.
  - rewrite !Forall_cons. split_and!; [..|by apply Forall_nil_2]; split_and!; cbn [se_name se_labels se_value]; try done; auto with exposition.
    apply Forall_app. split; [done|]. labels_ok.
Qed.

Lemma exported_ok m : metrics_reachable m -> plain_nodes m -> Forall series_ok (exported m).
Proof.
  intros Hm Hp. pose proof (reachable_component m Hm) as Hc. pose proof (inv_reachable m Hm) as Hi.
  assert (Ht : forall kv, kv ∈ map_to_list (totals m) -> all_chars printable (ml_node kv.1) = true /\ all_chars printable (ml_outcome kv.1) = true /\
    all_chars printable (ml_stage kv.1) = true /\ all_chars printable (ml_reason kv.1) = true).
  { intros [k n] Hin. apply elem_of_map_to_list in Hin. destruct (inv_totals m Hi k) as (H1 & H2 & H3 & H4); [by exists n|].
    split_and!; [by apply Hp|apply vocabulary_printable; rewrite !elem_of_app; tauto..]. }
  unfold exported. rewrite !Forall_app. split_and!.
  - apply Forall_fmap, Forall_forall. intros kv Hin. destruct (Ht kv Hin) as (H1 & H2 & H3 & H4). sample_ok.
  - apply Forall_bind, Forall_forall. intros [k h] Hin. apply elem_of_map_to_list in Hin. destruct (inv_durations m Hi k) as (H1 & H2); [by exists h|].
    apply histogram_ok; [done|by apply Hp|]. apply vocabulary_printable. rewrite !elem_of_app. tauto.
  - apply Forall_fmap, Forall_forall. intros n Hn. apply elem_of_elements, Hp in Hn. sample_ok.
  - apply Forall_fmap, Forall_forall. intros n Hn. apply elem_of_elements, Hp in Hn. sample_ok.
  - apply Forall_fmap, Forall_forall. intros kv [_ Hin]%list_elem_of_filter. destruct (Ht kv Hin) as (H1 & H2 & H3 & H4). sample_ok.
  - case_match; [|done]. apply Forall_singleton. sample_ok.
  - case_match; [|done]. apply Forall_bind, Forall_forall. intros n [_ Hn%elem_of_elements%Hp]%list_elem_of_filter. apply Forall_fmap, Forall_forall. intros a Ha.
    assert (Hv : all_chars printable a = true) by (apply vocabulary_printable; rewrite !elem_of_app; tauto). sample_ok.
Qed.

(** *** Every series occurs once *)
Definition named (names : list string) (l : list series) : Prop := Forall (fun s => se_name s ∈ names) l.

Lemma NoDup_keys_app na nb a b : named na a -> named nb b -> forallb (fun n => negb (bool_decide (n ∈ nb))) na = true ->
  NoDup (series_key <$> a) -> NoDup (series_key <$> b) -> NoDup (series_key <$> a ++ b).
Proof.
  intros Ha Hb Hd H1 H2. rewrite fmap_app. apply NoDup_app. split_and!; [done| |done]. intros k (s & -> & Hs)%list_elem_of_fmap (t & Heq & Ht)%list_elem_of_fmap.
  unfold named in *. rewrite Forall_forall in Ha, Hb. rewrite forallb_forall in Hd. specialize (Hd (se_name s)). injection Heq as Hn _.
  apply Ha in Hs. apply Hb in Ht. rewrite <- Hn in Ht. rewrite bool_decide_true in Hd by done. apply list_elem_of_In, Hd in Hs. done.
Qed.

Lemma named_app na nb a b : named na a -> named nb b -> named (na ++ nb) (a ++ b).
Proof.
  intros Ha Hb. apply Forall_app. split; (eapply Forall_impl; [eassumption|]); intros s Hs; cbn in *; apply elem_of_app; tauto.
Qed.

Lemma named_fmap {A} (f : A -> series) n l : (forall x, se_name (f x) = n) -> named [n] (f <$> l).
Proof. intros H. apply Forall_fmap, Forall_true. intros x. cbn. rewrite H. by left. Qed.

Lemma bucket_bounds : formatFloat <$> durationBuckets = ["0.01"; "0.05"; "0.1"; "0.5"; "1"; "2.5"; "5"; "10"; "30"; "60"; "120"].
Proof. by vm_compute. Qed.

(** The keys of a histogram: its bounds, the sum and the count. *)
Lemma histogram_keys m k h : let labels := [("component", component m); ("node", dl_node k); ("outcome", dl_outcome k)] in
  series_key <$> histogram_series m k h =
  ((fun b => (duration_name +:+ "_bucket", labels ++ [("le", b)])) <$> (formatFloat <$> durationBuckets) ++ ["+Inf"]) ++
  [(duration_name +:+ "_sum", labels); (duration_name +:+ "_count", labels)].
Proof.
  cbv zeta. unfold histogram_series. rewrite !fmap_app, fmap_imap, <- app_assoc. reflexivity.
Qed.

Lemma NoDup_histogram m k h : NoDup (series_key <$> histogram_series m k h).
Proof.
  rewrite histogram_keys, bucket_bounds. apply NoDup_app. split_and!.
  - apply NoDup_fmap_2_strong; [|by apply (bool_decide_unpack _); vm_compute]. intros x y _ _ [= H]. done.
  - intros key (b & -> & _)%list_elem_of_fmap. rewrite !elem_of_cons, elem_of_nil. intros [H|[H|H]]; [discriminate H|discriminate H|done].
  - apply NoDup_cons. split; [|apply NoDup_singleton]. rewrite list_elem_of_singleton. intros H. discriminate H.
Qed.

Lemma NoDup_series {A} (f : A -> series) l : (forall x y, x ∈ l -> y ∈ l -> series_key (f x) = series_key (f y) -> x = y) -> NoDup l ->
  NoDup (series_key <$> (f <$> l)).
Proof. intros Hf Hl. rewrite <- list_fmap_compose. by apply NoDup_fmap_2_strong. Qed.

Lemma NoDup_totals m : NoDup (series_key <$> (total_series m <$> map_to_list (totals m))).
Proof.
  apply NoDup_series; [|apply NoDup_map_to_list]. intros [[] v] [[] v'] Hx Hy [= -> -> -> ->]. by eapply map_to_list_inj.
Qed.

Lemma NoDup_rejections m : NoDup (series_key <$> (rejection_series m <$> filter (fun kv => is_rejection kv = true) (map_to_list (totals m)))).
Proof.
  apply NoDup_series; [|apply NoDup_filter, NoDup_map_to_list]. intros [[] v] [[] v'] [Hr Hx]%list_elem_of_filter [Hr' Hy]%list_elem_of_filter [= -> -> ->].
  apply map_to_list_inj with (totals m); [done..|]. unfold is_rejection in *. cbn in *. bprop. cbn. congruence.
Qed.

(** The key of a sample of a histogram tells which. *)
Lemma histogram_key_labels m k h key : key ∈ series_key <$> histogram_series m k h -> exists rest,
  key.2 = [("component", component m); ("node", dl_node k); ("outcome", dl_outcome k)] ++ rest.
Proof.
  rewrite histogram_keys, elem_of_app. intros [(b & -> & _)%list_elem_of_fmap|Hk]; [by eexists|].
  rewrite !elem_of_cons, elem_of_nil in Hk. destruct Hk as [->|[->|[]]]; exists []; by rewrite app_nil_r.
Qed.

Lemma NoDup_histograms m : NoDup (series_key <$> (map_to_list (durations m) ≫= fun kh => histogram_series m kh.1 kh.2)).
Proof.
  rewrite list_fmap_of_bind. apply NoDup_bind; [|intros; apply NoDup_histogram|apply NoDup_map_to_list].
  intros [[] h] [[] h'] key Hx Hy [r Hr]%histogram_key_labels [r' Hr']%histogram_key_labels. rewrite Hr in Hr'. cbn in Hr'. injection Hr' as -> ->.
  by eapply map_to_list_inj.
Qed.

Lemma named_histograms m : named [duration_name +:+ "_bucket"; duration_name +:+ "_sum"; duration_name +:+ "_count"]
  (map_to_list (durations m) ≫= fun kh => histogram_series m kh.1 kh.2).
Proof.
  apply Forall_bind, Forall_true. intros kh. apply Forall_app. split; [|by repeat constructor].
  apply Forall_forall. intros s Hs. apply elem_of_lookup_imap in Hs as (i & b & -> & _). by left.
Qed.

Lemma NoDup_proofs m ns : NoDup ns -> NoDup (series_key <$> (node ← ns; proof_series m node <$> proof_actions)).
Proof.
  intros Hns. rewrite list_fmap_of_bind. apply NoDup_bind; [| |done].
  - intros x y k _ _. rewrite <- !list_fmap_compose. intros (a & -> & _)%list_elem_of_fmap (b & Hk & _)%list_elem_of_fmap. by injection Hk.
  - intros x _. apply NoDup_series; [by intros a b _ _ [= ->]|]. by apply (bool_decide_unpack _); vm_compute.
Qed.

Lemma exported_once m : NoDup (series_key <$> exported m).
Proof.
  unfold exported. set (cap := if 0 <? capacity m then _ else _). set (prf := if component m =? "responder" then _ else _).
  assert (Hcap : named [capacity_name] cap) by (unfold cap; case_match; [apply Forall_singleton; by left|constructor]).
  assert (Hprf : named [proofs_name] prf).
  { unfold prf. case_match; [|constructor]. apply Forall_bind, Forall_true. intros n. by apply named_fmap. }
  assert (Hrej : named [rejections_name] (rejection_series m <$> filter (fun kv => is_rejection kv = true) (map_to_list (totals m)))) by (by apply named_fmap).
  assert (Hpen : named [pending_name] (pending_series m <$> elements (mnodes m))) by (by apply named_fmap).
  assert (Hlst : named [last_name] (last_series m <$> elements (mnodes m))) by (by apply named_fmap).
  assert (Htot : named [total_name] (total_series m <$> map_to_list (totals m))) by (by apply named_fmap). pose proof (named_histograms m) as Hhis.
  eapply NoDup_keys_app; [exact Htot|by repeat eapply named_app|done|apply NoDup_totals|].
  eapply NoDup_keys_app; [exact Hhis|by repeat eapply named_app|done|apply NoDup_histograms|].
  eapply NoDup_keys_app; [exact Hlst|by repeat eapply named_app|done|apply NoDup_series; [by intros x y _ _ [= ->]|apply NoDup_elements]|].
  eapply NoDup_keys_app; [exact Hpen|by repeat eapply named_app|done|apply NoDup_series; [by intros x y _ _ [= ->]|apply NoDup_elements]|].
  eapply NoDup_keys_app; [exact Hrej|by repeat eapply named_app|done|apply NoDup_rejections|].
  eapply NoDup_keys_app; [exact Hcap|exact Hprf|done| |].
  - unfold cap. case_match; [apply NoDup_singleton|constructor].
  - unfold prf. case_match; [|constructor]. apply NoDup_proofs, NoDup_filter, NoDup_elements.
Qed.

(** A scrape of the endpoint of a running process reads exactly its registry:
    the counters, the histograms with their buckets, the gauges of every
    configured node, the rejections, the capacity and the lifecycle of proofs,
    with their values, and every series once, if the names of the nodes are
    printable. *)
Theorem exposition_exact q m o : metrics_reachable m -> plain_nodes m -> iterates m o ->
  exists samples, scrape (rp_body (ServeHTTP q m o "GET" "/metrics")) = Some samples /\
    samples ≡ₚ exported m /\ NoDup (series_key <$> samples).
Proof.
  intros Hm Hp Ho. destruct (text_document q m o Ho) as (doc & Ht & Hc & Hs).
  change (rp_body (ServeHTTP q m o "GET" "/metrics")) with (metrics_text q m o). rewrite Ht. exists (samples_of doc). split_and!.
  - apply scrape_render, line_ok_split; [done|]. rewrite Hs. by apply exported_ok.
  - done.
  - rewrite Hs. apply exported_once.
Qed.

(** ** A concrete responder *)
Module ExpositionExamples.
Definition registry : metricsRegistry :=
  Eval vm_compute in
  match newMetrics "responder" with
  | Ok m0 =>
      match record (Some (proof (set_capacity (register m0 ["host.example"]) 4) "published")) "host.example" "success" "public" "proof_served" 250000000 (1763283123 * Second) with
      | Some (m1, _) => match record (Some m1) "other" "failure" "control" "capacity" (2 * Second) (1763283124 * Second) with Some (m2, _) => m2 | None => m1 end
      | None => m0
      end
  | _ => Registry "" ∅ ∅ ∅ ∅ ∅ 0 ∅
  end.

Definition in_order : orders :=
  Eval vm_compute in Orders (map_to_list (totals registry)) (map_to_list (durations registry)).*1 (elements (mnodes registry)) (map_to_list (totals registry)).
Definition reversed : orders :=
  Eval vm_compute in Orders (rev (o_totals in_order)) (rev (o_keys in_order)) (rev (o_nodes in_order)) (rev (o_rejections in_order)).

Lemma registry_reachable : metrics_reachable registry.
Proof.
  destruct (newMetrics "responder") as [m0|e|p] eqn:E0; [|discriminate E0..].
  exists "responder", m0. split; [done|]. injection E0 as <-.
  eapply rtc_l; [apply (step_register _ ["host.example"])|]. eapply rtc_l; [apply (step_capacity _ 4)|]. eapply rtc_l; [apply (step_proof _ "published")|].
  eapply rtc_l; [eapply (step_record _ _ _ "host.example" "success" "public" "proof_served" 250000000 (1763283123 * Second)); vm_compute; reflexivity|].
  eapply rtc_l; [eapply (step_record _ _ _ "other" "failure" "control" "capacity" (2 * Second) (1763283124 * Second)); vm_compute; reflexivity|].
  apply rtc_refl.
Qed.

Lemma registry_plain : plain_nodes registry.
Proof.
  intros n Hn. assert (Hl : n ∈ elements (mnodes registry)) by (by apply elem_of_elements).
  clear Hn. revert n Hl. apply Forall_forall. vm_compute. by repeat constructor.
Qed.

Lemma in_order_iterates : iterates registry in_order.
Proof. split_and!; vm_compute; reflexivity. Qed.

Lemma reversed_iterates : iterates registry reversed.
Proof. destruct in_order_iterates as (H1 & H2 & H3 & H4). split_and!; [rewrite <- H1|rewrite <- H2|rewrite <- H3|rewrite <- H4]; symmetry; apply Permutation_rev. Qed.

Definition body (o : orders) : string := rp_body (ServeHTTP (fun s => s) registry o "GET" "/metrics").

(** The lines of the rejection counter and of the capacity. *)
Example rejection_line : contains (body reversed) (sample_line (fun s => s)
  (Series rejections_name [("component", "responder"); ("node", "unknown"); ("stage", "control"); ("reason", "capacity")] "1")) = true.
Proof. by vm_compute. Qed.

Lemma exposition_exact_witness : exists samples, scrape (body reversed) = Some samples /\ samples ≡ₚ exported registry /\ NoDup (series_key <$> samples).
Proof. exact (exposition_exact (fun s => s) registry reversed registry_reachable registry_plain reversed_iterates). Defined.

Lemma exposition_deterministic_witness : body in_order = body reversed.
Proof. unfold body. rewrite (exposition_deterministic (fun s => s) registry in_order reversed "GET" "/metrics" in_order_iterates reversed_iterates). reflexivity. Defined.
End ExpositionExamples.
