(* ===== verification/AttestServer.v ===== *)
(** * The attestation server

    Models [pkgs/realm-node-attest/server.go].  The attempts live in a heap
    and are named by their index, as the Go code shares pointers to them: the
    [active] map holds handles, and [Close] compares them.  Each critical
    section of [Verify] and [Close] is a definition of its own; [Verify] and
    [Close] compose them, and the step relation of [ServerState] interleaves
    them.  Clock readings, random bytes, context errors and the HTTP endpoint
    are arguments. *)

From S2P Require Import Prelude GoStrings Encoding Regex Json NetIP AttestProtocol AttestMetrics.

Open Scope Z_scope.
Open Scope go_scope.

Record node := Node { n_name : string; n_fqdn : string; n_addresses : list addr }.

Record Server := MkServer {
  s_config : ServerConfig;
  s_nodes : gmap string node;
  s_active : gmap string nat;
  s_recent : gmap string (list Z) }.

Record ServerAttempt := Attempt {
  a_node : node;
  a_request : request;
  a_challenge : challenge;
  a_rawChallenge : string;
  a_deadline : Z;
  a_canceled : bool;
  a_verified : bool;
  a_closed : bool }.

(** What the goroutines of one server share. *)
Record world := World {
  w_server : Server;
  w_heap : list ServerAttempt;
  w_metrics : option metricsRegistry }.

(** ** Configuration *)

(** The address loop: [seen] and [n.addresses] hold the same addresses. *)
Fixpoint pin_addresses (name : string) (acc : list addr) (texts : list string) : result (list addr) :=
  match texts with
  | [] => Ok acc
  | text :: rest =>
      match parseAddr text with
      | None => Err (ErrNew ("node " +:+ name +:+ " has an invalid pinned address"))
      | Some address =>
          reject negb (validAddress address)
          with ErrNew ("node " +:+ name +:+ " has an invalid pinned address");
          reject bool_decide (address ∈ acc) with ErrNew "duplicate pinned node address";
          pin_addresses name (acc ++ [address]) rest
      end
  end.

Definition add_node (nodes : gmap string node) (entry : string * NodePolicy) : result (gmap string node) :=
  let '(name, policy) := entry in
  reject negb (matchString labelPattern name) || negb (validFQDN (np_FQDN policy)) ||
    (np_Addresses policy =? []) with ErrNew "invalid node policy";
  reject bool_decide (is_Some (nodes !! np_FQDN policy)) with ErrNew "duplicate node FQDN";
  reject 16 <? Z.of_nat (length (np_Addresses policy)) with ErrNew "too many node addresses";
  let! addresses := pin_addresses name [] (np_Addresses policy) in
  Ok (<[np_FQDN policy := Node name (np_FQDN policy) addresses]> nodes).

Fixpoint add_nodes (nodes : gmap string node) (entries : list (string * NodePolicy))
    : result (gmap string node) :=
  match entries with
  | [] => Ok nodes
  | e :: rest => let! nodes' := add_node nodes e in add_nodes nodes' rest
  end.

(** [NewServer]: [order] is the order in which the loop ranges over
    [config.Nodes]. *)
Definition NewServer (config : ServerConfig) (order : list (string * NodePolicy)) : result Server :=
  let! _ := validateMetricsAddress (sc_MetricsAddress config) in
  require sc_TrustHTTPTransport config
  else ErrNew "HTTP attestation requires an explicitly trusted verification path";
  reject negb (validFQDN (sc_TrustDomain config)) || (sc_Port config <? 1) || (65535 <? sc_Port config) ||
    (size (sc_Nodes config) =? 0%nat) with ErrNew "invalid server configuration";
  let! nodes := add_nodes ∅ order in
  Ok (MkServer config nodes ∅ ∅).

(** ** [Begin] *)

(** The part before the lock; each check carries its stage and reason. *)
Definition begin_checks (s : Server) (ctxErr : option error) (payload : string)
    (entropy1 entropy2 : result string) : result (request * node * string * string) :=
  let! _ := observeError (match ctxErr with Some e => Err e | None => Ok tt end) "payload" "invalid_payload" in
  let! req := observeError (decodeJSON payload : result request) "payload" "invalid_payload" in
  reject rq_Version req <>? 1
  with ErrObserved (ErrNew "unsupported attestation version") "payload" "invalid_payload";
  match s_nodes s !! rq_FQDN req with
  | None => Err (ErrObserved (ErrNew "FQDN is not authorized") "payload" "unknown_node")
  | Some n =>
      let! _ := observeError (jwk_key (rq_BootstrapJWK req)) "payload" "invalid_key" in
      let! id := observeError (randomValue entropy1) "start" "internal" in
      let! nonce := observeError (randomValue entropy2) "start" "internal" in
      Ok (req, n, id, nonce)
  end.

Definition set_active (s : Server) (active : gmap string nat) : Server :=
  MkServer (s_config s) (s_nodes s) active (s_recent s).

Definition issue (s : Server) (req : request) (id nonce : string) (now : Z) : challenge :=
  let domain := sc_TrustDomain (s_config s) in
  Challenge 1 id nonce (rq_FQDN req) domain (serverID domain) (thumbprint (rq_BootstrapJWK req))
    (Unix (now + ChallengeTTL)).

Definition Begin (w : world) (ctxErr : option error) (payload : string)
    (entropy1 entropy2 : result string) (now : Z) : result nat * world :=
  let s := w_server w in
  match begin_checks s ctxErr payload entropy1 entropy2 with
  | Err e => (Err e, w)
  | Panic p => (Panic p, w)
  | Ok (req, n, id, nonce) =>
      if (32 <=? size (s_active s))%nat
      then (Err (ErrObserved (ErrNew "attestation capacity reached") "start" "capacity"), w)
      else
        let c := issue s req id nonce now in
        let handle := length (w_heap w) in
        let attempt := Attempt n req c (Marshal c) (ch_ExpiresAt c * Second) false false false in
        (Ok handle,
         World (set_active s (<[ch_ID c := handle]> (s_active s)))
           (w_heap w ++ [attempt])
           (pendingAdd (w_metrics w) (n_name n) 1))
  end.

(** ** [chargeSuccess] *)

(** The loop that keeps recent successes in place: [recent] shares the array
    it ranges over, [i] is the read index and [k] the length of [recent]. *)
Fixpoint compact (fuel : nat) (cutoff : Z) (arr : list Z) (i k : nat) : list Z * nat :=
  match fuel with
  | O => (arr, k)
  | S fuel' =>
      match arr !! i with
      | None => (arr, k)
      | Some previous =>
          if cutoff <? previous then compact fuel' cutoff (<[k := previous]> arr) (S i) (S k)
          else compact fuel' cutoff arr (S i) k
      end
  end.

Definition set_recent (s : Server) (name : string) (l : list Z) : Server :=
  MkServer (s_config s) (s_nodes s) (s_active s) (<[name := l]> (s_recent s)).

Definition chargeSuccess (s : Server) (name : string) (now : Z) : result unit * Server :=
  let arr := default [] (s_recent s !! name) in
  let '(arr', k) := compact (length arr) (now - Minute) arr 0 0 in
  let recent := firstn k arr' in
  if 6 <=? Z.of_nat (length recent)
  then (Err (ErrNew "node attestation rate exceeded"), set_recent s name recent)
  else (Ok tt, set_recent s name (recent ++ [now])).

(** ** [fetch] *)

(** A response of the endpoint: the bytes of its body, and whether reading
    fails after them. *)
Record httpResponse := HttpResponse {
  h_status : Z; h_body : string; h_bodyErr : bool; h_contentEncoding : string }.

(** The network as one [fetch] sees it: the context's error when the loop
    reaches address [i], and the outcomes of building and sending a request.
    [do] receives the address that the transport dials and the URL. *)
Record endpoint := Endpoint {
  ctx_err : nat -> option error;
  new_request : string -> option error;
  do_request : string -> string -> option httpResponse }.

Definition StatusOK : Z := 200.

(** [io.ReadAll(io.LimitReader(body, MaxDocumentSize+1))]. *)
Definition read_limited (r : httpResponse) : string * bool :=
  let body := take (Z.to_nat (MaxDocumentSize + 1)) (h_body r) in
  (body, h_bodyErr r && (len (h_body r) <=? MaxDocumentSize)).

(** The result and the addresses dialled, in order. *)
Fixpoint fetch_from (net : endpoint) (port : string) (url : string) (i : nat) (addresses : list addr)
    : result string * list string :=
  match addresses with
  | [] => (Err (ErrNew "HTTP endpoint unavailable"), [])
  | address :: rest =>
      match ctx_err net i with
      | Some e => (Err e, [])
      | None =>
          let target := joinHostPort (addr_string address) port in
          match new_request net url with
          | Some e => (Err e, [])
          | None =>
              match do_request net target url with
              | None => let '(r, dialled) := fetch_from net port url (S i) rest in (r, target :: dialled)
              | Some response =>
                  let '(body, readErr) := read_limited response in
                  if (h_status response <>? StatusOK) || readErr || (MaxDocumentSize <? len body) ||
                     (h_contentEncoding response <>? "")
                  then (Err (ErrNew "HTTP endpoint returned an invalid response"), [target])
                  else (Ok body, [target])
              end
          end
      end
  end.

Definition fetch_url (s : Server) (a : ServerAttempt) : string :=
  "http://" +:+ joinHostPort (n_fqdn (a_node a)) (itoa (sc_Port (s_config s))) +:+
  PathPrefix +:+ ch_ID (a_challenge a).

Definition fetch (net : endpoint) (s : Server) (a : ServerAttempt) : result string * list string :=
  fetch_from net (itoa (sc_Port (s_config s))) (fetch_url s a) 0 (n_addresses (a_node a)).

(** ** [Verify] *)
Definition set_attempt (w : world) (h : nat) (a : ServerAttempt) : world :=
  World (w_server w) (<[h := a]> (w_heap w)) (w_metrics w).

Definition mark_verified (a : ServerAttempt) : ServerAttempt :=
  Attempt (a_node a) (a_request a) (a_challenge a) (a_rawChallenge a) (a_deadline a)
    (a_canceled a) true (a_closed a).

Definition mark_closed (a : ServerAttempt) : ServerAttempt :=
  Attempt (a_node a) (a_request a) (a_challenge a) (a_rawChallenge a) (a_deadline a)
    true (a_verified a) true.

(** The first critical section: one response per attempt. *)
Definition verify_claim (w : world) (h : nat) : result unit * world :=
  match w_heap w !! h with
  | None => (Panic "nil attempt", w)
  | Some a =>
      if a_closed a || a_verified a
      then (Err (ErrObserved (ErrNew "attestation is not pending") "response" "session_ended"), w)
      else (Ok tt, set_attempt w h (mark_verified a))
  end.

(** The checks of the agent's response, at the clock reading [now]. *)
Definition verify_response (a : ServerAttempt) (response : string) (now : Z) : result unit :=
  let! rd := observeError (decodeJSON response : result ready) "response" "invalid_response" in
  reject (rd_Version rd <>? 1) || (rd_ID rd <>? ch_ID (a_challenge a))
  with ErrObserved (ErrNew "unexpected challenge response") "response" "invalid_response";
  reject ch_ExpiresAt (a_challenge a) <=? Unix now
  with ErrObserved (ErrNew "challenge expired") "response" "expired";
  Ok tt.

Definition agentID (s : Server) (a : ServerAttempt) : string :=
  "spiffe://" +:+ sc_TrustDomain (s_config s) +:+ "/spire/agent/" +:+ PluginName +:+ "/" +:+
  n_name (a_node a).

(** The last critical section; [now] is read for the expiry, [now'] by
    [chargeSuccess], and [fetchErr] is the fetch context's error. *)
Definition verify_finish (w : world) (h : nat) (now now' : Z) (fetchErr : option error)
    : result Result * world :=
  match w_heap w !! h with
  | None => (Panic "nil attempt", w)
  | Some a =>
      if a_closed a || (ch_ExpiresAt (a_challenge a) <=? Unix now) || (fetchErr <>? None)
      then (Err (ErrObserved (ErrNew "attestation session ended") "verify" "session_ended"), w)
      else
        let s := w_server w in
        let '(r, s') := chargeSuccess s (n_name (a_node a)) now' in
        let w' := World s' (w_heap w) (w_metrics w) in
        match r with
        | Ok _ => (Ok {| AgentID := agentID s a;
                         SelectorValues := ["fqdn:" +:+ n_fqdn (a_node a)] |}, w')
        | Err e => (Err (ErrObserved e "quota" "rate_limit"), w')
        | Panic p => (Panic p, w')
        end
  end.

Section verify.
Context {J : Jose}.

(** The checks of the fetched proof. *)
Definition verify_proof (a : ServerAttempt) (proof : string) : result unit :=
  let! payload := observeError (verifyProof proof (rq_BootstrapJWK (a_request a))) "verify" "invalid_proof" in
  reject payload <>? a_rawChallenge a
  with ErrObserved (ErrNew "proof is not for this attestation session") "verify" "invalid_proof";
  Ok tt.

(** [Verify]: [others] is what other goroutines do to the shared state between
    the two critical sections. *)
Definition Verify (w : world) (h : nat) (response : string) (now : Z) (net : endpoint)
    (others : world -> world) (now1 now2 : Z) (fetchErr : option error) : result Result * world :=
  match verify_claim w h with
  | (Err e, w1) => (Err e, w1)
  | (Panic p, w1) => (Panic p, w1)
  | (Ok _, w1) =>
      match w_heap w1 !! h with
      | None => (Panic "nil attempt", w1)
      | Some a =>
          let checks :=
            let! _ := verify_response a response now in
            let! proof := observeError (fst (fetch net (w_server w1) a)) "fetch" "endpoint_failed" in
            verify_proof a proof in
          match checks with
          | Err e => (Err e, others w1)
          | Panic p => (Panic p, others w1)
          | Ok _ => verify_finish (others w1) h now1 now2 fetchErr
          end
      end
  end.
End verify.

(** ** [Close] *)

(** The attempt's critical section; [false] when it was already closed. *)
Definition close_mark (w : world) (h : nat) : bool * world :=
  match w_heap w !! h with
  | None => (false, w)
  | Some a => if a_closed a then (false, w) else (true, set_attempt w h (mark_closed a))
  end.

(** The server's critical section: only the attempt itself is removed. *)
Definition close_remove (w : world) (h : nat) : world :=
  match w_heap w !! h with
  | None => w
  | Some a =>
      let s := w_server w in
      if s_active s !! ch_ID (a_challenge a) =? Some h
      then World (set_active s (delete (ch_ID (a_challenge a)) (s_active s))) (w_heap w)
             (pendingAdd (w_metrics w) (n_name (a_node a)) (-1))
      else w
  end.

Definition Close (w : world) (h : nat) : world :=
  match close_mark w h with
  | (true, w') => close_remove w' h
  | (false, w') => w'
  end.

(** ** Lemmas: configuration *)

(** The policy of a node: what the loop of [NewServer] requires of it. *)
Definition policy_ok (entry : string * NodePolicy) : Prop :=
  matchString labelPattern (fst entry) = true /\ validFQDN (np_FQDN (snd entry)) = true /\
  (1 <= length (np_Addresses (snd entry)) <= 16)%nat /\
  exists addresses, mapM parseAddr (np_Addresses (snd entry)) = Some addresses /\
    Forall (fun a => validAddress a = true) addresses /\ NoDup addresses.

Definition policy_node (entry : string * NodePolicy) : node :=
  Node (fst entry) (np_FQDN (snd entry)) (default [] (mapM parseAddr (np_Addresses (snd entry)))).

Lemma pin_addresses_spec name acc texts l :
  NoDup acc ->
  pin_addresses name acc texts = Ok l <->
  exists addresses, mapM parseAddr texts = Some addresses /\ l = acc ++ addresses /\
    Forall (fun a => validAddress a = true) addresses /\ NoDup l.
Proof.
  revert acc. induction texts as [|text texts IH]; intros acc Hacc; cbn [pin_addresses].
  - split.
    + intros [= <-]. exists []. rewrite app_nil_r. auto.
    + intros (? & [= <-] & -> & _). by rewrite app_nil_r.
  - setoid_rewrite mapM_cons_Some.
    destruct (parseAddr text) as [a|] eqn:Ha; [|split; [done|naive_solver]].
    destruct (validAddress a) eqn:Hv; simpl.
    2: { split; [done|]. intros (ads & (b & k & [= <-] & _ & ->) & _ & Hf & _).
         apply Forall_cons in Hf as [Hf _]. congruence. }
    case_bool_decide as Hin.
    + split; [done|]. intros (ads & (b & k & [= <-] & _ & ->) & -> & _ & Hnd).
      apply NoDup_app in Hnd as (_ & Hd & _). exfalso. apply (Hd a Hin). by left.
    + rewrite IH by (apply NoDup_app; split_and!; [done|set_solver|apply NoDup_singleton]).
      split.
      * intros (ads & Hm & -> & Hf & Hnd). exists (a :: ads). rewrite <- app_assoc in *. eauto 10.
      * intros (ads & (b & k & [= <-] & Hm & ->) & -> & Hf & Hnd). exists k.
        apply Forall_cons in Hf as [_ Hf]. rewrite <- app_assoc. auto.
Qed.

Lemma add_node_spec nodes entry nodes' :
  add_node nodes entry = Ok nodes' <->
  policy_ok entry /\ nodes !! np_FQDN (snd entry) = None /\
  nodes' = <[np_FQDN (snd entry) := policy_node entry]> nodes.
Proof.
  destruct entry as [name p]. unfold add_node, policy_ok, policy_node. simpl. split.
  - intros H. destruct (_ || _ || _) eqn:E in H; [done|]. bprop.
    case_bool_decide as Hs; [done|]. destruct (16 <? _) eqn:Hl; [done|]. bprop.
    apply rbind_Ok in H as (ads & Hp & [= <-]).
    apply pin_addresses_spec in Hp as (ads' & Hm & -> & Hf & Hnd); [|apply NoDup_nil_2].
    simpl in *. rewrite Hm. simpl. split_and!; try done; [|lia| |].
    + destruct (np_Addresses p); simpl; [done|lia].
    + eauto.
    + by apply eq_None_not_Some.
  - intros ((Hn & Hf & Hl & ads & Hm & Hv & Hnd) & Hnone & ->).
    rewrite Hn, Hf, Hnone, Hm. simpl. rewrite bool_decide_false by (destruct (np_Addresses p); simpl in *; [lia|done]).
    rewrite (proj2 (Z.ltb_ge _ _)) by lia.
    rewrite (proj2 (pin_addresses_spec name [] _ ads (NoDup_nil_2)));
      [done|exists ads; auto].
Qed.

Definition entry_fqdn (entry : string * NodePolicy) : string := np_FQDN (snd entry).
Definition node_entry (entry : string * NodePolicy) : string * node := (entry_fqdn entry, policy_node entry).

Lemma union_node_entry e entries (nodes : gmap string node) :
  entry_fqdn e ∉ (entry_fqdn <$> entries) ->
  list_to_map (node_entry <$> entries) ∪ <[entry_fqdn e := policy_node e]> nodes =
  <[entry_fqdn e := policy_node e]> (list_to_map (node_entry <$> entries)) ∪ nodes.
Proof.
  intros Hni. rewrite <- insert_union_r; [by rewrite insert_union_l|].
  apply not_elem_of_list_to_map_1. rewrite <- list_fmap_compose. exact Hni.
Qed.

Lemma add_nodes_spec entries nodes nodes' :
  add_nodes nodes entries = Ok nodes' <->
  Forall policy_ok entries /\ NoDup (entry_fqdn <$> entries) /\
  Forall (fun e => nodes !! entry_fqdn e = None) entries /\
  nodes' = list_to_map (node_entry <$> entries) ∪ nodes.
Proof.
  revert nodes. induction entries as [|e entries IH]; intros nodes.
  - simpl. rewrite (left_id_L ∅ (∪)). split; [intros [= <-]|by intros (_ & _ & _ & ->)].
    split_and!; auto using NoDup_nil_2.
  - cbn [add_nodes]. rewrite rbind_Ok, !fmap_cons. split.
    + intros (nodes1 & (Hok & Hnone & ->)%add_node_spec & (Hf & Hnd & Hn & ->)%IH).
      rewrite Forall_forall in Hn. assert (Hni : entry_fqdn e ∉ (entry_fqdn <$> entries)).
      { intros (e' & He & Hin)%list_elem_of_fmap. specialize (Hn e' Hin). unfold entry_fqdn in *.
        rewrite <- He, lookup_insert_eq in Hn. done. }
      split_and!; [by constructor|by constructor| |by apply union_node_entry].
      constructor; [done|]. apply Forall_forall. intros e' Hin. specialize (Hn e' Hin).
      by apply lookup_insert_None in Hn as [? _].
    + intros (Hf & Hnd & Hn & ->). apply Forall_cons in Hf as [? ?], Hn as [? ?].
      apply NoDup_cons in Hnd as [Hni Hnd]. eexists. split; [apply add_node_spec; split_and!; done|].
      apply IH. split_and!; try done; [|symmetry; by apply union_node_entry].
      apply Forall_forall. intros e' Hin. rewrite lookup_insert_ne; [rewrite Forall_forall in *; auto|].
      intros E. apply Hni. apply list_elem_of_fmap. eauto.
Qed.

(** ** Lemmas: the quota *)

(** The reference definition of the pruning loop. *)
Definition recent_of (s : Server) (name : string) (now : Z) : list Z :=
  filter (fun t => now - Minute < t) (default [] (s_recent s !! name)).

Lemma compact_filter fuel cutoff arr i k :
  (k <= i)%nat -> (length arr <= i + fuel)%nat ->
  let '(arr', k') := compact fuel cutoff arr i k in
  firstn k' arr' = firstn k arr ++ filter (fun t => cutoff < t) (skipn i arr).
Proof.
  revert arr i k. induction fuel as [|fuel IH]; intros arr i k Hk Hl; cbn [compact].
  - rewrite skipn_all2 by lia. by rewrite app_nil_r.
  - destruct (arr !! i) as [p|] eqn:Hp.
    2: { apply lookup_ge_None in Hp. rewrite skipn_all2 by lia. by rewrite app_nil_r. }
    rewrite (drop_S arr p i Hp). destruct (Z.ltb_spec cutoff p) as [Hc|Hc].
    + specialize (IH (<[k:=p]> arr) (S i) (S k) ltac:(lia)). rewrite length_insert in IH.
      specialize (IH ltac:(lia)). destruct (compact _ _ _ _ _) as [arr' k'].
      rewrite IH, filter_cons_True by lia. pose proof (lookup_lt_Some _ _ _ Hp).
      rewrite (take_S_r _ _ p) by (apply list_lookup_insert_eq; lia).
      rewrite take_insert_ge, drop_insert_lt by lia. by rewrite <- app_assoc.
    + specialize (IH arr (S i) k ltac:(lia) ltac:(lia)). destruct (compact _ _ _ _ _) as [arr' k'].
      by rewrite IH, filter_cons_False by lia.
Qed.

Lemma chargeSuccess_spec s name now :
  chargeSuccess s name now =
  let recent := recent_of s name now in
  if 6 <=? Z.of_nat (length recent)
  then (Err (ErrNew "node attestation rate exceeded"), set_recent s name recent)
  else (Ok tt, set_recent s name (recent ++ [now])).
Proof.
  unfold chargeSuccess, recent_of. set (arr := default [] _).
  pose proof (compact_filter (length arr) (now - Minute) arr 0 0 ltac:(lia) ltac:(lia)) as H.
  destruct (compact _ _ _ _ _) as [arr' k]. rewrite H. simpl. rewrite drop_0. done.
Qed.

(** ** Lemmas: results carry their stage and reason *)
Definition classified {A} (r : result A) : Prop :=
  match r with
  | Err e => exists inner stage reason, e = ErrObserved inner stage reason /\
               stage ∈ stages /\ reason ∈ reasons
  | _ => True
  end.

Ltac vocabulary := apply list_elem_of_In; simpl; tauto.

Lemma classified_observe {A} (r : result A) stage reason :
  stage ∈ stages -> reason ∈ reasons -> classified (observeError r stage reason).
Proof. intros Hs Hr. destruct r; simpl; eauto 10. Qed.

Lemma classified_bind {A B} (m : result A) (k : A -> result B) :
  classified m -> (forall a, classified (k a)) -> classified (rbind m k).
Proof. destruct m; simpl; auto. Qed.

Lemma classified_err {A} e stage reason :
  stage ∈ stages -> reason ∈ reasons -> classified (Err (ErrObserved e stage reason) : result A).
Proof. intros Hs Hr. simpl. eauto 10. Qed.

Create HintDb classify.
#[export] Hint Resolve classified_bind classified_observe classified_err : classify.
#[export] Hint Extern 1 (_ ∈ stages) => vocabulary : classify.
#[export] Hint Extern 1 (_ ∈ reasons) => vocabulary : classify.
#[export] Hint Extern 1 (classified (Ok _)) => exact I : classify.
#[export] Hint Extern 1 (classified (Panic _)) => exact I : classify.

Lemma begin_checks_classified s ctxErr payload e1 e2 : classified (begin_checks s ctxErr payload e1 e2).
Proof.
  unfold begin_checks. apply classified_bind; [auto with classify|intros _].
  apply classified_bind; [auto with classify|intros req]. case_match; [auto with classify|].
  destruct (s_nodes s !! rq_FQDN req); [|auto with classify].
  repeat (apply classified_bind; [auto with classify|intros ?]). auto with classify.
Qed.

(** ** Lemmas: proofs and fetched documents *)
Lemma verifyProof_sound {J : Jose} data jwk payload :
  verifyProof data jwk = Ok payload ->
  exists key doc object, len key = PublicKeySize /\ jwk = jwkFor key /\
    decodeJSON data = Ok doc /\ pd_BootstrapJWK doc = jwk /\
    jose_parse (pd_Proof doc) = Some object /\ jws_typ object = Some proofType /\
    jws_verify object key = Some payload.
Proof.
  unfold verifyProof. intros (doc & Hdoc & H)%rbind_Ok. case_bool_decide as Hj; [|done]. simpl in H.
  apply rbind_Ok in H as (key & Hk & H). apply jwk_key_spec in Hk as [Hk1 Hk2]. go_inv H.
  subst. exists key, doc, j. split_and!; try done; congruence.
Qed.

Lemma read_limited_ok r body :
  read_limited r = (body, false) -> len body <= MaxDocumentSize -> body = h_body r /\ h_bodyErr r = false.
Proof.
  unfold read_limited. intros H Hl. apply pair_equal_spec in H as [<- He]. rewrite len_take in Hl.
  assert (Hb : len (h_body r) <= MaxDocumentSize) by (unfold MaxDocumentSize in *; lia).
  split.
  - apply take_all. unfold len, MaxDocumentSize in *. lia.
  - by rewrite (proj2 (Z.leb_le _ _) Hb), andb_true_r in He.
Qed.

(** The pinned destinations of an attempt, as the transport dials them. *)
Definition pinned_targets (s : Server) (a : ServerAttempt) : list string :=
  (fun address => joinHostPort (addr_string address) (itoa (sc_Port (s_config s)))) <$> n_addresses (a_node a).

Lemma fetch_from_spec net port url i addresses r dialled :
  fetch_from net port url i addresses = (r, dialled) ->
  dialled `prefix_of` ((fun ad => joinHostPort (addr_string ad) port) <$> addresses) /\
  forall body, r = Ok body -> exists failed target response,
    dialled = failed ++ [target] /\ Forall (fun t => do_request net t url = None) failed /\
    do_request net target url = Some response /\ h_status response = StatusOK /\
    h_contentEncoding response = "" /\ body = h_body response /\ h_bodyErr response = false /\
    len body <= MaxDocumentSize.
Proof.
  revert i r dialled. induction addresses as [|ad rest IH]; intros i r dialled; cbn [fetch_from].
  { intros [= <- <-]. split; [done|]. by intros body [=]. }
  destruct (ctx_err net i) as [e|]; [intros [= <- <-]; split; [apply prefix_nil|by intros ? [=]]|].
  destruct (new_request net url) as [e|]; [intros [= <- <-]; split; [apply prefix_nil|by intros ? [=]]|].
  rewrite fmap_cons. set (target := joinHostPort (addr_string ad) port).
  destruct (do_request net target url) as [resp|] eqn:Hd.
  - destruct (read_limited resp) as [body readErr] eqn:Hr.
    destruct (_ || _ || _ || _) eqn:E; intros [= <- <-];
      (split; [apply prefix_cons, prefix_nil|]); [by intros ? [=]|].
    intros ? [= <-]. bprop. subst readErr. destruct (read_limited_ok _ _ Hr); [lia|].
    exists [], target, resp. split_and!; done || constructor.
  - destruct (fetch_from net port url (S i) rest) as [r1 d1] eqn:Hf. intros [= <- <-].
    destruct (IH _ _ _ Hf) as [Hp Hb]. split; [by apply prefix_cons|]. intros body ->.
    destruct (Hb body eq_refl) as (failed & t & resp & -> & HF & Hrest).
    exists (target :: failed), t, resp. split; [done|]. split; [by constructor|done].
Qed.

(** The fields of an attempt that no operation changes. *)
Definition same_attempt (a b : ServerAttempt) : Prop :=
  a_node a = a_node b /\ a_request a = a_request b /\ a_challenge a = a_challenge b /\
  a_rawChallenge a = a_rawChallenge b.

Definition world_frame (w w' : world) : Prop :=
  s_config (w_server w') = s_config (w_server w) /\
  s_nodes (w_server w') = s_nodes (w_server w) /\
  forall h a, w_heap w !! h = Some a -> exists a', w_heap w' !! h = Some a' /\ same_attempt a a'.

(** ** Correctness of the server operations *)

(** What [NewServer] requires of a configuration. *)
Definition server_config_ok (config : ServerConfig) : Prop :=
  validateMetricsAddress (sc_MetricsAddress config) = Ok tt /\
  sc_TrustHTTPTransport config = true /\ validFQDN (sc_TrustDomain config) = true /\
  1 <= sc_Port config <= 65535 /\ sc_Nodes config <> ∅ /\
  (forall name p, sc_Nodes config !! name = Some p -> policy_ok (name, p)) /\
  (forall name name' p p', sc_Nodes config !! name = Some p -> sc_Nodes config !! name' = Some p' ->
     np_FQDN p = np_FQDN p' -> name = name').

Lemma order_fqdns config order :
  order ≡ₚ map_to_list (sc_Nodes config) ->
  NoDup (entry_fqdn <$> order) <->
  (forall name name' p p', sc_Nodes config !! name = Some p -> sc_Nodes config !! name' = Some p' ->
     np_FQDN p = np_FQDN p' -> name = name').
Proof.
  intros ->. split.
  - intros Hnd name name' p p' Hp Hp' E. apply elem_of_map_to_list in Hp, Hp'.
    assert (H : (name, p) = (name', p')); [|congruence].
    apply list_elem_of_lookup in Hp as [i Hi], Hp' as [j Hj].
    assert (Hij : i = j).
    { eapply NoDup_lookup; [exact Hnd|rewrite list_lookup_fmap, Hi; done|].
      rewrite list_lookup_fmap, Hj. simpl. unfold entry_fqdn. simpl. by rewrite E. }
    congruence.
  - intros Hinj. apply NoDup_fmap_2_strong; [|apply NoDup_map_to_list].
    intros [n p] [n' p'] Hp%elem_of_map_to_list Hp'%elem_of_map_to_list E.
    assert (n = n') by (eapply Hinj; eauto). subst. congruence.
Qed.

(** [NewServer] accepts a configuration exactly when every node has a
    valid name, a valid FQDN of its own and 1 to 16 distinct valid pinned
    addresses, and the domain, port, transport and metrics settings are valid;
    the server then maps each FQDN to that node, whatever the order in which
    the node map was iterated. *)
Theorem NewServer_correct config order s :
  order ≡ₚ map_to_list (sc_Nodes config) ->
  NewServer config order = Ok s <->
  server_config_ok config /\ s_config s = config /\ s_active s = ∅ /\ s_recent s = ∅ /\
  forall fqdn n, s_nodes s !! fqdn = Some n <->
    exists name p, sc_Nodes config !! name = Some p /\ np_FQDN p = fqdn /\ n = policy_node (name, p).
Proof.
  intros Ho. pose proof (order_fqdns _ _ Ho) as Hdup.
  assert (Hpol : Forall policy_ok order <->
    forall name p, sc_Nodes config !! name = Some p -> policy_ok (name, p)).
  { rewrite Forall_forall. setoid_rewrite Ho. split.
    - intros H name p Hp. by apply H, elem_of_map_to_list.
    - intros H [name p] Hp%elem_of_map_to_list. eauto. }
  assert (Hlk : NoDup (entry_fqdn <$> order) -> forall fqdn n,
    (list_to_map (node_entry <$> order) : gmap string node) !! fqdn = Some n <->
    exists name p, sc_Nodes config !! name = Some p /\ np_FQDN p = fqdn /\ n = policy_node (name, p)).
  { intros Hnd fqdn n. rewrite <- elem_of_list_to_map by (by rewrite <- list_fmap_compose).
    rewrite list_elem_of_fmap. setoid_rewrite Ho. split.
    - intros ([name p] & [= -> ->] & Hin%elem_of_map_to_list). eauto.
    - intros (name & p & Hp & <- & ->). exists (name, p). split; [done|by apply elem_of_map_to_list]. }
  unfold NewServer, server_config_ok. split.
  - intros ([] & Hm & H)%rbind_Ok. destruct (sc_TrustHTTPTransport config); [|done].
    destruct (_ || _ || _ || _) eqn:E in H; [done|]. bprop.
    apply rbind_Ok in H as (nodes & (Hf & Hnd & _ & ->)%add_nodes_spec & [= <-]). simpl.
    rewrite (right_id_L ∅ (∪)). split_and!; try done; try lia; [|by apply Hpol|by apply Hdup|by apply Hlk].
    intros Hz. by rewrite Hz, map_size_empty in *.
  - intros ((-> & -> & -> & Hp & Hne & Hok & Hinj) & Hc & Ha & Hr & Hn). simpl.
    rewrite !(proj2 (Z.ltb_ge _ _)) by lia.
    rewrite bool_decide_false by (by rewrite map_size_empty_iff). simpl.
    erewrite (proj2 (add_nodes_spec order ∅ _)); [|split_and!; [by apply Hpol|by apply Hdup| |reflexivity]].
    2: { apply Forall_forall. intros e _. apply lookup_empty. }
    simpl. rewrite (right_id_L ∅ (∪)). destruct s as [cf nodes act rec]; simpl in *. subst. do 2 f_equal.
    apply map_eq. intros fqdn. apply option_eq. intros n. rewrite Hn. by apply Hlk, Hdup.
Qed.

(** A fetch goes to the pinned addresses only, in their configured order,
    and never past the first one that answers; what it returns is the complete
    body, at most [MaxDocumentSize] bytes, of that address's 200 response. *)
Theorem fetch_pinned net s a r dialled :
  fetch net s a = (r, dialled) ->
  dialled `prefix_of` pinned_targets s a /\
  forall body, r = Ok body -> exists failed target response,
    dialled = failed ++ [target] /\ Forall (fun t => do_request net t (fetch_url s a) = None) failed /\
    do_request net target (fetch_url s a) = Some response /\ h_status response = StatusOK /\
    h_contentEncoding response = "" /\ body = h_body response /\ h_bodyErr response = false /\
    len body <= MaxDocumentSize.
Proof. apply fetch_from_spec. Qed.

Lemma begin_checks_Ok s ctxErr payload e1 e2 req n id nonce :
  begin_checks s ctxErr payload e1 e2 = Ok (req, n, id, nonce) <->
  ctxErr = None /\ decodeJSON payload = Ok req /\ rq_Version req = 1 /\
  s_nodes s !! rq_FQDN req = Some n /\ (exists key, jwk_key (rq_BootstrapJWK req) = Ok key) /\
  (exists b1, e1 = Ok b1 /\ id = b64_encode b1) /\ (exists b2, e2 = Ok b2 /\ nonce = b64_encode b2).
Proof.
  unfold begin_checks, randomValue. split.
  - intros H. destruct ctxErr; simpl in H; [done|].
    destruct (decodeJSON payload) as [r| |]; simpl in H; try done.
    case_bool_decide as Hv; simpl in H; [|done].
    destruct (s_nodes s !! rq_FQDN r) eqn:Hn; [|done].
    destruct (jwk_key (rq_BootstrapJWK r)) eqn:Hk; simpl in H; try done.
    destruct e1, e2; simpl in H; try done. injection H as <- <- <- <-. eauto 20.
  - intros (-> & -> & Hv & Hn & (key & Hk) & (b1 & -> & ->) & (b2 & -> & ->)). simpl.
    rewrite bool_decide_true, Hn, Hk by done. done.
Qed.

(** Every attempt that [Begin] starts is for an authorized node, and its
    challenge is valid at that moment, expires 120 s later, is bound to the
    key of the request, and decodes from the bytes sent to the agent; the
    attempt holds one of the 32 places under its challenge id. *)
Theorem Begin_issues w ctxErr payload b1 b2 now h w' :
  validFQDN (sc_TrustDomain (s_config (w_server w))) = true ->
  (forall fqdn n, s_nodes (w_server w) !! fqdn = Some n -> validFQDN fqdn = true /\ n_fqdn n = fqdn) ->
  len b1 = 32 -> len b2 = 32 -> 0 <= now -> Unix now + 120 <= maxInt64 ->
  Begin w ctxErr payload (Ok b1) (Ok b2) now = (Ok h, w') ->
  exists a, w_heap w' = w_heap w ++ [a] /\ h = length (w_heap w) /\
    s_active (w_server w') = <[ch_ID (a_challenge a) := h]> (s_active (w_server w)) /\
    (size (s_active (w_server w')) <= 32)%nat /\
    decodeJSON payload = Ok (a_request a) /\
    s_nodes (w_server w) !! rq_FQDN (a_request a) = Some (a_node a) /\
    validateChallenge (a_challenge a) now = Ok tt /\
    ch_ExpiresAt (a_challenge a) = Unix now + 120 /\
    ch_FQDN (a_challenge a) = n_fqdn (a_node a) /\
    ch_KeyThumbprint (a_challenge a) = thumbprint (rq_BootstrapJWK (a_request a)) /\
    decodeJSON (a_rawChallenge a) = Ok (a_challenge a) /\
    a_verified a = false /\ a_closed a = false.
Proof.
  intros Htd Hnodes H1 H2 Hnow Hmax H. unfold Begin in H.
  destruct (begin_checks _ _ _ _ _) as [[[[req n] id] nonce]| |] eqn:Hb; [|done|done].
  apply begin_checks_Ok in Hb as (-> & Hd & Hv & Hn & _ & (? & [= <-] & ->) & (? & [= <-] & ->)).
  destruct (32 <=? size (s_active (w_server w)))%nat eqn:Hs; [done|]. bprop.
  injection H as <- <-. set (c := issue _ _ _ _ _). destruct (Hnodes _ _ Hn) as [Hf Hnf].
  assert (Hexp : ch_ExpiresAt c = Unix now + 120) by apply Unix_add_seconds.
  assert (Hval : validateChallenge c now = Ok tt).
  { apply validateChallenge_spec. rewrite Hexp. simpl.
    split_and!; try done; try lia; try apply thumbprint_valid; apply validRandom_spec; eauto. }
  assert (Hu : 0 <= Unix now) by (apply Z.div_pos; unfold Second; lia).
  destruct (valid_challenge_wf c now Hu ltac:(lia) Hval) as [Hwf Hlen].
  eexists. split; [reflexivity|]. cbn [a_request a_node a_challenge a_rawChallenge a_verified a_closed w_server
    set_active s_active]. split_and!; try done.
  - destruct (s_active (w_server w) !! ch_ID c) eqn:E;
      [rewrite map_size_insert_Some by eauto|rewrite map_size_insert_None by done]; lia.
  - by rewrite decodeJSON_Marshal.
Qed.

(** C3: When [Verify] reports success, the attempt was pending and not yet
    used; the response named its challenge before its expiry; a pinned address
    of the node served a document whose JWS verifies, under the very key of
    the request, over exactly the challenge bytes; at the end, after whatever
    others did to the shared state meanwhile, the attempt was still open and its
    challenge unexpired, and the fetch had not been cancelled; the node's quota
    was charged in that state; and the identity is that of the node in the
    server's trust domain. *)
Theorem Verify_sound {J : Jose} w h response now net others now1 now2 fetchErr res w' :
  (forall w0, world_frame w0 (others w0)) ->
  Verify w h response now net others now1 now2 fetchErr = (Ok res, w') ->
  exists a key target document doc object,
    w_heap w !! h = Some a /\ a_verified a = false /\ a_closed a = false /\
    (exists rd, decodeJSON response = Ok rd /\ rd_ID rd = ch_ID (a_challenge a)) /\
    Unix now < ch_ExpiresAt (a_challenge a) /\ Unix now1 < ch_ExpiresAt (a_challenge a) /\
    target ∈ pinned_targets (w_server w) a /\
    do_request net target (fetch_url (w_server w) a) = Some document /\
    decodeJSON (h_body document) = Ok doc /\ jose_parse (pd_Proof doc) = Some object /\
    rq_BootstrapJWK (a_request a) = jwkFor key /\ jws_verify object key = Some (a_rawChallenge a) /\
    fetchErr = None /\ (exists a', w_heap w' !! h = Some a' /\ a_closed a' = false) /\
    chargeSuccess (w_server (others (snd (verify_claim w h)))) (n_name (a_node a)) now2 = (Ok tt, w_server w') /\
    AgentID res = "spiffe://" +:+ sc_TrustDomain (s_config (w_server w)) +:+
      "/spire/agent/http_fqdn/" +:+ n_name (a_node a) /\
    SelectorValues res = ["fqdn:" +:+ n_fqdn (a_node a)].
Proof.
  intros Hframe H. unfold Verify in H. unfold verify_claim in H |- *.
  destruct (w_heap w !! h) as [a|] eqn:Ha; [|done].
  destruct (a_closed a || a_verified a) eqn:Hcv; [done|]. bprop. cbn [snd].
  unfold set_attempt in H |- *. cbn [w_heap w_server] in H.
  rewrite list_lookup_insert_eq in H by (by eapply lookup_lt_Some).
  set (w1 := World _ _ _) in H |- *.
  set (checks := rbind _ _) in H. destruct checks eqn:Hc; [|done|done]. subst checks.
  apply rbind_Ok in Hc as ([] & Hr & Hc). apply rbind_Ok in Hc as (proof & Hf & Hp).
  destruct (fetch net (w_server w) (mark_verified a)) as [r dialled] eqn:Hfetch.
  destruct r as [body| |]; simplify_eq/=.
  destruct (fetch_from_spec _ _ _ _ _ _ _ Hfetch) as [Hpre Hb].
  destruct (Hb proof eq_refl) as (failed & target & resp & -> & _ & Hdo & _ & _ & -> & _).
  unfold verify_proof in Hp. apply rbind_Ok in Hp as (payload & Hv & Hp).
  case_bool_decide as Hraw; [|done]. subst payload.
  destruct (verifyProof _ _) as [pl| |] eqn:Hvp; simplify_eq/=.
  apply verifyProof_sound in Hvp as (key & doc & object & _ & Hk & Hdoc & _ & Hparse & _ & Hver).
  unfold verify_response in Hr. apply rbind_Ok in Hr as (rd & Hrd & Hr).
  destruct (decodeJSON response) as [rd'| |]; simplify_eq/=. go_inv Hr.
  unfold verify_finish in H. destruct (Hframe w1) as (Hcfg & _ & Hheap).
  destruct (Hheap h (mark_verified a)) as (a' & Ha' & Hn & Hq & Hch & _).
  { apply list_lookup_insert_eq. by eapply lookup_lt_Some. }
  rewrite Ha' in H. simpl in Hn, Hq, Hch. rewrite <- Hch in H.
  destruct (_ || _ || _) eqn:He in H; [done|]. bprop.
  destruct (chargeSuccess _ _ _) as [r s'] eqn:Hcs. destruct r as [[]| |]; [|done|done].
  injection H as <- <-. rewrite <- Hn in Hcs |- *.
  exists a, key, target, resp, doc, object. split_and!; try done; try lia.
  - eauto.
  - eapply elem_of_prefix; [|exact Hpre]. set_solver.
  - simpl. eauto.
  - simpl. unfold agentID, PluginName. rewrite Hcfg, <- Hn. reflexivity.
Qed.

(** Every error that [Begin] and [Verify] return names a stage and a
    reason of the metrics vocabulary, whatever the inputs. *)
Theorem server_errors_classified {J : Jose} w ctxErr payload e1 e2 h response now net others now1 now2 fetchErr :
  classified (fst (Begin w ctxErr payload e1 e2 now)) /\
  classified (fst (Verify w h response now net others now1 now2 fetchErr)).
Proof.
  split.
  - unfold Begin. pose proof (begin_checks_classified (w_server w) ctxErr payload e1 e2) as H.
    destruct (begin_checks _ _ _ _ _) as [[[[? ?] ?] ?]| |]; [|exact H|done].
    case_match; cbn [fst]; auto with classify.
  - unfold Verify. destruct (verify_claim w h) as [r w1] eqn:Hc.
    assert (Hr : classified r).
    { unfold verify_claim in Hc. repeat case_match; simplify_eq; auto with classify. }
    destruct r as [[]| |]; [|exact Hr|done]. destruct (w_heap w1 !! h) as [a|]; [|done].
    set (checks := rbind _ _). assert (Hk : classified checks).
    { apply classified_bind; [|intros _; apply classified_bind; [auto with classify|intros proof]].
      - unfold verify_response. apply classified_bind; [auto with classify|intros rd].
        repeat case_match; auto with classify.
      - unfold verify_proof. apply classified_bind; [auto with classify|intros payload'].
        case_match; auto with classify. }
    destruct checks; [|exact Hk|done]. unfold verify_finish.
    destruct (w_heap (others w1) !! h) as [a'|]; [|done]. case_match; [cbn [fst]; auto with classify|].
    destruct (chargeSuccess _ _ _) as [[[]| |] s']; cbn [fst]; auto with classify.
Qed.

(** ** Concrete instances *)
Module ServerExamples.
Import PlainJose ProtocolExamples.

Definition policy : NodePolicy := {| np_FQDN := "eihort.nyaw.xyz"; np_Addresses := ["198.51.100.7"; "2001:db8::7"] |}.
Definition config : ServerConfig :=
  {| sc_TrustDomain := "nyaw.xyz"; sc_Nodes := {["eihort" := policy]}; sc_Port := 18091;
     sc_TrustHTTPTransport := true; sc_MetricsAddress := "127.0.0.1:9108" |}.
Definition server : Server :=
  MkServer config {["eihort.nyaw.xyz" := policy_node ("eihort", policy)]} ∅ ∅.
Definition metrics0 : metricsRegistry := register (Registry "server" {["unknown"]} ∅ ∅ ∅ ∅ 32 ∅) ["eihort"].
Definition world0 : world := World server [] (Some metrics0).
Definition payload : string := Marshal (Request 1 "eihort.nyaw.xyz" (jwkFor (Public key))).
Definition nonce : string := "fedcba9876543210fedcba9876543210".
Definition world1 : world := snd (Begin world0 None payload (Ok seed) (Ok nonce) now).
Definition issued : challenge := issue server (Request 1 "eihort.nyaw.xyz" (jwkFor (Public key)))
  (b64_encode seed) (b64_encode nonce) now.
Definition document : string := match signProof key (Marshal issued) with Ok d => d | _ => "" end.
Definition answer : string := Marshal (Ready 1 (b64_encode seed)).
(** The first address does not answer. *)
Definition net : endpoint := Endpoint (fun _ => None) (fun _ => None) (fun target _ =>
  if target =? "[2001:db8::7]:18091" then Some (HttpResponse 200 document false "") else None).

Lemma NewServer_correct_witness :
  NewServer config [("eihort", policy)] = Ok server /\ server_config_ok config.
Proof.
  assert (H : NewServer config [("eihort", policy)] = Ok server) by (vm_compute; reflexivity).
  split; [exact H|]. apply (NewServer_correct config [("eihort", policy)] server); [|exact H].
  reflexivity.
Defined.

Lemma fetch_pinned_witness :
  exists a, w_heap world1 = [a] /\
    snd (fetch net server a) `prefix_of` pinned_targets server a /\
    snd (fetch net server a) = ["198.51.100.7:18091"; "[2001:db8::7]:18091"].
Proof.
  eexists. split; [vm_compute; reflexivity|]. split; [|vm_compute; reflexivity].
  eapply (fetch_pinned net server _ _ _ (surjective_pairing _)).
Defined.

Lemma Begin_issues_witness :
  fst (Begin world0 None payload (Ok seed) (Ok nonce) now) = Ok 0%nat /\
  exists a, w_heap world1 = [] ++ [a] /\ validateChallenge (a_challenge a) now = Ok tt.
Proof.
  assert (H : fst (Begin world0 None payload (Ok seed) (Ok nonce) now) = Ok 0%nat) by (vm_compute; reflexivity).
  split; [exact H|].
  destruct (Begin_issues world0 None payload seed nonce now 0 world1) as (a & Ha & _ & _ & _ & _ & _ & Hv & _).
  - vm_compute. reflexivity.
  - intros fqdn n Hn.
    change (({["eihort.nyaw.xyz" := policy_node ("eihort", policy)]} : gmap string node) !! fqdn = Some n) in Hn.
    apply lookup_singleton_Some in Hn as [<- <-]. vm_compute. split; reflexivity.
  - reflexivity.
  - reflexivity.
  - vm_compute. discriminate.
  - vm_compute. discriminate.
  - rewrite <- H. apply surjective_pairing.
  - exists a. split; [exact Ha|exact Hv].
Defined.

Definition identity : Result :=
  {| AgentID := "spiffe://nyaw.xyz/spire/agent/http_fqdn/eihort"; SelectorValues := ["fqdn:eihort.nyaw.xyz"] |}.

Lemma Verify_sound_witness :
  fst (Verify world1 0 answer now net id now now None) = Ok identity /\
  exists a target, w_heap world1 !! 0%nat = Some a /\ target ∈ pinned_targets (w_server world1) a.
Proof.
  assert (H : fst (Verify world1 0 answer now net id now now None) = Ok identity) by (vm_compute; reflexivity).
  split; [exact H|].
  destruct (Verify_sound world1 0 answer now net id now now None identity
    (snd (Verify world1 0 answer now net id now now None))) as (a & k & t & d & dc & o & Ha & _ & _ & _ & _ & _ & Ht & _).
  - intros w0. split; [reflexivity|]. split; [reflexivity|]. intros h a Ha. exists a. repeat split; exact Ha.
  - rewrite <- H. apply surjective_pairing.
  - exists a, t. split; [exact Ha|exact Ht].
Defined.
End ServerExamples.
