(* ===== verification/AttestServerState.v ===== *)
(** * Interleavings of the attestation server

    The goroutines that serve agents, the timers that close attempts and the
    metrics run concurrently on one [world].  A step is one critical section
    of [AttestServer]; the ghost fields say which [Verify] and [Close] calls
    are between two of their sections, and log the granted verifications.
    The invariants hold in every state that the steps reach. *)

From S2P Require Import Prelude GoStrings Encoding Regex Json NetIP AttestProtocol AttestMetrics AttestServer.

Open Scope Z_scope.
Open Scope go_scope.

Record state := State {
  st_world : world;
  st_clock : Z;
  st_running : gset nat;
  st_closing : gset nat;
  st_log : list (Z * string);
  st_done : list nat }.

Section steps.
Context {J : Jose}.

Inductive sstep : state -> state -> Prop :=
| DoTick w t run cl log dn t' :
    t <= t' -> sstep (State w t run cl log dn) (State w t' run cl log dn)
(* challenge ids are 256 random bits: a new one is not an active one *)
| DoBegin w t run cl log dn ctxErr payload b1 e2 r w' :
    Begin w ctxErr payload (Ok b1) e2 t = (r, w') ->
    s_active (w_server w) !! b64_encode b1 = None ->
    sstep (State w t run cl log dn) (State w' t run cl log dn)
| DoClaim w t run cl log dn h r w' :
    verify_claim w h = (r, w') ->
    sstep (State w t run cl log dn) (State w' t (if is_ok r then {[h]} ∪ run else run) cl log dn)
(* a check of the response, of the fetch or of the proof failed *)
| DoAbort w t run cl log dn h :
    h ∈ run -> sstep (State w t run cl log dn) (State w t (run ∖ {[h]}) cl log dn)
| DoFinish w t run cl log dn h a response now0 net proof fetchErr t' r w' :
    h ∈ run -> w_heap w !! h = Some a ->
    verify_response a response now0 = Ok tt -> fst (fetch net (w_server w) a) = Ok proof ->
    verify_proof a proof = Ok tt -> t <= t' ->
    verify_finish w h t t' fetchErr = (r, w') ->
    sstep (State w t run cl log dn)
      (State w' t' (run ∖ {[h]}) cl
         (if is_ok r then log ++ [(t', n_name (a_node a))] else log) (if is_ok r then h :: dn else dn))
| DoMark w t run cl log dn h w' :
    close_mark w h = (true, w') ->
    sstep (State w t run cl log dn) (State w' t run ({[h]} ∪ cl) log dn)
| DoRemove w t run cl log dn h :
    h ∈ cl -> sstep (State w t run cl log dn) (State (close_remove w h) t run (cl ∖ {[h]}) log dn)
| DoRecord w t run cl log dn m m' ev node outcome stage reason duration :
    w_metrics w = Some m -> record (Some m) node outcome stage reason duration t = Some (m', ev) ->
    sstep (State w t run cl log dn)
      (State (World (w_server w) (w_heap w) (Some m')) t run cl log dn).

(** A server that [NewServer] has just built. *)
Definition initial (st : state) : Prop :=
  exists config order s om t,
    order ≡ₚ map_to_list (sc_Nodes config) /\ NewServer config order = Ok s /\
    st = State (World s [] om) t ∅ ∅ [] [].

Definition reachable (st : state) : Prop := exists st0, initial st0 /\ rtc sstep st0 st.
End steps.

(** ** The places of the [active] map *)
Record places_inv (st : state) : Prop := {
  pl_cap : (size (s_active (w_server (st_world st))) <= 32)%nat;
  pl_active id h : s_active (w_server (st_world st)) !! id = Some h ->
    exists a, w_heap (st_world st) !! h = Some a /\ ch_ID (a_challenge a) = id /\
      (a_closed a = false \/ h ∈ st_closing st);
  pl_open h a : w_heap (st_world st) !! h = Some a -> a_closed a = false \/ h ∈ st_closing st ->
    s_active (w_server (st_world st)) !! ch_ID (a_challenge a) = Some h;
  pl_closing h : h ∈ st_closing st -> exists a, w_heap (st_world st) !! h = Some a /\ a_closed a = true }.

(** ** Verifications in flight and done *)
Record claims_inv (st : state) : Prop := {
  cl_running h : h ∈ st_running st ->
    exists a, w_heap (st_world st) !! h = Some a /\ a_verified a = true;
  cl_done h : h ∈ st_done st -> h ∉ st_running st /\
    exists a, w_heap (st_world st) !! h = Some a /\ a_verified a = true;
  cl_nodup : NoDup (st_done st) }.

(** Grants of a node later than [now - 60 s]. *)
Definition window (log : list (Z * string)) (name : string) (now : Z) : list (Z * string) :=
  filter (fun e => snd e = name /\ now - Minute < fst e) log.

(** The times of a node's grants. *)
Definition times (log : list (Z * string)) (name : string) : list Z :=
  fst <$> filter (fun e => snd e = name) log.

(** ** The quota: an abstract sliding window *)
Definition spec_charge (log : list (Z * string)) (name : string) (now : Z) : bool * list (Z * string) :=
  if 6 <=? Z.of_nat (length (window log name now)) then (false, log) else (true, log ++ [(now, name)]).

(** The pruned lists of the server hold every grant that can still count. *)
Definition quota_rel (s : Server) (clock : Z) (log : list (Z * string)) : Prop :=
  Forall (fun e => fst e <= clock) log /\
  forall name, exists cut, cut <= clock - Minute /\
    default [] (s_recent s !! name) = filter (fun t => cut < t) (times log name).

Lemma times_window log name now :
  filter (fun t => now - Minute < t) (times log name) = fst <$> window log name now.
Proof.
  unfold times, window. induction log as [|[t n] log IH]; [done|].
  rewrite !filter_cons. simpl. destruct (decide (n = name)) as [->|Hn].
  - rewrite fmap_cons, filter_cons. simpl. repeat case_decide; try naive_solver.
    by rewrite fmap_cons, IH.
  - repeat case_decide; try naive_solver.
Qed.

Lemma filter_filter_lt a b (l : list Z) :
  a <= b -> filter (fun t => b < t) (filter (fun t => a < t) l) = filter (fun t => b < t) l.
Proof.
  intros H. rewrite list_filter_filter. apply list_filter_iff. intros x. lia.
Qed.

Lemma recent_window s clock log name now :
  quota_rel s clock log -> clock <= now -> recent_of s name now = fst <$> window log name now.
Proof.
  intros [_ Hr] Hc. unfold recent_of. destruct (Hr name) as (cut & Hcut & ->).
  rewrite filter_filter_lt by lia. apply times_window.
Qed.

Lemma times_snoc log name now name' :
  times (log ++ [(now, name)]) name' = times log name' ++ (if decide (name = name') then [now] else []).
Proof.
  unfold times. rewrite filter_app, fmap_app. f_equal. rewrite filter_cons. simpl. by case_decide.
Qed.

Lemma quota_rel_later s clock clock' log : clock <= clock' -> quota_rel s clock log -> quota_rel s clock' log.
Proof.
  intros Hc [Hf Hr]. split.
  - eapply Forall_impl; [exact Hf|]. intros e He. simpl in *. lia.
  - intros name. destruct (Hr name) as (cut & Hcut & E). exists cut. split; [lia|done].
Qed.

Lemma quota_rel_same s s' clock log : s_recent s' = s_recent s -> quota_rel s clock log -> quota_rel s' clock log.
Proof. unfold quota_rel. intros ->. done. Qed.

(** [chargeSuccess] simulates the sliding window. *)
Lemma charge_simulation s clock log name now :
  quota_rel s clock log -> clock <= now ->
  let '(r, s') := chargeSuccess s name now in
  let '(granted, log') := spec_charge log name now in
  is_ok r = granted /\ quota_rel s' now log'.
Proof.
  intros HR Hc. rewrite chargeSuccess_spec. cbn zeta. rewrite (recent_window s clock log name now HR Hc).
  rewrite length_fmap. unfold spec_charge.
  pose proof (quota_rel_later _ _ now _ Hc HR) as [Hf Hr].
  destruct (6 <=? _); (split; [done|]); split.
  - exact Hf.
  - intros name'. unfold set_recent. simpl. destruct (decide (name' = name)) as [->|Hne].
    + exists (now - Minute). split; [lia|]. rewrite lookup_insert_eq. simpl. by rewrite times_window.
    + rewrite lookup_insert_ne by done. apply Hr.
  - apply Forall_app. split; [exact Hf|]. constructor; [simpl; lia|done].
  - intros name'. unfold set_recent. simpl. destruct (decide (name' = name)) as [->|Hne].
    + exists (now - Minute). split; [lia|]. rewrite lookup_insert_eq. simpl.
      rewrite times_snoc, decide_True by done. rewrite filter_app, times_window. f_equal.
      rewrite filter_cons_True; [done|]. unfold Minute, Second. lia.
    + rewrite lookup_insert_ne by done. rewrite times_snoc, decide_False by done. rewrite app_nil_r. apply Hr.
Qed.

(** At most six grants of a node in any 60 seconds of the log. *)
Definition rate_ok (log : list (Z * string)) : Prop :=
  forall name (t : Z), (length (filter (fun e => snd e = name /\ (t - Minute < fst e <= t)%Z) log) <= 6)%nat.

Lemma filter_length_mono {A} (P Q : A -> Prop) `{forall x, Decision (P x)} `{forall x, Decision (Q x)} (l : list A) :
  (forall x, x ∈ l -> P x -> Q x) -> (length (filter P l) <= length (filter Q l))%nat.
Proof.
  intros HPQ. induction l as [|x l IH]; [done|]. specialize (IH ltac:(intros; apply HPQ; [by right|done])).
  rewrite !filter_cons. specialize (HPQ x ltac:(by left)).
  repeat case_decide; simpl; try lia. naive_solver.
Qed.

Lemma spec_charge_rate clock log name now granted log' :
  Forall (fun e => fst e <= clock) log -> clock <= now -> rate_ok log ->
  spec_charge log name now = (granted, log') -> rate_ok log'.
Proof.
  unfold spec_charge. intros Hf Hc Hr H.
  destruct (6 <=? Z.of_nat (length (window log name now))) eqn:Hw; injection H as <- <-; [exact Hr|]. bprop.
  intros name' t. rewrite filter_app, length_app. specialize (Hr name' t). rewrite filter_cons. simpl.
  case_decide as Hin; [|simpl; lia]. destruct Hin as [<- Ht].
  assert (Hle : (length (filter (fun e => snd e = name /\ (t - Minute < fst e <= t)%Z) log)
                 <= length (window log name now))%nat).
  { apply filter_length_mono. intros e _ [? ?]. split; [done|lia]. }
  simpl. lia.
Qed.

(** *** Effects of the operations on the server's fields *)
Lemma Begin_server w ctxErr payload e1 e2 now r w' :
  Begin w ctxErr payload e1 e2 now = (r, w') ->
  s_config (w_server w') = s_config (w_server w) /\ s_nodes (w_server w') = s_nodes (w_server w) /\
  s_recent (w_server w') = s_recent (w_server w).
Proof. unfold Begin. repeat case_match; intros [= <- <-]; done. Qed.

Lemma chargeSuccess_server s name now r s' :
  chargeSuccess s name now = (r, s') ->
  s_config s' = s_config s /\ s_nodes s' = s_nodes s /\ s_active s' = s_active s.
Proof. unfold chargeSuccess. repeat case_match; intros [= <- <-]; done. Qed.

Lemma verify_claim_spec w h r w' :
  verify_claim w h = (r, w') ->
  w_server w' = w_server w /\ w_metrics w' = w_metrics w /\
  match r with
  | Ok _ => exists a, w_heap w !! h = Some a /\ a_closed a = false /\ a_verified a = false /\
              w_heap w' = <[h := mark_verified a]> (w_heap w)
  | _ => w' = w
  end.
Proof.
  unfold verify_claim. destruct (w_heap w !! h) as [a|]; [|by intros [= <- <-]].
  destruct (a_closed a || a_verified a) eqn:E; intros [= <- <-]; [done|]. bprop. eauto 10.
Qed.

Lemma verify_finish_spec w h now now' fetchErr a r w' :
  w_heap w !! h = Some a -> verify_finish w h now now' fetchErr = (r, w') ->
  w_heap w' = w_heap w /\ w_metrics w' = w_metrics w /\
  ((is_ok r = false /\ w_server w' = w_server w) \/
   exists r0, chargeSuccess (w_server w) (n_name (a_node a)) now' = (r0, w_server w') /\ is_ok r = is_ok r0).
Proof.
  unfold verify_finish. intros ->. destruct (_ || _ || _); [intros [= <- <-]; auto|].
  destruct (chargeSuccess _ _ _) as [r0 s'] eqn:Hc. destruct r0; intros [= <- <-]; simpl; eauto 10.
Qed.

Lemma close_mark_spec w h w' :
  close_mark w h = (true, w') ->
  w_server w' = w_server w /\ w_metrics w' = w_metrics w /\
  exists a, w_heap w !! h = Some a /\ a_closed a = false /\ w_heap w' = <[h := mark_closed a]> (w_heap w).
Proof.
  unfold close_mark. destruct (w_heap w !! h) as [a|]; [|done].
  destruct (a_closed a) eqn:E; intros [= <-]. eauto 10.
Qed.

Lemma close_remove_spec w h :
  w_heap (close_remove w h) = w_heap w /\
  s_config (w_server (close_remove w h)) = s_config (w_server w) /\
  s_nodes (w_server (close_remove w h)) = s_nodes (w_server w) /\
  s_recent (w_server (close_remove w h)) = s_recent (w_server w).
Proof. unfold close_remove. repeat case_match; done. Qed.

(** *** Attempts keep their node, request and challenge *)
Lemma same_attempt_refl a : same_attempt a a.
Proof. done. Qed.

Lemma frame_refl w : world_frame w w.
Proof. split; [done|]. split; [done|]. eauto using same_attempt_refl. Qed.

Lemma frame_trans w1 w2 w3 : world_frame w1 w2 -> world_frame w2 w3 -> world_frame w1 w3.
Proof.
  intros (Hc & Hn & Hh) (Hc' & Hn' & Hh'). split; [congruence|]. split; [congruence|].
  intros h a Ha. destruct (Hh h a Ha) as (b & Hb & Hab). destruct (Hh' h b Hb) as (c & Hcc & Hbc).
  exists c. split; [done|]. unfold same_attempt in *. intuition congruence.
Qed.

Lemma frame_insert w h a a' w' :
  w_server w' = w_server w -> w_heap w !! h = Some a -> same_attempt a a' ->
  w_heap w' = <[h := a']> (w_heap w) -> world_frame w w'.
Proof.
  intros Hs Ha Hsame Hw. split; [by rewrite Hs|]. split; [by rewrite Hs|]. intros h' b Hb. rewrite Hw.
  destruct (decide (h = h')) as [<-|Hne].
  - rewrite list_lookup_insert_eq by (by eapply lookup_lt_Some). exists a'. split; [done|congruence].
  - rewrite list_lookup_insert_ne by done. eauto using same_attempt_refl.
Qed.

Lemma frame_heap w w' :
  s_config (w_server w') = s_config (w_server w) -> s_nodes (w_server w') = s_nodes (w_server w) ->
  w_heap w `prefix_of` w_heap w' -> world_frame w w'.
Proof.
  intros Hc Hn Hp. split; [done|]. split; [done|]. intros h a Ha. exists a. split; [|done].
  by eapply prefix_lookup_Some.
Qed.

Lemma Begin_heap w ctxErr payload e1 e2 now r w' :
  Begin w ctxErr payload e1 e2 now = (r, w') -> w_heap w `prefix_of` w_heap w'.
Proof. unfold Begin. repeat case_match; intros [= <- <-]; try done. simpl. by apply prefix_app_r. Qed.

Lemma sstep_frame {J : Jose} st st' : sstep st st' -> world_frame (st_world st) (st_world st').
Proof.
  intros Hs. destruct Hs; simpl; try apply frame_refl.
  - pose proof (Begin_server _ _ _ _ _ _ _ _ H) as (Hc & Hn & _). eapply frame_heap; [done|done|by eapply Begin_heap].
  - apply verify_claim_spec in H as (Hs & _ & Hr). destruct r; [|subst; apply frame_refl..].
    destruct Hr as (a0 & Ha & _ & _ & Hw). by apply (frame_insert w h a0 (mark_verified a0)).
  - destruct (verify_finish_spec _ _ _ _ _ _ _ _ H0 H5) as (Hh & _ & Hs).
    apply frame_heap; [..|by rewrite Hh]; destruct Hs as [[_ ->]|(r0 & Hcs & _)]; try done;
      by apply chargeSuccess_server in Hcs as (? & ? & _).
  - apply close_mark_spec in H as (Hs & _ & a & Ha & _ & Hw). by apply (frame_insert w h a (mark_closed a)).
  - destruct (close_remove_spec w h) as (Hh & Hc & Hn & _). apply frame_heap; [done|done|by rewrite Hh].
  - apply frame_heap; done.
Qed.

(** *** The quota *)
Lemma quota_step {J : Jose} st st' :
  sstep st st' ->
  quota_rel (w_server (st_world st)) (st_clock st) (st_log st) /\ rate_ok (st_log st) ->
  quota_rel (w_server (st_world st')) (st_clock st') (st_log st') /\ rate_ok (st_log st').
Proof.
  intros Hs [HR Hok]. destruct Hs; simpl in *; try done.
  - split; [by eapply quota_rel_later|done].
  - apply Begin_server in H as (_ & _ & Hr). split; [by eapply quota_rel_same|done].
  - apply verify_claim_spec in H as (-> & _ & _). done.
  - destruct (verify_finish_spec _ _ _ _ _ _ _ _ H0 H5) as (_ & _ & Hs).
    destruct Hs as [[-> ->]|(r0 & Hcs & ->)]; [split; [by eapply quota_rel_later|done]|].
    pose proof (charge_simulation (w_server w) t log (n_name (a_node a)) t' HR H4) as Hsim.
    rewrite Hcs in Hsim. destruct (spec_charge log (n_name (a_node a)) t') as [g log'] eqn:Hsp.
    destruct Hsim as [-> HR']. assert (Hlog : log' = if g then log ++ [(t', n_name (a_node a))] else log).
    { unfold spec_charge in Hsp. destruct (6 <=? _); by injection Hsp as <- <-. }
    rewrite <- Hlog. split; [exact HR'|]. eapply spec_charge_rate; [apply HR|exact H4|exact Hok|exact Hsp].
  - apply close_mark_spec in H as (-> & _). done.
  - destruct (close_remove_spec w h) as (_ & _ & _ & Hr). split; [by eapply quota_rel_same|done].
Qed.

Lemma Begin_spec w ctxErr payload b1 e2 t r w' :
  Begin w ctxErr payload (Ok b1) e2 t = (r, w') ->
  w' = w \/
  exists a, w_heap w' = w_heap w ++ [a] /\ a_closed a = false /\ a_verified a = false /\
    ch_ID (a_challenge a) = b64_encode b1 /\
    s_nodes (w_server w) !! rq_FQDN (a_request a) = Some (a_node a) /\
    s_active (w_server w') = <[b64_encode b1 := length (w_heap w)]> (s_active (w_server w)) /\
    (size (s_active (w_server w)) < 32)%nat /\
    w_metrics w' = pendingAdd (w_metrics w) (n_name (a_node a)) 1.
Proof.
  unfold Begin. destruct (begin_checks _ _ _ _ _) as [[[[req n] id] nonce]| |] eqn:Hb; [|intros [= <- <-]; auto..].
  apply begin_checks_Ok in Hb as (_ & _ & _ & Hn & _ & (? & [= <-] & ->) & _).
  destruct (32 <=? _)%nat eqn:Hs; intros [= <- <-]; [auto|]. bprop. right. eexists. simpl. eauto 20.
Qed.

Lemma heap_snoc (l : list ServerAttempt) a h b :
  (l ++ [a]) !! h = Some b <-> l !! h = Some b \/ (h = length l /\ b = a).
Proof.
  rewrite lookup_snoc_Some. split; [|intros [H|[-> ->]]; auto].
  - intros [[_ ?]|[? ?]]; [by left|by right].
  - left. split; [by eapply lookup_lt_Some|done].
Qed.

Lemma heap_insert (l : list ServerAttempt) h a a' k b :
  l !! h = Some a -> <[h := a']> l !! k = Some b <-> (k = h /\ b = a') \/ (k <> h /\ l !! k = Some b).
Proof.
  intros Ha. destruct (decide (k = h)) as [->|Hne].
  - rewrite list_lookup_insert_eq by (by eapply lookup_lt_Some). naive_solver.
  - rewrite list_lookup_insert_ne by done. naive_solver.
Qed.

(** A handle of the heap stays in the heap, and stays verified. *)
Lemma claims_mono (w w' : world) h :
  (forall h a, w_heap w !! h = Some a -> exists a', w_heap w' !! h = Some a' /\ (a_verified a = true -> a_verified a' = true)) ->
  (exists a, w_heap w !! h = Some a /\ a_verified a = true) ->
  exists a, w_heap w' !! h = Some a /\ a_verified a = true.
Proof. intros Hm (a & Ha & Hv). destruct (Hm _ _ Ha) as (a' & Ha' & Hv'). eauto. Qed.

Lemma sstep_verified {J : Jose} st st' h a :
  sstep st st' -> w_heap (st_world st) !! h = Some a ->
  exists a', w_heap (st_world st') !! h = Some a' /\ (a_verified a = true -> a_verified a' = true).
Proof.
  intros Hs Ha. destruct Hs; simpl in *; eauto.
  - destruct (Begin_spec _ _ _ _ _ _ _ _ H) as [->|(b & -> & _)]; [eauto|].
    exists a. split; [|done]. by apply lookup_app_l_Some.
  - apply verify_claim_spec in H as (_ & _ & Hr). destruct r; [|subst; eauto..].
    destruct Hr as (b & Hb & _ & _ & ->). destruct (decide (h = h0)) as [->|Hne].
    + exists (mark_verified b). split; [|done]. apply (heap_insert _ _ b); auto.
    + exists a. split; [|done]. apply (heap_insert _ _ b); auto.
  - destruct (verify_finish_spec _ _ _ _ _ _ _ _ H0 H5) as (-> & _ & _). eauto.
  - apply close_mark_spec in H as (_ & _ & b & Hb & _ & ->). destruct (decide (h = h0)) as [->|Hne].
    + exists (mark_closed b). split; [apply (heap_insert _ _ b); auto|]. simpl. congruence.
    + exists a. split; [|done]. apply (heap_insert _ _ b); auto.
  - destruct (close_remove_spec w h0) as (-> & _). eauto.
Qed.

Lemma claims_step {J : Jose} st st' : sstep st st' -> claims_inv st -> claims_inv st'.
Proof.
  intros Hs [Hrun Hdone Hnd]. pose proof (fun h a => sstep_verified st st' h a Hs) as Hm.
  assert (Hrun' : forall h, h ∈ st_running st -> exists a, w_heap (st_world st') !! h = Some a /\ a_verified a = true)
    by (intros h Hh; eapply claims_mono; eauto).
  assert (Hdone' : forall h, h ∈ st_done st -> exists a, w_heap (st_world st') !! h = Some a /\ a_verified a = true)
    by (intros h Hh; eapply claims_mono; [eauto|]; by apply Hdone).
  destruct Hs; simpl in *.
  1, 2, 6, 7, 8: split; simpl; [done|intros h' Hh; split; [by apply Hdone|by apply Hdone']|done].
  - apply verify_claim_spec in H as (_ & _ & Hr). destruct r as [[]| |]; simpl in *;
      [|split; simpl; [done|intros h' Hh; split; [by apply Hdone|by apply Hdone']|done]..].
    destruct Hr as (b & Hb & _ & Hv & Hw).
    assert (Hh : exists a, w_heap w' !! h = Some a /\ a_verified a = true).
    { rewrite Hw. exists (mark_verified b). split; [|done]. apply (heap_insert _ _ b); auto. }
    split; simpl; [|intros h' Hin|done].
    + intros h' [->%elem_of_singleton|Hin]%elem_of_union; auto.
    + destruct (Hdone h' Hin) as [Hnr (a0 & Ha0 & Hv0)]. split; [|auto].
      intros [->%elem_of_singleton|?]%elem_of_union; congruence.
  - split; simpl; [intros h'; rewrite elem_of_difference; naive_solver|intros h' Hin|done].
    split; [|auto]. rewrite elem_of_difference. destruct (Hdone h' Hin). tauto.
  - assert (Hdn : h ∉ dn) by (intros Hin; by destruct (Hdone h Hin)).
    split; simpl; [intros h'; rewrite elem_of_difference; naive_solver|intros h' Hin|].
    + rewrite elem_of_difference, elem_of_singleton. destruct (is_ok r); [|destruct (Hdone h' Hin); split; [tauto|auto]].
      apply elem_of_cons in Hin as [->|Hin]; [split; [tauto|auto]|].
      destruct (Hdone h' Hin). split; [tauto|auto].
    + destruct (is_ok r); [by constructor|done].
Qed.

(** Updating an attempt without changing its id, its closing or its place. *)
Lemma places_update st st' h a a' :
  places_inv st -> w_heap (st_world st) !! h = Some a ->
  ch_ID (a_challenge a') = ch_ID (a_challenge a) ->
  s_active (w_server (st_world st')) = s_active (w_server (st_world st)) ->
  w_heap (st_world st') = <[h := a']> (w_heap (st_world st)) ->
  (a_closed a' = a_closed a /\ st_closing st' = st_closing st \/
   a_closed a = false /\ a_closed a' = true /\ st_closing st' = {[h]} ∪ st_closing st) ->
  places_inv st'.
Proof.
  intros [Hcap Hact Hopen Hcl] Ha Hid Hs Hw Hc.
  assert (Hsub : forall k, k ∈ st_closing st -> k ∈ st_closing st').
  { intros k Hk. destruct Hc as [[_ ->]|(_ & _ & ->)]; set_solver. }
  split; rewrite ?Hs; [done| | |].
  - intros id k Hk. destruct (Hact id k Hk) as (b & Hb & Hbid & Hbc). rewrite Hw.
    setoid_rewrite (heap_insert _ _ a); [|done]. destruct (decide (k = h)) as [->|Hne].
    + assert (b = a) as -> by congruence. exists a'. split_and!; [auto|congruence|].
      destruct Hc as [[-> ->]|(_ & _ & ->)]; [done|right; set_solver].
    + exists b. split_and!; [auto|done|]. destruct Hbc; auto.
  - intros k b. rewrite Hw, (heap_insert _ _ a) by done. intros [[-> ->]|[Hne Hb]] Hbc.
    + rewrite Hid. apply Hopen; [done|]. destruct Hc as [[<- Hcc]|(-> & _)]; [|auto]. by rewrite Hcc in Hbc.
    + apply Hopen; [done|]. destruct Hc as [[_ Hcc]|(_ & _ & Hcc)]; rewrite Hcc in Hbc; [done|].
      destruct Hbc; [auto|right; set_solver].
  - intros k Hk. rewrite Hw. setoid_rewrite (heap_insert _ _ a); [|done].
    destruct (decide (k = h)) as [->|Hne].
    + exists a'. split; [auto|]. destruct Hc as [[-> Hcc]|(_ & -> & _)]; [|done].
      rewrite Hcc in Hk. destruct (Hcl h Hk) as (b & Hb & Hbc). congruence.
    + assert (Hk' : k ∈ st_closing st) by (destruct Hc as [[_ Hcc]|(_ & _ & Hcc)]; rewrite Hcc in Hk; set_solver).
      destruct (Hcl k Hk') as (b & Hb & Hbc). exists b. auto.
Qed.

(** Steps that touch neither the heap nor the places. *)
Lemma places_same st st' :
  places_inv st -> w_heap (st_world st') = w_heap (st_world st) ->
  s_active (w_server (st_world st')) = s_active (w_server (st_world st)) ->
  st_closing st' = st_closing st -> places_inv st'.
Proof. intros [] Hh Hs Hc. split; rewrite ?Hs, ?Hc, ?Hh; done. Qed.

Lemma places_begin w w' t run cl log dn a b1 :
  places_inv (State w t run cl log dn) ->
  w_heap w' = w_heap w ++ [a] -> a_closed a = false -> ch_ID (a_challenge a) = b64_encode b1 ->
  s_active (w_server w') = <[b64_encode b1 := length (w_heap w)]> (s_active (w_server w)) ->
  (size (s_active (w_server w)) < 32)%nat -> s_active (w_server w) !! b64_encode b1 = None ->
  places_inv (State w' t run cl log dn).
Proof.
  intros [Hcap Hact Hopen Hcl] Hh Hac Hid Hs Hsz Hfresh. simpl in *. split; simpl; rewrite ?Hs, ?Hh.
  - rewrite map_size_insert_None by done. lia.
  - intros id k. rewrite lookup_insert_Some. setoid_rewrite heap_snoc. intros [[<- <-]|[Hne Hk]].
    + exists a. auto.
    + destruct (Hact id k Hk) as (b & Hb & Hbid & Hbc). exists b. auto.
  - intros k b. rewrite heap_snoc. intros [Hb|[-> ->]] Hc; [|by rewrite Hid, lookup_insert_eq].
    pose proof (Hopen k b Hb Hc) as Hk. rewrite lookup_insert_ne; [done|]. intros E. rewrite <- E in Hk. congruence.
  - intros k Hk. destruct (Hcl k Hk) as (b & Hb & Hbc). exists b. rewrite heap_snoc. auto.
Qed.

Lemma places_remove w t run cl log dn h :
  places_inv (State w t run cl log dn) -> h ∈ cl ->
  places_inv (State (close_remove w h) t run (cl ∖ {[h]}) log dn) /\
  exists a, w_heap w !! h = Some a /\ s_active (w_server w) !! ch_ID (a_challenge a) = Some h /\
    s_active (w_server (close_remove w h)) = delete (ch_ID (a_challenge a)) (s_active (w_server w)) /\
    w_metrics (close_remove w h) = pendingAdd (w_metrics w) (n_name (a_node a)) (-1).
Proof.
  intros [Hcap Hact Hopen Hcl] Hin. simpl in *. destruct (Hcl h Hin) as (a & Ha & Hac).
  pose proof (Hopen h a Ha (or_intror Hin)) as Hpl. unfold close_remove. rewrite Ha.
  rewrite bool_decide_true by done. simpl. split; [|exists a; auto]. split; simpl.
  - rewrite map_size_delete_Some by eauto. lia.
  - intros id k [Hne Hk]%lookup_delete_Some. destruct (Hact id k Hk) as (b & Hb & Hbid & Hbc).
    exists b. split_and!; [done|done|]. destruct Hbc as [?|?]; [by left|]. right. apply elem_of_difference.
    split; [done|]. intros ->%elem_of_singleton. congruence.
  - intros k b Hb Hc. assert (Hk : s_active (w_server w) !! ch_ID (a_challenge b) = Some k).
    { apply Hopen; [done|]. rewrite elem_of_difference in Hc. tauto. }
    rewrite lookup_delete_ne; [done|]. intros E. rewrite <- E, Hpl in Hk. injection Hk as <-.
    assert (b = a) as -> by congruence. destruct Hc as [Hc|Hc]; [congruence|set_solver].
  - intros k [Hk _]%elem_of_difference. by apply Hcl.
Qed.

Lemma places_step {J : Jose} st st' : sstep st st' -> places_inv st -> places_inv st'.
Proof.
  intros Hs HI. destruct Hs.
  - by eapply places_same.
  - destruct (Begin_spec _ _ _ _ _ _ _ _ H) as [->|(a & Hh & Hc & _ & Hid & _ & Hs & Hsz & _)]; [done|].
    by eapply places_begin.
  - apply verify_claim_spec in H as (Hs & _ & Hr). destruct r; [|subst; by eapply places_same..].
    destruct Hr as (b & Hb & _ & _ & Hw). eapply (places_update _ _ h b (mark_verified b)); simpl; try done; [by rewrite Hs|].
    left. done.
  - by eapply places_same.
  - destruct (verify_finish_spec _ _ _ _ _ _ _ _ H0 H5) as (Hh & _ & Hs). eapply places_same; [exact HI|done| |done].
    simpl. destruct Hs as [[_ ->]|(r0 & Hcs & _)]; [done|]. by apply chargeSuccess_server in Hcs as (_ & _ & ?).
  - apply close_mark_spec in H as (Hs & _ & a & Ha & Hc & Hw).
    eapply (places_update _ _ h a (mark_closed a)); simpl; try done; [by rewrite Hs|]. right. done.
  - by apply places_remove.
  - by eapply places_same.
Qed.

(** *** The pending gauge *)
Definition attempt_name (w : world) (h : nat) : option string := (fun a => n_name (a_node a)) <$> w_heap w !! h.

Definition active_of (w : world) (name : string) : gmap string nat :=
  filter (fun p => attempt_name w (snd p) = Some name) (s_active (w_server w)).

Record gauge_inv (w : world) (m : metricsRegistry) : Prop := {
  ga_nodes fqdn n : s_nodes (w_server w) !! fqdn = Some n -> n_name n ∈ mnodes m;
  ga_heap h a : w_heap w !! h = Some a -> n_name (a_node a) ∈ mnodes m;
  ga_pending name : default 0 (pending m !! name) = Z.of_nat (size (active_of w name)) }.

Lemma active_of_same w w' name :
  s_active (w_server w') = s_active (w_server w) ->
  (forall id h, s_active (w_server w) !! id = Some h -> attempt_name w' h = attempt_name w h) ->
  active_of w' name = active_of w name.
Proof.
  intros Hs Hn. unfold active_of. rewrite Hs. apply map_filter_ext. intros id h Hh. simpl.
  by rewrite (Hn id h Hh).
Qed.

Lemma pendingAdd_spec m name delta :
  name ∈ mnodes m ->
  exists m', pendingAdd (Some m) name delta = Some m' /\ mnodes m' = mnodes m /\
    forall n, default 0 (pending m' !! n) =
      if decide (n = name) then i64 (default 0 (pending m !! name) + delta) else default 0 (pending m !! n).
Proof.
  intros Hn. eexists. split; [reflexivity|]. simpl. split; [done|]. intros n.
  unfold nodeLocked. rewrite bool_decide_true by done. case_decide as E.
  - subst. by rewrite lookup_insert_eq.
  - by rewrite lookup_insert_ne.
Qed.

Lemma places_names {J : Jose} st st' h :
  sstep st st' -> is_Some (w_heap (st_world st) !! h) ->
  attempt_name (st_world st') h = attempt_name (st_world st) h.
Proof.
  intros (_ & _ & Hh)%sstep_frame [a Ha]. destruct (Hh h a Ha) as (a' & Ha' & Hn & _).
  unfold attempt_name. rewrite Ha, Ha'. simpl. by rewrite Hn.
Qed.

Lemma gauge_heap {J : Jose} st st' m :
  sstep st st' -> gauge_inv (st_world st) m ->
  forall h a, w_heap (st_world st') !! h = Some a -> n_name (a_node a) ∈ mnodes m.
Proof.
  intros Hs [Hn Hh _] h a Ha. destruct (w_heap (st_world st) !! h) as [b|] eqn:Hb.
  - pose proof (places_names st st' h Hs ltac:(eauto)) as E. unfold attempt_name in E.
    rewrite Ha, Hb in E. injection E as ->. eauto.
  - destruct Hs; simpl in *; try congruence.
    + destruct (Begin_spec _ _ _ _ _ _ _ _ H) as [->|(c & Hw & _ & _ & _ & Hc & _)]; [congruence|].
      rewrite Hw, heap_snoc in Ha. destruct Ha as [?|[-> ->]]; [congruence|eauto].
    + apply verify_claim_spec in H as (_ & _ & Hr). destruct r; [|subst; congruence..].
      destruct Hr as (c & Hc & _ & _ & Hw). rewrite Hw, (heap_insert _ _ c) in Ha by done. naive_solver.
    + destruct (verify_finish_spec _ _ _ _ _ _ _ _ H0 H5) as (Hw & _). congruence.
    + apply close_mark_spec in H as (_ & _ & c & Hc & _ & Hw). rewrite Hw, (heap_insert _ _ c) in Ha by done. naive_solver.
    + destruct (close_remove_spec w h0) as (Hw & _). congruence.
Qed.

Lemma active_of_insert w w' id h name n :
  s_active (w_server w) !! id = None -> attempt_name w' h = Some name ->
  s_active (w_server w') = <[id := h]> (s_active (w_server w)) ->
  (forall id h, s_active (w_server w) !! id = Some h -> attempt_name w' h = attempt_name w h) ->
  Z.of_nat (size (active_of w' n)) = Z.of_nat (size (active_of w n)) + (if decide (n = name) then 1 else 0).
Proof.
  intros Hid Hh Hs Hn. unfold active_of. rewrite Hs.
  assert (E : filter (fun p => attempt_name w' (snd p) = Some n) (s_active (w_server w)) =
              filter (fun p => attempt_name w (snd p) = Some n) (s_active (w_server w))).
  { apply map_filter_ext. intros i k Hk. simpl. by rewrite (Hn i k Hk). }
  case_decide as Hd.
  - subst n. rewrite map_filter_insert_True by done. rewrite E, map_size_insert_None; [lia|].
    apply map_lookup_filter_None. auto.
  - rewrite map_filter_insert_not' by (simpl; congruence). rewrite E. lia.
Qed.

Lemma active_of_delete w w' id h name n :
  s_active (w_server w) !! id = Some h -> attempt_name w h = Some name ->
  s_active (w_server w') = delete id (s_active (w_server w)) -> w_heap w' = w_heap w ->
  Z.of_nat (size (active_of w' n)) = Z.of_nat (size (active_of w n)) + (if decide (n = name) then -1 else 0).
Proof.
  intros Hid Hh Hs Hw. unfold active_of. rewrite Hs.
  unfold attempt_name in *. rewrite Hw. rewrite map_filter_delete. case_decide as Hd.
  - subst n. rewrite map_size_delete_Some; [|eexists; apply map_lookup_filter_Some; eauto].
    set (M := filter _ _). assert (Hl : M !! id = Some h) by (apply map_lookup_filter_Some; eauto).
    assert (size M <> 0)%nat; [|lia]. rewrite map_size_empty_iff. intros Hz. by rewrite Hz in Hl.
  - rewrite delete_id; [lia|]. apply map_lookup_filter_None. right. intros k Hk. simpl. congruence.
Qed.

(** The gauge follows a step that changes the places of one node by [delta]. *)
Lemma gauge_update {J : Jose} st st' m name delta :
  sstep st st' -> gauge_inv (st_world st) m -> name ∈ mnodes m ->
  places_inv st' -> w_metrics (st_world st') = pendingAdd (Some m) name delta ->
  (forall n, Z.of_nat (size (active_of (st_world st') n)) =
     Z.of_nat (size (active_of (st_world st) n)) + (if decide (n = name) then delta else 0)) ->
  exists m', w_metrics (st_world st') = Some m' /\ gauge_inv (st_world st') m'.
Proof.
  intros Hs Hg Hn [Hcap _ _ _] Hm Hsz. destruct (pendingAdd_spec m name delta Hn) as (m' & Hm' & Hnodes & Hp).
  rewrite Hm, Hm'. exists m'. split; [done|]. split.
  - pose proof (sstep_frame _ _ Hs) as (_ & -> & _). rewrite Hnodes. apply Hg.
  - rewrite Hnodes. by apply (gauge_heap st st' m).
  - intros n. rewrite Hp, Hsz. destruct Hg as [_ _ Hpend]. case_decide as Hd; [subst n|rewrite Hpend; lia].
    rewrite Hpend. apply i64_small. specialize (Hsz name). rewrite decide_True in Hsz by done. rewrite <- Hsz.
    assert (size (active_of (st_world st') name) <= size (s_active (w_server (st_world st'))))%nat.
    { apply map_subseteq_size, map_filter_subseteq. }
    unfold minInt64, maxInt64. lia.
Qed.

(** The gauge is not affected by the other steps. *)
Lemma gauge_same {J : Jose} st st' m m' :
  sstep st st' -> places_inv st -> gauge_inv (st_world st) m ->
  w_metrics (st_world st') = Some m' -> mnodes m' = mnodes m -> pending m' = pending m ->
  s_active (w_server (st_world st')) = s_active (w_server (st_world st)) ->
  exists m', w_metrics (st_world st') = Some m' /\ gauge_inv (st_world st') m'.
Proof.
  intros Hs [_ Hact _ _] Hg Hm Hn Hp Ha. exists m'. split; [done|]. split.
  - pose proof (sstep_frame _ _ Hs) as (_ & -> & _). rewrite Hn. apply Hg.
  - rewrite Hn. by apply (gauge_heap st st' m).
  - intros n. rewrite Hp. destruct Hg as [_ _ ->]. f_equal. symmetry. f_equal. apply active_of_same; [done|].
    intros id h Hh. destruct (Hact id h Hh) as (a & Hah & _). eapply places_names; [done|by rewrite Hah].
Qed.

Lemma gauge_step {J : Jose} st st' m :
  sstep st st' -> places_inv st -> w_metrics (st_world st) = Some m -> gauge_inv (st_world st) m ->
  exists m', w_metrics (st_world st') = Some m' /\ gauge_inv (st_world st') m'.
Proof.
  intros Hs HI Hm Hg. pose proof Hs as Hstep. pose proof (places_step _ _ Hs HI) as HI'. destruct Hs; simpl in *.
  - eauto.
  - pose proof (Begin_spec _ _ _ _ _ _ _ _ H) as [->|(a & Hh & _ & _ & Hid & Hnode & Hs & _ & Hmm)]; [eauto|].
    assert (Hnew : attempt_name w' (length (w_heap w)) = Some (n_name (a_node a))).
    { unfold attempt_name. rewrite Hh, lookup_app_r, Nat.sub_diag by lia. done. }
    eapply (gauge_update _ _ m (n_name (a_node a)) 1 Hstep); simpl; try done; [by eapply (ga_nodes _ _ Hg)|by rewrite Hmm, Hm|].
    intros n. eapply (active_of_insert w w' _ _ _ n H0 Hnew Hs). intros id h Hl.
    destruct HI as [_ Hact _ _]. destruct (Hact id h Hl) as (b & Hb & _).
    by apply (places_names _ _ h Hstep); simpl; eauto.
  - apply verify_claim_spec in H as (Hs & Hmm & _). rewrite Hm in Hmm.
    eapply (gauge_same _ _ m m Hstep); simpl; try done. by rewrite Hs.
  - eauto.
  - destruct (verify_finish_spec _ _ _ _ _ _ _ _ H0 H5) as (_ & Hmm & Hs). rewrite Hm in Hmm.
    eapply (gauge_same _ _ m m Hstep); simpl; try done.
    destruct Hs as [[_ ->]|(r0 & Hcs & _)]; [done|]. by apply chargeSuccess_server in Hcs as (_ & _ & ?).
  - apply close_mark_spec in H as (Hs & Hmm & _). rewrite Hm in Hmm.
    eapply (gauge_same _ _ m m Hstep); simpl; try done. by rewrite Hs.
  - destruct (places_remove w t run cl log dn h HI H) as [_ (a & Ha & Hpl & Hdel & Hmm)].
    eapply (gauge_update _ _ m (n_name (a_node a)) (-1) Hstep); simpl; try done; [by eapply (ga_heap _ _ Hg)|by rewrite Hmm, Hm|].
    intros n. apply (active_of_delete w _ (ch_ID (a_challenge a)) h); [done| |done|apply close_remove_spec].
    unfold attempt_name. by rewrite Ha.
  - injection H0 as <- <-. assert (m0 = m) as -> by congruence.
    eapply (gauge_same _ _ m _ Hstep); simpl; done.
Qed.

(** *** Reachable states *)
Lemma NewServer_fresh config order s : NewServer config order = Ok s -> s_active s = ∅ /\ s_recent s = ∅.
Proof. unfold NewServer. intros H. go_inv H. by subst. Qed.

Lemma initial_inv {J : Jose} st :
  initial st -> places_inv st /\ claims_inv st /\
  quota_rel (w_server (st_world st)) (st_clock st) (st_log st) /\ rate_ok (st_log st).
Proof.
  intros (config & order & s & om & t & Ho & Hn & ->).
  apply NewServer_fresh in Hn as [Ha Hr]. split_and!; simpl.
  - split; simpl; rewrite ?Ha; [rewrite map_size_empty; lia|by intros id h ?|by intros h a ?|set_solver].
  - split; simpl; [set_solver|set_solver|apply NoDup_nil_2].
  - split; [done|]. intros name. rewrite Hr, lookup_empty. exists (t - Minute). split; [lia|done].
  - intros name t'. simpl. lia.
Qed.

Lemma reachable_inv {J : Jose} st :
  reachable st -> places_inv st /\ claims_inv st /\
  quota_rel (w_server (st_world st)) (st_clock st) (st_log st) /\ rate_ok (st_log st).
Proof.
  intros (st0 & H0%initial_inv & Hs). revert H0.
  induction Hs as [|x y z Hxy Hyz IH]; [done|]. intros (Hp & Hc & Hq). apply IH.
  split; [by eapply places_step|]. split; [by eapply claims_step|by eapply quota_step].
Qed.

(** ** Correctness of the running server *)

(** C6: In every interleaving at most 32 attempts are pending, and the places
    are exactly those of the attempts that are not closed: an open attempt
    always holds the place of its challenge id, and a place is only held by an
    attempt that is open or whose [Close] is about to release it. *)
Theorem capacity_exact {J : Jose} st :
  reachable st ->
  (size (s_active (w_server (st_world st))) <= 32)%nat /\
  (forall h a, w_heap (st_world st) !! h = Some a -> a_closed a = false ->
     s_active (w_server (st_world st)) !! ch_ID (a_challenge a) = Some h) /\
  (forall id h, s_active (w_server (st_world st)) !! id = Some h ->
     exists a, w_heap (st_world st) !! h = Some a /\ ch_ID (a_challenge a) = id /\
       (a_closed a = false \/ h ∈ st_closing st)).
Proof.
  intros (Hp & _)%reachable_inv. split; [apply Hp|]. split; [|apply Hp]. intros h a Ha Hc.
  apply (pl_open _ Hp); auto.
Qed.

(** C20: A challenge verifies at most once: in every interleaving no attempt
    is granted an identity twice. *)
Theorem verified_once {J : Jose} st : reachable st -> NoDup (st_done st).
Proof. intros (_ & Hc & _)%reachable_inv. apply Hc. Qed.

(** C11: No node is granted more than six identities in any 60 seconds,
    whatever the interleaving of the verifications. *)
Theorem rate_limit {J : Jose} st name t :
  reachable st ->
  (length (filter (fun e => snd e = name /\ (t - Minute < fst e <= t)%Z) (st_log st)) <= 6)%nat.
Proof. intros (_ & _ & _ & Hr)%reachable_inv. apply Hr. Qed.

(** The quota is exact: in a reachable state a charge is granted exactly
    when the log has fewer than six grants of the node in the last 60 seconds,
    although the server only keeps pruned lists of times. *)
Theorem charge_exact {J : Jose} st name now :
  reachable st -> st_clock st <= now ->
  is_ok (fst (chargeSuccess (w_server (st_world st)) name now)) = true <->
  (length (window (st_log st) name now) < 6)%nat.
Proof.
  intros (_ & _ & Hq & _)%reachable_inv Hc.
  pose proof (charge_simulation _ _ _ name now Hq Hc) as H.
  destruct (chargeSuccess _ _ _) as [r s']. unfold spec_charge in H. cbn [fst].
  destruct (6 <=? _) eqn:E; destruct H as [-> _]; bprop; simpl; split; try done; lia.
Qed.

(** When every node is registered, the pending gauge of each node is the
    number of its places in use, in every interleaving. *)
Theorem pending_gauge {J : Jose} st0 st m0 name :
  initial st0 -> rtc sstep st0 st ->
  w_metrics (st_world st0) = Some m0 -> (forall n, default 0 (pending m0 !! n) = 0) ->
  (forall fqdn n, s_nodes (w_server (st_world st0)) !! fqdn = Some n -> n_name n ∈ mnodes m0) ->
  exists m, w_metrics (st_world st) = Some m /\
    default 0 (pending m !! name) = Z.of_nat (size (active_of (st_world st) name)).
Proof.
  intros H0 Hs Hm Hz Hn. pose proof (initial_inv _ H0) as (Hp & _).
  assert (Hg : gauge_inv (st_world st0) m0).
  { destruct H0 as (config & order & s & om & t & _ & Hnew & ->). apply NewServer_fresh in Hnew as [Ha _].
    simpl in *. split; simpl; [exact Hn|by intros h a ?|]. intros n. rewrite Hz. unfold active_of. simpl.
    by rewrite Ha, map_filter_empty, map_size_empty. }
  clear H0 Hz Hn. revert m0 Hm Hg. induction Hs as [x|x y z Hxy Hyz IH]; intros m0 Hm Hg.
  - exists m0. split; [done|apply Hg].
  - destruct (gauge_step _ _ _ Hxy Hp Hm Hg) as (m1 & Hm1 & Hg1).
    eapply IH; [by eapply places_step|exact Hm1|exact Hg1].
Qed.

(** Attempts are immutable where it matters: whatever runs between the
    two critical sections of [Verify], the attempt keeps its node, request,
    challenge and challenge bytes, and the server its configuration. *)
Theorem interleaving_frame {J : Jose} st st' :
  rtc sstep st st' -> world_frame (st_world st) (st_world st').
Proof.
  induction 1 as [|x y z Hxy _ IH]; [apply frame_refl|]. eapply frame_trans; [by apply sstep_frame|exact IH].
Qed.

(** ** A concrete run: an attempt begins, verifies and closes *)
Module RunExamples.
Import PlainJose ProtocolExamples ServerExamples.

Definition st0 : state := State world0 now ∅ ∅ [] [].
Definition w1 : world := snd (Begin world0 None payload (Ok seed) (Ok nonce) now).
Definition w2 : world := snd (verify_claim w1 0).
Definition w3 : world := snd (verify_finish w2 0 now now None).
Definition w4 : world := snd (close_mark w3 0).
Definition st3 : state := State w3 now (({[0%nat]} ∪ ∅) ∖ {[0%nat]}) ∅ [(now, "eihort")] [0%nat].
Definition st5 : state := State (close_remove w4 0) now (({[0%nat]} ∪ ∅) ∖ {[0%nat]})
  (({[0%nat]} ∪ ∅) ∖ {[0%nat]}) [(now, "eihort")] [0%nat].

Lemma initial_st0 : initial st0.
Proof.
  exists config, [("eihort", policy)], server, (Some metrics0), now.
  split; [reflexivity|]. split; [vm_compute; reflexivity|reflexivity].
Qed.

Lemma step_begin : sstep st0 (State w1 now ∅ ∅ [] []).
Proof.
  apply (DoBegin _ _ _ _ _ _ None payload seed (Ok nonce) (fst (Begin world0 None payload (Ok seed) (Ok nonce) now)));
    [apply surjective_pairing|vm_compute; reflexivity].
Qed.

Lemma step_claim : sstep (State w1 now ∅ ∅ [] []) (State w2 now ({[0%nat]} ∪ ∅) ∅ [] []).
Proof.
  assert (Hok : is_ok (fst (verify_claim w1 0)) = true) by (vm_compute; reflexivity).
  pose proof (DoClaim w1 now ∅ ∅ [] [] 0 (fst (verify_claim w1 0)) w2 (surjective_pairing _)) as H.
  rewrite Hok in H. exact H.
Qed.

Lemma step_finish : sstep (State w2 now ({[0%nat]} ∪ ∅) ∅ [] []) st3.
Proof.
  assert (Hin : 0%nat ∈ ({[0%nat]} ∪ ∅ : gset nat)) by set_solver.
  assert (Ha : exists a, w_heap w2 !! 0%nat = Some a /\ verify_response a answer now = Ok tt /\
    fst (fetch net (w_server w2) a) = Ok document /\ verify_proof a document = Ok tt /\
    n_name (a_node a) = "eihort").
  { eexists. split; [vm_compute; reflexivity|]. split_and!; vm_compute; reflexivity. }
  destruct Ha as (a & Ha & Hr & Hf & Hp & Hn).
  assert (Hok : is_ok (fst (verify_finish w2 0 now now None)) = true) by (vm_compute; reflexivity).
  pose proof (DoFinish w2 now ({[0%nat]} ∪ ∅) ∅ [] [] 0 a answer now net document None now
    (fst (verify_finish w2 0 now now None)) w3 Hin Ha Hr Hf Hp (Z.le_refl _) (surjective_pairing _)) as H.
  rewrite Hok, Hn in H. exact H.
Qed.

Lemma step_mark : sstep st3 (State w4 now (({[0%nat]} ∪ ∅) ∖ {[0%nat]}) ({[0%nat]} ∪ ∅) [(now, "eihort")] [0%nat]).
Proof.
  assert (Hok : fst (close_mark w3 0) = true) by (vm_compute; reflexivity).
  apply DoMark. rewrite <- Hok. apply surjective_pairing.
Qed.

Lemma run_st3 : rtc sstep st0 st3.
Proof.
  eapply rtc_l; [apply step_begin|]. eapply rtc_l; [apply step_claim|]. apply rtc_once, step_finish.
Qed.

Lemma run_st5 : rtc sstep st0 st5.
Proof.
  eapply rtc_r; [eapply rtc_r; [apply run_st3|apply step_mark]|]. apply DoRemove. set_solver.
Qed.

Lemma capacity_exact_witness : (size (s_active (w_server (st_world st3))) <= 32)%nat.
Proof. apply (capacity_exact st3). exists st0. split; [apply initial_st0|apply run_st3]. Defined.

Lemma verified_once_witness : NoDup (st_done st3) /\ st_done st3 = [0%nat].
Proof.
  split; [|reflexivity]. apply (verified_once st3). exists st0. split; [apply initial_st0|apply run_st3].
Defined.

Lemma rate_limit_witness :
  (length (filter (fun e => snd e = "eihort" /\ (now - Minute < fst e <= now)%Z) (st_log st3)) <= 6)%nat.
Proof. apply (rate_limit st3). exists st0. split; [apply initial_st0|apply run_st3]. Defined.

Lemma charge_exact_witness : is_ok (fst (chargeSuccess (w_server (st_world st3)) "eihort" now)) = true.
Proof.
  apply (charge_exact st3 "eihort" now); [exists st0; split; [apply initial_st0|apply run_st3]|reflexivity|].
  vm_compute. repeat constructor.
Defined.

Lemma pending_gauge_witness :
  exists m, w_metrics (st_world st5) = Some m /\ default 0 (pending m !! "eihort") = 0.
Proof.
  destruct (pending_gauge st0 st5 metrics0 "eihort" initial_st0 run_st5 eq_refl) as (m & Hm & Hp).
  - intros n. destruct (decide (n = "eihort")) as [->|Hne]; [reflexivity|].
    change (default 0 ((<["eihort" := 0]> ∅ : gmap string Z) !! n) = 0). rewrite lookup_insert_ne by congruence. reflexivity.
  - intros fqdn n Hn.
    change (({["eihort.nyaw.xyz" := policy_node ("eihort", policy)]} : gmap string node) !! fqdn = Some n) in Hn.
    apply lookup_singleton_Some in Hn as [<- <-]. simpl. set_solver.
  - exists m. split; [exact Hm|]. rewrite Hp. vm_compute. reflexivity.
Defined.

Lemma interleaving_frame_witness : world_frame (st_world st0) (st_world st5).
Proof. apply (interleaving_frame st0 st5). apply run_st5. Defined.
End RunExamples.
