(* ===== verification/AttestResponder.v ===== *)
(** * The HTTP responder

    Models [pkgs/realm-node-attest/responder_linux.go]: the table of published
    proofs with its public and control handlers, the peer check, the listeners
    it opens or inherits from systemd, and the connection limiter.  A request
    is what [net/http] hands to the handler; clock readings and the outcomes
    of system calls are arguments. *)

From S2P Require Import Prelude GoStrings Encoding Regex Json NetIP AttestProtocol AttestMetrics.

Open Scope Z_scope.
Open Scope go_scope.

Record ResponderConfig := {
  rc_FQDN : string;
  rc_Port : Z;
  rc_ControlSocket : string;
  rc_MetricsAddress : string }.

Record storedProof := StoredProof { sp_body : string; sp_expiresAt : Z }.

Record responder := Responder {
  r_config : ResponderConfig;
  r_proofs : gmap string storedProof;
  r_metrics : metricsRegistry }.

Definition newResponder (config : ResponderConfig) : result responder :=
  let! _ := validateMetricsAddress (rc_MetricsAddress config) in
  reject negb (validFQDN (rc_FQDN config)) || (rc_Port config <? 1) || (65535 <? rc_Port config) ||
    negb (isAbs (rc_ControlSocket config)) with ErrNew "invalid responder configuration";
  let! metrics := newMetrics "responder" in
  Ok (Responder config ∅ (set_capacity (register metrics [rc_FQDN config]) 4)).

Definition proofID (path prefix : string) : string * bool :=
  if negb (hasPrefix path prefix) then ("", false)
  else let id := trimPrefix path prefix in (id, validRandom id).

(** ** Expiry *)

(** [r.metrics.pendingAdd(r.config.FQDN, delta)]; the pointer is never nil. *)
Definition pending_change (r : responder) (delta : Z) : metricsRegistry :=
  default (r_metrics r) (pendingAdd (Some (r_metrics r)) (rc_FQDN (r_config r)) delta).

Definition remove_proof (r : responder) (id action : string) : responder :=
  Responder (r_config r) (delete id (r_proofs r)) (proof (pending_change r (-1)) action).

(** [expireLocked]: [visits] lists the entries in the order in which the loop
    ranges over the map, each with the clock reading of its iteration. *)
Fixpoint expireLocked (r : responder) (visits : list (string * Z)) : responder :=
  match visits with
  | [] => r
  | (id, now) :: rest =>
      match r_proofs r !! id with
      | Some p =>
          if sp_expiresAt p <=? Unix now then expireLocked (remove_proof r id "expired") rest
          else expireLocked r rest
      | None => expireLocked r rest
      end
  end.

Definition cleanup (r : responder) (visits : list (string * Z)) : responder := expireLocked r visits.

(** ** Requests and responses *)
Record http_request := HttpRequest {
  q_method : string;
  q_host : string;
  q_path : string;
  q_escapedPath : string;
  q_rawQuery : string;
  q_contentLength : Z;
  q_transferEncoding : list string;
  q_body : string;
  q_bodyErr : bool;
  q_rootPeer : bool }.

Record http_response := HttpReply { rs_status : Z; rs_body : string }.

Definition http_Error (msg : string) (code : Z) : http_response := HttpReply code (msg +:+ String (char 10) "").
Definition NotFound : http_response := http_Error "404 page not found" 404.

(** The outcome and reason that the deferred [record] reports. *)
Definition reply : Type := http_response * string * string.

(** ** The public handler *)
Definition public_reply (r : responder) (request : http_request) (visits : list (string * Z))
    (written : bool) : reply * responder :=
  if q_method request <>? "GET" then
    ((http_Error "method not allowed" 405, "failure", "method"), r)
  else if (q_host request <>? joinHostPort (rc_FQDN (r_config r)) (itoa (rc_Port (r_config r)))) ||
          (q_rawQuery request <>? "") || (q_escapedPath request <>? q_path request) ||
          (0 <? q_contentLength request) || (q_transferEncoding request <>? []) then
    ((NotFound, "failure", "invalid_request"), r)
  else
    let '(id, valid) := proofID (q_path request) PathPrefix in
    if negb valid then ((NotFound, "failure", "invalid_request"), r)
    else
      let r' := expireLocked r visits in
      match r_proofs r' !! id with
      | None => ((NotFound, "failure", "not_found"), r')
      | Some p =>
          if written then ((HttpReply 200 (sp_body p), "success", "proof_served"), r')
          else ((HttpReply 200 (sp_body p), "failure", "write_failed"), r')
      end.

(** The deferred [record] of a handler. *)
Definition record_reply (r : responder) (outcome stage reason : string) (duration now : Z) : responder :=
  match record (Some (r_metrics r)) (rc_FQDN (r_config r)) outcome stage reason duration now with
  | Some (m, _) => Responder (r_config r) (r_proofs r) m
  | None => r
  end.

Definition public (r : responder) (request : http_request) (visits : list (string * Z))
    (written : bool) (duration now : Z) : http_response * responder :=
  let '((resp, outcome, reason), r') := public_reply r request visits written in
  (resp, record_reply r' outcome "public" reason duration now).

(** ** The control handler *)
Section control.
Context {J : Jose}.

(** [http.MethodPut]: [now] is the reading for [parseProof]. *)
Definition control_put (r : responder) (request : http_request) (id : string) (now : Z)
    (visits : list (string * Z)) : reply * responder :=
  if q_bodyErr request || (MaxDocumentSize <? len (q_body request)) then
    ((http_Error "invalid proof size" 400, "failure", "invalid_size"), r)
  else
    match parseProof (q_body request) (rc_FQDN (r_config r)) now with
    | Ok c =>
        if ch_ID c <>? id then ((http_Error "invalid proof" 400, "failure", "invalid_proof"), r)
        else
          let r1 := expireLocked r visits in
          let exists_ := bool_decide (is_Some (r_proofs r1 !! id)) in
          if negb exists_ && (4 <=? size (r_proofs r1))%nat then
            ((http_Error "proof capacity reached" 429, "failure", "capacity"), r1)
          else
            let m := if exists_ then r_metrics r1 else pending_change r1 1 in
            ((HttpReply 201 "", "success", "proof_published"),
             Responder (r_config r1) (<[id := StoredProof (q_body request) (ch_ExpiresAt c)]> (r_proofs r1))
               (proof m "published"))
    | _ => ((http_Error "invalid proof" 400, "failure", "invalid_proof"), r)
    end.

Definition control_delete (r : responder) (id : string) : reply * responder :=
  let r' := if bool_decide (is_Some (r_proofs r !! id)) then remove_proof r id "deleted" else r in
  ((HttpReply 204 "", "success", "proof_deleted"), r').

Definition control_reply (r : responder) (request : http_request) (now : Z) (visits : list (string * Z))
    : reply * responder :=
  if negb (q_rootPeer request) then
    ((http_Error "root peer required" 403, "failure", "peer_denied"), r)
  else if (q_rawQuery request <>? "") || (q_escapedPath request <>? q_path request) then
    ((NotFound, "failure", "invalid_request"), r)
  else
    let '(id, valid) := proofID (q_path request) "/v1/proofs/" in
    if negb valid then ((NotFound, "failure", "invalid_request"), r)
    else if q_method request =? "PUT" then control_put r request id now visits
    else if q_method request =? "DELETE" then control_delete r id
    else ((http_Error "method not allowed" 405, "failure", "method"), r).

Definition control (r : responder) (request : http_request) (now : Z) (visits : list (string * Z))
    (duration end_ : Z) : http_response * responder :=
  let '((resp, outcome, reason), r') := control_reply r request now visits in
  (resp, record_reply r' outcome "control" reason duration end_).
End control.

(** ** The peer of the control socket *)

(** The calls on a Unix socket that lead to its peer's credentials. *)
Record peer_calls := PeerCalls { syscallConn_ok : bool; control_ok : bool; ucred : option Z }.

Inductive connection :=
| LimitedConn (inner : connection)
| UnixConn (calls : peer_calls)
| OtherConn.

Definition rootPeer (c : connection) : bool :=
  let c := match c with LimitedConn inner => inner | _ => c end in
  match c with
  | UnixConn calls =>
      if negb (syscallConn_ok calls) then false
      else if negb (control_ok calls) then false
      else match ucred calls with Some uid => uid =? 0 | None => false end
  | _ => false
  end.

(** ** Listeners *)
Inductive sock_addr := UnixAddr (name : string) | TCPAddr (port : Z) (is4 : bool) | OtherAddr.

#[export] Instance sock_addr_eq_dec : EqDecision sock_addr.
Proof. solve_decision. Defined.

(** The environment and the outcomes of the system calls. *)
Record listen_env := ListenEnv {
  getenv : string -> string;
  getpid : Z;
  fileListener : Z -> option sock_addr;
  mkdirAll : string -> option error;
  chmod : string -> option error;
  net_listen : string -> string -> option sock_addr }.

(** Listeners are named; [open] is the set of the names whose socket is open. *)
Definition listeners_t : Type := gmap string sock_addr * gset string.

Definition close_all (ls : gmap string sock_addr) (open : gset string) : gset string := open ∖ dom ls.

Definition expected_addr (config : ResponderConfig) (name : string) (addr : sock_addr) : bool :=
  if name =? "control" then addr =? UnixAddr (rc_ControlSocket config)
  else match addr with
       | TCPAddr port is4 => (port =? rc_Port config) && (Bool.eqb (name =? "http4") is4)
       | _ => false
       end.

Fixpoint activate_loop (env : listen_env) (config : ResponderConfig) (index : Z) (names : list string)
    (ls : gmap string sock_addr) (open : gset string) : result (gmap string sock_addr) * gset string :=
  match names with
  | [] =>
      if (ls !! "control" =? None) || ((ls !! "http4" =? None) && (ls !! "http6" =? None))
      then (Err (ErrNew "activation requires control and HTTP listeners"), close_all ls open)
      else (Ok ls, open)
  | name :: rest =>
      if (name <>? "control") && (name <>? "http4") && (name <>? "http6")
      then (Err (ErrNew "unknown activation socket"), close_all ls open)
      else if ls !! name <>? None
      then (Err (ErrNew "duplicate activation socket"), close_all ls open)
      else match fileListener env (3 + index) with
           | None => (Err (ErrNew "file listener"), close_all ls open)
           | Some addr =>
               let ls' := <[name := addr]> ls in
               let open' := {[name]} ∪ open in
               if expected_addr config name addr then activate_loop env config (index + 1) rest ls' open'
               else (Err (ErrNew (if name =? "control" then "unexpected control listener"
                                  else "unexpected HTTP listener")), close_all ls' open')
           end
  end.

Definition activatedListeners (env : listen_env) (config : ResponderConfig)
    : result (gmap string sock_addr) * gset string :=
  match atoi (getenv env "LISTEN_PID") with
  | None => (Err (ErrNew "invalid activation PID"), ∅)
  | Some pid =>
      if pid <>? getpid env then (Err (ErrNew "invalid activation PID"), ∅)
      else
        let names := split ":" (getenv env "LISTEN_FDNAMES") in
        match atoi (getenv env "LISTEN_FDS") with
        | None => (Err (ErrNew "expected a control socket and one or two HTTP sockets"), ∅)
        | Some count =>
            if (count <? 2) || (3 <? count) || (Z.of_nat (length names) <>? count)
            then (Err (ErrNew "expected a control socket and one or two HTTP sockets"), ∅)
            else activate_loop env config 0 names ∅ ∅
        end
  end.

(** The loop over the two HTTP networks, in the order of the map iteration. *)
Fixpoint http_loop (env : listen_env) (config : ResponderConfig) (order : list (string * string))
    (ls : gmap string sock_addr) (open : gset string) : result (gmap string sock_addr) * gset string :=
  match order with
  | [] => (Ok ls, open)
  | (name, network) :: rest =>
      let address := if network =? "tcp6" then "::" else "0.0.0.0" in
      match net_listen env network (joinHostPort address (itoa (rc_Port config))) with
      | None => (Err (ErrNew "listen"), close_all ls open)
      | Some addr => http_loop env config rest (<[name := addr]> ls) ({[name]} ∪ open)
      end
  end.

Definition responderListeners (env : listen_env) (config : ResponderConfig) (order : list (string * string))
    : result (gmap string sock_addr) * gset string :=
  if getenv env "LISTEN_FDS" <>? "" then activatedListeners env config
  else match mkdirAll env (dir (rc_ControlSocket config)) with
       | Some e => (Err e, ∅)
       | None =>
           match net_listen env "unix" (rc_ControlSocket config) with
           | None => (Err (ErrNew "listen"), ∅)
           | Some addr =>
               let ls := {["control" := addr]} in
               let open := {["control"]} in
               match chmod env (rc_ControlSocket config) with
               | Some e => (Err e, close_all ls open)
               | None => http_loop env config order ls open
               end
           end
       end.

(** ** The connection limiter

    [permits] is the number of values in the channel, [accepting] the number
    of [Accept] calls between acquiring a permit and their outcome, and
    [conns] maps each connection to whether its [once] has run. *)
Record limiter := Limiter {
  lm_count : nat;
  lm_permits : nat;
  lm_done : bool;
  lm_accepting : nat;
  lm_conns : gmap nat bool }.

Definition limitListener (count : nat) : limiter := Limiter count 0 false 0 ∅.

(** The channel operations: a send needs room, a receive needs a value. *)
Definition accept_acquire (l : limiter) : option limiter :=
  if (lm_permits l <? lm_count l)%nat
  then Some (Limiter (lm_count l) (S (lm_permits l)) (lm_done l) (S (lm_accepting l)) (lm_conns l)) else None.

Definition release (l : limiter) : option limiter :=
  match lm_permits l with
  | O => None
  | S n => Some (Limiter (lm_count l) n (lm_done l) (lm_accepting l) (lm_conns l))
  end.

Definition accept_end (l : limiter) : limiter :=
  Limiter (lm_count l) (lm_permits l) (lm_done l) (pred (lm_accepting l)) (lm_conns l).

Definition set_conn (l : limiter) (c : nat) (released : bool) : limiter :=
  Limiter (lm_count l) (lm_permits l) (lm_done l) (lm_accepting l) (<[c := released]> (lm_conns l)).

Definition conn_close (l : limiter) (c : nat) : option limiter :=
  match lm_conns l !! c with
  | None => None
  | Some true => Some l
  | Some false => release (set_conn l c true)
  end.

Definition limiter_close (l : limiter) : limiter :=
  Limiter (lm_count l) (lm_permits l) true (lm_accepting l) (lm_conns l).

Inductive limiter_step : limiter -> limiter -> Prop :=
| LAcquire l l' : accept_acquire l = Some l' -> limiter_step l l'
| LAccepted l c : (0 < lm_accepting l)%nat -> lm_conns l !! c = None ->
    limiter_step l (set_conn (accept_end l) c false)
| LFailed l l' : (0 < lm_accepting l)%nat -> release (accept_end l) = Some l' -> limiter_step l l'
| LConnClose l l' c : conn_close l c = Some l' -> limiter_step l l'
| LClose l : limiter_step l (limiter_close l).

(** ** Lemmas: the proof table *)

(** The gauge of the responder's own node is the size of its table. *)
Record table_inv (r : responder) : Prop := {
  ti_size : (size (r_proofs r) <= 4)%nat;
  ti_node : rc_FQDN (r_config r) ∈ mnodes (r_metrics r);
  ti_gauge : default 0 (pending (r_metrics r) !! rc_FQDN (r_config r)) = Z.of_nat (size (r_proofs r)) }.

Lemma proof_metrics m action : mnodes (proof m action) = mnodes m /\ pending (proof m action) = pending m.
Proof. unfold proof. by destruct (_ || _). Qed.

Lemma pending_change_spec r delta :
  table_inv r -> -4 <= delta <= 4 ->
  mnodes (pending_change r delta) = mnodes (r_metrics r) /\
  default 0 (pending (pending_change r delta) !! rc_FQDN (r_config r)) = Z.of_nat (size (r_proofs r)) + delta.
Proof.
  intros [Hs Hn Hg] Hd. unfold pending_change. simpl. split; [done|].
  unfold nodeLocked. rewrite bool_decide_true by done. rewrite lookup_insert_eq. simpl. rewrite Hg.
  apply i64_small. unfold minInt64, maxInt64. lia.
Qed.

Lemma table_remove r id action :
  table_inv r -> is_Some (r_proofs r !! id) -> table_inv (remove_proof r id action).
Proof.
  intros Ht Hid. destruct (pending_change_spec r (-1) Ht ltac:(lia)) as [Hm Hp].
  destruct (proof_metrics (pending_change r (-1)) action) as [Hm' Hp'].
  pose proof Ht as [Hs Hn Hg]. unfold remove_proof.
  assert (Hsz : Z.of_nat (size (delete id (r_proofs r))) = Z.of_nat (size (r_proofs r)) + -1).
  { rewrite map_size_delete_Some by done.
    assert (size (r_proofs r) <> 0)%nat; [|lia]. rewrite map_size_empty_iff. intros E.
    rewrite E in Hid. by destruct Hid. }
  split; cbn [r_config r_proofs r_metrics]; rewrite ?Hm', ?Hp', ?Hm; [lia|done|]. by rewrite Hp, Hsz.
Qed.

Lemma table_expire r visits : table_inv r -> table_inv (expireLocked r visits).
Proof.
  revert r. induction visits as [|[id now] visits IH]; intros r Ht; cbn [expireLocked]; [done|].
  destruct (r_proofs r !! id) eqn:E; [|auto]. destruct (_ <=? _); [|auto].
  apply IH, table_remove; eauto.
Qed.

Lemma expire_config r visits : r_config (expireLocked r visits) = r_config r.
Proof.
  revert r. induction visits as [|[id now] visits IH]; intros r; cbn [expireLocked]; [done|].
  repeat case_match; rewrite IH; done.
Qed.

Lemma expire_lookup r visits id p :
  r_proofs (expireLocked r visits) !! id = Some p <->
  r_proofs r !! id = Some p /\ forall now, (id, now) ∈ visits -> Unix now < sp_expiresAt p.
Proof.
  revert r. induction visits as [|[i now] visits IH]; intros r; cbn [expireLocked].
  { split; [|tauto]. intros H. split; [done|]. intros n Hn. by apply not_elem_of_nil in Hn. }
  setoid_rewrite elem_of_cons. destruct (r_proofs r !! i) as [q|] eqn:Hi.
  - destruct (Z.leb_spec (sp_expiresAt q) (Unix now)) as [Hle|Hlt]; rewrite IH.
    + cbn [remove_proof r_proofs]. rewrite lookup_delete_Some. split.
      * intros [[Hne Hp] Hv]. split; [done|]. intros n [[= ->]|Hn]; [by destruct Hne|auto].
      * intros [Hp Hv]. split; [split; [|done]|auto]. intros ->. rewrite Hi in Hp. injection Hp as ->.
        specialize (Hv now (or_introl eq_refl)). lia.
    + split; intros [Hp Hv]; (split; [done|]); [|auto].
      intros n [[= -> ->]|Hn]; [|auto]. rewrite Hi in Hp. by injection Hp as ->.
  - rewrite IH. split; intros [Hp Hv]; (split; [done|]); [|auto].
    intros n [[= -> ->]|Hn]; [congruence|auto].
Qed.

(** Every stored document was accepted, for its id, when it was published. *)
Definition stored_ok `{Jose} (r : responder) (id : string) (p : storedProof) : Prop :=
  exists now c, parseProof (sp_body p) (rc_FQDN (r_config r)) now = Ok c /\ ch_ID c = id /\
    ch_ExpiresAt c = sp_expiresAt p.

Definition all_stored `{Jose} (r : responder) : Prop :=
  forall id p, r_proofs r !! id = Some p -> stored_ok r id p.

Lemma record_reply_spec r outcome stage reason duration now :
  let r' := record_reply r outcome stage reason duration now in
  r_config r' = r_config r /\ r_proofs r' = r_proofs r /\
  mnodes (r_metrics r') = mnodes (r_metrics r) /\ pending (r_metrics r') = pending (r_metrics r).
Proof. done. Qed.

Lemma table_same r r' :
  table_inv r -> r_config r' = r_config r -> r_proofs r' = r_proofs r ->
  mnodes (r_metrics r') = mnodes (r_metrics r) -> pending (r_metrics r') = pending (r_metrics r) -> table_inv r'.
Proof. intros [] Hc Hp Hm Hg. split; rewrite ?Hc, ?Hp, ?Hm, ?Hg; done. Qed.

(** What the handlers do to the table. *)
Lemma public_reply_table r request visits written rep r' :
  public_reply r request visits written = (rep, r') -> r' = r \/ r' = expireLocked r visits.
Proof. unfold public_reply. repeat case_match; intros [= <- <-]; auto. Qed.

Section control_lemmas.
Context {J : Jose}.

Lemma control_put_spec r request id now visits rep r' :
  control_put r request id now visits = (rep, r') ->
  r' = r \/ r' = expireLocked r visits \/
  exists c, rep = (HttpReply 201 "", "success", "proof_published") /\
    parseProof (q_body request) (rc_FQDN (r_config r)) now = Ok c /\ ch_ID c = id /\
    let r1 := expireLocked r visits in
    let e := bool_decide (is_Some (r_proofs r1 !! id)) in
    (e = true \/ (size (r_proofs r1) < 4)%nat) /\
    r' = Responder (r_config r1) (<[id := StoredProof (q_body request) (ch_ExpiresAt c)]> (r_proofs r1))
           (proof (if e then r_metrics r1 else pending_change r1 1) "published").
Proof.
  unfold control_put. destruct (_ || _); [intros [= <- <-]; auto|].
  destruct (parseProof _ _ _) as [c| |] eqn:Hp; [|intros [= <- <-]; auto..].
  case_bool_decide as Hid; cbn [negb]; [|intros [= <- <-]; auto].
  destruct (negb _ && _) eqn:He; [intros [= <- <-]; auto|]. intros [= <- <-]. right. right.
  exists c. split; [done|]. split; [done|]. split; [done|]. cbn zeta. split; [|done].
  revert He. case_bool_decide; cbn [negb andb]; intros He; bprop; auto.
Qed.

Lemma control_reply_spec r request now visits rep r' :
  control_reply r request now visits = (rep, r') ->
  r' = r \/
  q_rootPeer request = true /\ exists id, proofID (q_path request) "/v1/proofs/" = (id, true) /\
    ((q_method request = "PUT" /\ control_put r request id now visits = (rep, r')) \/
     (q_method request = "DELETE" /\ control_delete r id = (rep, r'))).
Proof.
  unfold control_reply. destruct (q_rootPeer request); simpl; [|intros [= <- <-]; auto].
  destruct (_ || _); [intros [= <- <-]; auto|].
  destruct (proofID _ _) as [id []]; simpl; [|intros [= <- <-]; auto].
  case_bool_decide; [eauto 10|]. case_bool_decide; [eauto 10|]. intros [= <- <-]. auto.
Qed.

Lemma table_put r request id now visits rep r' :
  table_inv r -> control_put r request id now visits = (rep, r') -> table_inv r'.
Proof.
  intros Ht [->|[->|(c & _ & _ & _ & He & ->)]]%control_put_spec; [done|by apply table_expire|].
  pose proof (table_expire r visits Ht) as Ht1. set (r1 := expireLocked r visits) in *.
  pose proof (pending_change_spec r1 1 Ht1 ltac:(lia)) as [Hm Hp].
  pose proof Ht1 as [Hs Hn Hg]. case_bool_decide as Hex;
    (split; cbn [r_config r_proofs r_metrics];
     [|by rewrite (proj1 (proof_metrics _ _))|rewrite (proj2 (proof_metrics _ _))]).
  - rewrite map_size_insert_Some by done. done.
  - rewrite map_size_insert_Some by done. done.
  - rewrite map_size_insert_None by (by apply eq_None_not_Some). destruct He; [done|lia].
  - rewrite map_size_insert_None by (by apply eq_None_not_Some). rewrite Hp. lia.
Qed.

Lemma table_delete r id rep r' : table_inv r -> control_delete r id = (rep, r') -> table_inv r'.
Proof.
  intros Ht [= <- <-]. case_bool_decide; [by apply table_remove|done].
Qed.

Lemma stored_put r request id now visits rep r' :
  all_stored r -> control_put r request id now visits = (rep, r') -> all_stored r'.
Proof.
  assert (Hexp : forall r visits, all_stored r -> all_stored (expireLocked r visits)).
  { intros r0 v Hs i p [Hp _]%expire_lookup. destruct (Hs i p Hp) as (t & c & H). exists t, c.
    by rewrite expire_config. }
  intros Hs [->|[->|(c & _ & Hc & Hid & _ & ->)]]%control_put_spec; [done|auto|].
  intros i p. cbn [r_proofs]. rewrite lookup_insert_Some. intros [[<- <-]|[_ Hp]].
  - exists now, c. simpl. by rewrite expire_config.
  - destruct (Hexp r visits Hs i p Hp) as (t & c' & H). exists t, c'. simpl. done.
Qed.
End control_lemmas.

(** ** Histories of a responder *)
Inductive rstep {J : Jose} : responder -> responder -> Prop :=
| RPublic r request visits written duration now resp r' :
    public r request visits written duration now = (resp, r') -> rstep r r'
| RControl r request now visits duration end_ resp r' :
    control r request now visits duration end_ = (resp, r') -> rstep r r'
| RCleanup r visits : rstep r (cleanup r visits).

Definition responder_reachable {J : Jose} (r : responder) : Prop :=
  exists config r0, newResponder config = Ok r0 /\ rtc rstep r0 r.

Lemma rstep_inv {J : Jose} r r' :
  rstep r r' -> table_inv r /\ all_stored r -> table_inv r' /\ all_stored r'.
Proof.
  intros Hs [Ht Ha].
  assert (Hexp : forall v, table_inv (expireLocked r v) /\ all_stored (expireLocked r v)).
  { intros v. split; [by apply table_expire|]. intros i p [Hp _]%expire_lookup.
    destruct (Ha i p Hp) as (t & c & H). exists t, c. by rewrite expire_config. }
  destruct Hs as [r request visits written duration now resp r' H|r request now visits duration end_ resp r' H|r visits].
  - unfold public in H. destruct (public_reply _ _ _ _) as [[[rs o] re] r1] eqn:Hr. injection H as _ <-.
    apply public_reply_table in Hr. assert (Hr1 : table_inv r1 /\ all_stored r1) by (destruct Hr as [->| ->]; auto).
    destruct Hr1 as [Ht1 Ha1]. split; [by eapply table_same|exact Ha1].
  - unfold control in H. destruct (control_reply _ _ _ _) as [[[rs o] re] r1] eqn:Hr. injection H as _ <-.
    assert (Hr1 : table_inv r1 /\ all_stored r1).
    { apply control_reply_spec in Hr as [->|(_ & id & _ & [[_ Hp]|[_ Hd]])]; [done| |].
      - split; [by eapply table_put|by eapply stored_put].
      - split; [by eapply table_delete|]. injection Hd as _ _ _ <-. case_bool_decide; [|done].
        intros i p. cbn [remove_proof r_proofs]. intros [_ Hp]%lookup_delete_Some. by apply Ha. }
    destruct Hr1 as [Ht1 Ha1]. split; [by eapply table_same|exact Ha1].
  - apply Hexp.
Qed.

Lemma new_inv {J : Jose} config r : newResponder config = Ok r -> table_inv r /\ all_stored r.
Proof.
  unfold newResponder. intros ([] & _ & H)%rbind_Ok. destruct (_ || _ || _ || _) in H; [done|].
  injection H as <-. split; [|by intros id p ?].
  split; cbn [r_proofs r_metrics r_config]; rewrite ?map_size_empty; [lia| |].
  - unfold register. cbn [foldl]. unfold register1. cbn [lastSuccess]. rewrite lookup_empty. cbn.
    by apply elem_of_union_l, elem_of_singleton.
  - unfold register. cbn [foldl]. unfold register1. cbn [lastSuccess]. rewrite lookup_empty. cbn.
    by rewrite lookup_insert_eq.
Qed.

Lemma responder_inv {J : Jose} r : responder_reachable r -> table_inv r /\ all_stored r.
Proof.
  intros (config & r0 & H0%new_inv & Hs). induction Hs; [done|]. eauto using rstep_inv.
Qed.

(** ** Lemmas: availability *)
Lemma proofID_spec path prefix id :
  proofID path prefix = (id, true) <-> path = prefix +:+ id /\ validRandom id = true.
Proof.
  unfold proofID. split.
  - destruct (hasPrefix path prefix) eqn:Hp; simpl; [|done]. intros [= <- Hv].
    apply hasPrefix_spec in Hp as [t ->]. by rewrite trimPrefix_append in *.
  - intros [-> Hv]. rewrite (proj2 (hasPrefix_spec _ _)) by eauto. simpl. by rewrite trimPrefix_append, Hv.
Qed.

(** A step that neither publishes nor deletes [id], before its expiry. *)
Definition leaves `{Jose} (id : string) (expiry : Z) (r r' : responder) : Prop :=
  (exists request visits written duration now resp,
     (forall i t, (i, t) ∈ visits -> Unix t < expiry) /\
     public r request visits written duration now = (resp, r')) \/
  (exists request now visits duration end_ resp,
     (forall i t, (i, t) ∈ visits -> Unix t < expiry) /\
     fst (proofID (q_path request) "/v1/proofs/") <> id /\
     control r request now visits duration end_ = (resp, r')) \/
  (exists visits, (forall i t, (i, t) ∈ visits -> Unix t < expiry) /\ r' = cleanup r visits).

Lemma leaves_lookup `{Jose} id p r r' :
  leaves id (sp_expiresAt p) r r' -> r_proofs r !! id = Some p -> r_proofs r' !! id = Some p.
Proof.
  intros Hl Hp.
  assert (Hexp : forall v, (forall i t, (i, t) ∈ v -> Unix t < sp_expiresAt p) ->
    r_proofs (expireLocked r v) !! id = Some p).
  { intros v Hv. apply expire_lookup. split; [done|]. intros now Hn. by eapply Hv. }
  destruct Hl as [(q & v & w & d & n & resp & Hv & E)|[(q & n & v & d & e & resp & Hv & Hid & E)|(v & Hv & ->)]].
  - unfold public in E. destruct (public_reply _ _ _ _) as [[[rs o] re] r1] eqn:Hr. injection E as _ <-.
    change (r_proofs r1 !! id = Some p).
    apply public_reply_table in Hr as [->| ->]; auto.
  - unfold control in E. destruct (control_reply _ _ _ _) as [[[rs o] re] r1] eqn:Hr. injection E as _ <-.
    change (r_proofs r1 !! id = Some p).
    apply control_reply_spec in Hr as [->|(_ & i & Hi & [[_ E]|[_ E]])]; [done| |];
      rewrite Hi in Hid; simpl in Hid.
    + apply control_put_spec in E as [->|[->|(c & _ & _ & _ & _ & ->)]]; [done|auto|].
      cbn [r_proofs]. rewrite lookup_insert_ne by done. auto.
    + injection E as _ _ _ <-. case_bool_decide; [|done]. cbn [remove_proof r_proofs].
      by rewrite lookup_delete_ne.
  - by apply Hexp.
Qed.

Lemma leaves_config `{Jose} id expiry r r' : leaves id expiry r r' -> r_config r' = r_config r.
Proof.
  intros [(q & v & w & d & n & resp & _ & E)|[(q & n & v & d & e & resp & _ & _ & E)|(v & _ & ->)]].
  - unfold public in E. destruct (public_reply _ _ _ _) as [[[rs o] re] r1] eqn:Hr. injection E as _ <-.
    apply public_reply_table in Hr as [->| ->]; simpl; auto using expire_config.
  - unfold control in E. destruct (control_reply _ _ _ _) as [[[rs o] re] r1] eqn:Hr. injection E as _ <-.
    change (r_config r1 = r_config r).
    apply control_reply_spec in Hr as [->|(_ & i & Hi & [[_ E]|[_ E]])]; [done| |].
    + apply control_put_spec in E as [->|[->|(c & _ & _ & _ & _ & ->)]]; simpl; auto using expire_config.
    + injection E as _ _ _ <-. by case_bool_decide.
  - apply expire_config.
Qed.

Lemma public_get r get id p visits written d n :
  r_proofs r !! id = Some p -> (forall t, (id, t) ∈ visits -> Unix t < sp_expiresAt p) ->
  validRandom id = true -> q_method get = "GET" ->
  q_host get = joinHostPort (rc_FQDN (r_config r)) (itoa (rc_Port (r_config r))) ->
  q_path get = PathPrefix +:+ id -> q_escapedPath get = q_path get -> q_rawQuery get = "" ->
  q_contentLength get = 0 -> q_transferEncoding get = [] ->
  fst (public r get visits written d n) = HttpReply 200 (sp_body p).
Proof.
  intros Hp Ht Hv Hm Hh Hpath Hesc Hq Hl Hte. unfold public, public_reply. rewrite Hm, Hh, Hq, Hesc, Hl, Hte.
  rewrite !bool_decide_true by done. cbn [negb orb].
  rewrite Hpath, (proj2 (proofID_spec _ _ id)) by done. cbn [negb].
  rewrite (proj2 (expire_lookup r visits id p)) by done. by destruct written.
Qed.

(** ** Correctness of the responder *)

(** In every history at most four proofs are stored, the pending gauge of
    the responder is their number, and each stored document was accepted by
    [parseProof] for the responder's own FQDN, under its own id, with the
    expiry it is stored with. *)
Theorem responder_table {J : Jose} r :
  responder_reachable r ->
  (size (r_proofs r) <= 4)%nat /\
  default 0 (pending (r_metrics r) !! rc_FQDN (r_config r)) = Z.of_nat (size (r_proofs r)) /\
  forall id p, r_proofs r !! id = Some p ->
    exists now c, parseProof (sp_body p) (rc_FQDN (r_config r)) now = Ok c /\ ch_ID c = id /\
      ch_ExpiresAt c = sp_expiresAt p.
Proof. intros [[Hs _ Hg] Ha]%responder_inv. split; [done|]. split; [done|]. exact Ha. Qed.

(** The public endpoint only serves documents that were accepted for the
    challenge id in the URL and that had not expired when they were looked up,
    and only to a GET for the responder's own host. *)
Theorem public_serves {J : Jose} r request visits written duration now r' body :
  responder_reachable r ->
  (forall id, is_Some (r_proofs r !! id) -> exists t, (id, t) ∈ visits) ->
  public r request visits written duration now = (HttpReply 200 body, r') ->
  exists id t c t0, q_path request = PathPrefix +:+ id /\ q_method request = "GET" /\
    q_host request = joinHostPort (rc_FQDN (r_config r)) (itoa (rc_Port (r_config r))) /\
    parseProof body (rc_FQDN (r_config r)) t0 = Ok c /\ ch_ID c = id /\
    (id, t) ∈ visits /\ Unix t < ch_ExpiresAt c.
Proof.
  intros [_ Ha]%responder_inv Hv H. unfold public in H.
  destruct (public_reply _ _ _ _) as [[[rs o] re] r1] eqn:Hr. injection H as -> _. unfold public_reply in Hr.
  case_bool_decide as Hm; simpl in Hr; [|done].
  destruct (_ || _ || _ || _ || _) eqn:E in Hr; [done|]. bprop.
  destruct (proofID _ _) as [id []] eqn:Hid; simpl in Hr; [|done].
  destruct (r_proofs (expireLocked r visits) !! id) as [p|] eqn:Hp; [|done].
  assert (Hb : sp_body p = body) by (destruct written; by simplify_eq).
  apply expire_lookup in Hp as [Hp Ht]. destruct (Ha id p Hp) as (t0 & c & Hc & Hcid & Hce).
  destruct (Hv id) as [t Hin]; [eauto|]. apply proofID_spec in Hid as [-> _].
  exists id, t, c, t0. subst body. split_and!; try done. rewrite Hce. auto.
Qed.

(** A proof that the control socket accepted stays available: whatever
    other requests and clean-ups come before its expiry, unless they publish
    or delete the same id, a GET for its URL returns exactly its bytes. *)
Theorem publish_then_serve {J : Jose} r request now visits duration end_ r1 id p r2 get visits2 written d n :
  control r request now visits duration end_ = (HttpReply 201 "", r1) ->
  fst (proofID (q_path request) "/v1/proofs/") = id ->
  r_proofs r1 !! id = Some p ->
  rtc (leaves id (sp_expiresAt p)) r1 r2 ->
  q_method get = "GET" -> q_host get = joinHostPort (rc_FQDN (r_config r)) (itoa (rc_Port (r_config r))) ->
  q_path get = PathPrefix +:+ id -> q_escapedPath get = q_path get -> q_rawQuery get = "" ->
  q_contentLength get = 0 -> q_transferEncoding get = [] ->
  (forall t, (id, t) ∈ visits2 -> Unix t < sp_expiresAt p) ->
  fst (public r2 get visits2 written d n) = HttpReply 200 (q_body request).
Proof.
  intros Hput Hid Hp1 Hs Hm Hh Hpath Hesc Hq Hl Hte Ht. unfold control in Hput.
  destruct (control_reply r request now visits) as [[[rs o] re] r0] eqn:Hr. injection Hput as -> <-.
  change (r_proofs (record_reply r0 o "control" re duration end_)) with (r_proofs r0) in Hp1.
  assert (Hbody : sp_body p = q_body request /\ validRandom id = true /\ r_config r0 = r_config r).
  { unfold control_reply in Hr. destruct (q_rootPeer request); simpl in Hr; [|done].
    destruct (_ || _) in Hr; [done|]. destruct (proofID _ _) as [i []] eqn:Hi; simpl in Hr, Hid; [|done]. subst i.
    apply proofID_spec in Hi as [_ Hv]. case_bool_decide.
    - unfold control_put in Hr. destruct (_ || _) in Hr; [done|].
      destruct (parseProof _ _ _); [|done|done]. case_bool_decide; simpl in Hr; [|done].
      destruct (negb _ && _) in Hr; [done|]. injection Hr as _ _ <-.
      cbn [r_proofs] in Hp1. rewrite lookup_insert_eq in Hp1. injection Hp1 as <-.
      split_and!; [done|done|]. simpl. apply expire_config.
    - case_bool_decide; done. }
  destruct Hbody as (<- & Hv & Hcfg).
  assert (H2 : r_proofs r2 !! id = Some p /\ r_config r2 = r_config r).
  { rewrite <- Hcfg. change (r_config r0) with (r_config (record_reply r0 o "control" re duration end_)).
    change (r_proofs (record_reply r0 o "control" re duration end_) !! id = Some p) in Hp1.
    clear - Hs Hp1. induction Hs as [|x y z Hxy Hyz IH]; [done|].
    rewrite <- (leaves_config _ _ _ _ Hxy). apply IH. by eapply leaves_lookup. }
  destruct H2 as [H2 Hc2]. apply (public_get r2 get id p); try done. by rewrite Hc2.
Qed.

(** Only root changes the table: a control request that alters it came
    over a Unix socket, possibly behind the connection limiter, whose peer
    credentials name uid 0. *)
Theorem control_root_only {J : Jose} r request conn now visits duration end_ resp r' :
  q_rootPeer request = rootPeer conn ->
  control r request now visits duration end_ = (resp, r') -> r_proofs r' <> r_proofs r ->
  exists calls, (conn = UnixConn calls \/ conn = LimitedConn (UnixConn calls)) /\ ucred calls = Some 0.
Proof.
  intros Hq H Hne. unfold control in H.
  destruct (control_reply _ _ _ _) as [[[rs o] re] r1] eqn:Hr. injection H as _ <-.
  change (r_proofs r1 <> r_proofs r) in Hne.
  apply control_reply_spec in Hr as [->|(Hroot & _)]; [done|]. rewrite Hq in Hroot. clear -Hroot.
  assert (H : forall calls, rootPeer (UnixConn calls) = true -> ucred calls = Some 0).
  { intros [sc ct uc]. unfold rootPeer. simpl. destruct sc, ct, uc; simpl; try done. intros Hu. bprop. by subst. }
  destruct conn as [[|calls|]|calls|]; try done; exists calls; auto.
Qed.

(** ** Correctness of the listeners *)

(** The sockets a responder may serve on. *)
Definition listeners_ok (config : ResponderConfig) (ls : gmap string sock_addr) : Prop :=
  forall name addr, ls !! name = Some addr ->
    name ∈ ["control"; "http4"; "http6"] /\ expected_addr config name addr = true.

Lemma close_all_dom ls open : open = dom ls -> close_all ls open = ∅.
Proof. intros ->. unfold close_all. apply difference_diag_L. Qed.

Lemma activate_loop_spec env config index names ls r open' :
  listeners_ok config ls -> activate_loop env config index names ls (dom ls) = (r, open') ->
  match r with
  | Ok ls' => open' = dom ls' /\ listeners_ok config ls' /\ is_Some (ls' !! "control") /\
      (is_Some (ls' !! "http4") \/ is_Some (ls' !! "http6"))
  | _ => open' = ∅
  end.
Proof.
  revert index ls. induction names as [|name names IH]; intros index ls Hok; cbn [activate_loop].
  - destruct (_ || _) eqn:E; intros [= <- <-]; [by apply close_all_dom|].
    apply orb_false_iff in E as [E1 E2]. apply andb_false_iff in E2. rewrite !bool_decide_eq_false in *.
    split; [done|]. split; [done|]. rewrite <- !not_eq_None_Some. tauto.
  - destruct (_ && _ && _) eqn:E; [intros [= <- <-]; by apply close_all_dom|].
    destruct (ls !! name <>? None) eqn:Hnone; [intros [= <- <-]; by apply close_all_dom|].
    destruct (fileListener env (3 + index)) as [addr|]; [|intros [= <- <-]; by apply close_all_dom].
    destruct (expected_addr config name addr) eqn:Hex.
    + rewrite <- (dom_insert_L ls name addr). apply IH. intros n a [[<- <-]|[_ Hn]]%lookup_insert_Some; [|by apply Hok].
      split; [|done]. apply andb_false_iff in E as [E|E]; [apply andb_false_iff in E as [E|E]|]; bprop; set_solver.
    + intros [= <- <-]. apply close_all_dom. by rewrite dom_insert_L.
Qed.

(** Socket activation is all or nothing.  On success the responder has the
    control socket at the configured path and at least one HTTP socket, each
    on the configured port and of the family of its name, and nothing else;
    on every error no socket that it turned into a listener stays open. *)
Theorem activated_listeners_correct env config r open :
  activatedListeners env config = (r, open) ->
  match r with
  | Ok ls => open = dom ls /\ listeners_ok config ls /\
      ls !! "control" = Some (UnixAddr (rc_ControlSocket config)) /\
      (ls !! "http4" = Some (TCPAddr (rc_Port config) true) \/
       ls !! "http6" = Some (TCPAddr (rc_Port config) false))
  | _ => open = ∅
  end.
Proof.
  unfold activatedListeners. intros H.
  destruct (atoi (getenv env "LISTEN_PID")) as [pid|]; [|by simplify_eq].
  destruct (pid <>? getpid env); [by simplify_eq|].
  destruct (atoi (getenv env "LISTEN_FDS")) as [count|]; [|by simplify_eq].
  destruct (_ || _ || _) in H; [by simplify_eq|].
  apply activate_loop_spec in H; [|by intros ? ? ?]. destruct r as [ls| |]; [|done|done].
  destruct H as (-> & Hok & [c Hc] & Hh). split_and!; [done|done| |].
  - destruct (Hok _ _ Hc) as [_ E]. unfold expected_addr in E. simpl in E. bprop. by subst.
  - assert (Htcp : forall name addr b, ls !! name = Some addr -> name <> "control" -> (name =? "http4") = b ->
      addr = TCPAddr (rc_Port config) b).
    { intros name addr b Hn Hne Hb. destruct (Hok _ _ Hn) as [_ E]. unfold expected_addr in E.
      rewrite bool_decide_false in E by done. destruct addr as [|port i|]; [done| |done].
      bprop. apply Bool.eqb_prop in H0. congruence. }
    destruct Hh as [[a Ha]|[a Ha]]; [left|right]; rewrite Ha; f_equal; by eapply Htcp.
Qed.

(** ** Correctness of the connection limiter *)
Definition open_conns (l : limiter) : gmap nat bool := filter (fun p => snd p = false) (lm_conns l).

Definition limiter_inv (n : nat) (l : limiter) : Prop :=
  lm_count l = n /\ lm_permits l = (lm_accepting l + size (open_conns l))%nat /\ (lm_permits l <= n)%nat.

Lemma open_conns_close l c :
  lm_conns l !! c = Some false ->
  open_conns (set_conn l c true) = delete c (open_conns l) /\ (0 < size (open_conns l))%nat.
Proof.
  intros Hc. unfold open_conns, set_conn. simpl. split.
  - rewrite map_filter_insert_False by done. by rewrite map_filter_delete.
  - assert (Hl : filter (fun p => snd p = false) (lm_conns l) !! c = Some false)
      by (by apply map_lookup_filter_Some).
    assert (size (filter (fun p => snd p = false) (lm_conns l)) <> 0)%nat; [|lia].
    rewrite map_size_empty_iff. intros E. by rewrite E in Hl.
Qed.

Lemma limiter_step_inv n l l' : limiter_step l l' -> limiter_inv n l -> limiter_inv n l'.
Proof.
  intros Hs (Hn & Hp & Hle). destruct Hs as [l l' H|l c Ha Hc|l l' Ha H|l l' c H|l].
  - unfold accept_acquire in H. destruct (_ <? _)%nat eqn:E; [|done]. bprop. injection H as <-.
    split; [done|]. unfold open_conns in *. simpl. lia.
  - split; [done|]. unfold open_conns, set_conn, accept_end in *. simpl.
    rewrite map_filter_insert_True by done. rewrite map_size_insert_None; [lia|].
    apply map_lookup_filter_None. auto.
  - unfold release, accept_end in H. simpl in H. destruct (lm_permits l) eqn:E; [done|]. injection H as <-.
    split; [done|]. unfold open_conns in *. simpl. lia.
  - unfold conn_close in H. destruct (lm_conns l !! c) as [[]|] eqn:Hc; [by injection H as <-| |done].
    destruct (open_conns_close l c Hc) as [Ho Hsz]. unfold release in H. simpl in H.
    destruct (lm_permits l) eqn:E; [done|]. injection H as <-. split; [done|].
    unfold open_conns in *. simpl in *. rewrite Ho, map_size_delete_Some; [lia|].
    exists false. by apply map_lookup_filter_Some.
  - done.
Qed.

(** The limiter never lets more than [n] connections be open at once,
    counts exactly the open ones and the pending accepts, and closing an open
    connection always finds its permit, so it never blocks. *)
Theorem limiter_correct n l :
  rtc limiter_step (limitListener n) l ->
  lm_permits l = (lm_accepting l + size (open_conns l))%nat /\ (size (open_conns l) <= n)%nat /\
  forall c, is_Some (lm_conns l !! c) -> is_Some (conn_close l c).
Proof.
  intros Hs. assert (H : limiter_inv n l).
  { assert (H0 : limiter_inv n (limitListener n)) by (split_and!; [done|done|simpl; lia]).
    induction Hs; eauto using limiter_step_inv. }
  destruct H as (_ & Hp & Hle). split; [done|]. split; [lia|].
  intros c [b Hb]. unfold conn_close. rewrite Hb. destruct b; [done|].
  destruct (open_conns_close l c Hb) as [_ Hsz]. unfold release. simpl.
  destruct (lm_permits l) eqn:E; [lia|done].
Qed.

(** ** Concrete instances *)
Module ResponderExamples.
Import PlainJose ProtocolExamples.

Definition config : ResponderConfig :=
  {| rc_FQDN := "eihort.nyaw.xyz"; rc_Port := 18091; rc_ControlSocket := "/run/realm/control.sock";
     rc_MetricsAddress := "" |}.
Definition m0 : metricsRegistry :=
  set_capacity (register (Registry "responder" {["unknown"]} ∅ ∅ ∅ ∅ 0 ∅) ["eihort.nyaw.xyz"]) 4.
Definition r0 : responder := Responder config ∅ m0.
Definition put : http_request :=
  HttpRequest "PUT" "localhost" ("/v1/proofs/" +:+ b64_encode seed) ("/v1/proofs/" +:+ b64_encode seed) "" 0 []
    data false true.
Definition get : http_request :=
  HttpRequest "GET" "eihort.nyaw.xyz:18091" (PathPrefix +:+ b64_encode seed) (PathPrefix +:+ b64_encode seed)
    "" 0 [] "" false false.
Definition r1 : responder := snd (control r0 put now [] 0 now).
Definition stored : storedProof := StoredProof data 1700000120.

Lemma new_r0 : newResponder config = Ok r0.
Proof. vm_compute. reflexivity. Qed.

Lemma put_ok : control r0 put now [] 0 now = (HttpReply 201 "", r1).
Proof.
  assert (H : fst (control r0 put now [] 0 now) = HttpReply 201 "") by (vm_compute; reflexivity).
  rewrite <- H. apply surjective_pairing.
Qed.

Lemma reach_r1 : responder_reachable r1.
Proof. exists config, r0. split; [apply new_r0|]. apply rtc_once. eapply RControl. apply put_ok. Qed.

Lemma responder_table_witness : (size (r_proofs r1) <= 4)%nat /\ r_proofs r1 !! b64_encode seed = Some stored.
Proof. split; [apply (responder_table r1), reach_r1|vm_compute; reflexivity]. Defined.

Lemma proofs_r1 : r_proofs r1 = {[b64_encode seed := stored]}.
Proof. vm_compute. reflexivity. Qed.

Lemma get_ok :
  public r1 get [(b64_encode seed, now)] true 0 now =
  (HttpReply 200 data, snd (public r1 get [(b64_encode seed, now)] true 0 now)).
Proof.
  assert (H : fst (public r1 get [(b64_encode seed, now)] true 0 now) = HttpReply 200 data)
    by (vm_compute; reflexivity).
  rewrite <- H. apply surjective_pairing.
Qed.

Lemma public_serves_witness :
  exists id t c t0, q_path get = PathPrefix +:+ id /\ parseProof data (rc_FQDN (r_config r1)) t0 = Ok c /\
    (id, t) ∈ [(b64_encode seed, now)] /\ Unix t < ch_ExpiresAt c.
Proof.
  assert (Hv : forall id, is_Some (r_proofs r1 !! id) -> exists t, (id, t) ∈ [(b64_encode seed, now)]).
  { intros id Hid. rewrite proofs_r1 in Hid. destruct Hid as [p Hp].
    apply lookup_singleton_Some in Hp as [<- _]. exists now. left. }
  destruct (public_serves r1 get _ true 0 now _ data reach_r1 Hv get_ok)
    as (id & t & c & t0 & Hp & _ & _ & Hc & _ & Ht & Hx).
  exists id, t, c, t0. split; [exact Hp|]. split; [exact Hc|]. split; [exact Ht|exact Hx].
Defined.

Lemma stored_r1 : r_proofs r1 !! b64_encode seed = Some stored.
Proof. vm_compute. reflexivity. Qed.

Lemma visits_now (i : string) (t : Z) : (i, t) ∈ [(b64_encode seed, now)] -> Unix t < sp_expiresAt stored.
Proof. intros Ht. apply list_elem_of_singleton in Ht. injection Ht as _ ->. vm_compute. reflexivity. Qed.

Lemma clean_r1 :
  rtc (leaves (b64_encode seed) (sp_expiresAt stored)) r1 (cleanup r1 [(b64_encode seed, now)]).
Proof.
  apply rtc_once. right. right. exists [(b64_encode seed, now)]. split; [exact visits_now|reflexivity].
Qed.

Lemma publish_then_serve_witness :
  fst (public (cleanup r1 [(b64_encode seed, now)]) get [(b64_encode seed, now)] true 0 now) =
  HttpReply 200 (q_body put).
Proof.
  assert (Hid : fst (proofID (q_path put) "/v1/proofs/") = b64_encode seed) by (vm_compute; reflexivity).
  exact (publish_then_serve r0 put now [] 0 now r1 (b64_encode seed) stored
    (cleanup r1 [(b64_encode seed, now)]) get [(b64_encode seed, now)] true 0 now put_ok Hid stored_r1 clean_r1
    eq_refl eq_refl eq_refl eq_refl eq_refl eq_refl eq_refl (visits_now (b64_encode seed))).
Defined.

Lemma control_root_only_witness :
  exists calls, (LimitedConn (UnixConn (PeerCalls true true (Some 0))) = UnixConn calls \/
    LimitedConn (UnixConn (PeerCalls true true (Some 0))) = LimitedConn (UnixConn calls)) /\ ucred calls = Some 0.
Proof.
  apply (control_root_only r0 put (LimitedConn (UnixConn (PeerCalls true true (Some 0)))) now [] 0 now
    (HttpReply 201 "") r1 eq_refl put_ok). intros E.
  pose proof stored_r1 as H. rewrite E in H. discriminate H.
Defined.

Definition env : listen_env :=
  ListenEnv (fun v => if v =? "LISTEN_PID" then "77" else if v =? "LISTEN_FDS" then "2" else "control:http6") 77
    (fun fd => if fd =? 3 then Some (UnixAddr "/run/realm/control.sock") else Some (TCPAddr 18091 false))
    (fun _ => None) (fun _ => None) (fun _ _ => None).

Definition ls0 : gmap string sock_addr :=
  {["control" := UnixAddr "/run/realm/control.sock"; "http6" := TCPAddr 18091 false]}.

Lemma activated_env : activatedListeners env config = (Ok ls0, dom ls0).
Proof. vm_compute. reflexivity. Qed.

Lemma activated_listeners_correct_witness : listeners_ok config ls0.
Proof. destruct (activated_listeners_correct env config (Ok ls0) (dom ls0) activated_env) as (_ & H & _). exact H. Defined.

Lemma limiter_correct_witness :
  (size (open_conns (set_conn (accept_end (Limiter 1 1 false 1 ∅)) 5 false)) <= 1)%nat.
Proof.
  apply (limiter_correct 1). eapply rtc_l; [apply LAcquire; reflexivity|].
  apply rtc_once. apply LAccepted; [repeat constructor|reflexivity].
Defined.
End ResponderExamples.
