(* ===== verification/AttestRun.v ===== *)
(** * The responder process

    Models [RunResponder] of [pkgs/realm-node-attest/responder_linux.go]: the
    start with its listeners and the metrics endpoint, the servers that accept
    connections behind a limiter and pass their requests to the public or the
    control handler, the clean-up every second, and the end.  Connections,
    requests, ticks and the end of the context come in any order, so a running
    process is a transition system.  The HTTP server is the standard library's;
    its timeouts are not modelled. *)

From S2P Require Import Prelude GoStrings Encoding NetIP AttestProtocol AttestMetrics AttestResponder.

Open Scope Z_scope.
Open Scope go_scope.

(** [http.ErrServerClosed]. *)
Definition ErrServerClosed : error := ErrNew "http: Server closed".

Record process := Process {
  p_responder : responder;
  p_listeners : gmap string sock_addr;
  p_limits : gmap string limiter;
  p_peers : gmap (string * nat) connection;
  p_open : gset string;
  p_metrics : metricsListener;
  p_socks : sockets;
  p_result : option (result unit) }.

(** What a failed start leaves: the error and the sockets that are open. *)
Record failure := Failure { f_error : result unit; f_open : gset string; f_socks : sockets }.

(** [listen] is the descriptor of the metrics listener, [closeErr] what closing
    its server reports. *)
Definition startResponder (env : listen_env) (config : ResponderConfig) (order : list (string * string)) (listen : option nat)
    (closeErr : result unit) (socks : sockets) : process + failure :=
  match newResponder config with
  | Err e => inr (Failure (Err e) ∅ socks)
  | Panic m => inr (Failure (Panic m) ∅ socks)
  | Ok r =>
      match responderListeners env config order with
      | (Err e, open) => inr (Failure (Err e) open socks)
      | (Panic m, open) => inr (Failure (Panic m) open socks)
      | (Ok ls, open) =>
          match configure (Listener "" None None) (rc_MetricsAddress config) listen closeErr socks with
          | (Ok _, ml, socks') => inl (Process r ls ((fun _ => limitListener 32) <$> ls) ∅ open ml socks' None)
          | (e, _, socks') => inr (Failure e (close_all ls open) socks')
          end
      end
  end.

(** ** The running process *)

(** The clock readings and outcomes a handler sees. *)
Record handling := Handling { hd_now : Z; hd_visits : list (string * Z); hd_written : bool; hd_duration : Z; hd_end : Z }.

Inductive event :=
| Acquire (name : string)
| Accepted (name : string) (c : nat) (conn : connection)
| AcceptFailed (name : string)
| Request (name : string) (c : nat) (request : http_request) (h : handling)
| ConnClosed (name : string) (c : nat)
| Tick (visits : list (string * Z))
| Ended (serveErr : option error).

(** A connection of a listener is of its kind. *)
Definition conn_kind (addr : sock_addr) (conn : connection) : bool :=
  match addr, conn with
  | UnixAddr _, UnixConn _ => true
  | TCPAddr _ _, OtherConn => true
  | OtherAddr, OtherConn => true
  | _, _ => false
  end.

(** The value [ConnContext] puts into the context, which only the control server
    has. *)
Definition with_peer (name : string) (conn : connection) (q : http_request) : http_request :=
  HttpRequest (q_method q) (q_host q) (q_path q) (q_escapedPath q) (q_rawQuery q) (q_contentLength q) (q_transferEncoding q)
    (q_body q) (q_bodyErr q) ((name =? "control") && rootPeer conn).

Definition set_limit (p : process) (name : string) (l : limiter) : process :=
  Process (p_responder p) (p_listeners p) (<[name := l]> (p_limits p)) (p_peers p) (p_open p) (p_metrics p) (p_socks p) (p_result p).
Definition set_responder (p : process) (r : responder) : process :=
  Process r (p_listeners p) (p_limits p) (p_peers p) (p_open p) (p_metrics p) (p_socks p) (p_result p).

Section run.
Context {J : Jose}.

Definition handle (name : string) (r : responder) (q : http_request) (h : handling) : http_response * responder :=
  if name =? "control" then control r q (hd_now h) (hd_visits h) (hd_duration h) (hd_end h)
  else public r q (hd_visits h) (hd_written h) (hd_duration h) (hd_end h).

(** [None]: the event cannot happen in this state. *)
Definition run_step (closeErr : result unit) (p : process) (ev : event) : option process :=
  match p_result p with
  | Some _ => None
  | None =>
      match ev with
      | Acquire name => l ← p_limits p !! name; set_limit p name <$> accept_acquire l
      | Accepted name c conn =>
          l ← p_limits p !! name; addr ← p_listeners p !! name;
          if (0 <? lm_accepting l)%nat && bool_decide (lm_conns l !! c = None) && conn_kind addr conn then
            let p' := set_limit p name (set_conn (accept_end l) c false) in
            Some (Process (p_responder p') (p_listeners p') (p_limits p') (<[(name, c) := LimitedConn conn]> (p_peers p')) (p_open p')
                    (p_metrics p') (p_socks p') (p_result p'))
          else None
      | AcceptFailed name =>
          l ← p_limits p !! name;
          if (0 <? lm_accepting l)%nat then set_limit p name <$> release (accept_end l) else None
      | Request name c q h =>
          l ← p_limits p !! name; conn ← p_peers p !! (name, c);
          if bool_decide (lm_conns l !! c = Some false)
          then Some (set_responder p (handle name (p_responder p) (with_peer name conn q) h).2) else None
      | ConnClosed name c => l ← p_limits p !! name; set_limit p name <$> conn_close l c
      | Tick visits => Some (set_responder p (cleanup (p_responder p) visits))
      | Ended serveErr =>
          let '(_, ml, socks) := listener_close (p_metrics p) closeErr (p_socks p) in
          Some (Process (p_responder p) (p_listeners p) (p_limits p) ∅ (close_all (p_listeners p) (p_open p)) ml socks
                  (Some (match serveErr with
                         | Some e => if error_is ErrServerClosed e then Ok tt else Err e
                         | None => Ok tt
                         end)))
      end
  end.

Fixpoint run_events (closeErr : result unit) (p : process) (evs : list event) : option process :=
  match evs with [] => Some p | ev :: evs' => p' ← run_step closeErr p ev; run_events closeErr p' evs' end.
End run.

(** ** The start *)
Lemma http_loop_spec env config order ls r open : http_loop env config order ls (dom ls) = (r, open) ->
  match r with Ok ls' => open = dom ls' | _ => open = ∅ end.
Proof.
  revert ls. induction order as [|[name network] order IH]; intros ls; cbn [http_loop]; [by intros [= <- <-]|].
  destruct (net_listen _ _ _) as [addr|]; [|intros [= <- <-]; by apply close_all_dom]. rewrite <- (dom_insert_L ls name addr). apply IH.
Qed.

Lemma listeners_all_or_none env config order r open : responderListeners env config order = (r, open) ->
  match r with Ok ls => open = dom ls | _ => open = ∅ end.
Proof.
  unfold responderListeners. destruct (getenv env "LISTEN_FDS" <>? "").
  - unfold activatedListeners. destruct (atoi (getenv env "LISTEN_PID")) as [pid|]; [|by intros [= <- <-]].
    destruct (pid <>? getpid env); [by intros [= <- <-]|]. destruct (atoi (getenv env "LISTEN_FDS")) as [count|]; [|by intros [= <- <-]].
    destruct (_ || _ || _); [by intros [= <- <-]|]. intros H. apply activate_loop_spec in H; [|by intros ? ? ?]. destruct r; [by destruct H|done..].
  - destruct (mkdirAll _ _); [by intros [= <- <-]|]. destruct (net_listen env "unix" _) as [addr|]; [|by intros [= <- <-]].
    assert (Hd : {["control"]} = dom ({["control" := addr]} : gmap string sock_addr)) by (by rewrite dom_singleton_L). rewrite Hd.
    destruct (chmod _ _); [intros [= <- <-]; by apply close_all_dom|]. apply http_loop_spec.
Qed.

(** The metrics endpoint of a process that had none: nothing is opened on an
    error, and closing it undoes it. *)
Lemma configure_first address listen closeErr socks r ml socks' : (forall fd, listen = Some fd -> socks !! fd = None) ->
  configure (Listener "" None None) address listen closeErr socks = (r, ml, socks') ->
  match r with Ok _ => (listener_close ml closeErr socks').2 = socks | _ => socks' = socks end.
Proof.
  intros Hf. unfold configure. destruct (validateMetricsAddress address) as [[]|e|m]; [|by intros [= <- <- <-]..]. cbn [l_address].
  destruct (address =? ""); [by intros [= <- <- <-]|]. destruct listen as [fd|]; [|by intros [= <- <- <-]]. intros [= <- <- <-]. cbn.
  rewrite delete_insert_eq. specialize (Hf fd eq_refl). by rewrite !(delete_id socks fd Hf).
Qed.

(** ** The run *)
Section safety.
Context {J : Jose} (config : ResponderConfig) (closeErr : result unit) (socks : sockets).

Record process_inv (p : process) : Prop := {
  pi_history : exists r0, newResponder config = Ok r0 /\ rtc rstep r0 (p_responder p);
  pi_limits : map_Forall (fun _ l => limiter_inv 32 l) (p_limits p);
  pi_peers : map_Forall (fun nc conn => exists addr inner, p_listeners p !! nc.1 = Some addr /\ conn = LimitedConn inner /\ conn_kind addr inner = true) (p_peers p);
  pi_sockets : match p_result p with
               | None => p_open p = dom (p_listeners p) /\ (listener_close (p_metrics p) closeErr (p_socks p)).2 = socks
               | Some _ => p_open p = ∅ /\ p_socks p = socks
               end }.

Lemma start_inv env order listen p : (forall fd, listen = Some fd -> socks !! fd = None) ->
  startResponder env config order listen closeErr socks = inl p -> process_inv p.
Proof.
  intros Hf. unfold startResponder. destruct (newResponder config) as [r|e|m] eqn:En; [|done..].
  destruct (responderListeners env config order) as [lr open] eqn:El. apply listeners_all_or_none in El.
  destruct lr as [ls|e|m]; [|done..]. destruct (configure _ _ _ _ _) as [[cr ml] socks'] eqn:Ec. apply configure_first in Ec; [|done].
  destruct cr as [u|e|m]; [|done..]. intros [= <-]. split; cbn [p_responder p_limits p_peers p_result p_open p_listeners p_metrics p_socks].
  - by exists r.
  - intros n l. rewrite lookup_fmap_Some. intros (a & <- & _). split_and!; [done|done|cbn; lia].
  - apply map_Forall_empty.
  - done.
Qed.

(** The handlers are steps of the responder. *)
Lemma handle_step name r q h : rstep r (handle name r q h).2.
Proof.
  unfold handle. destruct (name =? "control").
  - destruct (control _ _ _ _ _ _) as [resp r'] eqn:E. by eapply RControl.
  - destruct (public _ _ _ _ _ _) as [resp r'] eqn:E. by eapply RPublic.
Qed.

Lemma set_limit_inv p name l : process_inv p -> p_result p = None -> limiter_inv 32 l -> process_inv (set_limit p name l).
Proof. intros [H1 H2 H3 H4] Hn Hl. split; cbn; try done. by apply map_Forall_insert_2. Qed.

Lemma set_responder_inv p r : process_inv p -> p_result p = None -> rstep (p_responder p) r -> process_inv (set_responder p r).
Proof.
  intros [(r0 & H0 & H1) H2 H3 H4] Hn Hs. split; cbn; try done. exists r0. split; [done|]. by eapply rtc_r.
Qed.

Lemma run_step_inv p ev p' : process_inv p -> run_step closeErr p ev = Some p' -> process_inv p'.
Proof.
  intros Hp. unfold run_step. destruct (p_result p) eqn:Hn; [done|]. pose proof (pi_limits p Hp) as Hl.
  destruct ev as [name|name c conn|name|name c q h|name c|visits|serveErr].
  - destruct (p_limits p !! name) as [l|] eqn:El; [|done]. cbn [mbind option_bind]. intros (l' & Ha & ->)%fmap_Some. apply set_limit_inv; [done..|].
    eapply limiter_step_inv; [by apply LAcquire|by eapply Hl].
  - destruct (p_limits p !! name) as [l|] eqn:El; [|done]. destruct (p_listeners p !! name) as [addr|] eqn:Ea; [|done]. cbn [mbind option_bind].
    destruct (_ && _) eqn:E; [|done]. intros [= <-]. rewrite !andb_true_iff, bool_decide_eq_true, Nat.ltb_lt in E. destruct E as ((E1 & E2) & E3).
    pose proof (set_limit_inv p name (set_conn (accept_end l) c false) Hp Hn) as [H1 H2 H3 H4].
    { eapply limiter_step_inv; [by apply LAccepted|by eapply Hl]. }
    split; cbn in *; try done. apply map_Forall_insert_2; [|done]. exists addr, conn. cbn. done.
  - destruct (p_limits p !! name) as [l|] eqn:El; [|done]. cbn [mbind option_bind]. destruct (0 <? lm_accepting l)%nat eqn:E; [|done]. intros (l' & Ha & ->)%fmap_Some.
    apply Nat.ltb_lt in E. apply set_limit_inv; [done..|]. eapply limiter_step_inv; [by eapply LFailed|by eapply Hl].
  - destruct (p_limits p !! name) as [l|]; [|done]. destruct (p_peers p !! (name, c)) as [conn|]; [|done]. cbn [mbind option_bind].
    destruct (bool_decide _); [|done]. intros [= <-]. apply set_responder_inv; [done..|apply handle_step].
  - destruct (p_limits p !! name) as [l|] eqn:El; [|done]. cbn [mbind option_bind]. intros (l' & Ha & ->)%fmap_Some. apply set_limit_inv; [done..|].
    eapply limiter_step_inv; [by eapply LConnClose|by eapply Hl].
  - intros [= <-]. apply set_responder_inv; [done..|]. apply RCleanup.
  - pose proof (pi_sockets p Hp) as Hs. rewrite Hn in Hs. destruct Hs as [Ho Hc]. destruct (listener_close _ _ _) as [[cr ml] sk]. cbn in Hc. intros [= <-].
    destruct Hp as [H1 H2 H3 H4]. split; cbn; [done..|apply map_Forall_empty|]. split; [by apply close_all_dom|done].
Qed.

Lemma run_inv p evs p' : process_inv p -> run_events closeErr p evs = Some p' -> process_inv p'.
Proof.
  revert p. induction evs as [|ev evs IH]; intros p Hp Hr; cbn [run_events] in Hr; [by injection Hr as <-|].
  destruct (run_step closeErr p ev) as [p1|] eqn:E; [|done]. eapply IH; [by eapply run_step_inv|done].
Qed.

(** *** Who changes the table *)
Lemma expire_cases r visits id : r_proofs (expireLocked r visits) !! id = r_proofs r !! id \/
  (r_proofs (expireLocked r visits) !! id = None /\ exists pf t, r_proofs r !! id = Some pf /\ (id, t) ∈ visits /\ sp_expiresAt pf <= Unix t).
Proof.
  destruct (r_proofs r !! id) as [pf|] eqn:E.
  - destruct (r_proofs (expireLocked r visits) !! id) as [pf'|] eqn:E'.
    + left. apply expire_lookup in E' as [E' _]. congruence.
    + right. split; [done|]. exists pf. destruct (decide (Exists (fun it => it.1 = id /\ sp_expiresAt pf <= Unix it.2) visits)) as [(it & Hin & <- & Hle)%Exists_exists|Hno].
      * exists it.2. by destruct it.
      * exfalso. assert (Hk : r_proofs (expireLocked r visits) !! id = Some pf); [|congruence]. apply expire_lookup. split; [done|]. intros now Hin.
        destruct (decide (Unix now < sp_expiresAt pf)); [done|]. destruct Hno. apply Exists_exists. exists (id, now). cbn. split_and!; (done || lia).
  - left. destruct (r_proofs (expireLocked r visits) !! id) as [pf'|] eqn:E'; [|done]. apply expire_lookup in E' as [E' _]. congruence.
Qed.

Lemma root_conn inner : rootPeer (LimitedConn inner) = true -> exists calls, inner = UnixConn calls /\ ucred calls = Some 0.
Proof.
  destruct inner as [|calls|]; [done| |done]. intros H. exists calls. split; [done|]. unfold rootPeer in H. destruct calls as [sc ct uc]. cbn in H.
  destruct sc, ct, uc; cbn in H; try done. by apply bool_decide_eq_true in H as ->.
Qed.

(** The clock read while the event is handled, for each proof that is looked at. *)
Definition clock_readings (ev : event) : list (string * Z) :=
  match ev with Tick visits => visits | Request _ _ _ h => hd_visits h | _ => [] end.

(** The proof is gone, and it was over by the clock read for it during the event. *)
Definition expired (p : process) (ev : event) (p' : process) (id : string) : Prop :=
  r_proofs (p_responder p') !! id = None /\ exists pf t, r_proofs (p_responder p) !! id = Some pf /\
    (id, t) ∈ clock_readings ev /\ sp_expiresAt pf <= Unix t.

(** A request over the control socket by a process of root. *)
Definition by_root (p : process) (ev : event) : Prop :=
  exists c q h calls, ev = Request "control" c q h /\ p_peers p !! ("control", c) = Some (LimitedConn (UnixConn calls)) /\ ucred calls = Some 0.

Lemma expired_or_same p ev r' visits id : clock_readings ev = visits -> r' = p_responder p \/ r' = expireLocked (p_responder p) visits -> forall r'', r_proofs r'' = r_proofs r' ->
  r_proofs (p_responder (set_responder p r'')) !! id = r_proofs (p_responder p) !! id \/ expired p ev (set_responder p r'') id.
Proof.
  intros Hev Hr r'' E. unfold expired. rewrite Hev. cbn. rewrite E. destruct Hr as [-> | ->]; [by left|].
  destruct (expire_cases (p_responder p) visits id) as [->|(-> & pf & t & Hpf & Hin & Hle)]; [by left|right; eauto 7].
Qed.

Lemma step_changes p ev p' id : process_inv p -> run_step closeErr p ev = Some p' ->
  r_proofs (p_responder p') !! id = r_proofs (p_responder p) !! id \/ expired p ev p' id \/ by_root p ev.
Proof.
  intros Hp. unfold run_step. destruct (p_result p) eqn:Hn; [done|]. destruct ev as [name|name c conn|name|name c q h|name c|visits|serveErr].
  - destruct (p_limits p !! name) as [l|]; [|done]. cbn [mbind option_bind]. intros (l' & Ha & ->)%fmap_Some. by left.
  - destruct (p_limits p !! name) as [l|]; [|done]. destruct (p_listeners p !! name) as [addr|]; [|done]. cbn [mbind option_bind].
    destruct (_ && _); [|done]. intros [= <-]. by left.
  - destruct (p_limits p !! name) as [l|]; [|done]. cbn [mbind option_bind]. destruct (0 <? _)%nat; [|done]. intros (l' & Ha & ->)%fmap_Some. by left.
  - destruct (p_limits p !! name) as [l|]; [|done]. destruct (p_peers p !! (name, c)) as [conn|] eqn:Ec; [|done]. cbn [mbind option_bind].
    destruct (bool_decide _); [|done]. intros [= <-]. unfold handle. destruct (name =? "control") eqn:En; bprop.
    + subst name. destruct (control _ _ _ _ _ _) as [resp r'] eqn:E. unfold control in E. destruct (control_reply _ _ _ _) as [[[rs o] re] r1] eqn:Er.
      injection E as _ <-. apply control_reply_spec in Er as [->|(Hroot & _)]; [by left|]. right. right. cbn in Hroot.
      destruct (pi_peers p Hp _ _ Ec) as (addr & inner & _ & -> & _). apply root_conn in Hroot as (calls & -> & Hu). by exists c, q, h, calls.
    + destruct (public _ _ _ _ _ _) as [resp r'] eqn:E. unfold public in E. destruct (public_reply _ _ _ _) as [[[rs o] re] r1] eqn:Er.
      injection E as _ <-. apply public_reply_table in Er. destruct (expired_or_same p (Request name c q h) r1 (hd_visits h) id eq_refl Er (record_reply r1 o "public" re (hd_duration h) (hd_end h)) eq_refl); auto.
  - destruct (p_limits p !! name) as [l|]; [|done]. cbn [mbind option_bind]. intros (l' & Ha & ->)%fmap_Some. by left.
  - intros [= <-]. destruct (expired_or_same p (Tick visits) (cleanup (p_responder p) visits) visits id eq_refl (or_intror eq_refl) _ eq_refl); auto.
  - destruct (listener_close _ _ _) as [[cr ml] sk]. intros [= <-]. by left.
Qed.

(** C12: A responder that started stores, whatever connections, requests and
    clean-ups come in whatever order, at most four proofs, all of them accepted
    for its name; it has at most 32 connections open on a listener; an event changes
    its table only by dropping a proof whose expiry is not after the clock read
    for it during that event, or as a request of a process of root over the
    control socket; and when it has returned, every socket it opened is closed. *)
Theorem responder_process_safe env order listen p0 evs p : (forall fd, listen = Some fd -> socks !! fd = None) ->
  startResponder env config order listen closeErr socks = inl p0 -> run_events closeErr p0 evs = Some p ->
  (size (r_proofs (p_responder p)) <= 4)%nat /\ all_stored (p_responder p) /\
  (forall name l, p_limits p !! name = Some l -> (size (open_conns l) <= 32)%nat) /\
  (forall ev p' id, run_step closeErr p ev = Some p' ->
    r_proofs (p_responder p') !! id = r_proofs (p_responder p) !! id \/ expired p ev p' id \/ by_root p ev) /\
  (p_result p <> None -> p_open p = ∅ /\ p_socks p = socks).
Proof.
  intros Hf Hs Hr. pose proof (run_inv _ _ _ (start_inv _ _ _ _ Hf Hs) Hr) as Hinv.
  destruct (pi_history p Hinv) as (r0 & Hn & Hh). assert (Hre : responder_reachable (p_responder p)) by (by exists config, r0).
  apply responder_inv in Hre as [Ht Ha]. split_and!; [apply Ht|done| | |].
  - intros name l Hl. destruct (pi_limits p Hinv name l Hl) as (_ & Hp & Hle). lia.
  - intros ev p' id Hstep. by apply step_changes.
  - intros Hres. pose proof (pi_sockets p Hinv) as Hx. by destruct (p_result p).
Qed.
End safety.

(** A responder that cannot start, because its configuration is not valid, a
    listener cannot be had or the metrics endpoint cannot be opened, leaves no
    socket open. *)
Theorem start_all_or_none env config order listen closeErr socks f : (forall fd, listen = Some fd -> socks !! fd = None) ->
  startResponder env config order listen closeErr socks = inr f -> f_open f = ∅ /\ f_socks f = socks.
Proof.
  intros Hf. unfold startResponder. destruct (newResponder config) as [r|e|m]; [|by intros [= <-]..].
  destruct (responderListeners env config order) as [lr open] eqn:El. apply listeners_all_or_none in El.
  destruct lr as [ls|e|m]; [|by intros [= <-]..]. destruct (configure _ _ _ _ _) as [[cr ml] socks'] eqn:Ec. apply configure_first in Ec; [|done].
  destruct cr as [u|e|m]; [done| |]; intros [= <-]; cbn; (split; [by apply close_all_dom|done]).
Qed.

(** ** A concrete run *)
Module RunExamples.
Import PlainJose ProtocolExamples ResponderExamples.

Definition root : connection := UnixConn (PeerCalls true true (Some 0)).
Definition user : connection := UnixConn (PeerCalls true true (Some 1000)).
Definition moment : handling := Handling now [] true 0 now.
(** A user tries to publish, then root does; a client fetches the proof. *)
Definition history : list event :=
  [Acquire "control"; Accepted "control" 1 user; Request "control" 1 put moment;
   Acquire "control"; Accepted "control" 2 root; Request "control" 2 put moment; ConnClosed "control" 2;
   Acquire "http6"; Accepted "http6" 3 OtherConn; Request "http6" 3 get moment].
Definition begun : process := Eval vm_compute in match startResponder env config [] None (Ok tt) ∅ with inl p => p | inr _ => Process r0 ∅ ∅ ∅ ∅ (Listener "" None None) ∅ None end.
Definition served : process := Eval vm_compute in default begun (run_events (Ok tt) begun history).

Lemma no_metrics (fd : nat) : None = Some fd -> (∅ : sockets) !! fd = None.
Proof. done. Qed.

Lemma begun_starts : startResponder env config [] None (Ok tt) ∅ = inl begun.
Proof. vm_compute. reflexivity. Qed.

Lemma served_runs : run_events (Ok tt) begun history = Some served.
Proof. vm_cast_no_check (eq_refl (Some served)). Qed.

(** Only the proof of root is stored. *)
Example served_table : dom (r_proofs (p_responder served)) = {[b64_encode seed]}.
Proof. vm_compute. reflexivity. Qed.

Lemma responder_process_safe_witness : (size (r_proofs (p_responder served)) <= 4)%nat /\
  forall ev p' id, run_step (Ok tt) served ev = Some p' ->
    r_proofs (p_responder p') !! id = r_proofs (p_responder served) !! id \/ expired served ev p' id \/ by_root served ev.
Proof.
  destruct (responder_process_safe config (Ok tt) ∅ env [] None begun history served no_metrics begun_starts served_runs) as (H1 & _ & _ & H4 & _).
  split; [exact H1|exact H4].
Defined.

(** The second HTTP socket is not the configured port. *)
Definition wrong_env : listen_env :=
  ListenEnv (getenv env) 77 (fun fd => if fd =? 3 then Some (UnixAddr "/run/realm/control.sock") else Some (TCPAddr 80 false))
    (fun _ => None) (fun _ => None) (fun _ _ => None).
Definition failed : failure := Failure (Err (ErrNew "unexpected HTTP listener")) ∅ ∅.

Lemma start_all_or_none_witness : startResponder wrong_env config [] None (Ok tt) ∅ = inr failed /\ f_open failed = ∅.
Proof.
  assert (Hs : startResponder wrong_env config [] None (Ok tt) ∅ = inr failed) by (vm_compute; reflexivity).
  split; [exact Hs|]. exact (proj1 (start_all_or_none wrong_env config [] None (Ok tt) ∅ failed no_metrics Hs)).
Defined.
End RunExamples.
