(* ===== verification/AttestAgent.v ===== *)
(** * The attestation agent

    Models [pkgs/realm-node-attest/agent.go]: an attempt holds its lock for
    the whole of [Respond] and of [Close], so both are atomic.  The control
    endpoint is a function from requests to status codes; the definitions
    return the requests they sent. *)

From S2P Require Import Prelude GoStrings Encoding Regex Json NetIP AttestProtocol AttestMetrics.

Open Scope Z_scope.
Open Scope go_scope.

Record AgentAttempt := AgentAttemptOf {
  aa_config : AgentConfig;
  aa_key : option string;
  aa_payload : string;
  aa_published : string;
  aa_responded : bool;
  aa_closed : bool }.

Definition validateAgentConfig (config : AgentConfig) : result unit :=
  let! _ := validateMetricsAddress (ac_MetricsAddress config) in
  reject negb (validFQDN (ac_FQDN config)) || negb (validFQDN (ac_TrustDomain config)) ||
    negb (isAbs (ac_ControlSocket config)) with ErrNew "invalid agent configuration";
  Ok tt.

(** [ed25519.GenerateKey] returns the private key, whose last half is the
    public key. *)
Definition BeginAgent (config : AgentConfig) (generated : result string) : result AgentAttempt :=
  let! _ := validateAgentConfig config in
  let! private := generated in
  let payload := Marshal (Request 1 (ac_FQDN config) (jwkFor (Public private))) in
  Ok (AgentAttemptOf config (Some private) payload "" false false).

(** A request to the control socket. *)
Record control_call := ControlCall { cc_method : string; cc_id : string; cc_body : string }.

(** The responder as the client sees it: a status, or no answer. *)
Definition control_endpoint : Type := control_call -> option Z.

Definition controlRequest (ep : control_endpoint) (newRequestErr : option error) (call : control_call)
    : result unit :=
  match newRequestErr with
  | Some e => Err e
  | None =>
      match ep call with
      | None => Err (ErrNew "control endpoint unavailable")
      | Some status =>
          reject ((cc_method call =? "PUT") && (status <>? 201)) ||
                 ((cc_method call =? "DELETE") && (status <>? 204) && (status <>? 404))
          with ErrNew "control endpoint rejected operation";
          Ok tt
      end
  end.

Section agent.
Context {J : Jose}.

Definition mark_responded (a : AgentAttempt) (published : string) : AgentAttempt :=
  AgentAttemptOf (aa_config a) (aa_key a) (aa_payload a) published true (aa_closed a).

(** The checks of [Respond] up to the signed proof. *)
Definition respond_checks (a : AgentAttempt) (rawChallenge : string) (now : Z) : result (challenge * string) :=
  let! c := (decodeJSON rawChallenge : result challenge) in
  let! _ := validateChallenge c now in
  match aa_key a with
  | None => Panic "public key of a nil key"
  | Some key =>
      reject (ch_FQDN c <>? ac_FQDN (aa_config a)) || (ch_TrustDomain c <>? ac_TrustDomain (aa_config a)) ||
        (ch_ServerID c <>? serverID (ac_TrustDomain (aa_config a))) ||
        (ch_KeyThumbprint c <>? thumbprint (jwkFor (Public key)))
      with ErrNew "challenge does not match agent attempt";
      let! proof := signProof key rawChallenge in
      Ok (c, proof)
  end.

(** [Respond]: the result, the attempt and the control requests sent. *)
Definition Respond (a : AgentAttempt) (rawChallenge : string) (now : Z) (ep : control_endpoint)
    (newRequestErr : option error) : result string * AgentAttempt * list control_call :=
  if aa_closed a || aa_responded a then
    (Err (ErrObserved (ErrNew "agent attempt is not pending") "challenge" "invalid_challenge"), a, [])
  else
    match observeError (respond_checks a rawChallenge now) "challenge" "invalid_challenge" with
    | Err e => (Err e, mark_responded a (aa_published a), [])
    | Panic p => (Panic p, mark_responded a (aa_published a), [])
    | Ok (c, proof) =>
        let a' := mark_responded a (ch_ID c) in
        let call := ControlCall "PUT" (ch_ID c) proof in
        let sent := match newRequestErr with None => [call] | Some _ => [] end in
        match controlRequest ep newRequestErr call with
        | Ok _ => (Ok (Marshal (Ready 1 (ch_ID c))), a', sent)
        | Err e => (Err (ErrObserved (ErrWrap "publish challenge" e) "publish" "publish_failed"), a', sent)
        | Panic p => (Panic p, a', sent)
        end
    end.
End agent.

(** [Close] withdraws what was published and forgets the key; the outcome of
    the request is ignored. *)
Definition agent_Close (a : AgentAttempt) : AgentAttempt * list control_call :=
  if aa_closed a then (a, [])
  else
    (AgentAttemptOf (aa_config a) None (aa_payload a) (aa_published a) (aa_responded a) true,
     if aa_published a <>? "" then [ControlCall "DELETE" (aa_published a) ""] else []).

(** ** Histories of an attempt *)
Inductive agent_history {J : Jose} (a0 : AgentAttempt) : AgentAttempt -> list control_call -> Prop :=
| AStart : agent_history a0 a0 []
| ARespond a calls rawChallenge now ep newRequestErr r a' sent :
    agent_history a0 a calls -> Respond a rawChallenge now ep newRequestErr = (r, a', sent) ->
    agent_history a0 a' (calls ++ sent)
| AClose a calls a' sent :
    agent_history a0 a calls -> agent_Close a = (a', sent) -> agent_history a0 a' (calls ++ sent).

(** ** Lemmas *)
Lemma validRandom_nonempty id : validRandom id = true -> id <> "".
Proof. intros (d & Hd & ->)%validRandom_spec E. apply (f_equal len) in E. rewrite b64_encode_len, Hd in E. done. Qed.

Lemma respond_checks_Ok {J : Jose} a raw now c proof :
  respond_checks a raw now = Ok (c, proof) <->
  exists key, aa_key a = Some key /\ decodeJSON raw = Ok c /\ validateChallenge c now = Ok tt /\
    ch_FQDN c = ac_FQDN (aa_config a) /\ ch_TrustDomain c = ac_TrustDomain (aa_config a) /\
    ch_ServerID c = serverID (ac_TrustDomain (aa_config a)) /\
    ch_KeyThumbprint c = thumbprint (jwkFor (Public key)) /\ signProof key raw = Ok proof.
Proof.
  unfold respond_checks. split.
  - intros (c' & Hc & H)%rbind_Ok. apply rbind_Ok in H as ([] & Hv & H).
    destruct (aa_key a) as [key|]; [|done]. destruct (_ || _ || _ || _) eqn:E in H; [done|]. bprop.
    apply rbind_Ok in H as (p & Hp & [= <- <-]). eauto 20.
  - intros (key & -> & -> & Hv & Hf & Ht & Hs & Hk & Hp). cbn [rbind]. rewrite Hv. cbn [rbind].
    rewrite !bool_decide_true by done. cbn [negb orb]. by rewrite Hp.
Qed.

Lemma respond_checks_key {J : Jose} a raw now msg : aa_key a <> None -> respond_checks a raw now <> Panic msg.
Proof.
  intros Hk. unfold respond_checks. destruct (decodeJSON raw) as [c|e|m] eqn:E; cbn [rbind]; [|done|].
  - unfold validateChallenge. repeat (case_match; cbn [rbind]; try done).
    unfold signProof. by case_match.
  - unfold decodeJSON in E. by repeat case_match.
Qed.

(** The attempt after a history: what was sent and what is remembered. *)
Record agent_inv (a : AgentAttempt) (calls : list control_call) : Prop := {
  ai_key : aa_closed a = false -> aa_key a <> None;
  ai_fresh : aa_responded a = false -> aa_published a = "" /\ Forall (fun c => cc_method c = "DELETE") calls;
  ai_calls : exists puts, (forall c, c ∈ puts -> cc_method c = "PUT" /\ cc_id c = aa_published a /\ cc_id c <> "") /\
    (length puts <= 1)%nat /\
    calls = puts ++ (if aa_closed a && (aa_published a <>? "") then [ControlCall "DELETE" (aa_published a) ""] else []) }.

Lemma controlRequest_no_panic ep err call msg : controlRequest ep err call <> Panic msg.
Proof. unfold controlRequest. by repeat case_match. Qed.

Lemma controlRequest_put ep id body :
  ep (ControlCall "PUT" id body) = Some 201 -> controlRequest ep None (ControlCall "PUT" id body) = Ok tt.
Proof. intros H. unfold controlRequest. by rewrite H. Qed.

Lemma Respond_shape {J : Jose} a raw now ep err r a' sent :
  Respond a raw now ep err = (r, a', sent) ->
  (a' = a /\ sent = [] /\ aa_closed a || aa_responded a = true) \/
  (aa_closed a = false /\ aa_responded a = false /\ a' = mark_responded a (aa_published a) /\ sent = []) \/
  (aa_closed a = false /\ aa_responded a = false /\ exists c proof, respond_checks a raw now = Ok (c, proof) /\
     a' = mark_responded a (ch_ID c) /\ (sent = [] \/ sent = [ControlCall "PUT" (ch_ID c) proof])).
Proof.
  unfold Respond. destruct (aa_closed a || aa_responded a) eqn:E; [intros [= <- <- <-]; auto|]. bprop.
  destruct (respond_checks a raw now) as [[c p]|e|m] eqn:Hc; simpl.
  - right. right. split_and!; try done. exists c, p.
    destruct (controlRequest _ _ _), err; simplify_eq; auto.
  - intros [= <- <- <-]. right. left. done.
  - intros [= <- <- <-]. right. left. done.
Qed.

Lemma agent_history_inv {J : Jose} a0 a calls :
  aa_key a0 <> None -> aa_published a0 = "" -> aa_responded a0 = false -> aa_closed a0 = false ->
  agent_history a0 a calls -> agent_inv a calls.
Proof.
  intros Hk Hp Hr Hc. induction 1 as [|a calls raw now ep err r a' sent _ IH H|a calls a' sent _ IH H].
  - split; [done|done|]. exists []. rewrite Hc. split_and!; [intros c Hin; by apply not_elem_of_nil in Hin|simpl; lia|done].
  - destruct IH as [Ik If (puts & Hputs & Hlen & ->)].
    apply Respond_shape in H as [(-> & -> & _)|[(Ec & Er & -> & ->)|(Ec & Er & c & p & Hck & -> & Hs)]].
    + rewrite app_nil_r. split; [done|done|]. eauto.
    + rewrite app_nil_r. split; simpl; [exact Ik|done|]. eauto.
    + destruct (If Er) as [Hpub Hdel]. rewrite Ec in *. simpl in *. rewrite app_nil_r in *.
      assert (puts = []) as ->.
      { destruct puts as [|x puts]; [done|]. apply Forall_cons in Hdel as [Hx _].
        destruct (Hputs x ltac:(by left)) as [Hx' _]. congruence. }
      apply respond_checks_Ok in Hck as (key & _ & _ & Hv & _).
      apply validateChallenge_spec in Hv as (_ & Hid%validRandom_nonempty & _).
      split; simpl; [auto|done|]. rewrite Ec. simpl. exists sent. rewrite app_nil_r.
      destruct Hs as [->| ->]; split_and!; simpl; try lia; try done.
      * intros x Hx. by apply not_elem_of_nil in Hx.
      * intros x Hx. apply list_elem_of_singleton in Hx as ->. done.
  - destruct IH as [Ik If (puts & Hputs & Hlen & ->)]. unfold agent_Close in H.
    destruct (aa_closed a) eqn:Ec; injection H as <- <-.
    + rewrite app_nil_r. split; [by rewrite Ec|done|]. exists puts. by rewrite Ec.
    + simpl. rewrite app_nil_r. split; simpl; [done| |].
      * intros Er. destruct (If Er) as [Hpub Hdel]. split; [done|]. rewrite Hpub. simpl. by rewrite app_nil_r in *.
      * exists puts. done.
Qed.

(** ** Correctness of the agent *)

(** An agent attempt signs and publishes at most once, never panics, and
    cleans up after itself: once it is closed its key is gone, and if a proof
    may have reached the responder, even when the answer was lost, the last
    request sent withdraws that same id. *)
Theorem agent_withdraws {J : Jose} config generated a0 a calls :
  BeginAgent config generated = Ok a0 -> agent_history a0 a calls ->
  (length (filter (fun c => cc_method c = "PUT") calls) <= 1)%nat /\
  (forall raw now ep err msg, fst (fst (Respond a raw now ep err)) <> Panic msg) /\
  (aa_closed a = false -> aa_key (fst (agent_Close a)) = None) /\
  (aa_closed a = true -> forall c, c ∈ calls -> cc_method c = "PUT" ->
     exists before, calls = before ++ [ControlCall "DELETE" (cc_id c) ""]).
Proof.
  intros H0 H. unfold BeginAgent in H0. apply rbind_Ok in H0 as ([] & _ & H0).
  apply rbind_Ok in H0 as (k & _ & [= <-]).
  apply agent_history_inv in H; [|done..]. destruct H as [Ik _ (puts & Hputs & Hlen & Hcalls)].
  split; [|split; [|split]].
  - rewrite Hcalls, filter_app, length_app. pose proof (length_filter (fun c => cc_method c = "PUT") puts).
    destruct (_ && _); [|simpl; lia]. rewrite filter_cons_False by done. simpl. lia.
  - intros raw now ep err msg. unfold Respond. destruct (aa_closed a || aa_responded a) eqn:E; [done|]. bprop.
    destruct (respond_checks a raw now) as [[c p]|e|m] eqn:Hc; simpl; [|done|by apply respond_checks_key in Hc; auto].
    destruct (controlRequest ep err _) eqn:Hr; [done|done|]. by apply controlRequest_no_panic in Hr.
  - intros E. unfold agent_Close. by rewrite E.
  - intros E c Hc Hm. rewrite E in Hcalls. rewrite Hcalls in Hc. apply elem_of_app in Hc as [Hc|Hc].
    + destruct (Hputs c Hc) as (_ & -> & Hne). rewrite bool_decide_false in Hcalls by congruence. eauto.
    + destruct (_ && _); [|by apply not_elem_of_nil in Hc]. apply list_elem_of_singleton in Hc as ->. done.
Qed.

Lemma ready_roundtrip id : validRandom id = true -> decodeJSON (Marshal (Ready 1 id)) = Ok (Ready 1 id).
Proof.
  intros [Hp Hl]%validRandom_plain. apply decodeJSON_Marshal; [split; [split; done|done]|].
  unfold Marshal, MaxDocumentSize. simpl to_json. unfold ready_json. cbn [marshal fmap list_fmap join fst snd rd_Version rd_ID].
  rewrite !len_append. rewrite !len_quote by done. rewrite Hl. vm_compute. split; [reflexivity|discriminate].
Qed.

(** What a successful [Respond] has done: the challenge decodes, is valid
    now, and names the agent's own FQDN, trust domain and key; the proof
    signed over exactly these challenge bytes was put under the challenge id
    and the responder created it; the answer decodes to that id. *)
Theorem Respond_sound {J : Jose} a raw now ep err resp a' sent :
  Respond a raw now ep err = (Ok resp, a', sent) ->
  exists key c proof,
    aa_key a = Some key /\ decodeJSON raw = Ok c /\ validateChallenge c now = Ok tt /\
    ch_FQDN c = ac_FQDN (aa_config a) /\ ch_ServerID c = serverID (ac_TrustDomain (aa_config a)) /\
    ch_KeyThumbprint c = thumbprint (jwkFor (Public key)) /\ signProof key raw = Ok proof /\
    sent = [ControlCall "PUT" (ch_ID c) proof] /\ ep (ControlCall "PUT" (ch_ID c) proof) = Some 201 /\
    aa_published a' = ch_ID c /\ decodeJSON resp = Ok (Ready 1 (ch_ID c)).
Proof.
  unfold Respond. destruct (aa_closed a || aa_responded a); [done|].
  destruct (respond_checks a raw now) as [[c p]|e|m] eqn:Hc; simpl; [|done|done].
  destruct (controlRequest ep err _) as [[]| |] eqn:Hr; [|done|done]. intros [= <- <- <-].
  apply respond_checks_Ok in Hc as (key & Hk & Hd & Hv & Hf & _ & Hs & Ht & Hp).
  unfold controlRequest in Hr. destruct err; [done|]. destruct (ep _) as [status|] eqn:He; [|done].
  simpl in Hr. destruct (_ || _) eqn:E in Hr; [done|]. bprop. subst status.
  pose proof Hv as (_ & Hid & _)%validateChallenge_spec.
  exists key, c, p. split_and!; try done. by apply ready_roundtrip.
Qed.

(** ** Concrete instances *)
Module AgentExamples.
Import PlainJose ProtocolExamples.

Definition config : AgentConfig :=
  {| ac_FQDN := "eihort.nyaw.xyz"; ac_TrustDomain := "nyaw.xyz"; ac_ControlSocket := "/run/realm/control.sock";
     ac_MetricsAddress := "" |}.
Definition a0 : AgentAttempt :=
  AgentAttemptOf config (Some key) (Marshal (Request 1 "eihort.nyaw.xyz" (jwkFor (Public key)))) "" false false.
Definition accepts : control_endpoint := fun _ => Some 201.
Definition lost : control_endpoint := fun _ => None.
Definition a1 : AgentAttempt := mark_responded a0 (b64_encode seed).
Definition a2 : AgentAttempt := fst (agent_Close a1).

Lemma begin_a0 : BeginAgent config (Ok key) = Ok a0.
Proof. vm_compute. reflexivity. Qed.

Lemma respond_lost :
  Respond a0 (Marshal chall) now lost None =
  (Err (ErrObserved (ErrWrap "publish challenge" (ErrNew "control endpoint unavailable")) "publish" "publish_failed"),
   a1, [ControlCall "PUT" (b64_encode seed) data]).
Proof. vm_compute. reflexivity. Qed.

Lemma respond_ok :
  Respond a0 (Marshal chall) now accepts None =
  (Ok (Marshal (Ready 1 (b64_encode seed))), a1, [ControlCall "PUT" (b64_encode seed) data]).
Proof. vm_compute. reflexivity. Qed.

(** The answer to the publication is lost; closing still withdraws it. *)
Lemma agent_withdraws_witness :
  exists before, [ControlCall "PUT" (b64_encode seed) data] ++ [ControlCall "DELETE" (b64_encode seed) ""] =
    before ++ [ControlCall "DELETE" (b64_encode seed) ""].
Proof.
  assert (Hh : agent_history a0 a2 (([] ++ [ControlCall "PUT" (b64_encode seed) data]) ++
    [ControlCall "DELETE" (b64_encode seed) ""])).
  { apply (AClose a0 a1); [|reflexivity]. eapply ARespond; [apply AStart|apply respond_lost]. }
  destruct (agent_withdraws config (Ok key) a0 a2 _ begin_a0 Hh) as (_ & _ & _ & Hw).
  exact (Hw eq_refl (ControlCall "PUT" (b64_encode seed) data) ltac:(left) eq_refl).
Defined.

Lemma Respond_sound_witness :
  exists key (c : challenge) proof, aa_key a0 = Some key /\ decodeJSON (Marshal chall) = Ok c /\ signProof key (Marshal chall) = Ok proof.
Proof.
  destruct (Respond_sound a0 (Marshal chall) now accepts None _ a1 _ respond_ok)
    as (k & c & p & Hk & Hc & _ & _ & _ & _ & Hp & _).
  exists k, c, p. split; [exact Hk|]. split; [exact Hc|exact Hp].
Defined.
End AgentExamples.
