(* ===== verification/AttestEndToEnd.v ===== *)
(** * One attestation, end to end

    Composes the models of the agent plugin ([AttestAgent]), the server plugin
    ([AttestServer]) and the responder ([AttestResponder]) the way the three
    processes talk: the agent's payload starts the attempt, the challenge goes
    to the agent, the agent publishes the proof through the control socket,
    and the server fetches it from the public endpoint. *)

From S2P Require Import Prelude GoStrings Encoding Regex Json NetIP AttestProtocol AttestMetrics.
From S2P Require Import AttestServer AttestResponder AttestAgent.

Open Scope Z_scope.
Open Scope go_scope.

(** ** What the HTTP client puts on the wire *)

(** Host and path of [http://host/path]; the paths need no escaping. *)
Definition url_parts (url : string) : string * string :=
  match cut slash (trimPrefix url "http://") with
  | Some (host, path) => (host, String slash path)
  | None => (trimPrefix url "http://", "/")
  end.

Definition get_request (url : string) : http_request :=
  let '(host, path) := url_parts url in
  HttpRequest "GET" host path path "" 0 [] "" false false.

(** The agent plugin runs as root, so the peer check succeeds. *)
Definition control_request (call : control_call) : http_request :=
  let path := "/v1/proofs/" +:+ cc_id call in
  HttpRequest (cc_method call) "localhost" path path "" (len (cc_body call)) [] (cc_body call) false true.

(** Clock readings of one attestation: at [Begin], at the agent, at the
    responder for the publication and for the fetch, at the server when the
    response arrives, before the end and for the quota. *)
Record clocks := Clocks {
  t_begin : Z; t_agent : Z; t_put : Z; t_get : Z; t_response : Z; t_finish : Z; t_charge : Z }.

(** The expiry loop reads the clock for every stored proof. *)
Definition visits_at (r : responder) (now : Z) : list (string * Z) :=
  (fun p => (fst p, now)) <$> map_to_list (r_proofs r).

Section run.
Context {J : Jose}.

(** The responder as the agent's client sees it, and after a call. *)
Definition responder_control (r : responder) (now : Z) (call : control_call) : http_response * responder :=
  control r (control_request call) now (visits_at r now) 0 now.

(** The responder as the server's client sees it, on every pinned address. *)
Definition responder_endpoint (r : responder) (now : Z) : endpoint :=
  Endpoint (fun _ => None) (fun _ => None) (fun _ url =>
    let resp := fst (public r (get_request url) (visits_at r now) true 0 now) in
    Some (HttpResponse (rs_status resp) (rs_body resp) false "")).

Definition attestation_run (w : world) (config : AgentConfig) (r : responder) (key b1 b2 : string)
    (t : clocks) : result Result :=
  let! a0 := BeginAgent config (Ok key) in
  let '(begun, w1) := Begin w None (aa_payload a0) (Ok b1) (Ok b2) (t_begin t) in
  let! h := begun in
  match w_heap w1 !! h with
  | None => Panic "nil attempt"
  | Some attempt =>
      let ep call := Some (rs_status (fst (responder_control r (t_put t) call))) in
      let '(answered, _, sent) := Respond a0 (a_rawChallenge attempt) (t_agent t) ep None in
      let! answer := answered in
      let r1 := foldl (fun r0 call => snd (responder_control r0 (t_put t) call)) r sent in
      fst (Verify w1 h answer (t_response t) (responder_endpoint r1 (t_get t)) id (t_finish t) (t_charge t) None)
  end.
End run.

(** ** Lemmas *)
Lemma request_roundtrip fqdn key :
  validFQDN fqdn = true -> len key = 32 ->
  decodeJSON (Marshal (Request 1 fqdn (jwkFor key))) = Ok (Request 1 fqdn (jwkFor key)).
Proof.
  intros [Hp Hl]%validFQDN_plain Hk. apply decodeJSON_Marshal.
  { split; [split; done|]. split; [done|apply jwk_plain]. }
  unfold Marshal, MaxDocumentSize. simpl to_json. unfold request_json, jwk_json, jwkFor.
  cbn [marshal fmap list_fmap join fst snd rq_Version rq_FQDN rq_BootstrapJWK Kty Crv X].
  pose proof (b64_encode_plain key). rewrite !len_append. rewrite !len_quote by done.
  rewrite b64_encode_len, Hk. repeat match goal with |- context [len ?s] =>
    let n := eval vm_compute in (len s) in
    lazymatch n with Z0 => idtac | Zpos _ => idtac end; change (len s) with n end.
  change ((4 * 32 + 2) / 3) with 43. lia.
Qed.

Lemma fqdn_no_char c s :
  label_mid c || (c =? "."%char) = false -> validFQDN s = true -> all_chars (fun d => d <>? c) s = true.
Proof.
  intros Hc [Hs _]%validFQDN_chars. eapply all_chars_impl; [|exact Hs]. intros d Hd.
  apply negb_true_iff, bool_decide_eq_false. intros ->. congruence.
Qed.

Lemma fqdn_host fqdn port : validFQDN fqdn = true -> joinHostPort fqdn port = fqdn +:+ ":" +:+ port.
Proof.
  intros H. unfold joinHostPort, mem_char.
  assert (Hc : all_chars (fun d => ":"%char <>? d) fqdn = true); [|by rewrite Hc].
  eapply all_chars_impl; [|apply (fqdn_no_char ":"%char fqdn); done]. intros d Hd. cbn beta in Hd. bprop.
  apply negb_true_iff, bool_decide_eq_false. intros <-. by apply Hd.
Qed.

Lemma port_no_slash n : 0 <= n -> all_chars (fun d => d <>? slash) (itoa n) = true.
Proof.
  intros H. eapply all_chars_impl; [|by apply itoa_digits]. intros d Hd.
  apply negb_true_iff, bool_decide_eq_false. by intros ->.
Qed.

Lemma fetch_request s a :
  validFQDN (n_fqdn (a_node a)) = true -> 0 <= sc_Port (s_config s) ->
  get_request (fetch_url s a) =
  let path := PathPrefix +:+ ch_ID (a_challenge a) in
  HttpRequest "GET" (joinHostPort (n_fqdn (a_node a)) (itoa (sc_Port (s_config s)))) path path "" 0 [] "" false false.
Proof.
  intros Hf Hp. unfold get_request, url_parts, fetch_url. rewrite trimPrefix_append.
  change (PathPrefix +:+ ch_ID (a_challenge a)) with
    (String slash (".well-known/spire-node-attestation/v1/" +:+ ch_ID (a_challenge a))).
  rewrite cut_app_no_sep; [done|]. rewrite fqdn_host by done. rewrite !all_chars_append.
  rewrite (fqdn_no_char slash) by done. by rewrite port_no_slash.
Qed.

Lemma visits_at_in r now id t : (id, t) ∈ visits_at r now -> t = now.
Proof. unfold visits_at. intros (p & [= _ ->] & _)%list_elem_of_fmap. done. Qed.

Lemma Begin_run w fqdn key b1 b2 t n :
  validFQDN fqdn = true -> len key = 32 -> s_nodes (w_server w) !! fqdn = Some n ->
  (size (s_active (w_server w)) < 32)%nat ->
  let req := Request 1 fqdn (jwkFor key) in
  let c := issue (w_server w) req (b64_encode b1) (b64_encode b2) t in
  exists w1, Begin w None (Marshal req) (Ok b1) (Ok b2) t = (Ok (length (w_heap w)), w1) /\
    w_heap w1 !! length (w_heap w) = Some (Attempt n req c (Marshal c) (ch_ExpiresAt c * Second) false false false) /\
    s_config (w_server w1) = s_config (w_server w) /\ s_recent (w_server w1) = s_recent (w_server w).
Proof.
  intros Hf Hk Hn Hsz req c. unfold Begin.
  assert (Hb : begin_checks (w_server w) None (Marshal req) (Ok b1) (Ok b2) =
    Ok (req, n, b64_encode b1, b64_encode b2)).
  { apply begin_checks_Ok. split_and!; try done; eauto.
    - by apply request_roundtrip.
    - exists key. by apply jwk_key_spec. }
  rewrite Hb, (proj2 (Nat.leb_gt _ _)) by lia. eexists. split; [reflexivity|]. simpl.
  split; [|done]. by rewrite lookup_app_r, Nat.sub_diag by lia.
Qed.

(** A time in the validity window of a challenge issued at [t0]. *)
Definition in_window (t0 t : Z) : Prop := Unix t0 <= Unix t < Unix t0 + 120.

Lemma issue_valid s req b1 b2 t0 t :
  validFQDN (sc_TrustDomain (s_config s)) = true -> validFQDN (rq_FQDN req) = true ->
  len b1 = 32 -> len b2 = 32 -> in_window t0 t ->
  validateChallenge (issue s req (b64_encode b1) (b64_encode b2) t0) t = Ok tt.
Proof.
  intros Htd Hf H1 H2 [Hl Hu]. apply validateChallenge_spec. unfold issue. simpl.
  assert (Hx : Unix (t0 + ChallengeTTL) = Unix t0 + 120) by apply Unix_add_seconds.
  split_and!; try done; try lia; try apply thumbprint_valid; apply validRandom_spec; eauto.
Qed.

Section honest.
Context {J : Jose} {JL : JoseLaws J}.
Variables (w : world) (config : AgentConfig) (r : responder) (key b1 b2 : string) (t : clocks) (n : node) (ad : addr)
  (ads : list addr).
(* the agent is configured for a node of the server *)
Hypothesis Hagent : validateAgentConfig config = Ok tt.
Hypothesis Htd : sc_TrustDomain (s_config (w_server w)) = ac_TrustDomain config.
Hypothesis Hnode : s_nodes (w_server w) !! ac_FQDN config = Some n.
Hypothesis Hfqdn : n_fqdn n = ac_FQDN config.
Hypothesis Haddr : n_addresses n = ad :: ads.
Hypothesis Hport : 0 <= sc_Port (s_config (w_server w)).
(* the responder is configured for that node *)
Hypothesis Hrf : rc_FQDN (r_config r) = ac_FQDN config.
Hypothesis Hrp : rc_Port (r_config r) = sc_Port (s_config (w_server w)).
(* keys and random values have their sizes, and signing works *)
Hypothesis Hkey : len key = 64.
Hypothesis Hb1 : len b1 = 32.
Hypothesis Hb2 : len b2 = 32.
Hypothesis Hsign : forall payload, len payload <= 1400 ->
  exists doc, signProof key payload = Ok doc /\ 0 < len doc <= MaxDocumentSize.
(* there is room, and the clocks agree within the validity window *)
Hypothesis Hcap : (size (s_active (w_server w)) < 32)%nat.
Hypothesis Hroom : (size (r_proofs r) < 4)%nat.
Hypothesis Hquota : (length (recent_of (w_server w) (n_name n) (t_charge t)) < 6)%nat.
Hypothesis Hclock : 0 <= t_begin t /\ Unix (t_begin t) + 120 <= maxInt64.
Hypothesis Htimes : Forall (in_window (t_begin t)) [t_agent t; t_put t; t_get t; t_response t; t_finish t].

Let req : request := Request 1 (ac_FQDN config) (jwkFor (Public key)).
Let c : challenge := issue (w_server w) req (b64_encode b1) (b64_encode b2) (t_begin t).

Lemma config_names :
  validateMetricsAddress (ac_MetricsAddress config) = Ok tt /\
  validFQDN (ac_FQDN config) = true /\ validFQDN (ac_TrustDomain config) = true.
Proof.
  unfold validateAgentConfig in Hagent. apply rbind_Ok in Hagent as ([] & Hm & H).
  destruct (_ || _ || _) eqn:E in H; [done|]. by bprop.
Qed.

Lemma run_valid u : in_window (t_begin t) u -> validateChallenge c u = Ok tt.
Proof. destruct config_names as (_ & Hf & Hd). apply issue_valid; [by rewrite Htd|done..]. Qed.

Lemma run_raw : decodeJSON (Marshal c) = Ok c /\ len (Marshal c) <= 1400.
Proof.
  assert (Hv : validateChallenge c (t_begin t) = Ok tt) by (apply run_valid; unfold in_window; lia).
  assert (Hu : 0 <= Unix (t_begin t)) by (apply Z.div_pos; unfold Second; lia).
  assert (Hx : ch_ExpiresAt c = Unix (t_begin t) + 120) by apply Unix_add_seconds.
  destruct (valid_challenge_size c (t_begin t) Hu ltac:(lia) Hv) as [Hwf Hl].
  split; [|lia]. apply decodeJSON_Marshal; [done|]. unfold MaxDocumentSize. lia.
Qed.

Lemma run_put doc :
  signProof key (Marshal c) = Ok doc -> 0 < len doc <= MaxDocumentSize ->
  exists r1, responder_control r (t_put t) (ControlCall "PUT" (ch_ID c) doc) = (HttpReply 201 "", r1) /\
    r_proofs r1 !! ch_ID c = Some (StoredProof doc (ch_ExpiresAt c)) /\ r_config r1 = r_config r.
Proof.
  intros Hs Hl. inversion_clear Htimes as [|? ? _ Ht]. inversion_clear Ht as [|? ? Hput _].
  pose proof (run_valid _ Hput) as Hv. destruct run_raw as [_ Hraw]. destruct config_names as (_ & Hf & _).
  assert (Hx : ch_ExpiresAt c = Unix (t_begin t) + 120) by apply Unix_add_seconds.
  assert (Hu : 0 <= Unix (t_put t)).
  { destruct Hput as [Hp _]. assert (0 <= Unix (t_begin t)) by (apply Z.div_pos; unfold Second; lia). lia. }
  destruct (honest_proof key c (t_put t) doc Hu ltac:(lia) Hv Hkey eq_refl Hs Hl) as [Hp _].
  pose proof Hv as (_ & Hid & _)%validateChallenge_spec.
  assert (Hsz : (size (r_proofs (expireLocked r (visits_at r (t_put t)))) <= size (r_proofs r))%nat).
  { apply map_subseteq_size, map_subseteq_spec. intros i p [Hi _]%expire_lookup. done. }
  unfold responder_control, control, control_request, control_reply. cbn [q_rootPeer q_rawQuery q_escapedPath q_path q_method
    cc_method cc_id cc_body negb]. rewrite !bool_decide_true by done. cbn [negb orb].
  rewrite (proj2 (proofID_spec _ _ (ch_ID c))) by done. cbn [negb]. unfold control_put. cbn [q_bodyErr q_body orb].
  rewrite (proj2 (Z.ltb_ge _ _)) by lia. rewrite Hrf. change (ac_FQDN config) with (ch_FQDN c). rewrite Hp.
  rewrite bool_decide_true by done. cbn [negb]. rewrite (proj2 (Nat.leb_gt _ _)) by lia. rewrite andb_false_r.
  eexists. split; [reflexivity|]. cbn [record_reply record r_proofs r_config]. split.
  - change (<[ch_ID c := StoredProof doc (ch_ExpiresAt c)]> (r_proofs (expireLocked r (visits_at r (t_put t)))) !! ch_ID c =
      Some (StoredProof doc (ch_ExpiresAt c))). apply lookup_insert_eq.
  - apply (expire_config r).
Qed.

Lemma run_fetch doc r1 w1 :
  r_proofs r1 !! ch_ID c = Some (StoredProof doc (ch_ExpiresAt c)) -> r_config r1 = r_config r ->
  0 < len doc <= MaxDocumentSize -> s_config (w_server w1) = s_config (w_server w) ->
  forall d cn v cl, let a := Attempt n req c (Marshal c) d cn v cl in
  fst (fetch (responder_endpoint r1 (t_get t)) (w_server w1) a) = Ok doc.
Proof.
  intros Hp Hc Hl Hcfg d cn v cl a. unfold fetch, a. cbn [a_node]. rewrite Haddr. cbn [fetch_from].
  unfold responder_endpoint at 1. cbn [ctx_err]. cbn [new_request responder_endpoint do_request].
  destruct config_names as (_ & Hf & _).
  inversion_clear Htimes as [|? ? _ Ht]. inversion_clear Ht as [|? ? _ Ht']. inversion_clear Ht' as [|? ? Hget _].
  assert (Hx : ch_ExpiresAt c = Unix (t_begin t) + 120) by apply Unix_add_seconds.
  pose proof (run_valid _ Hget) as (_ & Hid & _)%validateChallenge_spec.
  rewrite fetch_request; [|cbn [a_node]; by rewrite Hfqdn|by rewrite Hcfg].
  cbn [a_node a_challenge]. cbn zeta. rewrite Hcfg, Hfqdn.
  rewrite (public_get r1 _ (ch_ID c) (StoredProof doc (ch_ExpiresAt c))); try done.
  - unfold read_limited. cbn [rs_status rs_body h_status h_body h_bodyErr h_contentEncoding sp_body andb].
    rewrite take_all by (unfold len, MaxDocumentSize in *; lia). rewrite !bool_decide_true by done.
    cbn [negb orb]. rewrite (proj2 (Z.ltb_ge _ _)) by lia. done.
  - intros u Hu%visits_at_in. subst u. unfold in_window in Hget. cbn [sp_expiresAt]. rewrite Hx. lia.
  - cbn [q_host]. by rewrite Hc, Hrf, Hrp.
Qed.

Lemma run_verify doc r1 w1 h :
  signProof key (Marshal c) = Ok doc -> 0 < len doc <= MaxDocumentSize ->
  r_proofs r1 !! ch_ID c = Some (StoredProof doc (ch_ExpiresAt c)) -> r_config r1 = r_config r ->
  w_heap w1 !! h = Some (Attempt n req c (Marshal c) (ch_ExpiresAt c * Second) false false false) ->
  s_config (w_server w1) = s_config (w_server w) -> s_recent (w_server w1) = s_recent (w_server w) ->
  fst (Verify w1 h (Marshal (Ready 1 (ch_ID c))) (t_response t) (responder_endpoint r1 (t_get t)) id
    (t_finish t) (t_charge t) None) =
  Ok {| AgentID := agentID (w_server w1) (Attempt n req c (Marshal c) 0 false true false);
        SelectorValues := ["fqdn:" +:+ n_fqdn n] |}.
Proof.
  intros Hdoc Hdl Hst Hcf Hheap Hcfg Hrec. destruct run_raw as [Hraw Hlen].
  pose proof Htimes as Htm. apply Forall_cons in Htm as [Hta Htm]. apply Forall_cons in Htm as [Htp Htm].
  apply Forall_cons in Htm as [Htg Htm]. apply Forall_cons in Htm as [Htr Htm]. apply Forall_cons in Htm as [Htf _].
  assert (Hx : ch_ExpiresAt c = Unix (t_begin t) + 120) by apply Unix_add_seconds.
  pose proof (run_valid _ Hta) as (_ & Hid & _)%validateChallenge_spec. unfold in_window in *.
  unfold Verify, verify_claim. rewrite Hheap. cbn [a_closed a_verified orb set_attempt w_heap w_server].
  rewrite list_lookup_insert_eq by (by eapply lookup_lt_Some). unfold mark_verified.
  cbn [a_node a_request a_challenge a_rawChallenge a_deadline a_canceled a_closed].
  unfold verify_response. rewrite ready_roundtrip by done. cbn [observeError rbind rd_Version rd_ID a_challenge].
  rewrite !bool_decide_true by done. cbn [negb orb]. rewrite (proj2 (Z.leb_gt _ _)) by lia. cbn [rbind].
  rewrite (run_fetch doc r1 w1 Hst Hcf Hdl Hcfg). cbn [observeError rbind]. unfold verify_proof.
  cbn [a_request a_rawChallenge rq_BootstrapJWK]. unfold req at 1. cbn [rq_BootstrapJWK].
  rewrite (verifyProof_honest key (Marshal c) doc Hkey Hdoc Hdl) by (unfold MaxDocumentSize; lia).
  cbn [observeError rbind]. rewrite bool_decide_true by done. cbn [negb id].
  unfold verify_finish. cbn [w_heap set_attempt]. rewrite list_lookup_insert_eq by (by eapply lookup_lt_Some).
  cbn [a_closed a_challenge orb]. rewrite (proj2 (Z.leb_gt _ _)) by lia. rewrite bool_decide_true by done. cbn [negb orb].
  rewrite chargeSuccess_spec. cbn [a_node w_server set_attempt]. unfold recent_of. rewrite Hrec.
  fold (recent_of (w_server w) (n_name n) (t_charge t)). cbn zeta. by rewrite (proj2 (Z.leb_gt _ _)) by lia.
Qed.

(** C1: Honest attestations succeed.  With matching configurations, room in
    the server and the responder, quota left, and clocks within the challenge
    window, the run of agent, responder and server ends with the node's agent
    identity and FQDN selector. *)
Theorem honest_run_succeeds :
  attestation_run w config r key b1 b2 t =
  Ok {| AgentID := "spiffe://" +:+ ac_TrustDomain config +:+ "/spire/agent/http_fqdn/" +:+ n_name n;
        SelectorValues := ["fqdn:" +:+ ac_FQDN config] |}.
Proof.
  pose proof config_names as (Hm & Hf & Hd). destruct run_raw as [Hraw Hlen].
  destruct (Hsign _ Hlen) as (doc & Hdoc & Hdl). destruct (run_put doc Hdoc Hdl) as (r1 & Hr1 & Hst & Hcf).
  unfold attestation_run, BeginAgent. rewrite Hagent. cbn [rbind aa_payload].
  destruct (Begin_run w (ac_FQDN config) (Public key) b1 b2 (t_begin t) n Hf (Public_len _ Hkey) Hnode Hcap)
    as (w1 & -> & Hheap & Hcfg & Hrec). fold req in Hheap |- *. fold c in Hheap.
  cbn [rbind]. rewrite Hheap. cbn [a_rawChallenge]. unfold Respond. cbn [aa_closed aa_responded orb].
  set (a0 := AgentAttemptOf _ _ _ _ _ _).
  pose proof Htimes as Htm. repeat (apply Forall_cons in Htm as [? Htm]).
  rewrite (proj2 (respond_checks_Ok a0 (Marshal c) (t_agent t) c doc)).
  2: { exists key. split_and!; try done; [by apply run_valid|simpl; by rewrite Htd]. }
  cbn [observeError]. rewrite controlRequest_put by (by rewrite Hr1). cbn [rbind foldl]. rewrite Hr1. cbn [snd].
  rewrite (run_verify doc r1 w1 _ Hdoc Hdl Hst Hcf Hheap Hcfg Hrec). unfold agentID. cbn [a_node].
  by rewrite Hcfg, Htd, Hfqdn.
Qed.
End honest.

(** ** A concrete attestation *)
Module EndToEndExamples.
Import PlainJose ProtocolExamples.

Lemma plain_sign payload :
  len payload <= 1400 -> exists doc, signProof key payload = Ok doc /\ 0 < len doc <= MaxDocumentSize.
Proof.
  intros Hl. unfold signProof. cbn [jose_sign plain_jose sign]. eexists. split; [reflexivity|].
  set (compact := b64_encode proofType +:+ _).
  assert (Hc : all_chars plain compact = true).
  { unfold compact. rewrite !all_chars_append, !b64_encode_plain. done. }
  assert (Hlen : len compact <= 2000).
  { unfold compact. rewrite !len_append, !b64_encode_len.
    change (len proofType) with 31. change (len ".") with 1. change (len (Public key)) with 32. divlia. }
  pose proof (len_nonneg compact). unfold Marshal, MaxDocumentSize. cbn [to_json proof_codec]. unfold proof_json, jwk_json, jwkFor.
  cbn [marshal fmap list_fmap join fst snd pd_BootstrapJWK pd_Proof Kty Crv X].
  rewrite !len_append. rewrite (len_quote compact) by done. clearbody compact.
  repeat match goal with |- context [len ?s] =>
    let n := eval vm_compute in (len s) in
    lazymatch n with Z0 => idtac | Zpos _ => idtac end; change (len s) with n end.
  lia.
Qed.

Definition at_now : clocks := Clocks now now now now now now now.

Definition node0 : node := policy_node ("eihort", ServerExamples.policy).

Lemma node0_addresses :
  n_addresses node0 = Addr4 3325256711 :: [Addr6 0x20010db8000000000000000000000007 ""].
Proof. vm_compute. reflexivity. Qed.

Lemma config_valid : validateAgentConfig AgentExamples.config = Ok tt.
Proof. vm_compute. reflexivity. Qed.

Lemma now_in_window : in_window now now.
Proof. split; vm_compute; [discriminate|reflexivity]. Qed.

Lemma honest_run_succeeds_witness :
  attestation_run ServerExamples.world0 AgentExamples.config ResponderExamples.r0 key seed ServerExamples.nonce at_now =
  Ok {| AgentID := "spiffe://" +:+ ac_TrustDomain AgentExamples.config +:+ "/spire/agent/http_fqdn/" +:+ n_name node0;
        SelectorValues := ["fqdn:" +:+ ac_FQDN AgentExamples.config] |}.
Proof.
  assert (Hcap : (size (s_active (w_server ServerExamples.world0)) < 32)%nat) by (apply Nat.ltb_lt; reflexivity).
  assert (Hroom : (size (r_proofs ResponderExamples.r0) < 4)%nat) by (apply Nat.ltb_lt; reflexivity).
  assert (Hquota : (length (recent_of (w_server ServerExamples.world0) (n_name node0) (t_charge at_now)) < 6)%nat)
    by (apply Nat.ltb_lt; reflexivity).
  assert (Hport : 0 <= sc_Port (s_config (w_server ServerExamples.world0))) by (apply Z.leb_le; reflexivity).
  assert (Hclock : 0 <= t_begin at_now /\ Unix (t_begin at_now) + 120 <= maxInt64)
    by (split; apply Z.leb_le; vm_compute; reflexivity).
  refine (honest_run_succeeds ServerExamples.world0 AgentExamples.config ResponderExamples.r0 key seed
    ServerExamples.nonce at_now node0 (Addr4 3325256711) [Addr6 0x20010db8000000000000000000000007 ""]
    config_valid eq_refl eq_refl eq_refl node0_addresses Hport eq_refl eq_refl eq_refl eq_refl eq_refl
    plain_sign Hcap Hroom Hquota Hclock _).
  repeat constructor; apply now_in_window.
Defined.
End EndToEndExamples.
