(* ===== verification/AttestAdapters.v ===== *)
(** * The SPIRE plugin adapters

    Models [pkgs/realm-node-attest/adapters.go]: the stream handlers of the
    agent and the server plugin, the configuration RPCs and the helpers they
    share.  A handler is a function of what the stream, the contexts and the
    attempt answer; it returns its result and the trace of its effects, in
    order, deferred calls included.  The HCL decoder and the SPIRE SDK are
    arguments. *)

From S2P Require Import Prelude GoStrings Encoding Regex Json NetIP AttestProtocol AttestMetrics AttestServer AttestAgent.

Open Scope Z_scope.
Open Scope go_scope.

(** ** Errors *)

(** [status.FromContextError(err).Err()]. *)
Definition fromContextError (e : error) : error :=
  if error_is ErrDeadlineExceeded e then ErrStatus CodeDeadlineExceeded "context deadline exceeded"
  else if error_is ErrCanceled e then ErrStatus CodeCanceled "context canceled"
  else ErrStatus CodeUnknown "context error".

Definition attestationError (ctxErr : option error) (code : grpc_code) (message : string) : error :=
  match ctxErr with
  | Some e => fromContextError e
  | None => ErrStatus code message
  end.

(** ** [receivePluginMessage] *)

(** Which case of the select fires, with the contexts' errors afterwards. *)
Inductive recv_choice (T : Type) :=
| CtxDone (e : error)
| StreamDone (e : error)
| Completed (r : result T) (ctxErr streamErr : option error).
Arguments CtxDone {T} _.
Arguments StreamDone {T} _.
Arguments Completed {T} _ _ _.

Definition receivePluginMessage {T} (ctxErr streamErr : option error) (choice : recv_choice T) : result T :=
  match ctxErr with
  | Some e => Err (fromContextError e)
  | None =>
      match streamErr with
      | Some e => Err (fromContextError e)
      | None =>
          match choice with
          | CtxDone e => Err (fromContextError e)
          | StreamDone e => Err (fromContextError e)
          | Completed r ctxErr' streamErr' =>
              match ctxErr' with
              | Some e => Err (fromContextError e)
              | None =>
                  match streamErr' with
                  | Some e => Err (fromContextError e)
                  | None => r
                  end
              end
          end
      end
  end.

(** The arguments of one receive. *)
Record receive (T : Type) := Receive {
  rv_ctxErr : option error; rv_streamErr : option error; rv_choice : recv_choice T }.
Arguments Receive {T} _ _ _.
Arguments rv_ctxErr {T} _.
Arguments rv_streamErr {T} _.
Arguments rv_choice {T} _.

Definition received {T} (v : receive T) : result T :=
  receivePluginMessage (rv_ctxErr v) (rv_streamErr v) (rv_choice v).

(** ** Effects of a handler *)
Inductive message :=
| MsgPayload (p : string)
| MsgChallenge (c : string)
| MsgResponse (r : string)
| MsgAttributes (id : string) (selectors : list string) (canReattest : bool).

Inductive effect :=
| EPending (node : string) (delta : Z)
| EBegin
| ESent (m : message)
| EClose
| ERecord (node outcome stage reason : string).

#[export] Instance message_eq_dec : EqDecision message.
Proof. solve_decision. Defined.
#[export] Instance effect_eq_dec : EqDecision effect.
Proof. solve_decision. Defined.

(** The deferred classification and [record]. *)
Definition record_effect {A} (node outcome stage reason : string) (ctxErr : option error) (r : result A) : effect :=
  match r with
  | Err e => let '(stage, reason) := classifyError ctxErr e stage reason in ERecord node outcome stage reason
  | _ => ERecord node outcome stage reason
  end.

(** ** The server stream *)
Inductive attestRequest := ReqPayload (p : string) | ReqResponse (r : string) | ReqNone.

(** The interface of an attempt. *)
Record serverPluginAttempt := ServerPluginAttempt {
  sa_challenge : string;
  sa_verify : string -> result (option Result) }.

(** What the stream, the contexts and [begin] answer; [None] for [as_begin]
    is a plugin that is not configured. *)
Record attest_script := AttestScript {
  as_begin : option (string -> result serverPluginAttempt);
  as_recv : result attestRequest;
  as_beginCtx : option error;
  as_beginStreamCtx : option error;
  as_sendChallenge : option error;
  as_receive : receive attestRequest;
  as_responseCtx : option error;
  as_verifyCtx : option error;
  as_verifyStreamCtx : option error;
  as_sendAttributes : option error;
  as_endCtx : option error }.

(** After [begin]: the node's label, then the effects from [EBegin] to
    [EClose], the outcome, stage and reason when the handler returns. *)
Definition attest_attempt (s : attest_script) (attempt : serverPluginAttempt)
    : result unit * list effect * (string * string * string) :=
  match as_sendChallenge s with
  | Some e => (Err e, [], ("failure", "challenge", "stream_error"))
  | None =>
      let sent := [ESent (MsgChallenge (sa_challenge attempt))] in
      match received (as_receive s) with
      | Err e => let '(stage, reason) := classifyError (as_responseCtx s) e "response" "stream_error" in
                 (Err e, sent, ("failure", stage, reason))
      | Panic p => (Panic p, sent, ("failure", "response", "stream_error"))
      | Ok message =>
          let required := (Err (ErrStatus CodeInvalidArgument "challenge response is required"), sent,
                           ("failure", "response", "invalid_response")) in
          match message with
          | ReqResponse response =>
              if response =? "" then required
              else match sa_verify attempt response with
                   | Err e => let '(stage, reason) := classifyError (as_verifyCtx s) e "verify" "invalid_proof" in
                              (Err (attestationError (as_verifyStreamCtx s) CodeUnauthenticated
                                 "attestation verification failed"), sent, ("failure", stage, reason))
                   | Panic p => (Panic p, sent, ("failure", "verify", "invalid_proof"))
                   | Ok None => (Err (ErrStatus CodeInternal "attestation result has no agent ID"), sent,
                                 ("failure", "attributes", "invalid_result"))
                   | Ok (Some res) =>
                       if AgentID res =? "" then
                         (Err (ErrStatus CodeInternal "attestation result has no agent ID"), sent,
                          ("failure", "attributes", "invalid_result"))
                       else match as_sendAttributes s with
                            | Some e => (Err e, sent, ("failure", "attributes", "stream_error"))
                            | None => (Ok tt, sent ++ [ESent (MsgAttributes (AgentID res) (SelectorValues res) true)],
                                       ("success", "attributes", "attributes_sent"))
                            end
                   end
          | _ => required
          end
      end
  end.

(** The label of the stream: the configured node that the payload names. *)
Definition metric_node (nodes : gmap string node) (payload : string) : string :=
  match (decodeJSON payload : result request) with
  | Ok claim => match nodes !! rq_FQDN claim with Some n => n_name n | None => "unknown" end
  | _ => "unknown"
  end.

Definition Attest (nodes : gmap string node) (s : attest_script) : result unit * list effect :=
  let finish node outcome stage reason r effects :=
    (r, effects ++ [record_effect node outcome stage reason (as_endCtx s) r]) in
  match as_begin s with
  | None => finish "unknown" "failure" "start" "not_configured"
              (Err (ErrStatus CodeFailedPrecondition "plugin is not configured")) []
  | Some begin =>
      match as_recv s with
      | Err e => finish "unknown" "failure" "payload" "stream_error" (Err e) []
      | Panic p => finish "unknown" "failure" "payload" "stream_error" (Panic p) []
      | Ok message =>
          let required := finish "unknown" "failure" "payload" "invalid_payload"
            (Err (ErrStatus CodeInvalidArgument "attestation payload is required")) [] in
          match message with
          | ReqPayload payload =>
              if payload =? "" then required
              else
                let node := metric_node nodes payload in
                match begin payload with
                | Err e =>
                    let '(stage, reason) := classifyError (as_beginCtx s) e "payload" "invalid_payload" in
                    finish node "failure" stage reason
                      (Err (attestationError (as_beginStreamCtx s) CodeUnauthenticated "cannot start server attestation")) []
                | Panic p => finish node "failure" "payload" "invalid_payload" (Panic p) []
                | Ok attempt =>
                    let '(r, effects, (outcome, stage, reason)) := attest_attempt s attempt in
                    finish node outcome stage reason r (EBegin :: effects ++ [EClose])
                end
          | _ => required
          end
      end
  end.

(** ** The agent stream *)
Record agentPluginAttempt := AgentPluginAttempt {
  pa_payload : string;
  pa_respond : string -> result string }.

Record aid_script := AidScript {
  ad_begin : result agentPluginAttempt;
  ad_beginCtx : option error;
  ad_sendPayload : option error;
  ad_receive : receive (option string);
  ad_respondCtx : option error;
  ad_respondErrCtx : option error;
  ad_sendCtx : option error;
  ad_sendResponse : option error;
  ad_receiveEnd : receive (option string);
  ad_endCtx : option error }.

(** After [begin]: effects until [Close], whether the submission was recorded,
    and the outcome, stage and reason for the deferred record otherwise. *)
Definition aid_attempt (fqdn : string) (s : aid_script) (attempt : agentPluginAttempt)
    : result unit * list effect * bool * (string * string * string) :=
  match ad_sendPayload s with
  | Some e => (Err e, [], false, ("failure", "payload", "stream_error"))
  | None =>
      let sent := [ESent (MsgPayload (pa_payload attempt))] in
      match received (ad_receive s) with
      | Err e =>
          if error_is ErrEOF e then (Ok tt, sent, false, ("skipped", "challenge", "no_challenge"))
          else (Err e, sent, false, ("failure", "challenge", "stream_error"))
      | Panic p => (Panic p, sent, false, ("failure", "challenge", "stream_error"))
      | Ok challenge =>
          let required := (Err (ErrStatus CodeInvalidArgument "challenge is required"), sent, false,
                           ("failure", "challenge", "invalid_challenge")) in
          match challenge with
          | None => required
          | Some raw =>
              if raw =? "" then required
              else match pa_respond attempt raw with
                   | Err e =>
                       let '(stage, reason) := classifyError (ad_respondCtx s) e "challenge" "invalid_challenge" in
                       (Err (attestationError (ad_respondErrCtx s) CodeUnauthenticated
                          "cannot answer attestation challenge"), sent, false, ("failure", stage, reason))
                   | Panic p => (Panic p, sent, false, ("failure", "challenge", "invalid_challenge"))
                   | Ok response =>
                       match ad_sendResponse s with
                       | Some e => (Err e, sent, false, ("failure", "response", "stream_error"))
                       | None =>
                           let submitted := ad_sendCtx s =? None in
                           let effects := sent ++ [ESent (MsgResponse response)] ++
                             (if submitted then [ERecord fqdn "success" "response" "proof_submitted"] else []) in
                           let r := match received (ad_receiveEnd s) with
                                    | Err e => if error_is ErrEOF e then Ok tt else Err e
                                    | Panic p => Panic p
                                    | Ok _ => Err (ErrStatus CodeInvalidArgument "unexpected additional challenge")
                                    end in
                           (r, effects, submitted, ("failure", "response", "stream_error"))
                       end
                   end
          end
      end
  end.

Definition aidAttestation (fqdn : string) (s : aid_script) : result unit * list effect :=
  let finish outcome stage reason (submitted : bool) r effects :=
    (r, [EPending fqdn 1] ++ effects ++ [EPending fqdn (-1)] ++
        (if submitted then [] else [record_effect fqdn outcome stage reason (ad_endCtx s) r])) in
  match ad_begin s with
  | Err _ => finish "failure" "start" "internal" false
               (Err (attestationError (ad_beginCtx s) CodeInternal "cannot start agent attestation")) []
  | Panic p => finish "failure" "start" "internal" false (Panic p) []
  | Ok attempt =>
      let '(r, effects, submitted, (outcome, stage, reason)) := aid_attempt fqdn s attempt in
      finish outcome stage reason submitted r (EBegin :: effects ++ [EClose])
  end.

(** [AidAttestation]: one snapshot of the configuration for the stream. *)
Definition AidAttestation (config : option AgentConfig) (script : AgentConfig -> aid_script)
    : result unit * list effect :=
  match config with
  | None => (Err (ErrStatus CodeFailedPrecondition "plugin is not configured"),
             [ERecord "unknown" "failure" "start" "not_configured"])
  | Some cfg => aidAttestation (ac_FQDN cfg) (script cfg)
  end.

(** ** Configuration *)

(** A [ConfigureRequest]: the HCL text and the trust domain of the core. *)
Record configureRequest := ConfigureRequest { cq_hcl : string; cq_trustDomain : string }.

Definition agentConfig_zero : AgentConfig :=
  {| ac_FQDN := ""; ac_TrustDomain := ""; ac_ControlSocket := ""; ac_MetricsAddress := "" |}.
Definition agentConfig_fields : list (field AgentConfig) :=
  [mk_field "fqdn" ac_FQDN (fun c x => {| ac_FQDN := x; ac_TrustDomain := ac_TrustDomain c;
     ac_ControlSocket := ac_ControlSocket c; ac_MetricsAddress := ac_MetricsAddress c |}) dec_string;
   mk_field "trust_domain" ac_TrustDomain (fun c x => {| ac_FQDN := ac_FQDN c; ac_TrustDomain := x;
     ac_ControlSocket := ac_ControlSocket c; ac_MetricsAddress := ac_MetricsAddress c |}) dec_string;
   mk_field "control_socket" ac_ControlSocket (fun c x => {| ac_FQDN := ac_FQDN c; ac_TrustDomain := ac_TrustDomain c;
     ac_ControlSocket := x; ac_MetricsAddress := ac_MetricsAddress c |}) dec_string;
   mk_field "metrics_address" ac_MetricsAddress (fun c x => {| ac_FQDN := ac_FQDN c; ac_TrustDomain := ac_TrustDomain c;
     ac_ControlSocket := ac_ControlSocket c; ac_MetricsAddress := x |}) dec_string].

Definition nodePolicy_zero : NodePolicy := {| np_FQDN := ""; np_Addresses := [] |}.
Definition nodePolicy_fields : list (field NodePolicy) :=
  [mk_field "fqdn" np_FQDN (fun p x => {| np_FQDN := x; np_Addresses := np_Addresses p |}) dec_string;
   mk_field "addresses" np_Addresses (fun p x => {| np_FQDN := np_FQDN p; np_Addresses := x |})
     (dec_slice dec_string "")].

Definition serverConfig_zero : ServerConfig :=
  {| sc_TrustDomain := ""; sc_Nodes := ∅; sc_Port := 0; sc_TrustHTTPTransport := false; sc_MetricsAddress := "" |}.
Definition serverConfig_fields : list (field ServerConfig) :=
  [mk_field "trust_domain" sc_TrustDomain (fun c x => {| sc_TrustDomain := x; sc_Nodes := sc_Nodes c;
     sc_Port := sc_Port c; sc_TrustHTTPTransport := sc_TrustHTTPTransport c;
     sc_MetricsAddress := sc_MetricsAddress c |}) dec_string;
   mk_field "nodes" sc_Nodes (fun c x => {| sc_TrustDomain := sc_TrustDomain c; sc_Nodes := x;
     sc_Port := sc_Port c; sc_TrustHTTPTransport := sc_TrustHTTPTransport c;
     sc_MetricsAddress := sc_MetricsAddress c |})
     (dec_map (dec_struct true nodePolicy_fields) nodePolicy_zero);
   mk_field "port" sc_Port (fun c x => {| sc_TrustDomain := sc_TrustDomain c; sc_Nodes := sc_Nodes c;
     sc_Port := x; sc_TrustHTTPTransport := sc_TrustHTTPTransport c;
     sc_MetricsAddress := sc_MetricsAddress c |}) dec_int;
   mk_field "trust_http_transport" sc_TrustHTTPTransport (fun c x => {| sc_TrustDomain := sc_TrustDomain c;
     sc_Nodes := sc_Nodes c; sc_Port := sc_Port c; sc_TrustHTTPTransport := x;
     sc_MetricsAddress := sc_MetricsAddress c |}) dec_bool;
   mk_field "metrics_address" sc_MetricsAddress (fun c x => {| sc_TrustDomain := sc_TrustDomain c;
     sc_Nodes := sc_Nodes c; sc_Port := sc_Port c; sc_TrustHTTPTransport := sc_TrustHTTPTransport c;
     sc_MetricsAddress := x |}) dec_string].

Section configuration.
(* [hcl.Decode] of the plugin data, giving its [config_file]; file contents *)
Variable hcl_config_file : string -> option string.
Variable open_file : string -> option string.

Definition readPluginConfig {A} (fields : list (field A)) (zero : A) (req : option configureRequest) : result A :=
  match req with
  | None => Err (ErrStatus CodeInvalidArgument "configuration is required")
  | Some q =>
      match hcl_config_file (cq_hcl q) with
      | None => Err (ErrStatus CodeInvalidArgument "invalid plugin_data HCL")
      | Some path =>
          reject path =? "" with ErrStatus CodeInvalidArgument "config_file is required";
          match open_file path with
          | None => Err (ErrStatus CodeInvalidArgument "cannot open config_file")
          | Some data =>
              match parse data with
              | None => Err (ErrStatus CodeInvalidArgument "invalid config_file JSON")
              | Some (v, rest) =>
                  match dec_struct true fields zero v with
                  | None => Err (ErrStatus CodeInvalidArgument "invalid config_file JSON")
                  | Some target =>
                      reject skip_ws rest <>? ""
                      with ErrStatus CodeInvalidArgument "config_file must contain one JSON object";
                      Ok target
                  end
              end
          end
      end
  end.

Definition checkTrustDomain (req : option configureRequest) (trustDomain : string) : result unit :=
  let core := match req with Some q => cq_trustDomain q | None => "" end in
  reject (trustDomain =? "") || (core <>? trustDomain)
  with ErrStatus CodeInvalidArgument "JSON trust_domain must match the SPIRE trust domain";
  Ok tt.

Record AgentPlugin := MkAgentPlugin {
  ap_config : option AgentConfig;
  ap_metrics : option metricsRegistry;
  ap_listener : metricsListener }.

Definition metrics_of (om : option metricsRegistry) (component : string) : result metricsRegistry :=
  match om with Some m => Ok m | None => newMetrics component end.

Definition agent_Configure (p : AgentPlugin) (req : option configureRequest) (listen : option nat)
    (closeErr : result unit) (socks : sockets) : result unit * AgentPlugin * sockets :=
  let checks :=
    let! cfg := readPluginConfig agentConfig_fields agentConfig_zero req in
    let! _ := checkTrustDomain req (ac_TrustDomain cfg) in
    match validateAgentConfig cfg with
    | Ok _ => Ok cfg
    | Err _ => Err (ErrStatus CodeInvalidArgument "invalid agent configuration")
    | Panic m => Panic m
    end in
  match checks, metrics_of (ap_metrics p) "agent" with
  | Ok cfg, Ok m =>
      match configure (ap_listener p) (ac_MetricsAddress cfg) listen closeErr socks with
      | (Ok _, l, socks') => (Ok tt, MkAgentPlugin (Some cfg) (Some (register m [ac_FQDN cfg])) l, socks')
      | (_, l, socks') =>
          (Err (ErrStatus CodeInvalidArgument "cannot configure metrics listener"),
           MkAgentPlugin (ap_config p) (Some m) l, socks')
      end
  | Err e, _ => (Err e, p, socks)
  | Panic m, _ => (Panic m, p, socks)
  | _, Err e => (Err e, p, socks)
  | _, Panic m => (Panic m, p, socks)
  end.

Record ServerPlugin := MkServerPlugin {
  sp_server : option Server;
  sp_nodes : gmap string node;
  sp_metrics : option metricsRegistry;
  sp_listener : metricsListener }.

(** [order] is the order in which [NewServer] ranges over the nodes. *)
Definition server_Configure (p : ServerPlugin) (req : option configureRequest)
    (order : list (string * NodePolicy)) (listen : option nat) (closeErr : result unit) (socks : sockets)
    : result unit * ServerPlugin * sockets :=
  let checks :=
    let! cfg := readPluginConfig serverConfig_fields serverConfig_zero req in
    let! _ := checkTrustDomain req (sc_TrustDomain cfg) in
    match NewServer cfg order with
    | Ok server => Ok server
    | Err _ => Err (ErrStatus CodeInvalidArgument "invalid server configuration")
    | Panic m => Panic m
    end in
  match checks, metrics_of (sp_metrics p) "server" with
  | Ok server, Ok m =>
      match configure (sp_listener p) (sc_MetricsAddress (s_config server)) listen closeErr socks with
      | (Ok _, l, socks') =>
          let m' := set_capacity (register m ((fun e => n_name (snd e)) <$> map_to_list (s_nodes server))) 32 in
          (Ok tt, MkServerPlugin (Some server) (s_nodes server) (Some m') l, socks')
      | (_, l, socks') =>
          (Err (ErrStatus CodeInvalidArgument "cannot configure metrics listener"),
           MkServerPlugin (sp_server p) (sp_nodes p) (Some m) l, socks')
      end
  | Err e, _ => (Err e, p, socks)
  | Panic m, _ => (Panic m, p, socks)
  | _, Err e => (Err e, p, socks)
  | _, Panic m => (Panic m, p, socks)
  end.
End configuration.

(** ** Lemmas *)
Definition is_record (e : effect) : bool := match e with ERecord _ _ _ _ => true | _ => false end.

(** Labels of the vocabulary. *)
Definition vocabulary_record (e : effect) : Prop :=
  match e with
  | ERecord _ outcome stage reason => outcome ∈ outcomes /\ stage ∈ stages /\ reason ∈ reasons
  | _ => True
  end.

(** An error that carries no stage and reason, or ones of the vocabulary. *)
Definition observed_ok (e : error) : Prop :=
  forall stage reason, as_observed e = Some (stage, reason) -> stage ∈ stages /\ reason ∈ reasons.

Definition err_ok {A} (r : result A) : Prop := forall e, r = Err e -> observed_ok e.

Lemma classify_vocabulary ctxErr e stage reason :
  observed_ok e -> stage ∈ stages -> reason ∈ reasons ->
  (classifyError ctxErr e stage reason).1 ∈ stages /\ (classifyError ctxErr e stage reason).2 ∈ reasons.
Proof.
  intros Ho Hs Hr. unfold classifyError, observed_ok in *.
  destruct (as_observed e) as [[st re]|]; simpl.
  - destruct (Ho st re eq_refl). repeat case_match; simpl; split; done || vocabulary.
  - repeat case_match; simpl; split; done || vocabulary.
Qed.

Lemma record_vocabulary {A} node outcome stage reason ctxErr (r : result A) :
  err_ok r -> outcome ∈ outcomes -> stage ∈ stages -> reason ∈ reasons ->
  vocabulary_record (record_effect node outcome stage reason ctxErr r).
Proof.
  intros Hr Ho Hs Hre. destruct r as [|e|]; simpl; [done| |done].
  pose proof (classify_vocabulary ctxErr e stage reason (Hr e eq_refl) Hs Hre) as [H1 H2].
  destruct (classifyError _ _ _ _). done.
Qed.

Lemma record_effect_shape {A} node outcome stage reason ctxErr (r : result A) :
  exists stage' reason', record_effect node outcome stage reason ctxErr r = ERecord node outcome stage' reason'.
Proof. unfold record_effect. destruct r; eauto. destruct (classifyError _ _ _ _); eauto. Qed.

Lemma fromContext_ok e : observed_ok (fromContextError e).
Proof. unfold fromContextError, observed_ok. intros st re. repeat case_match; done. Qed.

Lemma status_ok code msg : observed_ok (ErrStatus code msg).
Proof. by intros st re. Qed.

Lemma attestationError_ok ctxErr code msg : observed_ok (attestationError ctxErr code msg).
Proof. destruct ctxErr; [apply fromContext_ok|apply status_ok]. Qed.

Lemma classified_err_ok {A} (r : result A) : classified r -> err_ok r.
Proof. intros H e ->. simpl in H. destruct H as (i & st & re & -> & ? & ?). by intros st' re' [= <- <-]. Qed.

Lemma err_ok_Err {A} e : observed_ok e -> err_ok (Err e : result A).
Proof. by intros H e' [= <-]. Qed.

(** The part of a server stream between [begin] and [Close]. *)
Lemma attest_attempt_spec s attempt r effects outcome stage reason :
  attest_attempt s attempt = (r, effects, (outcome, stage, reason)) ->
  Forall (fun e => is_record e = false) effects /\ EBegin ∉ effects /\ EClose ∉ effects /\
  (outcome = "success" <-> r = Ok tt) /\
  (r = Ok tt -> exists response res, received (as_receive s) = Ok (ReqResponse response) /\
     sa_verify attempt response = Ok (Some res) /\ AgentID res <> "" /\
     effects = [ESent (MsgChallenge (sa_challenge attempt)); ESent (MsgAttributes (AgentID res) (SelectorValues res) true)]) /\
  (forall id sel again, ESent (MsgAttributes id sel again) ∈ effects -> r = Ok tt).
Proof.
  unfold attest_attempt. intros H.
  repeat first [case_match | destruct (classifyError _ _ _ _)]; simplify_eq/=; bprop;
    (split; [repeat constructor|]; split; [set_solver|]; split; [set_solver|]; split; [done|]; split; [done || eauto 10|set_solver]).
Qed.

Lemma aid_attempt_spec fqdn s attempt r effects submitted outcome stage reason :
  aid_attempt fqdn s attempt = (r, effects, submitted, (outcome, stage, reason)) ->
  EBegin ∉ effects /\ EClose ∉ effects /\ (forall n d, EPending n d ∉ effects) /\
  filter (fun e => is_record e = true) effects =
    (if submitted then [ERecord fqdn "success" "response" "proof_submitted"] else []) /\
  outcome <> "success" /\
  (submitted = true <-> ad_sendCtx s = None /\ exists response, ESent (MsgResponse response) ∈ effects) /\
  (forall response, ESent (MsgResponse response) ∈ effects ->
     exists raw, received (ad_receive s) = Ok (Some raw) /\ pa_respond attempt raw = Ok response).
Proof.
  unfold aid_attempt. intros H.
  repeat first [case_match | destruct (classifyError _ _ _ _)]; simplify_eq/=; bprop;
    split_and!; try done; try set_solver.
  all: try (case_bool_decide; set_solver).
  all: try (split; [done|]; intros (_ & response & Hin); set_solver).
Qed.

(** The shape of a server stream's exit. *)
Definition stream_exit (s : attest_script) (r : result unit) (effects : list effect) : Prop :=
  exists body node outcome stage reason,
    effects = body ++ [ERecord node outcome stage reason] /\ Forall (fun e => is_record e = false) body /\
    (body = [] \/ exists inner, body = EBegin :: inner ++ [EClose] /\ EBegin ∉ inner /\ EClose ∉ inner) /\
    (outcome = "success" <-> r = Ok tt) /\
    (forall id sel again, ESent (MsgAttributes id sel again) ∈ effects -> r = Ok tt) /\
    (r = Ok tt -> exists begin payload attempt response res,
       as_begin s = Some begin /\ as_recv s = Ok (ReqPayload payload) /\ begin payload = Ok attempt /\
       received (as_receive s) = Ok (ReqResponse response) /\ sa_verify attempt response = Ok (Some res) /\
       AgentID res <> "" /\
       body = [EBegin; ESent (MsgChallenge (sa_challenge attempt));
               ESent (MsgAttributes (AgentID res) (SelectorValues res) true); EClose]).

Lemma exit_before_attempt s node stage reason r :
  r <> Ok tt -> stream_exit s r ([] ++ [record_effect node "failure" stage reason (as_endCtx s) r]).
Proof.
  intros Hr. destruct (record_effect_shape node "failure" stage reason (as_endCtx s) r) as (st & re & ->).
  exists [], node, "failure", st, re. split_and!; [done|constructor|by left|by split|set_solver|done].
Qed.

Lemma exit_of_attempt s begin payload attempt node r effects outcome stage reason :
  as_begin s = Some begin -> as_recv s = Ok (ReqPayload payload) -> begin payload = Ok attempt ->
  attest_attempt s attempt = (r, effects, (outcome, stage, reason)) ->
  stream_exit s r ((EBegin :: effects ++ [EClose]) ++ [record_effect node outcome stage reason (as_endCtx s) r]).
Proof.
  intros Hb Hp Ha H. apply attest_attempt_spec in H as (Hrec & Hnb & Hnc & Hiff & Hok & Hattr).
  destruct (record_effect_shape node outcome stage reason (as_endCtx s) r) as (st & re & ->).
  exists (EBegin :: effects ++ [EClose]), node, outcome, st, re. split_and!; try done.
  - constructor; [done|]. apply Forall_app. split; [done|by repeat constructor].
  - right. eauto.
  - intros id sel again Hin. apply (Hattr id sel again). set_solver.
  - intros Hr. destruct (Hok Hr) as (response & res & Hrv & Hv & Hid & ->).
    exists begin, payload, attempt, response, res. by split_and!.
Qed.

Lemma attest_attempt_labels s attempt r effects outcome stage reason :
  (forall x, classified (sa_verify attempt x)) -> err_ok (received (as_receive s)) ->
  (forall e, as_sendChallenge s = Some e -> observed_ok e) ->
  (forall e, as_sendAttributes s = Some e -> observed_ok e) ->
  attest_attempt s attempt = (r, effects, (outcome, stage, reason)) ->
  err_ok r /\ outcome ∈ outcomes /\ stage ∈ stages /\ reason ∈ reasons.
Proof.
  intros Hv Hr Hc Ha H. unfold attest_attempt in H.
  assert (Ho : "success" ∈ outcomes /\ "failure" ∈ outcomes) by (split; apply list_elem_of_In; simpl; tauto).
  destruct (as_sendChallenge s) as [e|]; [simplify_eq; split_and!; try apply Ho; try vocabulary; by apply err_ok_Err, Hc|].
  destruct (received (as_receive s)) as [msg|e|m] eqn:Hrc.
  - destruct msg as [p|response|].
    1, 3: simplify_eq; split_and!; try apply Ho; try vocabulary; apply err_ok_Err, status_ok.
    destruct (response =? ""); [simplify_eq; split_and!; try apply Ho; try vocabulary; apply err_ok_Err, status_ok|].
    pose proof (classified_err_ok _ (Hv response)) as Hve.
    destruct (sa_verify attempt response) as [[res|]|e|m].
    + destruct (AgentID res =? ""); [simplify_eq; split_and!; try apply Ho; try vocabulary; apply err_ok_Err, status_ok|].
      destruct (as_sendAttributes s) as [e|]; simplify_eq; split_and!; try apply Ho; try vocabulary;
        [by apply err_ok_Err, Ha|by intros e].
    + simplify_eq. split_and!; try apply Ho; try vocabulary. apply err_ok_Err, status_ok.
    + pose proof (classify_vocabulary (as_verifyCtx s) e "verify" "invalid_proof" (Hve e eq_refl)
        ltac:(vocabulary) ltac:(vocabulary)) as [Hs1 Hs2].
      destruct (classifyError _ _ _ _). simplify_eq. split_and!; try apply Ho; try done.
      apply err_ok_Err, attestationError_ok.
    + simplify_eq. split_and!; try apply Ho; try vocabulary. by intros e.
  - pose proof (classify_vocabulary (as_responseCtx s) e "response" "stream_error" (Hr e eq_refl)
      ltac:(vocabulary) ltac:(vocabulary)) as [Hs1 Hs2].
    destruct (classifyError _ _ _ _). simplify_eq. split_and!; try apply Ho; try done. by apply err_ok_Err, Hr.
  - simplify_eq. split_and!; try apply Ho; try vocabulary. by intros e.
Qed.

Lemma metric_node_known nodes payload :
  metric_node nodes payload = "unknown" \/
  exists fqdn nd, nodes !! fqdn = Some nd /\ metric_node nodes payload = n_name nd.
Proof.
  unfold metric_node. destruct (decodeJSON payload) as [claim| |]; auto.
  destruct (nodes !! rq_FQDN claim) eqn:E; eauto.
Qed.

(** The labels of the only record of a stream. *)
Definition labels_ok (nodes : gmap string node) (effects : list effect) : Prop :=
  Forall vocabulary_record effects /\
  forall n o st re, ERecord n o st re ∈ effects ->
    n = "unknown" \/ exists fqdn nd, nodes !! fqdn = Some nd /\ n = n_name nd.

Lemma labels_finish nodes effects node outcome stage reason ctxErr (r : result unit) :
  Forall (fun e => is_record e = false) effects ->
  err_ok r -> outcome ∈ outcomes -> stage ∈ stages -> reason ∈ reasons ->
  node = "unknown" \/ (exists fqdn nd, nodes !! fqdn = Some nd /\ node = n_name nd) ->
  labels_ok nodes (effects ++ [record_effect node outcome stage reason ctxErr r]).
Proof.
  intros Hf He Ho Hs Hr Hn. split.
  - apply Forall_app. split; [|constructor; [by apply record_vocabulary|constructor]].
    eapply Forall_impl; [exact Hf|]. by intros [].
  - intros n o st re [Hin|Hin]%elem_of_app.
    + rewrite Forall_forall in Hf. by apply Hf in Hin.
    + apply list_elem_of_singleton in Hin.
      destruct (record_effect_shape node outcome stage reason ctxErr r) as (st' & re' & E).
      rewrite E in Hin. by injection Hin as -> _ _ _.
Qed.

(** ** Correctness of the adapters *)

(** C31: Every exit of a server stream records exactly one outcome, as its last
    effect; an attempt that began is closed exactly once, right before;
    the record says success exactly when the handler returns no error, which is
    exactly when the agent attributes were sent, and these are the non-empty
    identity that [Verify] returned for the agent's response, with the right to
    attest again. *)
Theorem attest_exits nodes s r effects :
  Attest nodes s = (r, effects) -> stream_exit s r effects.
Proof.
  unfold Attest. intros H. destruct (as_begin s) as [begin|] eqn:Hb.
  2: { apply pair_equal_spec in H as [<- <-]. by apply exit_before_attempt. }
  destruct (as_recv s) as [msg|e|p] eqn:Hr; [|apply pair_equal_spec in H as [<- <-]; by apply exit_before_attempt..].
  destruct msg as [payload|rsp|]; [|apply pair_equal_spec in H as [<- <-]; by apply exit_before_attempt..].
  destruct (payload =? ""); [apply pair_equal_spec in H as [<- <-]; by apply exit_before_attempt|].
  destruct (begin payload) as [attempt|e|p] eqn:Ha.
  - destruct (attest_attempt s attempt) as [[r0 eff] [[o st] re]] eqn:Hat. apply pair_equal_spec in H as [<- <-].
    by eapply exit_of_attempt.
  - destruct (classifyError _ _ _ _) as [st re]. apply pair_equal_spec in H as [<- <-]. by apply exit_before_attempt.
  - apply pair_equal_spec in H as [<- <-]. by apply exit_before_attempt.
Qed.

(** The labels of a server stream are bounded: when the attempt classifies
    its errors and the stream's errors are not the package's own, the recorded
    labels are in the vocabulary and the node is a configured one or unknown. *)
Theorem attest_labels nodes s r effects :
  (forall begin p, as_begin s = Some begin -> classified (begin p)) ->
  (forall begin p attempt x, as_begin s = Some begin -> begin p = Ok attempt -> classified (sa_verify attempt x)) ->
  err_ok (as_recv s) -> err_ok (received (as_receive s)) ->
  (forall e, as_sendChallenge s = Some e -> observed_ok e) ->
  (forall e, as_sendAttributes s = Some e -> observed_ok e) ->
  Attest nodes s = (r, effects) ->
  labels_ok nodes effects.
Proof.
  intros Hbc Hvc Hrv Hrc Hc Ha H. unfold Attest in H.
  assert (Hfail : "failure" ∈ outcomes) by (apply list_elem_of_In; simpl; tauto).
  destruct (as_begin s) as [begin|] eqn:Hb.
  2: { apply pair_equal_spec in H as [<- <-]. apply labels_finish; auto with classify. apply err_ok_Err, status_ok. }
  destruct (as_recv s) as [msg|e|p] eqn:Hr.
  2: { apply pair_equal_spec in H as [<- <-]. apply labels_finish; auto with classify. by apply err_ok_Err, Hrv. }
  2: { apply pair_equal_spec in H as [<- <-]. apply labels_finish; auto with classify. by intros ? ?. }
  destruct msg as [payload|rsp|].
  2, 3: apply pair_equal_spec in H as [<- <-]; apply labels_finish; auto with classify; apply err_ok_Err, status_ok.
  destruct (payload =? "").
  { apply pair_equal_spec in H as [<- <-]. apply labels_finish; auto with classify. apply err_ok_Err, status_ok. }
  pose proof (metric_node_known nodes payload) as Hn.
  pose proof (Hbc begin payload eq_refl) as Hcb%classified_err_ok.
  destruct (begin payload) as [attempt|e|p] eqn:Hp.
  - destruct (attest_attempt s attempt) as [[r0 eff] [[o st] re]] eqn:Hat.
    pose proof (attest_attempt_spec _ _ _ _ _ _ _ Hat) as (Hrec & _).
    apply attest_attempt_labels in Hat as (He & Ho & Hs & Hre); try done; [|by intros x; eapply Hvc].
    apply pair_equal_spec in H as [<- <-]. apply labels_finish; try done.
    constructor; [done|]. apply Forall_app. split; [done|by repeat constructor].
  - pose proof (classify_vocabulary (as_beginCtx s) e "payload" "invalid_payload" (Hcb e eq_refl)
      ltac:(vocabulary) ltac:(vocabulary)) as [Hs1 Hs2].
    destruct (classifyError _ _ _ _) as [st re]. apply pair_equal_spec in H as [<- <-].
    apply labels_finish; try done. apply err_ok_Err, attestationError_ok.
  - apply pair_equal_spec in H as [<- <-]. apply labels_finish; auto with classify. by intros ? ?.
Qed.

(** The change of the pending gauge over a trace. *)
Definition pending_sum (effects : list effect) : Z :=
  foldr (fun e acc => match e with EPending _ d => d + acc | _ => acc end) 0 effects.

Lemma pending_sum_app l k : pending_sum (l ++ k) = pending_sum l + pending_sum k.
Proof. induction l as [|e l IH]; simpl; [done|]. destruct e; simpl; lia. Qed.

Lemma pending_sum_zero effects : (forall n d, EPending n d ∉ effects) -> pending_sum effects = 0.
Proof.
  induction effects as [|e effects IH]; intros H; [done|]. simpl.
  assert (IH' : pending_sum effects = 0) by (apply IH; set_solver).
  destruct e; try done. exfalso. eapply (H node delta). by left.
Qed.

(** Every exit of an agent stream records exactly one outcome and leaves
    the pending gauge where it was; an attempt that began is closed; and the
    record says success exactly when the response, which the attempt computed
    for the received challenge, was sent while the context was alive. *)
Theorem aid_exits fqdn s r effects :
  aidAttestation fqdn s = (r, effects) ->
  length (filter (fun e => is_record e = true) effects) = 1%nat /\
  pending_sum effects = 0 /\ (EBegin ∈ effects -> EClose ∈ effects) /\
  ((exists n st re, ERecord n "success" st re ∈ effects) <->
     ad_sendCtx s = None /\ exists response, ESent (MsgResponse response) ∈ effects) /\
  (forall response, ESent (MsgResponse response) ∈ effects ->
     exists attempt raw, ad_begin s = Ok attempt /\ received (ad_receive s) = Ok (Some raw) /\
       pa_respond attempt raw = Ok response).
Proof.
  unfold aidAttestation. destruct (ad_begin s) as [attempt|e|p] eqn:Hb; intros H.
  - destruct (aid_attempt fqdn s attempt) as [[[r0 eff] sub] [[o st] re]] eqn:Ha.
    apply aid_attempt_spec in Ha as (Hnb & Hnc & Hnp & Hrec & Ho & Hsub & Hresp).
    apply pair_equal_spec in H as [<- <-].
    destruct (record_effect_shape fqdn o st re (ad_endCtx s) r0) as (st' & re' & Hre). rewrite Hre.
    split_and!.
    + rewrite !filter_app, filter_cons_False, filter_nil by done. rewrite filter_cons_False, filter_app by done.
      rewrite Hrec. by destruct sub.
    + rewrite !pending_sum_app. simpl. rewrite pending_sum_app, (pending_sum_zero eff Hnp). by destruct sub.
    + set_solver.
    + assert (Hin : forall n st re, ERecord n "success" st re ∈ eff -> sub = true).
      { intros n st0 re0 Hin. assert (Hf : ERecord n "success" st0 re0 ∈ filter (fun e => is_record e = true) eff)
          by (by apply list_elem_of_filter). rewrite Hrec in Hf. destruct sub; [done|]. by apply not_elem_of_nil in Hf. }
      split.
      * intros (n & st0 & re0 & Hr).
        assert (Hs : sub = true); [|apply Hsub in Hs as (Hs & x & Hx); split; [done|]; exists x; set_solver].
        destruct sub; [done|]. rewrite !elem_of_app, !elem_of_cons, !elem_of_app in Hr.
        destruct Hr as [[?|?]|[[?|[Hr|?]]|[[?|?]|[?|?]]]]; set_solver.
      * intros (Hc & x & Hx). assert (Hs : sub = true).
        { apply Hsub. split; [done|]. exists x. destruct sub; set_solver. }
        exists fqdn, "response", "proof_submitted". subst sub.
        assert (Hf : ERecord fqdn "success" "response" "proof_submitted" ∈ filter (fun e => is_record e = true) eff)
          by (rewrite Hrec; by left). apply list_elem_of_filter in Hf as [_ Hf]. set_solver.
    + intros x Hx. destruct (Hresp x) as (raw & Hr1 & Hr2); [destruct sub; set_solver|]. eauto.
  - apply pair_equal_spec in H as [<- <-].
    destruct (record_effect_shape fqdn "failure" "start" "internal" (ad_endCtx s)
      (Err (attestationError (ad_beginCtx s) CodeInternal "cannot start agent attestation") : result unit)) as (st & re & ->).
    split_and!; [done|done|set_solver|set_solver|set_solver].
  - apply pair_equal_spec in H as [<- <-]. simpl. split_and!; [done|done|set_solver|set_solver|set_solver].
Qed.

Lemma register1_nodes m n : mnodes (register1 m n) = {[n]} ∪ mnodes m.
Proof. unfold register1. by destruct (lastSuccess m !! n). Qed.

Lemma register_nodes m l n : n ∈ mnodes (register m l) <-> n ∈ l \/ n ∈ mnodes m.
Proof.
  revert m. induction l as [|x l IH]; intros m; [set_solver|].
  unfold register in *. cbn [foldl]. rewrite IH, register1_nodes. set_solver.
Qed.

Lemma NewServer_config config order s : NewServer config order = Ok s -> s_config s = config.
Proof. unfold NewServer. intros H. go_inv H. by subst. Qed.

(** Configuring the server plugin is atomic.  A request that fails keeps
    the server and node table in use; one that succeeds installs the server
    that [NewServer] builds from the JSON file, whose trust domain is the
    core's, with every node registered for metrics and the listener serving
    the configured address. *)
Theorem server_configure_atomic hcl files p req order listen closeErr socks r p' socks' :
  listener_inv (sp_listener p) socks -> (forall fd, listen = Some fd -> socks !! fd = None) ->
  server_Configure hcl files p req order listen closeErr socks = (r, p', socks') ->
  listener_inv (sp_listener p') socks' /\
  (is_ok r = false -> sp_server p' = sp_server p /\ sp_nodes p' = sp_nodes p) /\
  (r = Ok tt -> exists cfg server m q,
     req = Some q /\ readPluginConfig hcl files serverConfig_fields serverConfig_zero req = Ok cfg /\
     sc_TrustDomain cfg = cq_trustDomain q /\ NewServer cfg order = Ok server /\
     p' = MkServerPlugin (Some server) (s_nodes server) (Some m) (sp_listener p') /\
     l_address (sp_listener p') = sc_MetricsAddress cfg /\ capacity m = 32 /\
     forall fqdn n, s_nodes server !! fqdn = Some n -> n_name n ∈ mnodes m).
Proof.
  intros Hi Hfresh H. unfold server_Configure in H.
  set (checks := rbind _ _) in H. destruct checks as [server|e|m0] eqn:Hc; [|by simplify_eq..].
  subst checks. apply rbind_Ok in Hc as (cfg & Hcfg & Hc). apply rbind_Ok in Hc as ([] & Htd & Hc).
  destruct (NewServer cfg order) as [srv| |] eqn:Hnew; simplify_eq.
  destruct (metrics_of (sp_metrics p) "server") as [m|e|m0] eqn:Hm; [|by simplify_eq..].
  destruct (configure _ _ _ _ _) as [[rc l] sk] eqn:Hconf.
  pose proof (configure_spec _ _ _ _ _ _ _ _ Hi Hfresh Hconf) as (Hi' & Haddr & _).
  assert (Hsc : s_config server = cfg) by (by apply NewServer_config in Hnew).
  destruct rc as [[]|e|m0]; simplify_eq/=; [|by split_and!..].
  split_and!; [done|done|]. intros _.
  destruct req as [q|]; [|done].
  exists (s_config server), server. eexists. exists q. split_and!; try done; [|by apply Haddr|].
  - unfold checkTrustDomain in Htd. destruct (_ || _) eqn:E in Htd; [done|]. by bprop.
  - intros fqdn n Hn. simpl. apply register_nodes. left. apply list_elem_of_fmap. exists (fqdn, n).
    split; [done|by apply elem_of_map_to_list].
Qed.

(** ** Concrete instances *)
Module AdapterExamples.
Import PlainJose ProtocolExamples.

Definition quiet {T} (r : result T) : receive T := Receive None None (Completed r None None).
Definition granted : Result := {| AgentID := "spiffe://nyaw.xyz/spire/agent/http_fqdn/eihort"; SelectorValues := ["fqdn:eihort.nyaw.xyz"] |}.
Definition attempt : serverPluginAttempt := ServerPluginAttempt "challenge" (fun _ => Ok (Some granted)).
Definition script : attest_script :=
  AttestScript (Some (fun _ => Ok attempt)) (Ok (ReqPayload "payload")) None None None (quiet (Ok (ReqResponse "answer")))
    None None None None None.
Definition trace : list effect :=
  [EBegin; ESent (MsgChallenge "challenge");
   ESent (MsgAttributes "spiffe://nyaw.xyz/spire/agent/http_fqdn/eihort" ["fqdn:eihort.nyaw.xyz"] true); EClose;
   ERecord "unknown" "success" "attributes" "attributes_sent"].

Lemma attest_script_trace : Attest ∅ script = (Ok tt, trace).
Proof. reflexivity. Qed.

Lemma attest_exits_witness : stream_exit script (Ok tt) trace.
Proof. apply (attest_exits ∅ script (Ok tt) trace). exact attest_script_trace. Defined.

Lemma attest_labels_witness : labels_ok ∅ trace.
Proof.
  apply (attest_labels ∅ script (Ok tt) trace).
  - intros begin p [= <-]. exact I.
  - intros begin p a x [= <-] [= <-]. exact I.
  - intros e [=].
  - intros e [=].
  - intros e [=].
  - intros e [=].
  - exact attest_script_trace.
Defined.

Definition aid : aid_script :=
  AidScript (Ok (AgentPluginAttempt "payload" (fun _ => Ok "answer"))) None None (quiet (Ok (Some "challenge")))
    None None None None (quiet (Err ErrEOF)) None.
Definition aid_trace : list effect :=
  [EPending "eihort.nyaw.xyz" 1; EBegin; ESent (MsgPayload "payload"); ESent (MsgResponse "answer");
   ERecord "eihort.nyaw.xyz" "success" "response" "proof_submitted"; EClose; EPending "eihort.nyaw.xyz" (-1)].

Lemma aid_exits_witness : pending_sum aid_trace = 0.
Proof.
  assert (H : aidAttestation "eihort.nyaw.xyz" aid = (Ok tt, aid_trace)) by reflexivity.
  apply (aid_exits "eihort.nyaw.xyz" aid (Ok tt) aid_trace H).
Defined.

(** The configuration file names the server of [ServerExamples]. *)
Definition dq : string := String (char 34) "".
Definition qt (s : string) : string := dq +:+ s +:+ dq.
Definition file : string :=
  "{" +:+ qt "trust_domain" +:+ ":" +:+ qt "nyaw.xyz" +:+ "," +:+ qt "nodes" +:+ ":{" +:+ qt "eihort" +:+ ":{" +:+
  qt "fqdn" +:+ ":" +:+ qt "eihort.nyaw.xyz" +:+ "," +:+ qt "addresses" +:+ ":[" +:+ qt "198.51.100.7" +:+ "," +:+
  qt "2001:db8::7" +:+ "]}}," +:+ qt "port" +:+ ":18091," +:+ qt "trust_http_transport" +:+ ":true," +:+
  qt "metrics_address" +:+ ":" +:+ qt "127.0.0.1:9108" +:+ "}".
Definition hcl (_ : string) : option string := Some "/etc/spire/server.json".
Definition files (_ : string) : option string := Some file.
Definition plugin0 : ServerPlugin := MkServerPlugin None ∅ None (Listener "" None None).
Definition req : option configureRequest := Some (ConfigureRequest "config" "nyaw.xyz").
Definition configured : result unit * ServerPlugin * sockets :=
  server_Configure hcl files plugin0 req [("eihort", ServerExamples.policy)] (Some 7%nat) (Ok tt) ∅.

Lemma configured_ok : configured = (Ok tt, snd (fst configured), snd configured).
Proof.
  assert (H : fst (fst configured) = Ok tt) by (vm_compute; reflexivity).
  destruct configured as [[r p] sk]. simpl in *. by rewrite H.
Qed.

Lemma server_configure_atomic_witness :
  exists cfg, readPluginConfig hcl files serverConfig_fields serverConfig_zero req = Ok cfg /\
    l_address (sp_listener (snd (fst configured))) = sc_MetricsAddress cfg.
Proof.
  destruct (server_configure_atomic hcl files plugin0 req [("eihort", ServerExamples.policy)] (Some 7%nat) (Ok tt) ∅
    (Ok tt) (snd (fst configured)) (snd configured)) as (_ & _ & H).
  - split; reflexivity.
  - intros fd _. reflexivity.
  - exact configured_ok.
  - destruct (H eq_refl) as (cfg & server & m & q & _ & Hc & _ & _ & _ & Ha & _).
    exists cfg. split; [exact Hc|exact Ha].
Defined.
End AdapterExamples.
