(* ===== verification/AttestMain.v ===== *)
(** * realm-node-attest: the processes

    Models the three commands under [src/pkgs/realm-node-attest/cmd] and the
    [Close] methods of the plugins in [adapters.go].  The responder parses its
    options, runs [RunResponder] (the transition system of [AttestRun]) and
    ends with an exit code.  A plugin process serves configuration requests in
    the order they come, as [pluginmain.Serve] of the SDK hands them over, and
    closes its plugin when serving ends. *)

From S2P Require Import Prelude GoStrings GoFlag Json NetIP AttestProtocol AttestMetrics AttestServer AttestResponder AttestRun AttestAgent AttestAdapters.

Open Scope Z_scope.
Open Scope go_scope.

(** ** The responder *)

(** How a command line ends: an exit code, and the configuration [RunResponder]
    was called with. *)
Record ending := Ending { en_code : Z; en_config : option ResponderConfig }.

Definition responder_options (args : list string) : result (ResponderConfig * list string) :=
  let! parsed := parseFlagsInt ["fqdn"; "control-socket"; "metrics-address"] [("port", DefaultPort)] args in
  let text name := default "" (parsed.1 !! name) in
  Ok ({| rc_FQDN := text "fqdn"; rc_Port := int_value parsed.1 "port"; rc_ControlSocket := text "control-socket";
         rc_MetricsAddress := text "metrics-address" |}, parsed.2).

(** [RunResponder] from its start through the events to its return; [None] while
    it runs. *)
Definition RunResponder `{Jose} (env : listen_env) (order : list (string * string)) (listen : option nat) (closeErr : result unit)
    (socks : sockets) (evs : list event) (config : ResponderConfig) : option (result unit) :=
  match startResponder env config order listen closeErr socks with
  | inr f => Some (f_error f)
  | inl p => p' ← run_events closeErr p evs; p_result p'
  end.

(** The end of the context is no failure. *)
Definition exit_code (r : result unit) : Z :=
  match r with
  | Ok _ => 0
  | Err e => if error_is ErrCanceled e then 0 else 1
  | Panic _ => 2
  end.

(** A bad option ends the process with 2, a request for help with 0. *)
Definition responder_main (run : ResponderConfig -> option (result unit)) (args : list string) : option ending :=
  match responder_options args with
  | Err e => Some (Ending (if e =? ErrNew "flag: help requested" then 0 else 2) None)
  | Panic _ => Some (Ending 2 None)
  | Ok (config, rest) =>
      if Z.of_nat (length rest) <>? 0 then Some (Ending 2 None)
      else
        r ← run config;
        Some (Ending (exit_code r) (Some config))
  end.

(** ** The plugins *)
Definition agent_Close (p : AgentPlugin) (closeErr : result unit) (socks : sockets) : result unit * AgentPlugin * sockets :=
  let '(r, l, socks') := listener_close (ap_listener p) closeErr socks in
  (r, MkAgentPlugin (ap_config p) (ap_metrics p) l, socks').

Definition server_Close (p : ServerPlugin) (closeErr : result unit) (socks : sockets) : result unit * ServerPlugin * sockets :=
  let '(r, l, socks') := listener_close (sp_listener p) closeErr socks in
  (r, MkServerPlugin (sp_server p) (sp_nodes p) (sp_metrics p) l, socks').

(** A configuration request, with the files at that time and the socket a new
    metrics listener gets. *)
Record call := Call {
  c_request : option configureRequest; c_files : string -> option string; c_order : list (string * NodePolicy); c_listen : option nat; c_closeErr : result unit }.

(** A descriptor that is open is not given out again. *)
Definition fresh_fd (c : call) (socks : sockets) : bool :=
  match c_listen c with Some fd => bool_decide (socks !! fd = None) | None => true end.

Definition agent_zero : AgentPlugin := MkAgentPlugin None None (Listener "" None None).
Definition server_zero : ServerPlugin := MkServerPlugin None ∅ None (Listener "" None None).

Section plugins.
(* [hcl.Decode] of the plugin data *)
Variable hcl_config_file : string -> option string.

Fixpoint agent_serve (p : AgentPlugin) (calls : list call) (socks : sockets) : option (AgentPlugin * sockets) :=
  match calls with
  | [] => Some (p, socks)
  | c :: calls' =>
      if fresh_fd c socks then
        let '(_, p', socks') := agent_Configure hcl_config_file (c_files c) p (c_request c) (c_listen c) (c_closeErr c) socks in agent_serve p' calls' socks'
      else None
  end.

Fixpoint server_serve (p : ServerPlugin) (calls : list call) (socks : sockets) : option (ServerPlugin * sockets) :=
  match calls with
  | [] => Some (p, socks)
  | c :: calls' =>
      if fresh_fd c socks then
        let '(_, p', socks') := server_Configure hcl_config_file (c_files c) p (c_request c) (c_order c) (c_listen c) (c_closeErr c) socks in server_serve p' calls' socks'
      else None
  end.

(** The sockets when the process ends. *)
Definition agent_main (calls : list call) (closeErr : result unit) (socks : sockets) : option sockets :=
  '(p, socks') ← agent_serve agent_zero calls socks; Some (agent_Close p closeErr socks').2.
Definition server_main (calls : list call) (closeErr : result unit) (socks : sockets) : option sockets :=
  '(p, socks') ← server_serve server_zero calls socks; Some (server_Close p closeErr socks').2.
End plugins.

(** ** Properties *)

(** A listener together with the sockets it found open. *)
Definition owns (initial : sockets) (m : metricsListener) (socks : sockets) : Prop :=
  listener_inv m socks /\ close_fd (l_server m) socks = initial.

Lemma owns_zero socks : owns socks (Listener "" None None) socks.
Proof. done. Qed.

Lemma owns_close initial m closeErr socks : owns initial m socks -> (listener_close m closeErr socks).2 = initial.
Proof.
  intros [Hi <-]. destruct (listener_close m closeErr socks) as [[r m'] socks'] eqn:E.
  by destruct (listener_close_spec _ _ _ _ _ _ Hi E) as [_ ->].
Qed.

Lemma owns_configure initial m address listen closeErr socks r m' socks' :
  owns initial m socks -> (forall fd, listen = Some fd -> socks !! fd = None) ->
  configure m address listen closeErr socks = (r, m', socks') -> owns initial m' socks'.
Proof.
  intros [Hi Hc] Hfresh E. assert (Hi' : listener_inv m' socks') by by apply configure_spec in E as [? _].
  split; [done|]. unfold configure in E. destruct (validateMetricsAddress address); [|by simplify_eq..].
  case_bool_decide as Ha; [by simplify_eq|]. case_bool_decide as Hz.
  { by destruct (listener_close_spec _ _ _ _ _ _ Hi E) as [-> ->]. }
  destruct listen as [fd|]; [|by simplify_eq]. specialize (Hfresh fd eq_refl).
  assert (Hne : l_server m <> Some fd).
  { intros Es. destruct Hi as [_ Hs]. rewrite Es in Hs. destruct Hs as [_ Hs]. congruence. }
  assert (Hi2 : listener_inv m (<[fd := address]> socks)).
  { destruct Hi as [He Hs]. split; [done|]. destruct (l_server m) as [f|]; [|done]. by rewrite lookup_insert_ne by congruence. }
  destruct (listener_close m closeErr (<[fd := address]> socks)) as [[r0 m0] s0] eqn:El.
  apply listener_close_spec in El as [_ ->]; [|done]. injection E as <- <- <-. cbn [l_server]. unfold close_fd in *.
  destruct (l_server m) as [f|]; [|subst; by apply delete_insert_id].
  rewrite delete_insert_ne by congruence. rewrite Hc. apply delete_insert_id. rewrite <- Hc.
  by rewrite lookup_delete_ne by congruence.
Qed.

Lemma fresh_fd_spec c socks : fresh_fd c socks = true -> forall fd, c_listen c = Some fd -> socks !! fd = None.
Proof. unfold fresh_fd. intros H fd E. rewrite E in H. by apply bool_decide_eq_true in H. Qed.

Section closing.
Variable hcl_config_file : string -> option string.

Lemma agent_configure_owns initial p c socks r p' socks' :
  owns initial (ap_listener p) socks -> fresh_fd c socks = true ->
  agent_Configure hcl_config_file (c_files c) p (c_request c) (c_listen c) (c_closeErr c) socks = (r, p', socks') ->
  owns initial (ap_listener p') socks'.
Proof.
  intros Ho Hf. unfold agent_Configure.
  destruct (let! cfg := _ in _) as [cfg| |], (metrics_of (ap_metrics p) "agent") as [m| |]; try (by intros [= _ <- <-]).
  destruct (configure _ _ _ _ _) as [[r1 l] socks1] eqn:E.
  apply (owns_configure initial) in E; [|done|by apply fresh_fd_spec]. destruct r1; by intros [= _ <- <-].
Qed.

Lemma server_configure_owns initial p c socks r p' socks' :
  owns initial (sp_listener p) socks -> fresh_fd c socks = true ->
  server_Configure hcl_config_file (c_files c) p (c_request c) (c_order c) (c_listen c) (c_closeErr c) socks = (r, p', socks') ->
  owns initial (sp_listener p') socks'.
Proof.
  intros Ho Hf. unfold server_Configure.
  destruct (let! cfg := _ in _) as [server| |], (metrics_of (sp_metrics p) "server") as [m| |]; try (by intros [= _ <- <-]).
  destruct (configure _ _ _ _ _) as [[r1 l] socks1] eqn:E.
  apply (owns_configure initial) in E; [|done|by apply fresh_fd_spec]. destruct r1; by intros [= _ <- <-].
Qed.

Lemma agent_serve_owns initial calls : forall p socks p' socks',
  owns initial (ap_listener p) socks -> agent_serve hcl_config_file p calls socks = Some (p', socks') -> owns initial (ap_listener p') socks'.
Proof.
  induction calls as [|c calls IH]; intros p socks p' socks' Ho Hs; cbn [agent_serve] in Hs; [by simplify_eq|].
  destruct (fresh_fd c socks) eqn:Ef; [|done].
  destruct (agent_Configure _ _ _ _ _ _ _) as [[r p1] s1] eqn:E. eapply IH; [|done]. by eapply agent_configure_owns.
Qed.

Lemma server_serve_owns initial calls : forall p socks p' socks',
  owns initial (sp_listener p) socks -> server_serve hcl_config_file p calls socks = Some (p', socks') -> owns initial (sp_listener p') socks'.
Proof.
  induction calls as [|c calls IH]; intros p socks p' socks' Ho Hs; cbn [server_serve] in Hs; [by simplify_eq|].
  destruct (fresh_fd c socks) eqn:Ef; [|done].
  destruct (server_Configure _ _ _ _ _ _ _ _) as [[r p1] s1] eqn:E. eapply IH; [|done]. by eapply server_configure_owns.
Qed.

(** Whatever configurations a plugin process is given and however they fare,
    when it ends every socket it opened is closed and no other. *)
Theorem plugins_close calls closeErr socks socks' :
  (agent_main hcl_config_file calls closeErr socks = Some socks' -> socks' = socks) /\
  (server_main hcl_config_file calls closeErr socks = Some socks' -> socks' = socks).
Proof.
  split; unfold agent_main, server_main; intros H; apply bind_Some in H as ([p s] & Hs & [= <-]).
  - apply (agent_serve_owns socks) in Hs; [|apply owns_zero]. apply (owns_close _ _ closeErr) in Hs.
    unfold agent_Close. by destruct (listener_close _ _ _) as [[? ?] ?].
  - apply (server_serve_owns socks) in Hs; [|apply owns_zero]. apply (owns_close _ _ closeErr) in Hs.
    unfold server_Close. by destruct (listener_close _ _ _) as [[? ?] ?].
Qed.
End closing.

(** The command line for a configuration. *)
Definition command_line (config : ResponderConfig) : list string :=
  option_args [("fqdn", rc_FQDN config); ("port", itoa (rc_Port config)); ("control-socket", rc_ControlSocket config);
    ("metrics-address", rc_MetricsAddress config)].

Lemma responder_options_roundtrip config rest : 0 <= rc_Port config < 2 ^ 63 -> positional rest ->
  responder_options (command_line config ++ rest) = Ok (config, rest).
Proof.
  intros Hp Hr. unfold responder_options, parseFlagsInt, command_line.
  rewrite flag_parse_roundtrip; [|repeat apply Forall_cons_2; [..|by apply Forall_nil_2]|done].
  - cbn [rbind fst snd assign foldl]. unfold int_value.
    rewrite !(lookup_insert_ne _ "metrics-address"), !(lookup_insert_ne _ "control-socket"), (lookup_insert_ne _ "port" "fqdn"),
      !lookup_insert_eq by done. cbn [default mbind option_bind]. rewrite parseInt0_itoa by done. by destruct config.
  - split_and!; [eexists _, _; (split; [reflexivity|]); by split_and!|by vm_compute; eexists|done].
  - split_and!; [eexists _, _; (split; [reflexivity|]); by split_and!|by vm_compute; eexists|].
    apply orb_true_iff. right. apply bool_decide_eq_true. cbn [fst snd]. rewrite parseInt0_itoa by done. by eexists.
  - split_and!; [eexists _, _; (split; [reflexivity|]); by split_and!|by vm_compute; eexists|done].
  - split_and!; [eexists _, _; (split; [reflexivity|]); by split_and!|by vm_compute; eexists|done].
Qed.

(** The responder runs with exactly the configuration on its command line, or,
    when anything follows the options, not at all. *)
Theorem responder_command run config rest : 0 <= rc_Port config < 2 ^ 63 -> positional rest ->
  responder_main run (command_line config ++ rest) =
  match rest with [] => r ← run config; Some (Ending (exit_code r) (Some config)) | _ => Some (Ending 2 None) end.
Proof.
  intros Hp Hr. unfold responder_main. rewrite responder_options_roundtrip by done. destruct rest as [|a rest]; [done|].
  by rewrite bool_decide_false by (cbn [length]; lia).
Qed.

(** ** Concrete processes *)
Module MainExamples.
Import PlainJose ProtocolExamples ResponderExamples RunExamples.

(** The process of [RunExamples], ended by its context. *)
Definition process_run : ResponderConfig -> option (result unit) :=
  RunResponder env [] None (Ok tt) ∅ (history ++ [Ended None]).

Lemma responder_command_witness :
  responder_main process_run (command_line config ++ []) = (r ← process_run config; Some (Ending (exit_code r) (Some config))).
Proof. apply (responder_command process_run config []); [split; vm_compute; [discriminate|reflexivity]|exact I]. Defined.

Example process_ends : en_code <$> responder_main process_run (command_line config) = Some 0.
Proof. vm_cast_no_check (eq_refl (Some 0)). Qed.

Example refused_lines : (en_code <$> responder_main process_run ["--help"]) = Some 0 /\
  (en_code <$> responder_main process_run ["--port"; "http"]) = Some 2 /\
  (en_code <$> responder_main process_run ["--fqdn"; "a.example"; "extra"]) = Some 2.
Proof. vm_compute. done. Qed.

Definition document : string :=
  marshal (JObj [("trust_domain", JStr "nyaw.xyz"); ("fqdn", JStr "eihort.nyaw.xyz"); ("control_socket", JStr "/run/realm/control.sock");
    ("metrics_address", JStr "127.0.0.1:9103")]).

Definition first_call : call :=
  Call (Some (ConfigureRequest "x" "nyaw.xyz")) (fun _ => Some document) [] (Some 7%nat) (Ok tt).

(** The process opens a listener and closes it when it ends. *)
Lemma plugins_close_witness :
  (exists p s, agent_serve (fun _ => Some "/etc/agent.json") agent_zero [first_call] {[3%nat := "a"]} = Some (p, s) /\ size s = 2%nat) /\
  agent_main (fun _ => Some "/etc/agent.json") [first_call] (Ok tt) {[3%nat := "a"]} = Some {[3%nat := "a"]}.
Proof.
  split; [eexists _, _; split; vm_compute; reflexivity|].
  destruct (agent_main (fun _ => Some "/etc/agent.json") [first_call] (Ok tt) {[3%nat := "a"]}) as [s|] eqn:E.
  - f_equal. exact (proj1 (plugins_close (fun _ => Some "/etc/agent.json") [first_call] (Ok tt) {[3%nat := "a"]} s) E).
  - exfalso. revert E. vm_compute. discriminate.
Defined.
End MainExamples.
