(* ===== verification/AgentConfig.v ===== *)
(** * realm-agent: configuration and destination policy

    Models [src/pkgs/realm-agent/config.go] and the address decoding of
    [bpf.go]: the JSON configuration with its defaults and checks, and the
    choice of the egress socket for a captured destination.  Error texts keep
    their fixed part.  Go ranges over [DNSHosts] in an unspecified order; the
    order only decides which error is reported. *)

From S2P Require Import Prelude GoStrings Regex Json NetIP GoUrl.

Open Scope Z_scope.
Open Scope go_scope.

(** ** Data *)
Record route := Route { rt_Prefix : string; rt_Port : Z; rt_Socket : string }.

Definition route_zero : route := Route "" 0 "".

Definition route_fields : list (field route) :=
  [mk_field "prefix" rt_Prefix (fun r x => Route x (rt_Port r) (rt_Socket r)) dec_string;
   mk_field "port" rt_Port (fun r x => Route (rt_Prefix r) x (rt_Socket r)) dec_uint16;
   mk_field "socket" rt_Socket (fun r x => Route (rt_Prefix r) (rt_Port r) x) dec_string].

Record workload := Workload {
  w_Name : string;
  w_Unit : string;
  w_User : string;
  w_Group : string;
  w_WorkerUser : string;
  w_Socket : string;
  w_InternetSocket : string;
  w_InternetPorts : list Z;
  w_DNSUpstream : string;
  w_DNSHosts : gmap string (list string);
  w_Routes : list route;
  w_TCPPort : Z;
  w_DNSBase : Z;
  w_MaxConnections : Z;
  w_WorkerMemoryMiB : Z;
  w_WorkerTasks : Z;
  w_WorkerCPUQuota : Z
}.

Definition workload_zero : workload :=
  Workload "" "" "" "" "" "" "" [] "" ∅ [] 0 0 0 0 0 0.

Definition set_Name (w : workload) (x : string) : workload :=
  Workload x (w_Unit w) (w_User w) (w_Group w) (w_WorkerUser w) (w_Socket w) (w_InternetSocket w)
    (w_InternetPorts w) (w_DNSUpstream w) (w_DNSHosts w) (w_Routes w) (w_TCPPort w) (w_DNSBase w)
    (w_MaxConnections w) (w_WorkerMemoryMiB w) (w_WorkerTasks w) (w_WorkerCPUQuota w).
Definition set_Unit (w : workload) (x : string) : workload :=
  Workload (w_Name w) x (w_User w) (w_Group w) (w_WorkerUser w) (w_Socket w) (w_InternetSocket w)
    (w_InternetPorts w) (w_DNSUpstream w) (w_DNSHosts w) (w_Routes w) (w_TCPPort w) (w_DNSBase w)
    (w_MaxConnections w) (w_WorkerMemoryMiB w) (w_WorkerTasks w) (w_WorkerCPUQuota w).
Definition set_User (w : workload) (x : string) : workload :=
  Workload (w_Name w) (w_Unit w) x (w_Group w) (w_WorkerUser w) (w_Socket w) (w_InternetSocket w)
    (w_InternetPorts w) (w_DNSUpstream w) (w_DNSHosts w) (w_Routes w) (w_TCPPort w) (w_DNSBase w)
    (w_MaxConnections w) (w_WorkerMemoryMiB w) (w_WorkerTasks w) (w_WorkerCPUQuota w).
Definition set_Group (w : workload) (x : string) : workload :=
  Workload (w_Name w) (w_Unit w) (w_User w) x (w_WorkerUser w) (w_Socket w) (w_InternetSocket w)
    (w_InternetPorts w) (w_DNSUpstream w) (w_DNSHosts w) (w_Routes w) (w_TCPPort w) (w_DNSBase w)
    (w_MaxConnections w) (w_WorkerMemoryMiB w) (w_WorkerTasks w) (w_WorkerCPUQuota w).
Definition set_WorkerUser (w : workload) (x : string) : workload :=
  Workload (w_Name w) (w_Unit w) (w_User w) (w_Group w) x (w_Socket w) (w_InternetSocket w)
    (w_InternetPorts w) (w_DNSUpstream w) (w_DNSHosts w) (w_Routes w) (w_TCPPort w) (w_DNSBase w)
    (w_MaxConnections w) (w_WorkerMemoryMiB w) (w_WorkerTasks w) (w_WorkerCPUQuota w).
Definition set_Socket (w : workload) (x : string) : workload :=
  Workload (w_Name w) (w_Unit w) (w_User w) (w_Group w) (w_WorkerUser w) x (w_InternetSocket w)
    (w_InternetPorts w) (w_DNSUpstream w) (w_DNSHosts w) (w_Routes w) (w_TCPPort w) (w_DNSBase w)
    (w_MaxConnections w) (w_WorkerMemoryMiB w) (w_WorkerTasks w) (w_WorkerCPUQuota w).
Definition set_InternetSocket (w : workload) (x : string) : workload :=
  Workload (w_Name w) (w_Unit w) (w_User w) (w_Group w) (w_WorkerUser w) (w_Socket w) x
    (w_InternetPorts w) (w_DNSUpstream w) (w_DNSHosts w) (w_Routes w) (w_TCPPort w) (w_DNSBase w)
    (w_MaxConnections w) (w_WorkerMemoryMiB w) (w_WorkerTasks w) (w_WorkerCPUQuota w).
Definition set_InternetPorts (w : workload) (x : list Z) : workload :=
  Workload (w_Name w) (w_Unit w) (w_User w) (w_Group w) (w_WorkerUser w) (w_Socket w)
    (w_InternetSocket w) x (w_DNSUpstream w) (w_DNSHosts w) (w_Routes w) (w_TCPPort w) (w_DNSBase w)
    (w_MaxConnections w) (w_WorkerMemoryMiB w) (w_WorkerTasks w) (w_WorkerCPUQuota w).
Definition set_DNSUpstream (w : workload) (x : string) : workload :=
  Workload (w_Name w) (w_Unit w) (w_User w) (w_Group w) (w_WorkerUser w) (w_Socket w)
    (w_InternetSocket w) (w_InternetPorts w) x (w_DNSHosts w) (w_Routes w) (w_TCPPort w) (w_DNSBase
    w) (w_MaxConnections w) (w_WorkerMemoryMiB w) (w_WorkerTasks w) (w_WorkerCPUQuota w).
Definition set_DNSHosts (w : workload) (x : gmap string (list string)) : workload :=
  Workload (w_Name w) (w_Unit w) (w_User w) (w_Group w) (w_WorkerUser w) (w_Socket w)
    (w_InternetSocket w) (w_InternetPorts w) (w_DNSUpstream w) x (w_Routes w) (w_TCPPort w)
    (w_DNSBase w) (w_MaxConnections w) (w_WorkerMemoryMiB w) (w_WorkerTasks w) (w_WorkerCPUQuota w).
Definition set_Routes (w : workload) (x : list route) : workload :=
  Workload (w_Name w) (w_Unit w) (w_User w) (w_Group w) (w_WorkerUser w) (w_Socket w)
    (w_InternetSocket w) (w_InternetPorts w) (w_DNSUpstream w) (w_DNSHosts w) x (w_TCPPort w)
    (w_DNSBase w) (w_MaxConnections w) (w_WorkerMemoryMiB w) (w_WorkerTasks w) (w_WorkerCPUQuota w).
Definition set_TCPPort (w : workload) (x : Z) : workload :=
  Workload (w_Name w) (w_Unit w) (w_User w) (w_Group w) (w_WorkerUser w) (w_Socket w)
    (w_InternetSocket w) (w_InternetPorts w) (w_DNSUpstream w) (w_DNSHosts w) (w_Routes w) x
    (w_DNSBase w) (w_MaxConnections w) (w_WorkerMemoryMiB w) (w_WorkerTasks w) (w_WorkerCPUQuota w).
Definition set_DNSBase (w : workload) (x : Z) : workload :=
  Workload (w_Name w) (w_Unit w) (w_User w) (w_Group w) (w_WorkerUser w) (w_Socket w)
    (w_InternetSocket w) (w_InternetPorts w) (w_DNSUpstream w) (w_DNSHosts w) (w_Routes w)
    (w_TCPPort w) x (w_MaxConnections w) (w_WorkerMemoryMiB w) (w_WorkerTasks w) (w_WorkerCPUQuota
    w).
Definition set_MaxConnections (w : workload) (x : Z) : workload :=
  Workload (w_Name w) (w_Unit w) (w_User w) (w_Group w) (w_WorkerUser w) (w_Socket w)
    (w_InternetSocket w) (w_InternetPorts w) (w_DNSUpstream w) (w_DNSHosts w) (w_Routes w)
    (w_TCPPort w) (w_DNSBase w) x (w_WorkerMemoryMiB w) (w_WorkerTasks w) (w_WorkerCPUQuota w).
Definition set_WorkerMemoryMiB (w : workload) (x : Z) : workload :=
  Workload (w_Name w) (w_Unit w) (w_User w) (w_Group w) (w_WorkerUser w) (w_Socket w)
    (w_InternetSocket w) (w_InternetPorts w) (w_DNSUpstream w) (w_DNSHosts w) (w_Routes w)
    (w_TCPPort w) (w_DNSBase w) (w_MaxConnections w) x (w_WorkerTasks w) (w_WorkerCPUQuota w).
Definition set_WorkerTasks (w : workload) (x : Z) : workload :=
  Workload (w_Name w) (w_Unit w) (w_User w) (w_Group w) (w_WorkerUser w) (w_Socket w)
    (w_InternetSocket w) (w_InternetPorts w) (w_DNSUpstream w) (w_DNSHosts w) (w_Routes w)
    (w_TCPPort w) (w_DNSBase w) (w_MaxConnections w) (w_WorkerMemoryMiB w) x (w_WorkerCPUQuota w).
Definition set_WorkerCPUQuota (w : workload) (x : Z) : workload :=
  Workload (w_Name w) (w_Unit w) (w_User w) (w_Group w) (w_WorkerUser w) (w_Socket w)
    (w_InternetSocket w) (w_InternetPorts w) (w_DNSUpstream w) (w_DNSHosts w) (w_Routes w)
    (w_TCPPort w) (w_DNSBase w) (w_MaxConnections w) (w_WorkerMemoryMiB w) (w_WorkerTasks w) x.

(** [strict] is [DisallowUnknownFields] of the decoder. *)
Definition workload_fields (strict : bool) : list (field workload) :=
  [mk_field "name" w_Name set_Name dec_string;
   mk_field "unit" w_Unit set_Unit dec_string;
   mk_field "user" w_User set_User dec_string;
   mk_field "group" w_Group set_Group dec_string;
   mk_field "workerUser" w_WorkerUser set_WorkerUser dec_string;
   mk_field "socket" w_Socket set_Socket dec_string;
   mk_field "internetSocket" w_InternetSocket set_InternetSocket dec_string;
   mk_field "internetPorts" w_InternetPorts set_InternetPorts (dec_slice dec_uint16 0);
   mk_field "dnsUpstream" w_DNSUpstream set_DNSUpstream dec_string;
   mk_field "dnsHosts" w_DNSHosts set_DNSHosts (dec_map (dec_slice dec_string "") []);
   mk_field "routes" w_Routes set_Routes (dec_slice (dec_struct strict route_fields) route_zero);
   mk_field "tcpPort" w_TCPPort set_TCPPort dec_uint16;
   mk_field "dnsBase" w_DNSBase set_DNSBase dec_uint16;
   mk_field "maxConnections" w_MaxConnections set_MaxConnections dec_int;
   mk_field "workerMemoryMiB" w_WorkerMemoryMiB set_WorkerMemoryMiB dec_int;
   mk_field "workerTasks" w_WorkerTasks set_WorkerTasks dec_int;
   mk_field "workerCPUQuota" w_WorkerCPUQuota set_WorkerCPUQuota dec_int].

Record configuration := Configuration {
  cf_NamespaceTool : string;
  cf_CABundle : string;
  cf_NetworkTool : string;
  cf_Workloads : list workload
}.

Definition configuration_zero : configuration := Configuration "" "" "" [].

Definition configuration_fields : list (field configuration) :=
  [mk_field "namespaceTool" cf_NamespaceTool
     (fun c x => Configuration x (cf_CABundle c) (cf_NetworkTool c) (cf_Workloads c)) dec_string;
   mk_field "caBundle" cf_CABundle
     (fun c x => Configuration (cf_NamespaceTool c) x (cf_NetworkTool c) (cf_Workloads c)) dec_string;
   mk_field "networkTool" cf_NetworkTool
     (fun c x => Configuration (cf_NamespaceTool c) (cf_CABundle c) x (cf_Workloads c)) dec_string;
   mk_field "workloads" cf_Workloads
     (fun c x => Configuration (cf_NamespaceTool c) (cf_CABundle c) (cf_NetworkTool c) x)
     (dec_slice (dec_struct true (workload_fields true)) workload_zero)].

(** ** [workload.validate] *)

(** [^[a-z][a-z0-9-]{0,30}$] *)
Definition name_char (c : ascii) : bool := is_lower c || is_digit c || (c =? "-"%char).
Definition namePattern : regex := RSeq (RCls is_lower) (rupto 30 (RCls name_char)).

(** [^[a-zA-Z0-9_:@.\\-]+\.service$] *)
Definition unit_char (c : ascii) : bool := is_alnum c || mem_char c "_:@.\-".
Definition unitPattern : regex := RSeq (rplus (RCls unit_char)) (rlit ".service").

Definition or_string (s d : string) : string := if s =? "" then d else s.
Definition or_default (x d : Z) : Z := if x =? 0 then d else x.

(** One entry of [DNSHosts]: its first error, if any. *)
Definition check_host (h : string * list string) : option error :=
  if (h.1 =? "") || containsAny h.1 (String " " (String (char 10) (String (char 9) "/"))) || (h.2 =? []) then Some (ErrNew "invalid DNS host")
  else if forallb (fun s => bool_decide (is_Some (parseAddr s))) h.2 then None
  else Some (ErrNew "DNS address").

Definition check_route (r : route) : option error :=
  match parsePrefix (rt_Prefix r) with
  | None => Some (ErrNew "netip.ParsePrefix")
  | Some _ =>
      if (rt_Port r =? 0) || negb (isAbs (rt_Socket r))
      then Some (ErrNew "routes need a port and absolute socket") else None
  end.

(** A [for range] loop that returns the first error. *)
Definition first_error {A} (check : A -> option error) (l : list A) : option error :=
  head (omap check l).

(** [u, e := url.Parse(w.DNSUpstream)] and the tests on [u]. *)
Definition upstream_ok (s : string) : bool :=
  match url_Parse s with
  | Some u => (u_scheme u =? "https") && (hostname u <>? "") && negb (u_user u)
  | None => false
  end.

Definition default_upstream : string := "https://cloudflare-dns.com/dns-query".

(** The listener ports are [uint16], so the sums wrap. *)
Definition bad_ports (tcp dns : Z) : bool :=
  (65528 <? dns) || ((dns <=? tcp) && (tcp <? u16 (dns + 8))) || (tcp =? 53)
    || ((dns <=? 53) && (53 <=? u16 (dns + 7))).

Definition validate (w : workload) : result workload :=
  require matchString namePattern (w_Name w) else ErrNew "invalid name";
  reject (w_Unit w <>? "") && negb (matchString unitPattern (w_Unit w))
    with ErrNew "unit must be a concrete system service name";
  reject (w_User w =? "") || (w_User w =? "root") || (w_WorkerUser w =? "") || (w_WorkerUser w =? "root")
      || (w_User w =? w_WorkerUser w) || (w_Group w =? "") || (w_Group w =? "root")
    with ErrNew "distinct unprivileged application and worker accounts are required";
  require isAbs (w_Socket w) else ErrNew "socket must be absolute";
  let w := set_TCPPort w (or_default (w_TCPPort w) 15001) in
  let w := set_DNSBase w (or_default (w_DNSBase w) 15053) in
  reject bad_ports (w_TCPPort w) (w_DNSBase w) with ErrNew "invalid or overlapping listener ports";
  let w := set_MaxConnections w (or_default (w_MaxConnections w) 256) in
  reject (w_MaxConnections w <? 1) || (4096 <? w_MaxConnections w)
    with ErrNew "maxConnections must be 1..4096";
  let w := set_WorkerMemoryMiB w (or_default (w_WorkerMemoryMiB w) 128) in
  let w := set_WorkerTasks w (or_default (w_WorkerTasks w) 64) in
  let w := set_WorkerCPUQuota w (or_default (w_WorkerCPUQuota w) 100) in
  reject (w_WorkerMemoryMiB w <? 32) || (4096 <? w_WorkerMemoryMiB w) || (w_WorkerTasks w <? 16)
      || (512 <? w_WorkerTasks w) || (w_WorkerCPUQuota w <? 1) || (800 <? w_WorkerCPUQuota w)
    with ErrNew "invalid worker resource budget";
  reject (w_InternetSocket w <>? "") && negb (isAbs (w_InternetSocket w))
    with ErrNew "internetSocket must be absolute";
  let w := set_DNSUpstream w (or_string (w_DNSUpstream w) default_upstream) in
  require upstream_ok (w_DNSUpstream w)
    else ErrNew "dnsUpstream must be an HTTPS URL without credentials";
  reject existsb (fun p => p =? 0) (w_InternetPorts w) with ErrNew "invalid Internet port";
  match first_error check_host (map_to_list (w_DNSHosts w)) with
  | Some e => Err e
  | None =>
      match first_error check_route (w_Routes w) with
      | Some e => Err e
      | None => Ok w
      end
  end.

(** ** [decodeConfig] *)

(** The loop over the workloads, with the names, sockets and directories seen. *)
Fixpoint check_workloads (seen sockets directories : gset string) (l : list workload)
    : result (list workload) :=
  match l with
  | [] => Ok []
  | w0 :: l' =>
      match validate w0 with
      | Ok w =>
          reject bool_decide (w_Name w ∈ seen) || bool_decide (w_Socket w ∈ sockets)
              || bool_decide (dir (w_Socket w) ∈ directories)
            with ErrNew "duplicate workload or control socket";
          let! rest := check_workloads ({[w_Name w]} ∪ seen) ({[w_Socket w]} ∪ sockets)
                         ({[dir (w_Socket w)]} ∪ directories) l' in
          Ok (w :: rest)
      | Err e => Err (ErrWrap "workload" e)
      | Panic m => Panic m
      end
  end.

(** [io.LimitReader]. *)
Fixpoint limitReader (n : Z) (s : string) : string :=
  match s with
  | EmptyString => EmptyString
  | String c s' => if n <=? 0 then EmptyString else String c (limitReader (n - 1) s')
  end.

(** The reader is cut at one mebibyte; a second value, or anything but white
    space after the first, is refused. *)
Definition decodeConfig (input : string) : result configuration :=
  match parse (limitReader (2 ^ 20) input) with
  | None => Err (ErrNew "json: syntax")
  | Some (v, rest) =>
      match dec_struct true configuration_fields configuration_zero v with
      | None => Err (ErrNew "json: cannot unmarshal")
      | Some c =>
          require skip_ws rest =? "" else ErrNew "configuration must contain one JSON object";
          let nstool := or_string (cf_NamespaceTool c) "/run/current-system/sw/bin/nsenter" in
          let nettool := or_string (cf_NetworkTool c) "/run/current-system/sw/bin/ip" in
          require isAbs nettool else ErrNew "networkTool must be absolute";
          require isAbs nstool else ErrNew "namespaceTool must be absolute";
          let bundle := or_string (cf_CABundle c) "/etc/ssl/certs/ca-certificates.crt" in
          require isAbs bundle else ErrNew "caBundle must be absolute";
          let! ws := check_workloads ∅ ∅ ∅ (cf_Workloads c) in
          Ok (Configuration nstool bundle nettool ws)
      end
  end.

(** [loadConfig]: the file's contents, if it can be opened. *)
Definition loadConfig (file : option string) : result configuration :=
  match file with
  | None => Err (ErrNew "open")
  | Some text => decodeConfig text
  end.

(** ** [workload.target] *)
Definition forbidden_texts : list string :=
  ["0.0.0.0/8"; "10.0.0.0/8"; "100.64.0.0/10"; "127.0.0.0/8"; "169.254.0.0/16"; "172.16.0.0/12";
   "192.0.0.0/24"; "192.168.0.0/16"; "198.18.0.0/15"; "224.0.0.0/4"; "240.0.0.0/4"; "::/128"; "::1/128";
   "::ffff:0:0/96"; "200::/7"; "fc00::/7"; "fe80::/10"; "fec0::/10"; "ff00::/8"].

Definition forbiddenPrefixes : list prefix := omap parsePrefix forbidden_texts.

(** The loop over the routes: the selected socket and its prefix length. *)
Fixpoint select_route (a : addrPort) (selected : string) (bits : Z) (routes : list route) : result string :=
  match routes with
  | [] => Ok selected
  | r :: routes' =>
      match parsePrefix (rt_Prefix r) with
      | None => Panic "netip.MustParsePrefix"
      | Some p =>
          if (rt_Port r =? ap_port a) && contains_addr p (ap_addr a) && (bits <? p_bits p)
          then select_route a (rt_Socket r) (p_bits p) routes'
          else select_route a selected bits routes'
      end
  end.

Definition target (w : workload) (a : addrPort) : result string :=
  let! selected := select_route a "" (-1) (w_Routes w) in
  if selected <>? "" then Ok selected
  else
    reject existsb (fun p => contains_addr p (ap_addr a)) forbiddenPrefixes
      with ErrNew "undeclared private or reserved destination";
    require existsb (fun p => (p =? ap_port a) && (w_InternetSocket w <>? "")) (w_InternetPorts w)
      else ErrNew "destination port is not authorized";
    Ok (w_InternetSocket w).

(** ** [destination.addr] *)
Record destination := Destination {
  d_Cookie : Z; d_Created : Z;
  d_Family : Z; d_Port : Z;
  d_Address : list Z
}.

Definition destination_addr (d : destination) : result addrPort :=
  let! ip :=
    (if d_Family d =? 2 then Ok (Addr4 (bytes_value (firstn 4 (d_Address d))))
     else if d_Family d =? 10 then Ok (unmap (Addr6 (bytes_value (d_Address d)) ""))
     else Err (ErrNew "unknown address family")) in
  reject (d_Port d =? 0) || (65535 <? d_Port d) with ErrNew "invalid destination port";
  Ok (AddrPort ip (u16 (d_Port d))).

Lemma limitReader_all s : forall n, len s <= n -> limitReader n s = s.
Proof.
  induction s as [|c s IH]; intros n Hn; [done|]. cbn [limitReader]. rewrite len_cons in Hn.
  pose proof (len_nonneg s). destruct (n <=? 0) eqn:E; bprop; [lia|]. rewrite IH by lia. done.
Qed.

(** ** What an accepted workload satisfies *)
Definition with_defaults (w : workload) : workload :=
  set_DNSUpstream (set_WorkerCPUQuota (set_WorkerTasks (set_WorkerMemoryMiB (set_MaxConnections
    (set_DNSBase (set_TCPPort w (or_default (w_TCPPort w) 15001)) (or_default (w_DNSBase w) 15053))
    (or_default (w_MaxConnections w) 256)) (or_default (w_WorkerMemoryMiB w) 128))
    (or_default (w_WorkerTasks w) 64)) (or_default (w_WorkerCPUQuota w) 100))
    (or_string (w_DNSUpstream w) default_upstream).

(** The ranges the Go types give: ports are [uint16]. *)
Definition typed (w : workload) : Prop :=
  0 <= w_TCPPort w < 65536 /\ 0 <= w_DNSBase w < 65536 /\
  Forall (fun r => 0 <= rt_Port r < 65536) (w_Routes w) /\
  Forall (fun p => 0 <= p < 65536) (w_InternetPorts w).

Definition good_name (s : string) : Prop :=
  exists c rest, s = String c rest /\ is_lower c = true /\
    (String.length rest <= 30)%nat /\ all_chars name_char rest = true.

Definition good_unit (s : string) : Prop :=
  exists stem, s = stem +:+ ".service" /\ stem <> "" /\ all_chars unit_char stem = true.

Definition good_host (h : string * list string) : Prop :=
  h.1 <> "" /\ containsAny h.1 (String " " (String (char 10) (String (char 9) "/"))) = false /\
  h.2 <> [] /\ Forall (fun s => is_Some (parseAddr s)) h.2.

Definition good_route (r : route) : Prop :=
  is_Some (parsePrefix (rt_Prefix r)) /\ rt_Port r <> 0 /\ isAbs (rt_Socket r) = true.

(** The proxy listens on [TCPPort] and the resolver on the eight ports from
    [DNSBase]; port 53 is redirected and must be neither. *)
Definition good_ports (w : workload) : Prop :=
  1 <= w_TCPPort w <= 65535 /\ 1 <= w_DNSBase w <= 65528 /\ w_TCPPort w <> 53 /\
  ~ (w_DNSBase w <= 53 <= w_DNSBase w + 7) /\
  (w_DNSBase w = 65528 \/ ~ (w_DNSBase w <= w_TCPPort w <= w_DNSBase w + 7)).

Record accepted (w : workload) : Prop := {
  acc_name : good_name (w_Name w);
  acc_unit : w_Unit w = "" \/ good_unit (w_Unit w);
  acc_user : w_User w <> "" /\ w_User w <> "root";
  acc_worker : w_WorkerUser w <> "" /\ w_WorkerUser w <> "root" /\ w_User w <> w_WorkerUser w;
  acc_group : w_Group w <> "" /\ w_Group w <> "root";
  acc_socket : isAbs (w_Socket w) = true;
  acc_ports : good_ports w;
  acc_connections : 1 <= w_MaxConnections w <= 4096;
  acc_memory : 32 <= w_WorkerMemoryMiB w <= 4096;
  acc_tasks : 16 <= w_WorkerTasks w <= 512;
  acc_cpu : 1 <= w_WorkerCPUQuota w <= 800;
  acc_internet : w_InternetSocket w = "" \/ isAbs (w_InternetSocket w) = true;
  acc_upstream : exists u, url_Parse (w_DNSUpstream w) = Some u /\ u_scheme u = "https" /\
    hostname u <> "" /\ u_user u = false;
  acc_iports : 0 ∉ w_InternetPorts w;
  acc_hosts : map_Forall (fun n l => good_host (n, l)) (w_DNSHosts w);
  acc_routes : Forall good_route (w_Routes w)
}.

(** Evaluate the record operations, and nothing else, sharing their results. *)
Ltac fields :=
  lazy beta iota zeta delta [with_defaults w_Name w_Unit w_User w_Group w_WorkerUser w_Socket w_InternetSocket
    w_InternetPorts w_DNSUpstream w_DNSHosts w_Routes w_TCPPort w_DNSBase w_MaxConnections w_WorkerMemoryMiB
    w_WorkerTasks w_WorkerCPUQuota set_TCPPort set_DNSBase set_MaxConnections set_WorkerMemoryMiB
    set_WorkerTasks set_WorkerCPUQuota set_DNSUpstream].

(** ** Lemmas on the checks *)
Lemma name_match s : matchString namePattern s = true <-> good_name s.
Proof.
  rewrite matchString_spec. unfold namePattern, good_name. rewrite matches_seq.
  setoid_rewrite matches_cls. setoid_rewrite matches_upto_cls. split.
  - intros (a & b & -> & (c & -> & Hc) & Hl & Hb). exists c, b. done.
  - intros (c & r & -> & Hc & Hl & Hr). exists (String c ""), r. split; [done|]. split; [eauto|done].
Qed.

Lemma plus_cls p x : matches (rplus (RCls p)) x <-> x <> "" /\ all_chars p x = true.
Proof.
  unfold rplus. rewrite matches_seq. setoid_rewrite matches_cls. setoid_rewrite matches_star_cls. split.
  - intros (a & b & -> & (c & -> & Hc) & Hb). split; [done|].
    rewrite append_cons, append_nil_l. simpl. by rewrite Hc.
  - intros [Hne H]. destruct x as [|c x]; [done|]. simpl in H. bprop.
    exists (String c ""), x. split; [done|]. split; [eauto|done].
Qed.

Lemma unit_match s : matchString unitPattern s = true <-> good_unit s.
Proof.
  rewrite matchString_spec. unfold unitPattern, good_unit. rewrite matches_seq.
  setoid_rewrite plus_cls. setoid_rewrite matches_lit. split.
  - intros (a & b & -> & Ha & ->). exists a. tauto.
  - intros (a & -> & Ha). eauto.
Qed.

Lemma first_error_None {A} (check : A -> option error) l :
  first_error check l = None <-> Forall (fun x => check x = None) l.
Proof.
  unfold first_error. induction l as [|x l IH]; csimpl; [split; [constructor|done]|].
  rewrite Forall_cons. destruct (check x); simpl; [split; [done|intros [? _]; done]|]. tauto.
Qed.

Lemma check_host_None h : check_host h = None <-> good_host h.
Proof.
  unfold check_host, good_host. destruct h as [n l]; cbn [fst snd].
  destruct (_ || _) eqn:E.
  - split; [done|]. intros (H1 & H2 & H3 & _). apply orb_true_iff in E as [E|E].
    + apply orb_true_iff in E as [E|E]; bprop; congruence.
    + bprop. congruence.
  - bprop. destruct (forallb _ l) eqn:F.
    + split; [|done]. intros _. split_and!; try done. apply Forall_forall. intros s Hs.
      rewrite forallb_forall in F. apply list_elem_of_In in Hs. specialize (F s Hs). by bprop.
    + split; [done|]. intros (_ & _ & _ & Hall). exfalso. apply not_true_iff_false in F. apply F.
      apply forallb_forall. intros s Hs. apply list_elem_of_In in Hs. rewrite Forall_forall in Hall.
      apply bool_decide_eq_true. auto.
Qed.

Lemma check_route_None r : check_route r = None <-> good_route r.
Proof.
  unfold check_route, good_route. destruct (parsePrefix (rt_Prefix r)) as [p|].
  - destruct (rt_Port r =? 0) eqn:E1; destruct (isAbs (rt_Socket r)) eqn:E2; bprop; simpl; naive_solver.
  - split; [done|]. intros [[? ?] _]. done.
Qed.

Lemma upstream_ok_spec s : upstream_ok s = true <->
  exists u, url_Parse s = Some u /\ u_scheme u = "https" /\ hostname u <> "" /\ u_user u = false.
Proof.
  unfold upstream_ok. destruct (url_Parse s) as [u|]; [|naive_solver].
  rewrite !andb_true_iff, !negb_true_iff, bool_decide_eq_true, bool_decide_eq_false. naive_solver.
Qed.

Lemma or_default_nonzero x d : d <> 0 -> or_default x d <> 0.
Proof. unfold or_default. intros Hd. by case_bool_decide. Qed.

Lemma or_default_id x d : x <> 0 -> or_default x d = x.
Proof. unfold or_default. intros H. by rewrite bool_decide_false. Qed.

(** The listener test, with the [uint16] sums written out. *)
Lemma ports_check t d : 0 < t < 65536 -> 0 < d < 65536 ->
  bad_ports t d = false <->
  1 <= t <= 65535 /\ 1 <= d <= 65528 /\ t <> 53 /\ ~ (d <= 53 <= d + 7) /\
  (d = 65528 \/ ~ (d <= t <= d + 7)).
Proof.
  intros Ht Hd. unfold bad_ports, u16, wrap. rewrite !orb_false_iff, !andb_false_iff, !Z.leb_gt, !Z.ltb_ge,
    bool_decide_eq_false.
  assert (d <= 65528 -> d <> 65528 -> (d + 8) mod 2 ^ 16 = d + 8) by (intros; apply Z.mod_small; lia).
  assert (d = 65528 -> (d + 8) mod 2 ^ 16 = 0) by (intros ->; done).
  assert (d <= 53 -> (d + 7) mod 2 ^ 16 = d + 7) by (intros; apply Z.mod_small; lia).
  lia.
Qed.

Lemma or_default_range x d : 0 <= x < 65536 -> 0 <= d < 65536 -> 0 <= or_default x d < 65536.
Proof. unfold or_default. case_bool_decide; done. Qed.

Lemma typed_defaults w : typed w -> typed (with_defaults w).
Proof.
  intros (Ht & Hd & Hr). split_and!; [..|exact (proj1 Hr)|exact (proj2 Hr)];
    by apply or_default_range.
Qed.

(** [validate] succeeds exactly when its checks hold of the completed workload. *)
Lemma validate_checks w w' : validate w = Ok w' <->
  w' = with_defaults w /\
  matchString namePattern (w_Name w') = true /\
  (w_Unit w' <>? "") && negb (matchString unitPattern (w_Unit w')) = false /\
  (w_User w' =? "") || (w_User w' =? "root") || (w_WorkerUser w' =? "") || (w_WorkerUser w' =? "root")
      || (w_User w' =? w_WorkerUser w') || (w_Group w' =? "") || (w_Group w' =? "root") = false /\
  isAbs (w_Socket w') = true /\
  bad_ports (w_TCPPort w') (w_DNSBase w') = false /\
  (w_MaxConnections w' <? 1) || (4096 <? w_MaxConnections w') = false /\
  (w_WorkerMemoryMiB w' <? 32) || (4096 <? w_WorkerMemoryMiB w') || (w_WorkerTasks w' <? 16)
      || (512 <? w_WorkerTasks w') || (w_WorkerCPUQuota w' <? 1) || (800 <? w_WorkerCPUQuota w') = false /\
  (w_InternetSocket w' <>? "") && negb (isAbs (w_InternetSocket w')) = false /\
  upstream_ok (w_DNSUpstream w') = true /\
  existsb (fun p => p =? 0) (w_InternetPorts w') = false /\
  first_error check_host (map_to_list (w_DNSHosts w')) = None /\
  first_error check_route (w_Routes w') = None.
Proof.
  destruct w. unfold validate. fields. rewrite require_Ok, !reject_Ok, require_Ok, !reject_Ok, require_Ok, !reject_Ok.
  split.
  - intros (H1 & H2 & H3 & H4 & H5 & H6 & H7 & H8 & H9 & H10 & H11).
    destruct (first_error check_host _) eqn:E1; [discriminate H11|].
    destruct (first_error check_route _) eqn:E2; [discriminate H11|]. injection H11 as <-.
    split; [done|]. fields. split_and!; assumption.
  - intros [-> H]. revert H. fields.
    intros (H1 & H2 & H3 & H4 & H5 & H6 & H7 & H8 & H9 & H10 & H11 & H12).
    rewrite H11, H12. split_and!; done.
Qed.

Lemma no_zero_port l : existsb (fun p => p =? 0) l = false <-> 0 ∉ l.
Proof.
  rewrite <- not_true_iff_false, existsb_exists. setoid_rewrite bool_decide_eq_true.
  setoid_rewrite <- list_elem_of_In. naive_solver.
Qed.

Lemma hosts_None m : first_error check_host (map_to_list m) = None <->
  map_Forall (fun n l => good_host (n, l)) m.
Proof.
  rewrite first_error_None, map_Forall_to_list. apply Forall_iff. intros [n l]. apply check_host_None.
Qed.

Lemma validate_iff w w' : typed w ->
  validate w = Ok w' <-> w' = with_defaults w /\ accepted w'.
Proof.
  intros Hw. rewrite validate_checks.
  assert (Hp : w' = with_defaults w -> 0 < w_TCPPort w' < 65536 /\ 0 < w_DNSBase w' < 65536).
  { intros Hd. destruct (typed_defaults w Hw) as (Ht & Hb & _). rewrite <- Hd in Ht, Hb.
    pose proof (or_default_nonzero (w_TCPPort w) 15001 ltac:(done)).
    pose proof (or_default_nonzero (w_DNSBase w) 15053 ltac:(done)).
    assert (w_TCPPort w' = or_default (w_TCPPort w) 15001) by (by subst).
    assert (w_DNSBase w' = or_default (w_DNSBase w) 15053) by (by subst). lia. }
  rewrite name_match, upstream_ok_spec, no_zero_port, hosts_None, first_error_None,
    !orb_false_iff, !andb_false_iff, !negb_false_iff,
    !bool_decide_eq_false, !bool_decide_eq_true, !Z.ltb_ge, unit_match.
  rewrite (Forall_iff _ _ _ check_route_None).
  split.
  - intros [Hd H]. destruct (Hp Hd) as [Ht Hb]. rewrite (ports_check _ _ Ht Hb) in H.
    decompose [and] H. split; [done|]. constructor; unfold good_ports; split_and?; assumption.
  - intros [Hd []]. destruct (Hp Hd) as [Ht Hb]. rewrite (ports_check _ _ Ht Hb).
    unfold good_ports in *. destruct_and?. split_and!; assumption.
Qed.

Lemma upstream_nonempty w : accepted w -> w_DNSUpstream w <> "".
Proof. intros [] E. rewrite E in acc_upstream0. destruct acc_upstream0 as (u & [= <-] & Hs & _). done. Qed.

Lemma defaults_accepted w : accepted w -> with_defaults w = w.
Proof.
  intros Ha. pose proof (upstream_nonempty w Ha) as Hu. destruct Ha. unfold good_ports in acc_ports0.
  destruct w. revert Hu acc_ports0 acc_connections0 acc_memory0 acc_tasks0 acc_cpu0. fields.
  intros Hu Hp Hc Hm Ht Hq. unfold or_string. rewrite bool_decide_false by done.
  rewrite !or_default_id by lia. done.
Qed.

Lemma typed_w w w' : typed w -> validate w = Ok w' -> typed w' /\ accepted w'.
Proof. intros Ht H. apply validate_iff in H as [-> Ha]; [|done]. split; [by apply typed_defaults|done]. Qed.

(** [validate] succeeds exactly when the workload, completed with the
    defaults, satisfies every stated restriction, and then returns it; a
    workload that was validated once validates again unchanged, which is what
    the worker relies on when it validates what the controller sends. *)
Theorem validate_correct w w' : typed w ->
  (validate w = Ok w' <-> w' = with_defaults w /\ accepted w') /\
  (validate w = Ok w' -> validate w' = Ok w').
Proof.
  intros Ht. split; [by apply validate_iff|].
  intros H. destruct (typed_w w w' Ht H) as [Ht' Ha]. apply validate_iff; [done|].
  by rewrite defaults_accepted.
Qed.

(** ** Changing the ports of a workload *)
Lemma typed_ports w port base :
  typed w -> 0 <= port < 65536 -> 0 <= base < 65536 -> typed (set_DNSBase (set_TCPPort w port) base).
Proof. intros (_ & _ & Hr & Hi) Hp Hb. destruct w. unfold typed in *. by fields. Qed.

Lemma defaults_ports w port base : port <> 0 -> base <> 0 ->
  with_defaults (set_DNSBase (set_TCPPort w port) base) =
  set_DNSBase (set_TCPPort (with_defaults w) port) base.
Proof. intros Hp Hb. destruct w. fields. by rewrite (or_default_id port), (or_default_id base). Qed.

Lemma accepted_ports w port base : accepted w ->
  good_ports (set_DNSBase (set_TCPPort w port) base) -> accepted (set_DNSBase (set_TCPPort w port) base).
Proof. intros [] Hp. destruct w. by split. Qed.

(** ** Decoded configurations *)
Lemma check_workloads_spec l : forall seen sockets dirs ws,
  Forall typed l -> check_workloads seen sockets dirs l = Ok ws ->
  Forall (fun w => typed w /\ accepted w) ws /\ length ws = length l /\
  NoDup (w_Name <$> ws) /\ NoDup (w_Socket <$> ws) /\ NoDup ((fun w => dir (w_Socket w)) <$> ws) /\
  Forall (fun w => w_Name w ∉ seen /\ w_Socket w ∉ sockets /\ dir (w_Socket w) ∉ dirs) ws.
Proof.
  induction l as [|w0 l IH]; intros seen sockets dirs ws Ht H; cbn [check_workloads] in H.
  { injection H as <-. split_and!; constructor. }
  apply Forall_cons in Ht as [Ht0 Ht].
  destruct (validate w0) as [w|e|m] eqn:Ev; try discriminate H.
  apply reject_Ok in H as [Hd H]. apply rbind_Ok in H as (rest & Hr & [= <-]). bprop.
  destruct (IH _ _ _ _ Ht Hr) as (Ha & Hl & Hn & Hs & Hdir & Hf).
  split_and!; csimpl.
  - constructor; [by eapply typed_w|done].
  - lia.
  - constructor; [|done]. intros Hin. apply list_elem_of_fmap in Hin as (x & Hx & Hin).
    rewrite Forall_forall in Hf. destruct (Hf x Hin) as (Hf1 & _ & _). set_solver.
  - constructor; [|done]. intros Hin. apply list_elem_of_fmap in Hin as (x & Hx & Hin).
    rewrite Forall_forall in Hf. destruct (Hf x Hin) as (_ & Hf2 & _). set_solver.
  - constructor; [|done]. intros Hin. apply list_elem_of_fmap in Hin as (x & Hx & Hin).
    rewrite Forall_forall in Hf. destruct (Hf x Hin) as (_ & _ & Hf3). set_solver.
  - constructor; [done|]. eapply Forall_impl; [exact Hf|]. intros x (? & ? & ?). set_solver.
Qed.

Lemma validate_no_panic w : is_panic (validate w) = false.
Proof.
  destruct w. unfold validate. fields.
  repeat match goal with
  | |- context [if ?b then _ else _] => destruct b
  | |- context [match first_error ?c ?l with _ => _ end] => destruct (first_error c l)
  end; done.
Qed.

Lemma check_workloads_no_panic l : forall seen sockets dirs,
  is_panic (check_workloads seen sockets dirs l) = false.
Proof.
  induction l as [|w l IH]; intros seen sockets dirs; cbn [check_workloads]; [done|].
  pose proof (validate_no_panic w) as Hv. destruct (validate w) as [w'|e|m]; try done.
  destruct (_ || _); [done|].
  match goal with |- is_panic (rbind ?m _) = _ => assert (Hm : is_panic m = false) by apply IH; destruct m end; done.
Qed.

Definition typed_route (r : route) : Prop := 0 <= rt_Port r < 65536.

Lemma route_decode_typed strict old v x :
  typed_route old -> dec_struct strict route_fields old v = Some x -> typed_route x.
Proof.
  apply dec_struct_keeps. intros f Hf. repeat (destruct Hf as [<-|Hf]); try done;
    apply mk_field_keeps; intros r v' y Hr Hy; try done. by eapply dec_uint16_range.
Qed.

Lemma workload_decode_typed strict old v x :
  typed old -> dec_struct strict (workload_fields strict) old v = Some x -> typed x.
Proof.
  apply dec_struct_keeps. intros f Hf. repeat (destruct Hf as [<-|Hf]); try done;
    apply mk_field_keeps; intros w v' y (Ht & Hd & Hr & Hi) Hy;
    try exact (conj Ht (conj Hd (conj Hr Hi))).
  - refine (conj Ht (conj Hd (conj Hr _))).
    eapply (dec_slice_Forall _ dec_uint16 0); [lia|apply dec_uint16_range|exact Hi|exact Hy].
  - refine (conj Ht (conj Hd (conj _ Hi))).
    eapply (dec_slice_Forall typed_route _ route_zero); [unfold typed_route; simpl; lia|apply route_decode_typed|exact Hr|exact Hy].
  - refine (conj _ (conj Hd (conj Hr Hi))). by eapply dec_uint16_range; [exact Ht|].
  - refine (conj Ht (conj _ (conj Hr Hi))). by eapply dec_uint16_range; [exact Hd|].
Qed.

Lemma configuration_decode_typed v c :
  dec_struct true configuration_fields configuration_zero v = Some c -> Forall typed (cf_Workloads c).
Proof.
  apply (dec_struct_keeps (fun c => Forall typed (cf_Workloads c))); [|constructor].
  intros f Hf. repeat (destruct Hf as [<-|Hf]); try done;
    apply mk_field_keeps; intros w v' y Hw Hy; try exact Hw.
  eapply (dec_slice_Forall typed _ workload_zero); [|apply workload_decode_typed|exact Hw|exact Hy].
  unfold typed. simpl. split_and!; try lia; constructor.
Qed.

(** What the controller is started with. *)
Record good_configuration (c : configuration) : Prop := {
  gc_tools : isAbs (cf_NamespaceTool c) = true /\ isAbs (cf_NetworkTool c) = true /\ isAbs (cf_CABundle c) = true;
  gc_workloads : Forall (fun w => typed w /\ accepted w) (cf_Workloads c);
  gc_names : NoDup (w_Name <$> cf_Workloads c);
  gc_sockets : NoDup (w_Socket <$> cf_Workloads c);
  gc_directories : NoDup ((fun w => dir (w_Socket w)) <$> cf_Workloads c)
}.

(** A configuration that decodes has absolute tool paths and only accepted
    workloads, no two of which share a name, a control socket, or the directory
    of the control socket (whose group the controller changes); decoding
    never panics. *)
Theorem decodeConfig_correct input :
  is_panic (decodeConfig input) = false /\
  forall c, decodeConfig input = Ok c -> good_configuration c.
Proof.
  split.
  - unfold decodeConfig. destruct (parse _) as [[v rest]|]; [|done].
    destruct (dec_struct _ _ _ v) as [c|]; [|done]. cbv zeta.
    repeat match goal with |- context [if ?b then _ else _] => destruct b end; try done.
    pose proof (check_workloads_no_panic (cf_Workloads c) ∅ ∅ ∅) as Hp.
    destruct (check_workloads _ _ _ _); done.
  - intros c H. unfold decodeConfig in H. destruct (parse _) as [[v rest]|]; [|done].
    destruct (dec_struct _ _ _ v) as [c0|] eqn:Ed; [|done]. cbv zeta in H.
    rewrite !require_Ok, rbind_Ok in H. destruct H as (_ & Hn & Ht & Hb & ws & Hws & [= <-]).
    apply configuration_decode_typed in Ed.
    destruct (check_workloads_spec _ _ _ _ _ Ed Hws) as (Ha & _ & Hnm & Hs & Hd & _).
    by constructor.
Qed.

(** ** The destination policy *)
Definition route_matches (a : addrPort) (r : route) (p : prefix) : Prop :=
  parsePrefix (rt_Prefix r) = Some p /\ rt_Port r = ap_port a /\ contains_addr p (ap_addr a) = true.

(** [s] is the socket of the first of the longest matching prefixes, if they
    are longer than [bits]. *)
Definition best_route (a : addrPort) (bits : Z) (l : list route) (s : string) : Prop :=
  exists i r p, l !! i = Some r /\ route_matches a r p /\ bits < p_bits p /\ rt_Socket r = s /\
    forall j r' p', l !! j = Some r' -> route_matches a r' p' ->
      p_bits p' <= p_bits p /\ (p_bits p' = p_bits p -> (i <= j)%nat).

Definition no_route (a : addrPort) (bits : Z) (l : list route) : Prop :=
  forall j r p, l !! j = Some r -> route_matches a r p -> p_bits p <= bits.

Lemma best_unique a bits l s t : best_route a bits l s -> best_route a bits l t -> s = t.
Proof.
  intros (i & r & p & Hi & Hm & _ & <- & Hb) (j & r' & p' & Hj & Hm' & _ & <- & Hb').
  destruct (Hb j r' p' Hj Hm') as [H1 H2]. destruct (Hb' i r p Hi Hm) as [H3 H4].
  assert (i = j) by lia. subst. congruence.
Qed.

Lemma best_cons_old a bits r l s :
  (forall p, route_matches a r p -> p_bits p <= bits) -> best_route a bits l s -> best_route a bits (r :: l) s.
Proof.
  intros Hr (i & r' & p & Hi & Hm & Hlt & Hs & Hb). exists (S i), r', p. split_and!; try done.
  intros [|j] r'' p'' Hj Hm''; simpl in Hj.
  - injection Hj as <-. specialize (Hr _ Hm''). lia.
  - destruct (Hb j r'' p'' Hj Hm''). split; [done|]. lia.
Qed.

Lemma best_cons_new a bits r p l s :
  route_matches a r p -> bits < p_bits p ->
  best_route a (p_bits p) l s \/ s = rt_Socket r /\ no_route a (p_bits p) l -> best_route a bits (r :: l) s.
Proof.
  intros Hm Hlt [(i & r' & p' & Hi & Hm' & Hlt' & Hs & Hb)|[-> Hno]].
  - exists (S i), r', p'. split_and!; try done; [lia|].
    intros [|j] r'' p'' Hj Hm''; simpl in Hj.
    + injection Hj as <-. destruct Hm as [E _], Hm'' as [E' _]. assert (p'' = p) as -> by congruence. lia.
    + destruct (Hb j r'' p'' Hj Hm''). split; [done|]. lia.
  - exists O, r, p. split_and!; try done. intros [|j] r'' p'' Hj Hm''; simpl in Hj.
    + injection Hj as <-. destruct Hm as [E _], Hm'' as [E' _]. assert (p'' = p) as -> by congruence. lia.
    + split; [by apply (Hno j r'')|lia].
Qed.

Lemma select_route_spec a l : forall sel bits, Forall good_route l ->
  exists s, select_route a sel bits l = Ok s /\
    (best_route a bits l s \/ s = sel /\ no_route a bits l).
Proof.
  induction l as [|r l IH]; intros sel bits Hl; cbn [select_route].
  { exists sel. split; [done|]. right. split; [done|]. intros j r p Hj. by rewrite lookup_nil in Hj. }
  apply Forall_cons in Hl as [([p Hp] & _) Hl]. rewrite Hp.
  destruct ((rt_Port r =? ap_port a) && contains_addr p (ap_addr a) && (bits <? p_bits p)) eqn:E.
  - bprop. destruct (IH (rt_Socket r) (p_bits p) Hl) as (s & Hs & Hcase). exists s. split; [done|]. left.
    apply (best_cons_new a bits r p); [by split_and!|done|done].
  - assert (Hr : forall q, route_matches a r q -> p_bits q <= bits).
    { intros q (Hq & Hport & Hc). rewrite Hp in Hq. injection Hq as <-.
      rewrite Hport, Hc, bool_decide_true in E by done. cbn [andb] in E. by bprop. }
    destruct (IH sel bits Hl) as (s & Hs & [Hb|[-> Hno]]); exists s || exists sel; (split; [done|]).
    + left. by apply best_cons_old.
    + right. split; [done|]. intros [|j] r' p' Hj Hm; simpl in Hj; [injection Hj as <-; by apply Hr|by eapply Hno].
Qed.

(** *** Reserved ranges *)
Definition in_ranges (l : list (Z * Z)) (v : Z) : Prop := Exists (fun r => r.1 <= v < r.2) l.

(** "This network", 10/8, shared address space, loopback, link local, 172.16/12,
    protocol assignments, 192.168/16, benchmarking, multicast and class E. *)
Definition reserved4 : list (Z * Z) :=
  [(0, 0x01000000); (0x0a000000, 0x0b000000); (0x64400000, 0x64800000); (0x7f000000, 0x80000000);
   (0xa9fe0000, 0xa9ff0000); (0xac100000, 0xac200000); (0xc0000000, 0xc0000100);
   (0xc0a80000, 0xc0a90000); (0xc6120000, 0xc6140000); (0xe0000000, 0x100000000)].

(** Unspecified and loopback, IPv4-mapped, 200::/7, unique local, and
    everything from link local to the end (site local, multicast). *)
Definition reserved6 : list (Z * Z) :=
  [(0, 2); (0xffff * 2 ^ 32, 0x10000 * 2 ^ 32); (0x02 * 2 ^ 120, 0x04 * 2 ^ 120);
   (0xfc * 2 ^ 120, 0xfe * 2 ^ 120); (0xfe80 * 2 ^ 112, 2 ^ 128)].

Definition reserved (a : addr) : Prop :=
  match a with
  | Addr4 v => in_ranges reserved4 v
  | Addr6 v z => z = "" /\ in_ranges reserved6 v
  | AddrZero => False
  end.

Lemma forbidden_value : forbiddenPrefixes =
  [Prefix (Addr4 0) 8; Prefix (Addr4 0x0a000000) 8; Prefix (Addr4 0x64400000) 10; Prefix (Addr4 0x7f000000) 8;
   Prefix (Addr4 0xa9fe0000) 16; Prefix (Addr4 0xac100000) 12; Prefix (Addr4 0xc0000000) 24;
   Prefix (Addr4 0xc0a80000) 16; Prefix (Addr4 0xc6120000) 15; Prefix (Addr4 0xe0000000) 4;
   Prefix (Addr4 0xf0000000) 4; Prefix (Addr6 0 "") 128; Prefix (Addr6 1 "") 128;
   Prefix (Addr6 (0xffff * 2 ^ 32) "") 96; Prefix (Addr6 (0x02 * 2 ^ 120) "") 7;
   Prefix (Addr6 (0xfc * 2 ^ 120) "") 7; Prefix (Addr6 (0xfe80 * 2 ^ 112) "") 10;
   Prefix (Addr6 (0xfec0 * 2 ^ 112) "") 10; Prefix (Addr6 (0xff * 2 ^ 120) "") 8].
Proof. vm_compute. reflexivity. Qed.

Lemma existsb_cons_true {A} (f : A -> bool) x l : existsb f (x :: l) = true <-> f x = true \/ existsb f l = true.
Proof. simpl. apply orb_true_iff. Qed.
Lemma existsb_nil_true {A} (f : A -> bool) : existsb f [] = true <-> False.
Proof. done. Qed.
Lemma in_ranges_cons r l v : in_ranges (r :: l) v <-> r.1 <= v < r.2 \/ in_ranges l v.
Proof. apply Exists_cons. Qed.
Lemma in_ranges_nil v : in_ranges [] v <-> False.
Proof. apply Exists_nil. Qed.

Lemma other_family p a : match p_addr p, a with Addr4 _, Addr4 _ | Addr6 _ _, Addr6 _ "" => False | _, _ => True end ->
  contains_addr p a = true <-> False.
Proof.
  unfold contains_addr. destruct (p_addr p) as [|x|x zx], a as [|y|y z]; try done. destruct z; [done|].
  intros _. by rewrite bool_decide_false.
Qed.

Lemma div_interval v k c : 0 < k -> v / k = c <-> c * k <= v < (c + 1) * k.
Proof.
  intros Hk. pose proof (Z.div_mod v k ltac:(lia)). pose proof (Z.mod_pos_bound v k Hk).
  split; [intros <-; lia|]. intros Hc. symmetry. apply (Z.div_unique v k c (v - k * c)); lia.
Qed.

(** Evaluate the closed bounds of the ranges. *)
Ltac ranges :=
  rewrite !div_interval by lia;
  repeat match goal with
  | |- context [?a * 2 ^ ?k] => let c := eval vm_compute in (a * 2 ^ k) in change (a * 2 ^ k) with c
  | |- context [?a / 2 ^ ?k] => let c := eval vm_compute in (a / 2 ^ k) in change (a / 2 ^ k) with c
  end.

Lemma forbidden_reserved a : addr_ok a ->
  existsb (fun p => contains_addr p a) forbiddenPrefixes = true <-> reserved a.
Proof.
  intros Ha. rewrite forbidden_value, !existsb_cons_true, existsb_nil_true.
  destruct a as [|v|v z]; unfold reserved.
  - rewrite !other_family by done. tauto.
  - rewrite !(other_family (Prefix (Addr6 _ _) _) (Addr4 v)) by done.
    rewrite !(contains4 (Prefix (Addr4 _) _) _ v eq_refl) by (cbn [p_bits]; lia).
    unfold reserved4. rewrite !in_ranges_cons, in_ranges_nil. cbn [p_bits fst snd]. unfold addr_ok in Ha.
    ranges. lia.
  - destruct z as [|c z].
    + rewrite !(other_family (Prefix (Addr4 _) _) (Addr6 v "")) by done.
      rewrite !(contains6 (Prefix (Addr6 _ _) _) _ "" v eq_refl) by (cbn [p_bits]; lia).
      unfold reserved6. rewrite !in_ranges_cons, in_ranges_nil. cbn [p_bits fst snd]. unfold addr_ok in Ha.
      ranges. split; [intros H; split; [done|lia]|intros [_ H]; lia].
    + rewrite !other_family by done. naive_solver.
Qed.

Lemma isAbs_nonempty s : isAbs s = true -> s <> "".
Proof. by destruct s. Qed.

Lemma best_nonempty a bits l s : Forall good_route l -> best_route a bits l s -> s <> "".
Proof.
  intros Hl (i & r & p & Hi & _ & _ & <- & _). rewrite Forall_lookup in Hl.
  destruct (Hl i r Hi) as (_ & _ & Habs). by apply isAbs_nonempty.
Qed.

Lemma not_both a bits l s : best_route a bits l s -> ~ no_route a bits l.
Proof. intros (i & r & p & Hi & Hm & Hlt & _) Hno. specialize (Hno i r p Hi Hm). lia. Qed.

Lemma internet_ports w port : existsb (fun p => (p =? port) && (w_InternetSocket w <>? "")) (w_InternetPorts w) = true
  <-> port ∈ w_InternetPorts w /\ w_InternetSocket w <> "".
Proof.
  rewrite existsb_exists. setoid_rewrite andb_true_iff. setoid_rewrite negb_true_iff.
  setoid_rewrite bool_decide_eq_false. setoid_rewrite bool_decide_eq_true.
  setoid_rewrite <- list_elem_of_In. naive_solver.
Qed.

Lemma target_spec w a : accepted w -> addr_ok (ap_addr a) ->
  is_panic (target w a) = false /\
  forall s, target w a = Ok s <->
    best_route a (-1) (w_Routes w) s \/
    no_route a (-1) (w_Routes w) /\ ~ reserved (ap_addr a) /\ ap_port a ∈ w_InternetPorts w /\
      s = w_InternetSocket w /\ s <> "".
Proof.
  intros Hw Ha. pose proof (acc_routes w Hw) as Hl. unfold target.
  destruct (select_route_spec a (w_Routes w) "" (-1) Hl) as (s0 & -> & [Hb|[-> Hno]]); cbn [rbind].
  - rewrite bool_decide_false by (by eapply best_nonempty). cbn [negb]. split; [done|].
    intros s. split; [intros [= <-]; by left|]. intros [Hs|[Hno _]].
    + by rewrite (best_unique _ _ _ _ _ Hb Hs).
    + by destruct (not_both _ _ _ _ Hb).
  - rewrite bool_decide_true by done. cbn [negb]. split.
    + destruct (existsb _ _); [done|]. by destruct (existsb _ _).
    + intros s. rewrite reject_Ok, require_Ok, <- not_true_iff_false, forbidden_reserved, internet_ports by done.
      split.
      * intros (Hr & [Hp Hs] & [= <-]). right. done.
      * intros [Hb|(_ & Hr & Hp & -> & Hs)]; [by destruct (not_both _ _ _ _ Hb)|done].
Qed.

(** C16: For an accepted workload [target] never panics, and it answers with a
    socket exactly when that is the socket of the longest matching declared
    route (the first of equals), or no declared route matches, the address is
    in none of the reserved ranges, and the port is an authorized Internet
    port of a workload with an Internet socket, which is then the answer. *)
Theorem target_correct w a : accepted w -> addr_ok (ap_addr a) ->
  is_panic (target w a) = false /\
  forall s, target w a = Ok s <->
    best_route a (-1) (w_Routes w) s \/
    no_route a (-1) (w_Routes w) /\ ~ reserved (ap_addr a) /\ ap_port a ∈ w_InternetPorts w /\
      s = w_InternetSocket w /\ s <> "".
Proof. apply target_spec. Qed.

(** ** Concrete configurations *)
Module ConfigExamples.
Definition quote_char : ascii := char 34.
(** JSON text with apostrophes for quotes. *)
Fixpoint dq (s : string) : string :=
  match s with
  | EmptyString => EmptyString
  | String c s' => String (if c =? "'"%char then quote_char else c) (dq s')
  end.

Definition matrix : workload := Eval vm_compute in
  set_Routes (set_InternetPorts (set_InternetSocket (set_Socket (set_WorkerUser (set_Group (set_User (set_Name
    workload_zero "matrix") "synapse") "synapse") "adapter") "/run/realm/matrix/control.sock")
    "/run/egress/internet.sock") [80; 443])
    [Route "fdcc::/16" 443 "/run/egress/broad.sock"; Route "fdcc::3/128" 443 "/run/egress/service.sock"].

Definition matrix' : workload := Eval vm_compute in with_defaults matrix.

Lemma matrix_typed : typed matrix.
Proof. unfold typed. cbn. split_and!; repeat constructor; simpl; lia. Qed.

Lemma matrix_valid : validate matrix = Ok matrix'.
Proof. vm_compute. reflexivity. Qed.

Lemma matrix_accepted : accepted matrix'.
Proof. exact (proj2 (typed_w matrix matrix' matrix_typed matrix_valid)). Qed.

Lemma validate_correct_witness : typed matrix /\ validate matrix' = Ok matrix'.
Proof. split; [exact matrix_typed|]. exact (proj2 (validate_correct matrix matrix' matrix_typed) matrix_valid). Defined.

Definition text : string := dq
  "{'workloads':[{'name':'fixture','user':'app','workerUser':'adapter','group':'app','socket':'/run/fixture/control.sock'}]}".

Definition fixture : workload := Eval vm_compute in with_defaults
  (set_Socket (set_WorkerUser (set_Group (set_User (set_Name workload_zero "fixture") "app") "app") "adapter")
    "/run/fixture/control.sock").

Definition fixture_configuration : configuration :=
  Configuration "/run/current-system/sw/bin/nsenter" "/etc/ssl/certs/ca-certificates.crt"
    "/run/current-system/sw/bin/ip" [fixture].

Lemma text_decodes : decodeConfig text = Ok fixture_configuration.
Proof. vm_compute. reflexivity. Qed.

Lemma decodeConfig_correct_witness :
  decodeConfig text = Ok fixture_configuration /\ good_configuration fixture_configuration.
Proof. split; [exact text_decodes|]. exact (proj2 (decodeConfig_correct text) _ text_decodes). Defined.

(** The five refused variants of the project's own configuration test. *)
Example unsafe_texts :
  is_ok (decodeConfig (dq "{'workloads':[{'name':'f','user':'root','workerUser':'w','group':'g','socket':'/s'}]}")) = false /\
  is_ok (decodeConfig (dq "{'workloads':[{'name':'f','user':'a','workerUser':'a','group':'g','socket':'/s'}]}")) = false /\
  is_ok (decodeConfig (dq "{'workloads':[{'name':'f','user':'a','workerUser':'w','group':'g','socket':'s'}]}")) = false /\
  is_ok (decodeConfig (dq "{'workloads':[{'typo':true,'name':'f','user':'a','workerUser':'w','group':'g','socket':'/s'}]}")) = false /\
  is_ok (decodeConfig (text +:+ " {}")) = false.
Proof. vm_compute. done. Qed.

(** The destinations of the project's own policy test. *)
Example policy_table :
  let at_ s port := match parseAddr s with Some ip => target matrix' (AddrPort ip port) | None => Panic "" end in
  at_ "1.1.1.1" 443 = Ok "/run/egress/internet.sock" /\ is_ok (at_ "1.1.1.1" 22) = false /\
  is_ok (at_ "127.0.0.1" 443) = false /\ is_ok (at_ "169.254.169.254" 80) = false /\
  is_ok (at_ "192.168.0.20" 443) = false /\ at_ "fdcc::3" 443 = Ok "/run/egress/service.sock" /\
  at_ "fdcc::4" 443 = Ok "/run/egress/broad.sock" /\ is_ok (at_ "fdcc::3" 22) = false /\
  is_ok (at_ "fe80::1" 443) = false /\
  at_ "2001:4860:4860::8888" 443 = Ok "/run/egress/internet.sock".
Proof. vm_compute. done. Qed.

Lemma target_correct_witness :
  is_panic (target matrix' (AddrPort (Addr4 0x01010101) 443)) = false /\
  ~ reserved (Addr4 0x01010101).
Proof.
  pose proof (target_correct matrix' (AddrPort (Addr4 0x01010101) 443) matrix_accepted ltac:(split; simpl; lia)) as [Hp Ht].
  split; [exact Hp|]. destruct (proj1 (Ht "/run/egress/internet.sock")) as [Hb|(_ & Hr & _)].
  - vm_compute. reflexivity.
  - exfalso. destruct Hb as (i & r & p & Hi & (Hp' & _ & Hc) & _).
    destruct i as [|[|i]]; [injection Hi as <-..|destruct i; discriminate Hi];
      vm_compute in Hp'; injection Hp' as <-; vm_compute in Hc; discriminate Hc.
  - exact Hr.
Defined.

(** With the resolver at the top of the port range the sum of the overlap test
    wraps to zero, and the proxy may be given a port of the resolver. *)
Definition top_ports : workload := set_DNSBase (set_TCPPort matrix 65530) 65528.
End ConfigExamples.

(** C33: The overlap test misses the resolver's ports at the top of the range.
    Give any accepted workload a resolver base and a proxy port that is one of
    the eight ports from that base: the workload is refused for every base but
    65528, where the sum of the test wraps around, and accepted there for each
    of the eight proxy ports, which it keeps. *)
Theorem overlap_accepted_at_top w base port :
  typed w -> (exists w', validate w = Ok w') -> 1 <= base <= 65528 -> base <= port <= base + 7 ->
  ((exists w', validate (set_DNSBase (set_TCPPort w port) base) = Ok w') <-> base = 65528) /\
  forall w', validate (set_DNSBase (set_TCPPort w port) base) = Ok w' ->
    w_DNSBase w' = base /\ w_TCPPort w' = port.
Proof.
  intros Ht [w0 Hw] Hb Hp. apply validate_iff in Hw as [-> Ha]; [|done].
  assert (Ht' : typed (set_DNSBase (set_TCPPort w port) base)) by (apply typed_ports; [done|lia..]).
  assert (Hd : with_defaults (set_DNSBase (set_TCPPort w port) base) =
    set_DNSBase (set_TCPPort (with_defaults w) port) base) by (apply defaults_ports; lia).
  split; [split|].
  - intros [w' H]. apply validate_iff in H as [-> Hv]; [|done]. rewrite Hd in Hv.
    destruct (acc_ports _ Hv) as (_ & _ & _ & _ & H). destruct w. revert H. fields. lia.
  - intros ->. eexists. apply validate_iff; [done|]. split; [reflexivity|]. rewrite Hd.
    apply accepted_ports; [done|]. destruct w. unfold good_ports. fields. lia.
  - intros w' H. apply validate_iff in H as [-> _]; [|done]. rewrite Hd. by destruct w.
Qed.

Lemma overlap_accepted_at_top_witness :
  exists w', validate ConfigExamples.top_ports = Ok w' /\ w_TCPPort w' = 65530.
Proof.
  assert (H : typed ConfigExamples.matrix) by (vm_compute; repeat constructor; done).
  assert (Hv : exists w', validate ConfigExamples.matrix = Ok w') by (eexists; vm_compute; reflexivity).
  destruct (overlap_accepted_at_top ConfigExamples.matrix 65528 65530 H Hv ltac:(lia) ltac:(lia)) as [[_ H1] H2].
  destruct (H1 eq_refl) as [w' Hw]. exists w'. split; [exact Hw|]. apply (H2 w' Hw).
Defined.
