(* ===== verification/AgentWorker.v ===== *)
(** * realm-agent: the forwarding worker

    Models [src/pkgs/realm-agent/worker.go] (from the captured connection to
    its egress socket), [proxy.go] ([dialTunnel]) and [dns.go] (the resolver).
    The DNS message library (miekg/dns) is a class of operations with the laws
    the resolver relies on; map lookups, dials, HTTP exchanges and the parse of
    a CONNECT response are inputs.  Error texts keep their fixed part. *)

From S2P Require Import Prelude GoStrings Json NetIP AgentConfig.

Open Scope Z_scope.
Open Scope go_scope.

(** ** [connectionIdentity] *)
Record connectionKey := ConnectionKey {
  k_Netns : Z; k_Family : Z; k_SourcePort : Z; k_ProxyPort : Z; k_Pad : Z;
  k_Source : list Z
}.

(** An accepted connection: what [getsockopt] says of its namespace, its peer
    ([net.IP] bytes and port) and the local port. *)
Record tcpConn := TcpConn {
  tc_cookie : result Z;
  tc_remote_ip : list Z;
  tc_remote_port : Z;
  tc_local_port : Z
}.

(** [net.IP.To4] and [To16]; [None] is nil. *)
Definition to4 (ip : list Z) : option (list Z) :=
  if (length ip =? 4)%nat then Some ip
  else if (length ip =? 16)%nat && (firstn 12 ip =? replicate 10 0 ++ [255; 255]) then Some (skipn 12 ip)
  else None.
Definition to16 (ip : list Z) : list Z :=
  if (length ip =? 4)%nat then replicate 10 0 ++ [255; 255] ++ ip
  else if (length ip =? 16)%nat then ip else [].

(** [copy] into a zeroed [[16]byte]. *)
Definition array16 (l : list Z) : list Z := firstn 16 (l ++ replicate 16 0).

Definition AF_INET : Z := 2.
Definition AF_INET6 : Z := 10.

Definition connectionIdentity (c : tcpConn) : result connectionKey :=
  let! cookie := tc_cookie c in
  match to4 (tc_remote_ip c) with
  | Some ip => Ok (ConnectionKey cookie AF_INET (u32 (tc_remote_port c)) (u32 (tc_local_port c)) 0 (array16 ip))
  | None => Ok (ConnectionKey cookie AF_INET6 (u32 (tc_remote_port c)) (u32 (tc_local_port c)) 0
                  (array16 (to16 (tc_remote_ip c))))
  end.

(** ** [originalDestination] *)
Inductive lookup_outcome := LFound (d : destination) | LMissing | LFail (e : error).

(** The [i]-th lookup of the key; at most 20, a millisecond apart. *)
Fixpoint lookup_loop (tries i : nat) (lookups : connectionKey -> nat -> lookup_outcome) (k : connectionKey)
    : result destination :=
  match tries with
  | O => Err (ErrNew "no original destination")
  | S tries' =>
      match lookups k i with
      | LFound d => Ok d
      | LFail e => Err e
      | LMissing => lookup_loop tries' (S i) lookups k
      end
  end.

Definition originalDestination (lookups : connectionKey -> nat -> lookup_outcome) (c : tcpConn) : result destination :=
  let! k := connectionIdentity c in lookup_loop 20 0 lookups k.

(** ** [dialTunnel] *)

(** [bufio.Reader.ReadSlice] with a buffer of [n] bytes: a line with its
    newline and the rest; [None] at end of file or when the buffer is full. *)
Fixpoint read_slice (n : nat) (s : string) : option (string * string) :=
  match n, s with
  | S n', String c s' =>
      if c =? char 10 then Some (String c "", s')
      else '(line, rest) ← read_slice n' s'; Some (String c line, rest)
  | _, _ => None
  end.

Definition crlf : string := String (char 13) (String (char 10) "").

(** The header loop: what was read and what is left for the tunnel. *)
Fixpoint read_header (fuel : nat) (header s : string) : result (string * string) :=
  match fuel with
  | O => Err ErrEOF
  | S fuel' =>
      match read_slice 4096 s with
      | None => Err ErrEOF
      | Some (line, rest) =>
          let header := header +:+ line in
          reject 32768 <? len header with ErrNew "CONNECT response headers too large";
          if line =? crlf then Ok (header, rest) else read_header fuel' header rest
      end
  end.

Definition connect_request (authority : string) : string :=
  "CONNECT " +:+ authority +:+ " HTTP/1.1" +:+ crlf +:+ "Host: " +:+ authority +:+ crlf +:+ crlf.

(** What the proxy socket does: whether it connects, whether it takes the
    request, and the bytes it sends back. *)
Record tunnelEnv := TunnelEnv { te_dial : bool; te_write : bool; te_reply : string }.

(** A dial's outcome: the bytes the tunnel delivers first or an error, what
    was sent, and whether the connection was closed. *)
Record dialed := Dialed { dl_result : result string; dl_sent : string; dl_closed : bool }.

Section tunnel.
(* [http.ReadResponse] on the header block: the status code *)
Variable readResponse : string -> option Z.

Definition dialTunnel (env : string -> tunnelEnv) (socket authority : string) : dialed :=
  if containsAny authority (String (char 13) (String (char 10) (String " " (String (char 9) ""))))
  then Dialed (Err (ErrNew "invalid CONNECT authority")) "" false
  else
    let e := env socket in
    if negb (te_dial e) then Dialed (Err (ErrNew "dial")) "" false
    else
      let fail err sent := Dialed (Err err) sent true in
      if negb (te_write e) then fail (ErrNew "write") ""
      else
        let sent := connect_request authority in
        match read_header (S (String.length (te_reply e))) "" (te_reply e) with
        | Err err => fail err sent
        | Panic m => Dialed (Panic m) sent true
        | Ok (header, rest) =>
            match readResponse header with
            | None => fail (ErrNew "http.ReadResponse") sent
            | Some status =>
                if status =? 200 then Dialed (Ok rest) sent false
                else fail (ErrNew "CONNECT returned HTTP") sent
            end
        end.

(** ** The connection handler of [runWorker] *)
Inductive event :=
| EvStore              (* active.Store(c, true) *)
| EvResolve            (* r.tcp(c) *)
| EvTunnel (socket authority : string)
| EvUnix (socket : string)
| EvStoreUp            (* active.Store(upstream, true) *)
| EvSplice             (* splice(c, upstream) *)
| EvForgetUp           (* active.Delete(upstream) *)
| EvForget             (* active.Delete(c) *)
| EvRelease            (* <-limit *)
| EvClose.             (* c.Close() *)

(** [AddrPort.String]. *)
Definition ap_string (a : addrPort) : string :=
  match ap_addr a with
  | AddrZero => "invalid AddrPort"
  | _ => joinHostPort (addr_string (ap_addr a)) (itoa (ap_port a))
  end.

(** The body of the goroutine, without its deferred calls. *)
Definition forward (w : workload) (tunnels : string -> tunnelEnv) (unix : string -> bool)
    (lookups : connectionKey -> nat -> lookup_outcome) (c : tcpConn) : result (list event) :=
  match originalDestination lookups c with
  | Panic m => Panic m
  | Err _ => Ok []
  | Ok d =>
      match destination_addr d with
      | Panic m => Panic m
      | Err _ => Ok []
      | Ok a =>
          if ap_port a =? 53 then Ok [EvResolve]
          else
            match target w a with
            | Panic m => Panic m
            | Err _ => Ok []
            | Ok socket =>
                let '(dial, connected) :=
                  if socket =? w_InternetSocket w
                  then (EvTunnel socket (ap_string a), is_ok (dl_result (dialTunnel tunnels socket (ap_string a))))
                  else (EvUnix socket, unix socket) in
                if connected then Ok [dial; EvStoreUp; EvSplice; EvForgetUp] else Ok [dial]
            end
      end
  end.

(** An accepted connection: [used] of the [MaxConnections] slots are taken. *)
Definition on_accept (w : workload) (tunnels : string -> tunnelEnv) (unix : string -> bool)
    (lookups : connectionKey -> nat -> lookup_outcome) (used : Z) (c : tcpConn) : result (list event) :=
  if used <? w_MaxConnections w then
    let! body := forward w tunnels unix lookups c in
    Ok (EvStore :: body ++ [EvForget; EvRelease; EvClose])
  else Ok [EvClose].
End tunnel.

(** ** The namespace test of [runWorker] *)
Record iface := Iface {
  if_Name : string; if_Up : bool; if_Loopback : bool;
  if_Addrs : option nat    (* how many addresses, if they can be listed *)
}.

Definition fallbackTunnelKinds (name : string) : string :=
  if name =? "ip6tnl0" then "ip6tnl" else if name =? "gre0" then "gre"
  else if name =? "gretap0" then "gretap" else if name =? "erspan0" then "erspan" else "".

Definition iface_allowed (i : iface) : bool :=
  ((fallbackTunnelKinds (if_Name i) <>? "") && negb (if_Up i) && (if_Addrs i =? Some 0%nat))
  || if_Loopback i || (if_Name i =? "realm0").

Definition check_interfaces (l : list iface) : result unit :=
  require forallb iface_allowed l else ErrNew "refusing namespace with non-loopback interface";
  Ok tt.

(** ** Captured destinations *)

(** The value of the kernel map as the C structure has it. *)
Definition destination_ok (d : destination) : Prop :=
  length (d_Address d) = 16%nat /\ Forall (fun b => 0 <= b < 256) (d_Address d).

Lemma bytes_value_snoc l b : bytes_value (l ++ [b]) = bytes_value l * 256 + b.
Proof. unfold bytes_value. by rewrite foldl_app. Qed.

Lemma bytes_value_range l : Forall (fun b => 0 <= b < 256) l ->
  0 <= bytes_value l < 256 ^ Z.of_nat (length l).
Proof.
  induction l as [|b l IH] using rev_ind; intros H; [done|].
  apply Forall_app in H as [Hl Hb]. rewrite Forall_singleton in Hb. specialize (IH Hl).
  rewrite bytes_value_snoc, length_app. simpl length.
  rewrite Nat2Z.inj_add, Z.pow_add_r by lia. change (256 ^ Z.of_nat 1) with 256. lia.
Qed.

(** What the policy sees is a genuine IPv4 or IPv6 address without a zone,
    never an IPv4 address in IPv6 clothing, with a port that is not zero. *)
Definition canonical (a : addrPort) : Prop :=
  addr_ok (ap_addr a) /\ ap_addr a <> AddrZero /\ zone (ap_addr a) = "" /\ is4In6 (ap_addr a) = false /\
  1 <= ap_port a <= 65535.

Lemma unmap_canonical v : 0 <= v < 2 ^ 128 ->
  let a := unmap (Addr6 v "") in
  addr_ok a /\ a <> AddrZero /\ zone a = "" /\ is4In6 a = false.
Proof.
  intros Hv. unfold unmap. destruct (is4In6 (Addr6 v "")) eqn:E; simpl.
  - split_and!; try done; apply Z.mod_pos_bound; lia.
  - split_and!; try done; lia.
Qed.

Lemma destination_addr_canonical d a :
  destination_ok d -> 0 <= d_Port d -> destination_addr d = Ok a -> canonical a.
Proof.
  intros [Hl Hb] Hp H. unfold destination_addr in H. apply rbind_Ok in H as (ip & Hip & H).
  apply reject_Ok in H as [Hport [= <-]]. bprop.
  assert (Hu : u16 (d_Port d) = d_Port d) by (apply wrap_small; lia).
  unfold canonical. cbn [ap_addr ap_port]. rewrite Hu.
  pose proof (bytes_value_range _ Hb) as Hv. rewrite Hl in Hv.
  destruct (d_Family d =? 2).
  - injection Hip as <-. pose proof (Forall_take _ 4 _ Hb) as Hb4. apply bytes_value_range in Hb4.
    rewrite length_take, Hl in Hb4. simpl in Hb4. simpl. split_and!; try done; lia.
  - destruct (d_Family d =? 10); [|discriminate Hip]. injection Hip as <-.
    destruct (unmap_canonical (bytes_value (d_Address d)) Hv) as (? & ? & ? & ?). split_and!; try done; lia.
Qed.

(** ** The tunnel *)
Lemma read_slice_app n s line rest : read_slice n s = Some (line, rest) -> s = line +:+ rest /\ line <> "".
Proof.
  revert s line rest. induction n as [|n IH]; intros s line rest H; [done|]. simpl in H.
  destruct s as [|c s]; [done|]. destruct (c =? char 10).
  - by injection H as <- <-.
  - apply bind_Some in H as ([l r] & Hr & [= <- <-]). apply IH in Hr as [-> _]. done.
Qed.

Lemma read_header_ok fuel : forall header s h rest, read_header fuel header s = Ok (h, rest) ->
  header +:+ s = h +:+ rest /\ len h <= 32768 /\ hasSuffix h crlf = true.
Proof.
  induction fuel as [|fuel IH]; intros header s h rest H; [done|]. cbn [read_header] in H.
  destruct (read_slice 4096 s) as [[line r]|] eqn:E; [|done]. cbv zeta in H.
  apply reject_Ok in H as [Hlen H]. bprop. apply read_slice_app in E as [-> _].
  destruct (line =? crlf) eqn:El.
  - injection H as <- <-. bprop. split_and!; [by rewrite append_assoc|done|].
    apply hasSuffix_spec. by exists header; subst.
  - apply IH in H as (H1 & H2 & H3). by rewrite append_assoc in H1.
Qed.

(** One more line always consumes a byte, so the fuel is never the reason to stop. *)
Lemma read_header_fuel fuel : forall header s,
  (String.length s < fuel)%nat -> read_header fuel header s = read_header (S (String.length s)) header s.
Proof.
  induction fuel as [fuel IH] using lt_wf_ind. intros header s Hf. destruct fuel as [|fuel]; [lia|].
  cbn [read_header]. destruct (read_slice 4096 s) as [[line r]|] eqn:E; [|done]. cbv zeta.
  destruct (32768 <? len (header +:+ line)); [done|]. destruct (line =? crlf); [done|].
  apply read_slice_app in E as [-> Hne]. rewrite length_append in *.
  assert (0 < String.length line)%nat by (destruct line; [done|simpl; lia]).
  rewrite (IH fuel) by lia. rewrite (IH (String.length line + String.length r)%nat) by lia. done.
Qed.

(** A CONNECT authority that cannot break out of its request line. *)
Definition clean_authority (s : string) : Prop :=
  containsAny s (String (char 13) (String (char 10) (String " " (String (char 9) "")))) = false.

(** The branches of [dialTunnel] that fail. *)
Ltac tunnel_fails :=
  cbn [negb dl_result dl_sent dl_closed is_ok]; split_and!;
  [intros rest'; split; [discriminate|intros (? & ? & ? & h & _ & _ & _ & ? & ?); congruence]
  |first [by left|by right]
  |split; [intros ?; first [discriminate|by split_and!]|intros (? & ? & _); congruence]].

(** [dialTunnel] sends exactly one CONNECT request, for an authority without
    white space or line breaks, and succeeds only if the reply starts with a
    header block of at most 32768 bytes, ended by an empty line, that parses
    as status 200; every byte after that block is delivered to the tunnel.  In
    every other case it fails, and the connection, if one was made, is closed. *)
Theorem dialTunnel_correct readResponse env socket authority :
  let e := env socket in
  let r := dialTunnel readResponse env socket authority in
  (forall rest, dl_result r = Ok rest <->
     clean_authority authority /\ te_dial e = true /\ te_write e = true /\
     exists header, te_reply e = header +:+ rest /\ len header <= 32768 /\ hasSuffix header crlf = true /\
       read_header (S (String.length (te_reply e))) "" (te_reply e) = Ok (header, rest) /\
       readResponse header = Some 200) /\
  (dl_sent r = "" \/ dl_sent r = connect_request authority /\ clean_authority authority) /\
  (dl_closed r = true <-> clean_authority authority /\ te_dial e = true /\ is_ok (dl_result r) = false).
Proof.
  cbv zeta. unfold dialTunnel, clean_authority.
  destruct (containsAny authority _); [by tunnel_fails|].
  destruct (te_dial (env socket)); [cbn [negb]|by tunnel_fails].
  destruct (te_write (env socket)); [cbn [negb]|by tunnel_fails].
  destruct (read_header _ "" _) as [[header rest]|err|m] eqn:E; [|by tunnel_fails..].
  destruct (readResponse header) as [status|] eqn:Es; [|by tunnel_fails].
  destruct (status =? 200) eqn:E2; bprop; [|by tunnel_fails].
  pose proof (read_header_ok _ _ _ _ _ E) as (H1 & H2 & H3). rewrite append_nil_l in H1.
  split_and!; [|by right|cbn; split; [|intros (_ & _ & ?)]; discriminate].
  intros r'. cbn [dl_result]. split.
  - intros [= <-]. subst status. split_and!; try done. by exists header.
  - intros (_ & _ & _ & h & _ & _ & _ & Hr & _). by injection Hr as _ <-.
Qed.

(** ** The policy of the worker *)

(** The workload may reach [a] through [s]. *)
Definition allowed (w : workload) (a : addrPort) (s : string) : Prop :=
  best_route a (-1) (w_Routes w) s \/
  no_route a (-1) (w_Routes w) /\ ~ reserved (ap_addr a) /\ ap_port a ∈ w_InternetPorts w /\
    s = w_InternetSocket w /\ s <> "".

(** The events between registering a connection and giving it back. *)
Inductive body_ok (w : workload) (a : addrPort) : list event -> Prop :=
| BodyDeny : ap_port a <> 53 -> (forall s, ~ allowed w a s) -> body_ok w a []
| BodyDNS : ap_port a = 53 -> body_ok w a [EvResolve]
| BodyDial s dial tail :
    ap_port a <> 53 -> allowed w a s ->
    dial = (if s =? w_InternetSocket w then EvTunnel s (ap_string a) else EvUnix s) ->
    tail = [] \/ tail = [EvStoreUp; EvSplice; EvForgetUp] ->
    body_ok w a (dial :: tail).

Definition lookups_ok (lookups : connectionKey -> nat -> lookup_outcome) : Prop :=
  forall k i d, lookups k i = LFound d -> destination_ok d /\ 0 <= d_Port d.

Lemma lookup_loop_ok lookups k : lookups_ok lookups -> forall tries i,
  is_panic (lookup_loop tries i lookups k) = false /\
  forall d, lookup_loop tries i lookups k = Ok d -> destination_ok d /\ 0 <= d_Port d.
Proof.
  intros Hl. induction tries as [|n IH]; intros i; [done|]. simpl.
  destruct (lookups k i) as [d| |e] eqn:E; [|apply IH|done].
  split; [done|]. intros d' [= <-]. by eapply Hl.
Qed.

Lemma destination_addr_no_panic d : is_panic (destination_addr d) = false.
Proof.
  unfold destination_addr. destruct (d_Family d =? 2), (d_Family d =? 10); simpl; try done;
    by destruct (_ || _).
Qed.

Section policy.
Context (readResponse : string -> option Z) (w : workload) (tunnels : string -> tunnelEnv) (unix : string -> bool)
  (lookups : connectionKey -> nat -> lookup_outcome) (c : tcpConn).
Hypothesis Hw : accepted w.
Hypothesis Hl : lookups_ok lookups.
Hypothesis Hc : is_panic (tc_cookie c) = false.

Lemma originalDestination_ok :
  is_panic (originalDestination lookups c) = false /\
  forall d, originalDestination lookups c = Ok d -> destination_ok d /\ 0 <= d_Port d.
Proof.
  unfold originalDestination, connectionIdentity.
  destruct (tc_cookie c) as [cookie|e|m]; [|done|done]. cbn [rbind].
  destruct (to4 _); cbn [rbind]; by apply lookup_loop_ok.
Qed.

Lemma forward_ok : exists body, forward readResponse w tunnels unix lookups c = Ok body /\
  ((is_ok (originalDestination lookups c) = false \/
    exists d, originalDestination lookups c = Ok d /\ is_ok (destination_addr d) = false) /\ body = [] \/
   exists d a, originalDestination lookups c = Ok d /\ destination_addr d = Ok a /\ canonical a /\ body_ok w a body).
Proof.
  unfold forward. destruct originalDestination_ok as [Hnp Hd].
  destruct (originalDestination lookups c) as [d|e|m]; [|exists []; split; [done|]; left; split; [by left|done]|done].
  destruct (Hd d eq_refl) as [Hdo Hport]. pose proof (destination_addr_no_panic d) as Hnp2.
  destruct (destination_addr d) as [a|e|m] eqn:Ea;
    [|exists []; split; [done|]; left; split; [right; exists d; by rewrite Ea|done]|done].
  pose proof (destination_addr_canonical d a Hdo Hport Ea) as Hcan.
  destruct (ap_port a =? 53) eqn:Ep; bprop.
  { eexists. split; [done|]. right. exists d, a. split_and!; try done. by constructor. }
  destruct (target_spec w a Hw (proj1 Hcan)) as [Hnp3 Ht].
  destruct (target w a) as [s|e|m] eqn:Et; [| |done].
  - assert (Hs : allowed w a s) by (by apply Ht).
    destruct (s =? w_InternetSocket w) eqn:Es; cbv beta iota zeta;
      [destruct (is_ok _)|destruct (unix s)]; eexists; (split; [reflexivity|]); right; exists d, a;
      (split_and!; try done); apply (BodyDial w a s); rewrite ?Es; auto.
  - eexists. split; [reflexivity|]. right. exists d, a. split_and!; try done.
    constructor; [done|]. intros s Hs. apply Ht in Hs. discriminate Hs.
Qed.
End policy.

(** Every accepted connection of a validated workload ends without a panic,
    with its slot released exactly once and the connection closed last.  At
    the limit it is closed at once; when its original destination is unknown
    nothing is dialled; port 53 goes to the resolver; otherwise something is
    dialled exactly when the policy allows the canonical destination, and then
    it is the allowed socket, through a CONNECT tunnel to that very
    destination if it is the Internet socket. *)
Theorem on_accept_policy readResponse w tunnels unix lookups used c :
  accepted w -> lookups_ok lookups -> is_panic (tc_cookie c) = false ->
  (w_MaxConnections w <= used /\ on_accept readResponse w tunnels unix lookups used c = Ok [EvClose]) \/
  (used < w_MaxConnections w /\ exists body,
     on_accept readResponse w tunnels unix lookups used c =
       Ok (EvStore :: body ++ [EvForget; EvRelease; EvClose]) /\
     ((is_ok (originalDestination lookups c) = false \/
       exists d, originalDestination lookups c = Ok d /\ is_ok (destination_addr d) = false) /\ body = [] \/
      exists d a, originalDestination lookups c = Ok d /\ destination_addr d = Ok a /\
        canonical a /\ body_ok w a body)).
Proof.
  intros Hw Hl Hc. unfold on_accept. destruct (used <? w_MaxConnections w) eqn:E; bprop; [right|left; done].
  split; [done|]. destruct (forward_ok readResponse w tunnels unix lookups c Hw Hl Hc) as (body & -> & Hb).
  exists body. done.
Qed.

(** ** A concrete connection *)
Module WorkerExamples.
Definition web : destination := Destination 1 2 2 443 ([1; 1; 1; 1] ++ replicate 12 0).
Definition found (k : connectionKey) (i : nat) : lookup_outcome := if (i <? 2)%nat then LMissing else LFound web.
Definition peer : tcpConn := TcpConn (Ok 7) [127; 0; 0; 1] 40000 15001.
Definition reply : string := "HTTP/1.1 200 OK" +:+ crlf +:+ crlf +:+ "tunnel".
Definition proxy (socket : string) : tunnelEnv := TunnelEnv true true reply.
(** A parser that accepts exactly the status line above. *)
Definition parser (header : string) : option Z := if hasPrefix header "HTTP/1.1 200 " then Some 200 else None.

Lemma found_ok : lookups_ok found.
Proof.
  intros k i d. unfold found. destruct (i <? 2)%nat; [discriminate|]. intros [= <-].
  split; [split; [reflexivity|repeat constructor; lia]|simpl; lia].
Qed.

Lemma on_accept_policy_witness :
  on_accept parser ConfigExamples.matrix' proxy (fun _ => false) found 3 peer =
    Ok [EvStore; EvTunnel "/run/egress/internet.sock" "1.1.1.1:443"; EvStoreUp; EvSplice; EvForgetUp;
        EvForget; EvRelease; EvClose] /\
  3 < w_MaxConnections ConfigExamples.matrix'.
Proof.
  destruct (on_accept_policy parser ConfigExamples.matrix' proxy (fun _ => false) found 3 peer
    ConfigExamples.matrix_accepted found_ok eq_refl) as [[H _]|[H _]].
  - exfalso. revert H. vm_compute. intros H. by apply H.
  - split; [vm_compute; reflexivity|exact H].
Defined.

Example tunnel_bytes : dl_result (dialTunnel parser proxy "/s" "1.1.1.1:443") = Ok "tunnel".
Proof. vm_compute. reflexivity. Qed.
End WorkerExamples.
