(* ===== verification/AgentWorkerService.v ===== *)
(** * realm-agent worker: the accept loops and their end

    Models the part of [runWorker] of [src/pkgs/realm-agent/worker.go] that runs
    once the listeners are open: the two accept loops with the shared limit,
    the goroutine of every connection, whose actions are those of [on_accept]
    in [AgentWorker], and the goroutine that closes the listeners and sweeps
    the map of active connections when the context ends.  All of them
    interleave, so the service is a transition system.  [sync.Map.Range] visits
    what was stored before it began and is not deleted meanwhile; what is
    stored later it may visit or not. *)

From S2P Require Import Prelude GoStrings Json NetIP AgentConfig AgentWorker.

Open Scope Z_scope.
Open Scope go_scope.

(** The two sockets of a forwarded connection. *)
Inductive endpoint := Inner (id : nat) | Upstream (id : nat).
#[export] Instance endpoint_eq_dec : EqDecision endpoint.
Proof. solve_decision. Defined.
#[export] Instance endpoint_countable : Countable endpoint.
Proof.
  refine (inj_countable' (fun e => match e with Inner n => inl n | Upstream n => inr n end)
    (fun s => match s with inl n => Inner n | inr n => Upstream n end) _). by intros [].
Defined.

(** What one connection meets: its lookups and the peers it may be dialled to. *)
Record connEnv := ConnEnv {
  ce_tunnels : string -> tunnelEnv; ce_unix : string -> bool; ce_lookups : connectionKey -> nat -> lookup_outcome; ce_conn : tcpConn }.

(** A goroutine: its connection and what it still has to do. *)
Record goroutine := Goroutine { g_env : connEnv; g_rest : list event }.

(** The sweep after the end of the context; [todo] is still to be visited. *)
Inductive sweep := NotSwept | Sweeping (todo : gset endpoint) | Swept.

Record service := Service {
  sv_goroutines : gmap nat goroutine;
  sv_seen : gset nat;                        (* connections accepted so far *)
  sv_used : Z;                               (* slots of [limit] taken *)
  sv_active : gset endpoint;
  sv_open : gset endpoint;
  sv_listeners : gset string;
  sv_cancelled : bool;
  sv_sweep : sweep;
  sv_late : gset endpoint;                   (* stored since the sweep began *)
  sv_dials : list (connEnv * event) }.

Definition start_worker_service : service := Service ∅ ∅ 0 ∅ ∅ {["tcp4"; "tcp6"]} false NotSwept ∅ [].

Inductive service_event :=
| AcceptConn (network : string) (id : nat) (env : connEnv)
| Proceed (id : nat)
| CancelContext
| CloseListener (network : string)
| SweepBegins
| SweepVisits (e : endpoint)
| SweepEnds.

Definition begun (s : sweep) : bool := match s with NotSwept => false | _ => true end.

Definition store (s : service) (e : endpoint) : service :=
  Service (sv_goroutines s) (sv_seen s) (sv_used s) ({[e]} ∪ sv_active s) (sv_open s) (sv_listeners s) (sv_cancelled s) (sv_sweep s)
    (if begun (sv_sweep s) then {[e]} ∪ sv_late s else sv_late s) (sv_dials s).
Definition forget (s : service) (e : endpoint) : service :=
  Service (sv_goroutines s) (sv_seen s) (sv_used s) (sv_active s ∖ {[e]}) (sv_open s) (sv_listeners s) (sv_cancelled s) (sv_sweep s)
    (sv_late s) (sv_dials s).
Definition set_open (s : service) (l : gset endpoint) : service :=
  Service (sv_goroutines s) (sv_seen s) (sv_used s) (sv_active s) l (sv_listeners s) (sv_cancelled s) (sv_sweep s) (sv_late s) (sv_dials s).
Definition set_used (s : service) (n : Z) : service :=
  Service (sv_goroutines s) (sv_seen s) n (sv_active s) (sv_open s) (sv_listeners s) (sv_cancelled s) (sv_sweep s) (sv_late s) (sv_dials s).
Definition set_goroutines (s : service) (g : gmap nat goroutine) : service :=
  Service g (sv_seen s) (sv_used s) (sv_active s) (sv_open s) (sv_listeners s) (sv_cancelled s) (sv_sweep s) (sv_late s) (sv_dials s).
Definition add_dial (s : service) (d : connEnv * event) : service :=
  Service (sv_goroutines s) (sv_seen s) (sv_used s) (sv_active s) (sv_open s) (sv_listeners s) (sv_cancelled s) (sv_sweep s) (sv_late s)
    (sv_dials s ++ [d]).

(** The effect of an action; a dial opens the upstream when it succeeds, which
    is when the goroutine goes on to store it. *)
Definition perform (s : service) (id : nat) (env : connEnv) (ev : event) (rest : list event) : service :=
  match ev with
  | EvStore => store s (Inner id)
  | EvResolve => s
  | EvTunnel _ _ | EvUnix _ =>
      let s' := add_dial s (env, ev) in
      match rest with EvStoreUp :: _ => set_open s' ({[Upstream id]} ∪ sv_open s') | _ => s' end
  | EvStoreUp => store s (Upstream id)
  | EvSplice => set_open s (sv_open s ∖ {[Inner id; Upstream id]})
  | EvForgetUp => forget s (Upstream id)
  | EvForget => forget s (Inner id)
  | EvRelease => set_used s (sv_used s - 1)
  | EvClose => set_open s (sv_open s ∖ {[Inner id]})
  end.

Definition with_rest (g : gmap nat goroutine) (id : nat) (env : connEnv) (rest : list event) : gmap nat goroutine :=
  match rest with [] => delete id g | _ => <[id := Goroutine env rest]> g end.

Section service.
Context (readResponse : string -> option Z) (w : workload).

(** [None]: the event cannot happen in this state. *)
Definition service_step (s : service) (ev : service_event) : option service :=
  match ev with
  | AcceptConn network id env =>
      if bool_decide (network ∈ sv_listeners s) && bool_decide (id ∉ sv_seen s) then
        let seen := {[id]} ∪ sv_seen s in
        match on_accept readResponse w (ce_tunnels env) (ce_unix env) (ce_lookups env) (sv_used s) (ce_conn env) with
        | Ok script =>
            if sv_used s <? w_MaxConnections w then
              Some (Service (<[id := Goroutine env script]> (sv_goroutines s)) seen (sv_used s + 1) (sv_active s)
                      ({[Inner id]} ∪ sv_open s) (sv_listeners s) (sv_cancelled s) (sv_sweep s) (sv_late s) (sv_dials s))
            else
              (* closed at once *)
              Some (Service (sv_goroutines s) seen (sv_used s) (sv_active s) (sv_open s) (sv_listeners s) (sv_cancelled s) (sv_sweep s)
                      (sv_late s) (sv_dials s))
        | _ => None
        end
      else None
  | Proceed id =>
      g ← sv_goroutines s !! id;
      match g_rest g with
      | [] => None
      | ev :: rest =>
          let s' := perform s id (g_env g) ev rest in
          Some (set_goroutines s' (with_rest (sv_goroutines s') id (g_env g) rest))
      end
  | CancelContext =>
      Some (Service (sv_goroutines s) (sv_seen s) (sv_used s) (sv_active s) (sv_open s) (sv_listeners s) true (sv_sweep s) (sv_late s) (sv_dials s))
  | CloseListener network =>
      if sv_cancelled s && bool_decide (network ∈ sv_listeners s) then
        Some (Service (sv_goroutines s) (sv_seen s) (sv_used s) (sv_active s) (sv_open s) (sv_listeners s ∖ {[network]}) (sv_cancelled s)
                (sv_sweep s) (sv_late s) (sv_dials s))
      else None
  | SweepBegins =>
      match sv_sweep s with
      | NotSwept =>
          if sv_cancelled s && bool_decide (sv_listeners s = ∅) then
            Some (Service (sv_goroutines s) (sv_seen s) (sv_used s) (sv_active s) (sv_open s) (sv_listeners s) (sv_cancelled s)
                    (Sweeping (sv_active s)) ∅ (sv_dials s))
          else None
      | _ => None
      end
  | SweepVisits e =>
      match sv_sweep s with
      | Sweeping todo =>
          if bool_decide (e ∈ sv_active s) then
            Some (Service (sv_goroutines s) (sv_seen s) (sv_used s) (sv_active s) (sv_open s ∖ {[e]}) (sv_listeners s) (sv_cancelled s)
                    (Sweeping (todo ∖ {[e]})) (sv_late s) (sv_dials s))
          else None
      | _ => None
      end
  | SweepEnds =>
      match sv_sweep s with
      | Sweeping todo =>
          if bool_decide (todo ∩ sv_active s = ∅) then
            Some (Service (sv_goroutines s) (sv_seen s) (sv_used s) (sv_active s) (sv_open s) (sv_listeners s) (sv_cancelled s) Swept
                    (sv_late s) (sv_dials s))
          else None
      | _ => None
      end
  end.

Fixpoint service_run (s : service) (evs : list service_event) : option service :=
  match evs with [] => Some s | ev :: evs' => s' ← service_step s ev; service_run s' evs' end.
End service.

(** ** What a goroutine has still to do *)
Definition finish : list event := [EvForget; EvRelease; EvClose].
Definition is_dial (e : event) : bool := match e with EvTunnel _ _ | EvUnix _ => true | _ => false end.

Inductive body_shape : list event -> Prop :=
| ShapeNone : body_shape []
| ShapeResolve : body_shape [EvResolve]
| ShapeFailed d : is_dial d = true -> body_shape [d]
| ShapeForward d : is_dial d = true -> body_shape [d; EvStoreUp; EvSplice; EvForgetUp].

(** The rest of a script from any point on. *)
Inductive rest_ok : list event -> Prop :=
| RestStart body : body_shape body -> rest_ok (EvStore :: body ++ finish)
| RestBody body : body_shape body -> rest_ok (body ++ finish)
| RestStoreUp : rest_ok (EvStoreUp :: EvSplice :: EvForgetUp :: finish)
| RestSplice : rest_ok (EvSplice :: EvForgetUp :: finish)
| RestForgetUp : rest_ok (EvForgetUp :: finish)
| RestRelease : rest_ok [EvRelease; EvClose]
| RestClose : rest_ok [EvClose]
| RestOver : rest_ok [].

(** Whether the connection has a slot, is in the map, or its upstream is open or
    in the map. *)
Definition in_slot (r : list event) : bool := match r with [] | [EvClose] => false | _ => true end.
Definition in_active (r : list event) : bool :=
  match r with [] | EvStore :: _ | EvRelease :: _ | EvClose :: _ => false | _ => true end.
Definition up_open (r : list event) : bool := match r with EvStoreUp :: _ | EvSplice :: _ => true | _ => false end.
Definition up_active (r : list event) : bool := match r with EvSplice :: _ | EvForgetUp :: _ => true | _ => false end.

Lemma rest_ok_tail ev rest : rest_ok (ev :: rest) -> rest_ok rest.
Proof.
  inversion 1 as [body Hb E|body Hb E| | | | | |]; subst; try by constructor.
  - destruct Hb as [| |d Hd|d Hd]; injection E as <- <-; try (by constructor); by apply (RestBody []), ShapeNone.
  - by apply (RestBody []), ShapeNone.
Qed.

Section laws.
Context (readResponse : string -> option Z) (w : workload).

Definition forward_env (env : connEnv) : result (list event) :=
  forward readResponse w (ce_tunnels env) (ce_unix env) (ce_lookups env) (ce_conn env).

Lemma forward_shape env body : forward_env env = Ok body -> body_shape body.
Proof.
  unfold forward_env, forward. destruct (originalDestination _ _) as [d|e|m]; [|intros [= <-]; constructor|done].
  destruct (destination_addr d) as [a|e|m]; [|intros [= <-]; constructor|done].
  destruct (ap_port a =? 53); [intros [= <-]; constructor|].
  destruct (target w a) as [socket|e|m]; [|intros [= <-]; constructor|done].
  destruct (socket =? w_InternetSocket w); cbv beta iota zeta;
    [destruct (is_ok _)|destruct (ce_unix env socket)]; intros [= <-]; by constructor.
Qed.

(** A goroutine runs the script of its own connection. *)
Definition script_of (g : goroutine) : Prop :=
  exists body, forward_env (g_env g) = Ok body /\ g_rest g `suffix_of` EvStore :: body ++ finish.

Definition rest_at (s : service) (id : nat) : list event :=
  match sv_goroutines s !! id with Some g => g_rest g | None => [] end.

(** The sets agree with what the goroutine of a connection has still to do. *)
Definition agrees (active open : gset endpoint) (id : nat) (r : list event) : Prop :=
  (Inner id ∈ active <-> in_active r = true) /\ (Upstream id ∈ active <-> up_active r = true) /\
  (Inner id ∈ open -> r <> []) /\ (Upstream id ∈ open -> up_open r = true).

Definition held (g : gmap nat goroutine) : Z := Z.of_nat (size (filter (fun kg => in_slot (g_rest kg.2) = true) g)).

Definition swept_ok (s : service) : Prop :=
  match sv_sweep s with
  | NotSwept => True
  | Sweeping todo => sv_active s ∩ sv_open s ⊆ todo ∪ sv_late s
  | Swept => sv_active s ∩ sv_open s ⊆ sv_late s
  end.

Record service_inv (s : service) : Prop := {
  si_goroutines : map_Forall (fun id g => rest_ok (g_rest g) /\ g_rest g <> [] /\ script_of g /\ id ∈ sv_seen s) (sv_goroutines s);
  si_agrees : forall id, agrees (sv_active s) (sv_open s) id (rest_at s id);
  si_used : sv_used s = held (sv_goroutines s);
  si_limit : 0 <= sv_used s <= Z.max 0 (w_MaxConnections w);
  si_sweep : swept_ok s;
  si_dials : Forall (fun d => is_dial d.2 = true /\ exists body, forward_env d.1 = Ok body /\ d.2 ∈ body) (sv_dials s) }.

Lemma perform_others s id env ev rest id' : id' <> id ->
  let s' := perform s id env ev rest in
  (Inner id' ∈ sv_active s' <-> Inner id' ∈ sv_active s) /\ (Upstream id' ∈ sv_active s' <-> Upstream id' ∈ sv_active s) /\
  (Inner id' ∈ sv_open s' <-> Inner id' ∈ sv_open s) /\ (Upstream id' ∈ sv_open s' <-> Upstream id' ∈ sv_open s).
Proof.
  intros Hne. destruct ev; cbn; try (split_and!; set_solver); destruct rest as [|[] rest]; cbn; split_and!; set_solver.
Qed.

Lemma perform_goroutines s id env ev rest : sv_goroutines (perform s id env ev rest) = sv_goroutines s /\
  sv_seen (perform s id env ev rest) = sv_seen s /\ sv_sweep (perform s id env ev rest) = sv_sweep s.
Proof. destruct ev; cbn; try done; by destruct rest as [|[] rest]. Qed.

(** The connection itself goes from one state to the next. *)
Lemma perform_self s id env ev rest : rest_ok (ev :: rest) ->
  agrees (sv_active s) (sv_open s) id (ev :: rest) ->
  agrees (sv_active (perform s id env ev rest)) (sv_open (perform s id env ev rest)) id rest.
Proof.
  intros Hr (H1 & H2 & H3 & H4). unfold agrees.
  inversion Hr as [body Hb E|body Hb E| | | | | |]; subst.
  - destruct Hb as [| |[] Hd|[] Hd]; try discriminate Hd; cbn in *; split_and!; set_solver.
  - destruct Hb as [| |[] Hd|[] Hd]; try discriminate Hd; cbn in E; injection E as <- <-; cbn in *; split_and!; set_solver.
  - cbn in *; split_and!; set_solver.
  - cbn in *; split_and!; set_solver.
  - cbn in *; split_and!; set_solver.
  - cbn in *; split_and!; set_solver.
  - cbn in *; split_and!; set_solver.
Qed.

Lemma perform_sweep s id env ev rest : rest_ok (ev :: rest) -> agrees (sv_active s) (sv_open s) id (ev :: rest) ->
  swept_ok s -> swept_ok (perform s id env ev rest).
Proof.
  intros Hr (H1 & H2 & _) Hs. unfold swept_ok in *.
  destruct ev; cbn in *; try (by destruct (sv_sweep s); cbn in *; set_solver);
    destruct rest as [|[] rest]; cbn in *; by destruct (sv_sweep s); cbn in *; set_solver.
Qed.

(** The goroutines that hold a slot. *)
Definition holders (g : gmap nat goroutine) : gmap nat goroutine := filter (fun kg => in_slot (g_rest kg.2) = true) g.

Lemma holders_insert g id x : holders (<[id := x]> g) =
  if in_slot (g_rest x) then <[id := x]> (holders g) else delete id (holders g).
Proof.
  unfold holders. destruct (in_slot (g_rest x)) eqn:E; [by rewrite map_filter_insert_True|].
  rewrite map_filter_insert_False by (cbn; congruence). apply map_filter_delete.
Qed.

Lemma holders_lookup g id : holders g !! id = match g !! id with Some x => if in_slot (g_rest x) then Some x else None | None => None end.
Proof.
  unfold holders. rewrite map_lookup_filter. destruct (g !! id) as [x|]; cbn; [|done].
  by destruct (in_slot (g_rest x)).
Qed.

(** One action further, a slot is given back exactly by [EvRelease]. *)
Lemma held_proceed g id x ev rest : g !! id = Some x -> g_rest x = ev :: rest -> rest_ok (ev :: rest) ->
  held (with_rest g id (g_env x) rest) = held g - (match ev with EvRelease => 1 | _ => 0 end).
Proof.
  intros Hg Hr Hok. unfold held. fold (holders g). fold (holders (with_rest g id (g_env x) rest)).
  pose proof (holders_lookup g id) as Hl. rewrite Hg, Hr in Hl. unfold with_rest.
  destruct rest as [|ev' rest'].
  - assert (ev = EvClose) as -> by (inversion Hok as [b Hb E|b Hb E| | | | | |]; [by destruct b|by destruct Hb|done]).
    unfold holders in *. rewrite map_filter_delete. cbn in Hl. rewrite delete_id by done. lia.
  - rewrite holders_insert. cbn [g_rest].
    assert (Hslot : in_slot (ev :: ev' :: rest') = true) by by destruct ev. rewrite Hslot in Hl.
    destruct (in_slot (ev' :: rest')) eqn:E.
    + rewrite map_size_insert_Some by eauto. destruct ev; try lia. exfalso.
      inversion Hok as [b Hb Eb|b Hb Eb| | | | | |]; subst; [|done].
      destruct Hb as [| |d Hd|d Hd]; cbn in Eb; by simplify_eq.
    + rewrite map_size_delete_Some by eauto.
      assert (ev = EvRelease) as ->.
      { inversion Hok as [b Hb Eb|b Hb Eb| | | | | |]; subst; try done;
          destruct Hb as [| |[] Hd|[] Hd]; try discriminate Hd; unfold finish in *; cbn in *; by simplify_eq/=. }
      assert (0 < size (holders g))%nat; [|lia]. apply Nat.neq_0_lt_0. intros Hz. apply map_size_empty_iff in Hz.
      rewrite Hz in Hl. done.
Qed.

Lemma with_rest_lookup g id env rest id' :
  match with_rest g id env rest !! id' with Some g' => g_rest g' | None => [] end =
  if decide (id' = id) then rest else match g !! id' with Some g' => g_rest g' | None => [] end.
Proof.
  unfold with_rest. destruct (decide (id' = id)) as [-> | Hne].
  - destruct rest; [by rewrite lookup_delete_eq|by rewrite lookup_insert_eq].
  - destruct rest; [by rewrite lookup_delete_ne|by rewrite lookup_insert_ne].
Qed.

Lemma perform_used s id env ev rest :
  sv_used (perform s id env ev rest) = sv_used s - (match ev with EvRelease => 1 | _ => 0 end).
Proof. destruct ev; cbn; try lia; destruct rest as [|[] rest]; cbn; lia. Qed.

Lemma perform_dials s id env ev rest body : forward_env env = Ok body -> ev :: rest `suffix_of` EvStore :: body ++ finish ->
  Forall (fun d => is_dial d.2 = true /\ exists body, forward_env d.1 = Ok body /\ d.2 ∈ body) (sv_dials s) ->
  Forall (fun d => is_dial d.2 = true /\ exists body, forward_env d.1 = Ok body /\ d.2 ∈ body) (sv_dials (perform s id env ev rest)).
Proof.
  intros Hf Hsuf Hd.
  assert (Hin : is_dial ev = true -> ev ∈ body).
  { intros Hdial. assert (Hev : ev ∈ EvStore :: body ++ finish) by (destruct Hsuf as [k ->]; set_solver).
    apply elem_of_cons in Hev as [-> | Hev]; [done|]. apply elem_of_app in Hev as [Hev | Hev]; [done|].
    unfold finish in Hev. rewrite !elem_of_cons, elem_of_nil in Hev. by destruct Hev as [-> | [-> | [-> | []]]]. }
  destruct ev; cbn; try done; destruct rest as [|[] rest]; cbn; (apply Forall_app; split; [done|]; apply Forall_singleton; cbn; eauto).
Qed.

Lemma proceed_inv s id g ev rest : service_inv s -> sv_goroutines s !! id = Some g -> g_rest g = ev :: rest ->
  service_inv (set_goroutines (perform s id (g_env g) ev rest) (with_rest (sv_goroutines s) id (g_env g) rest)).
Proof.
  intros [H1 H2 H3 H4 H5 H6] Hg Hr. pose proof (H1 id g Hg) as (Hok & _ & (body & Hf & Hsuf) & Hseen). rewrite Hr in Hok, Hsuf.
  destruct (perform_goroutines s id (g_env g) ev rest) as (G1 & G2 & G3).
  assert (Hself : agrees (sv_active s) (sv_open s) id (ev :: rest)).
  { specialize (H2 id). unfold rest_at in H2. by rewrite Hg, Hr in H2. }
  split; cbn.
  - intros id' g' Hg'. unfold with_rest in Hg'. rewrite G2.
    assert (Hcase : (id' = id /\ g' = Goroutine (g_env g) rest /\ rest <> []) \/ (sv_goroutines s !! id' = Some g')).
    { destruct rest; [right; by apply lookup_delete_Some in Hg' as [_ ?]|].
      apply lookup_insert_Some in Hg' as [[<- <-] | [_ ?]]; [left; done|by right]. }
    destruct Hcase as [(-> & -> & Hne) | Hold]; [|by apply H1]. cbn. split_and!; [by eapply rest_ok_tail|done| |done].
    exists body. split; [done|]. eapply suffix_cons_l; exact Hsuf.
  - intros id'. unfold rest_at. cbn. rewrite with_rest_lookup. destruct (decide (id' = id)) as [-> | Hne]; [by apply perform_self|].
    destruct (perform_others s id (g_env g) ev rest id' Hne) as (P1 & P2 & P3 & P4). specialize (H2 id').
    unfold agrees, rest_at in *. by rewrite P1, P2, P3, P4.
  - rewrite perform_used, H3. symmetry. by apply held_proceed.
  - rewrite perform_used. pose proof (held_proceed _ _ _ _ _ Hg Hr Hok) as Hh. rewrite <- H3 in Hh.
    unfold held in Hh. destruct ev; lia.
  - pose proof (perform_sweep s id (g_env g) ev rest Hok Hself H5) as Hs. unfold swept_ok in *. cbn. done.
  - by eapply perform_dials.
Qed.

Lemma accept_inv s network id env s' : service_inv s -> service_step readResponse w s (AcceptConn network id env) = Some s' -> service_inv s'.
Proof.
  intros [H1 H2 H3 H4 H5 H6]. cbn. destruct (_ && _) eqn:Eb; [|done]. apply andb_true_iff in Eb as [_ Hid].
  apply bool_decide_eq_true in Hid.
  assert (Hnew : sv_goroutines s !! id = None).
  { destruct (sv_goroutines s !! id) as [g|] eqn:Eg; [|done]. destruct (H1 id g Eg) as (_ & _ & _ & ?). done. }
  unfold on_accept. fold (forward_env env). destruct (sv_used s <? w_MaxConnections w) eqn:Eu.
  2: { intros [= <-]. split; cbn; try done. intros id' g' Hg'. destruct (H1 id' g' Hg') as (? & ? & ? & ?). split_and!; try done. set_solver. }
  destruct (forward_env env) as [body| |] eqn:Ef; [|done..]. cbn. intros [= <-]. bprop.
  split; cbn.
  - intros id' g' Hg'. apply lookup_insert_Some in Hg' as [[<- <-] | [_ Hg']].
    + cbn. split_and!; [apply (RestStart body); by eapply forward_shape|done| |set_solver]. exists body. done.
    + destruct (H1 id' g' Hg') as (? & ? & ? & ?). split_and!; try done. set_solver.
  - intros id'. specialize (H2 id'). unfold agrees, rest_at in *. cbn. destruct (decide (id' = id)) as [-> | Hne].
    + rewrite lookup_insert_eq. rewrite Hnew in H2. cbn in *. split_and!; set_solver.
    + rewrite lookup_insert_ne by done. destruct H2 as (A1 & A2 & A3 & A4). split_and!; try done; set_solver.
  - rewrite H3. unfold held. fold (holders (sv_goroutines s)). fold (holders (<[id := Goroutine env (EvStore :: body ++ [EvForget; EvRelease; EvClose])]> (sv_goroutines s))).
    rewrite holders_insert. cbn [g_rest in_slot]. rewrite map_size_insert_None by by rewrite holders_lookup, Hnew. lia.
  - lia.
  - specialize (H2 id). unfold agrees, rest_at in H2. rewrite Hnew in H2. cbn in H2. destruct H2 as (A1 & _).
    unfold swept_ok in *. cbn. destruct (sv_sweep s); set_solver.
  - done.
Qed.

Lemma service_step_inv s ev s' : service_inv s -> service_step readResponse w s ev = Some s' -> service_inv s'.
Proof.
  intros Hi Hs. destruct ev as [network id env|id| |network| |e|]; [by eapply accept_inv|..]; cbn in Hs.
  - apply bind_Some in Hs as (g & Hg & Hs). destruct (g_rest g) as [|ev rest] eqn:Er; [done|]. injection Hs as <-.
    rewrite (proj1 (perform_goroutines s id (g_env g) ev rest)). by apply proceed_inv.
  - injection Hs as <-. by destruct Hi.
  - destruct (_ && _); [|done]. injection Hs as <-. by destruct Hi.
  - destruct (sv_sweep s) eqn:Esw; [|done..]. destruct (_ && _); [|done]. injection Hs as <-. destruct Hi. split; try done.
    unfold swept_ok. cbn. set_solver.
  - destruct (sv_sweep s) as [|todo|] eqn:Esw; [done| |done]. destruct (bool_decide (e ∈ sv_active s)); [|done]. injection Hs as <-.
    destruct Hi as [H1 H2 H3 H4 H5 H6]. unfold swept_ok in H5. rewrite Esw in H5. split; try done.
    + intros id. destruct (H2 id) as (A1 & A2 & A3 & A4). unfold agrees, rest_at in *. cbn. split_and!; try done; set_solver.
    + unfold swept_ok. cbn. intros x Hx. destruct (decide (x = e)) as [-> | Hne]; set_solver.
  - destruct (sv_sweep s) as [|todo|] eqn:Esw; [done| |done]. destruct (bool_decide _) eqn:Eb; [|done]. injection Hs as <-. bprop.
    destruct Hi as [H1 H2 H3 H4 H5 H6]. unfold swept_ok in H5. rewrite Esw in H5. split; try done.
    unfold swept_ok. cbn. set_solver.
Qed.

Lemma service_run_inv evs : forall s s', service_inv s -> service_run readResponse w s evs = Some s' -> service_inv s'.
Proof.
  induction evs as [|ev evs IH]; intros s s' Hi Hr; cbn [service_run] in Hr; [by injection Hr as <-|].
  apply bind_Some in Hr as (s1 & Hs & Hr). eapply IH; [|done]. by eapply service_step_inv.
Qed.

Lemma worker_start_inv : service_inv start_worker_service.
Proof. split; cbn; try done; lia. Qed.

(** Only the goroutines have to go on for everything to be given back. *)
Lemma drain_one id rest : forall s g, sv_goroutines s !! id = Some g -> g_rest g = rest -> rest <> [] ->
  exists s', service_run readResponse w s (replicate (length rest) (Proceed id)) = Some s' /\ sv_goroutines s' = delete id (sv_goroutines s).
Proof.
  induction rest as [|ev rest IH]; intros s g Hg Hr Hne; [done|]. cbn [length replicate service_run service_step].
  rewrite Hg. cbn [mbind option_bind]. rewrite Hr.
  destruct (perform_goroutines s id (g_env g) ev rest) as (G1 & _ & _). rewrite G1.
  destruct rest as [|ev' rest]; cbn [with_rest].
  - eexists. by split; [reflexivity|].
  - edestruct (IH (set_goroutines (perform s id (g_env g) ev (ev' :: rest)) (<[id := Goroutine (g_env g) (ev' :: rest)]> (sv_goroutines s))))
      as (s' & Hs' & Hd); [cbn; by rewrite lookup_insert_eq|done|done|].
    exists s'. split; [exact Hs'|]. rewrite Hd. cbn. by rewrite delete_insert_eq.
Qed.

Lemma service_run_app evs1 evs2 s s1 : service_run readResponse w s evs1 = Some s1 ->
  service_run readResponse w s (evs1 ++ evs2) = service_run readResponse w s1 evs2.
Proof.
  revert s. induction evs1 as [|ev evs1 IH]; intros s Hr; cbn in *; [by injection Hr as ->|].
  destruct (service_step readResponse w s ev) as [s2|]; [|done]. cbn in *. by apply IH.
Qed.

Lemma drain_all n : forall s, service_inv s -> size (sv_goroutines s) = n ->
  exists evs s', service_run readResponse w s evs = Some s' /\ sv_goroutines s' = ∅ /\ Forall (fun ev => exists id, ev = Proceed id) evs.
Proof.
  induction n as [|n IH]; intros s Hi Hn.
  { exists [], s. split_and!; [done|by apply map_size_empty_iff|apply Forall_nil_2]. }
  destruct (map_choose (sv_goroutines s)) as (id & g & Hg); [intros E; by rewrite E, map_size_empty in Hn|].
  destruct (si_goroutines s Hi id g Hg) as (_ & Hne & _).
  destruct (drain_one id (g_rest g) s g Hg eq_refl Hne) as (s1 & Hs1 & Hd).
  destruct (IH s1) as (evs & s' & Hr & He & Hf).
  - by eapply service_run_inv.
  - rewrite Hd, map_size_delete_Some by eauto. lia.
  - exists (replicate (length (g_rest g)) (Proceed id) ++ evs), s'. split_and!; [by erewrite service_run_app|done|].
    apply Forall_app. split; [|done]. apply Forall_replicate. eauto.
Qed.

Lemma closed_begun evs : forall s s', (begun (sv_sweep s) = true -> sv_listeners s = ∅) ->
  service_run readResponse w s evs = Some s' -> begun (sv_sweep s') = true -> sv_listeners s' = ∅.
Proof.
  induction evs as [|ev evs IH]; intros s s' Hs Hr; cbn [service_run] in Hr; [by injection Hr as <-|].
  apply bind_Some in Hr as (s1 & H1 & Hr). eapply IH; [|done]. clear IH Hr.
  destruct ev as [network id env|id| |network| |e|]; cbn in H1.
  - destruct (_ && _); [|done]. destruct (on_accept _ _ _ _ _ _ _); [|done..]. destruct (_ <? _); by injection H1 as <-.
  - apply bind_Some in H1 as (g & _ & H1). destruct (g_rest g) as [|ev rest]; [done|]. injection H1 as <-. cbn.
    intros Hb. rewrite (proj2 (proj2 (perform_goroutines s id (g_env g) ev rest))) in Hb. specialize (Hs Hb).
    destruct ev; cbn; try done; by destruct rest as [|[] rest].
  - by injection H1 as <-.
  - destruct (_ && _); [|done]. injection H1 as <-. cbn. intros Hb. rewrite (Hs Hb). set_solver.
  - destruct (sv_sweep s); [|done..]. destruct (_ && _) eqn:Eb; [|done]. injection H1 as <-. cbn. intros _.
    apply andb_true_iff in Eb as [_ Eb]. by apply bool_decide_eq_true in Eb.
  - destruct (sv_sweep s); [done| |done]. destruct (bool_decide _); [|done]. injection H1 as <-. cbn. auto.
  - destruct (sv_sweep s); [done| |done]. destruct (bool_decide _); [|done]. injection H1 as <-. cbn. auto.
Qed.

Lemma service_empty s : service_inv s -> sv_goroutines s = ∅ -> sv_used s = 0 /\ sv_active s = ∅ /\ sv_open s = ∅.
Proof.
  intros Hi He. split; [rewrite (si_used s Hi), He; done|].
  assert (Ha : forall id, agrees (sv_active s) (sv_open s) id []).
  { intros id. pose proof (si_agrees s Hi id) as H. unfold rest_at in H. by rewrite He, lookup_empty in H. }
  split; apply set_eq; intros [id|id]; destruct (Ha id) as (A1 & A2 & A3 & A4); cbn in *; set_solver.
Qed.

(** What a dial is, by the policy of the workload. *)
Definition dial_allowed (env : connEnv) (dial : event) : Prop :=
  exists d a socket, originalDestination (ce_lookups env) (ce_conn env) = Ok d /\ destination_addr d = Ok a /\ allowed w a socket /\
    dial = if socket =? w_InternetSocket w then EvTunnel socket (ap_string a) else EvUnix socket.

Lemma dial_by_policy env dial : accepted w -> lookups_ok (ce_lookups env) -> is_panic (tc_cookie (ce_conn env)) = false ->
  is_dial dial = true -> (exists body, forward_env env = Ok body /\ dial ∈ body) -> dial_allowed env dial.
Proof.
  intros Hw Hl Hc Hd (body & Hf & Hin).
  destruct (forward_ok readResponse w (ce_tunnels env) (ce_unix env) (ce_lookups env) (ce_conn env) Hw Hl Hc) as (body' & Hf' & Hb).
  unfold forward_env in Hf. rewrite Hf in Hf'. injection Hf' as <-.
  destruct Hb as [[_ ->] | (d & a & H1 & H2 & _ & Hb)]; [by apply elem_of_nil in Hin|].
  destruct Hb as [ | |s dial' tail Hp Ha Hdial Htail]; [by apply elem_of_nil in Hin|apply list_elem_of_singleton in Hin; by subst|].
  assert (dial = dial') as ->.
  { apply elem_of_cons in Hin as [? | Hin]; [done|]. exfalso. destruct Htail as [-> | ->]; [by apply elem_of_nil in Hin|].
    rewrite !elem_of_cons, elem_of_nil in Hin. by destruct Hin as [-> | [-> | [-> | []]]]. }
  exists d, a, s. done.
Qed.

(** A connection as the kernel presents it. *)
Definition env_ok (env : connEnv) : Prop := lookups_ok (ce_lookups env) /\ is_panic (tc_cookie (ce_conn env)) = false.

Lemma envs_run evs : forall s s',
  Forall (fun ev => match ev with AcceptConn _ _ env => env_ok env | _ => True end) evs ->
  map_Forall (fun _ g => env_ok (g_env g)) (sv_goroutines s) -> Forall (fun d => env_ok d.1) (sv_dials s) ->
  service_run readResponse w s evs = Some s' -> Forall (fun d => env_ok d.1) (sv_dials s').
Proof.
  induction evs as [|ev evs IH]; intros s s' He Hg Hd Hr; cbn [service_run] in Hr; [by injection Hr as <-|].
  apply Forall_cons in He as [He1 He]. apply bind_Some in Hr as (s1 & H1 & Hr).
  assert (Hs : map_Forall (fun _ g => env_ok (g_env g)) (sv_goroutines s1) /\ Forall (fun d => env_ok d.1) (sv_dials s1)); [|destruct Hs; by eapply IH].
  clear IH Hr. destruct ev as [network id env|id| |network| |e|]; cbn in H1.
  - destruct (_ && _); [|done]. destruct (on_accept _ _ _ _ _ _ _); [|done..].
    destruct (_ <? _); injection H1 as <-; cbn; split; try done. by apply map_Forall_insert_2.
  - apply bind_Some in H1 as (g & Hgid & H1). pose proof (Hg id g Hgid) as Henv. destruct (g_rest g) as [|ev rest]; [done|]. injection H1 as <-. cbn.
    rewrite (proj1 (perform_goroutines s id (g_env g) ev rest)). split.
    + unfold with_rest. destruct rest; [by apply map_Forall_delete|by apply map_Forall_insert_2].
    + destruct ev; cbn; try done; destruct rest as [|[] rest]; cbn; (apply Forall_app; split; [done|by apply Forall_singleton]).
  - by injection H1 as <-.
  - destruct (_ && _); [|done]. by injection H1 as <-.
  - destruct (sv_sweep s); [|done..]. destruct (_ && _); [|done]. by injection H1 as <-.
  - destruct (sv_sweep s); [done| |done]. destruct (bool_decide _); [|done]. by injection H1 as <-.
  - destruct (sv_sweep s); [done| |done]. destruct (bool_decide _); [|done]. by injection H1 as <-.
Qed.

(** C10: Whatever connections come and however the accept loops, the connections
    and the shutdown interleave: at most [MaxConnections] connections hold a
    slot; every socket dialled is one the policy allows for the destination
    that very connection was captured with; when no connection is being
    served, every slot is free and no socket is left open or in the map, and
    the connections can always get there by themselves; and once the sweep
    begins nothing is accepted any more, and at its end every socket it had to
    visit is closed or out of the map. *)
Theorem worker_service_safe evs s : accepted w ->
  Forall (fun ev => match ev with AcceptConn _ _ env => env_ok env | _ => True end) evs ->
  service_run readResponse w start_worker_service evs = Some s ->
  0 <= sv_used s <= w_MaxConnections w /\
  (forall env dial, (env, dial) ∈ sv_dials s -> dial_allowed env dial) /\
  (sv_goroutines s = ∅ -> sv_used s = 0 /\ sv_active s = ∅ /\ sv_open s = ∅) /\
  (exists more s', service_run readResponse w s more = Some s' /\ sv_goroutines s' = ∅ /\ Forall (fun ev => exists id, ev = Proceed id) more) /\
  (begun (sv_sweep s) = true -> forall network id env, service_step readResponse w s (AcceptConn network id env) = None) /\
  (sv_sweep s = Swept -> sv_active s ∩ sv_open s ⊆ sv_late s).
Proof.
  intros Hw He Hr. pose proof (service_run_inv _ _ _ worker_start_inv Hr) as Hi.
  split; [pose proof (si_limit s Hi); pose proof (acc_connections w Hw); lia|]. split.
  { intros env dial Hin. pose proof (envs_run evs start_worker_service s He (map_Forall_empty _) (Forall_nil_2 _) Hr) as Henv.
    rewrite Forall_forall in Henv. destruct (Henv _ Hin) as [Hl Hc].
    pose proof (si_dials s Hi) as Hd. rewrite Forall_forall in Hd. destruct (Hd _ Hin). by apply dial_by_policy. }
  split; [by apply service_empty|]. split; [by eapply drain_all|]. split.
  - intros Hb network id env. cbn. assert (Hl : sv_listeners s = ∅) by (eapply (closed_begun evs start_worker_service); [discriminate|exact Hr|exact Hb]).
    by rewrite Hl, bool_decide_false by set_solver.
  - intros Hsw. pose proof (si_sweep s Hi) as H. unfold swept_ok in H. by rewrite Hsw in H.
Qed.
End laws.

(** ** A concrete service *)
Module WorkerServiceExamples.
Import ConfigExamples WorkerExamples.

Definition client : connEnv := ConnEnv proxy (fun _ => false) found peer.

(** Two connections; the second is stored while the sweep runs. *)
Definition life : list service_event :=
  [AcceptConn "tcp4" 0 client; Proceed 0; Proceed 0; AcceptConn "tcp6" 1 client; Proceed 0; CancelContext; CloseListener "tcp4";
   CloseListener "tcp6"; SweepBegins; Proceed 1; SweepVisits (Upstream 0); SweepVisits (Inner 0); SweepEnds].
Definition stopped : service := default start_worker_service (service_run parser matrix' start_worker_service life).

Lemma worker_life_runs : service_run parser matrix' start_worker_service life = Some stopped.
Proof. vm_compute. reflexivity. Qed.

Example late_connection : sv_open stopped = {[Inner 1]} /\ sv_late stopped = {[Inner 1]} /\ sv_used stopped = 2.
Proof. vm_compute. done. Qed.

Lemma worker_service_safe_witness :
  0 <= sv_used stopped <= w_MaxConnections matrix' /\
  dial_allowed matrix' client (EvTunnel "/run/egress/internet.sock" "1.1.1.1:443").
Proof.
  destruct (worker_service_safe parser matrix' life stopped) as (H1 & H2 & _).
  - exact matrix_accepted.
  - assert (Hc : env_ok client) by (split; [exact found_ok|reflexivity]). repeat (constructor; [exact Hc || exact I|]). constructor.
  - exact worker_life_runs.
  - split; [exact H1|]. apply H2. vm_compute. constructor.
Defined.
End WorkerServiceExamples.
