(* ===== verification/AgentBPF.v ===== *)
(** * realm-agent: the kernel side of the capture

    Models [src/pkgs/realm-agent/bpf/realm.bpf.c] (the programs attached to a
    workload's cgroup) and the loading of it in [bpf.go].  Addresses are the
    bytes the kernel holds, in network order, so that they are the same bytes on
    both sides of the shared map; ports are swapped as the programs swap them,
    on a little-endian machine.  What the kernel's helpers return is an input. *)

From S2P Require Import Prelude GoStrings NetIP AgentConfig AgentWorker.

Open Scope Z_scope.
Open Scope go_scope.

(** ** Byte order *)
Definition swap16 (x : Z) : Z := (x mod 256) * 256 + (x / 256) mod 256.
Definition bpf_ntohs : Z -> Z := swap16.
Definition bpf_htons (x : Z) : Z := swap16 (u16 x).
Definition swap32 (x : Z) : Z :=
  (x mod 256) * 2 ^ 24 + (x / 256) mod 256 * 2 ^ 16 + (x / 2 ^ 16) mod 256 * 256 + (x / 2 ^ 24) mod 256.
Definition bpf_ntohl : Z -> Z := swap32.

(** ** Data *)
Definition SOCK_STREAM : Z := 1.
Definition SOCK_DGRAM : Z := 2.
Definition DNS_SLOTS : nat := 8.

(** Rewritten when the programs are loaded. *)
Record constants := Constants { tcp_port : Z; dns_base : Z }.

Definition no_destination : destination := Destination 0 0 0 0 (replicate 16 0).
Definition no_key : connectionKey := ConnectionKey 0 0 0 0 0 (replicate 16 0).

Record tcp_state := TcpState { ts_original : destination; ts_key : connectionKey; ts_tracked : bool }.

#[export] Instance connectionKey_eq_dec : EqDecision connectionKey.
Proof. solve_decision. Defined.
#[export] Instance connectionKey_countable : Countable connectionKey.
Proof.
  refine (inj_countable' (fun k => (k_Netns k, k_Family k, k_SourcePort k, k_ProxyPort k, k_Pad k, k_Source k))
    (fun t => let '(a, b, c, d, e, f) := t in ConnectionKey a b c d e f) _). by intros [].
Defined.

(** The socket storages, by socket, and the shared map. *)
Record maps := Maps {
  tcp_storage : gmap nat tcp_state; udp_storage : gmap nat (list destination); connections : gmap connectionKey destination
}.

(** [struct bpf_sock_addr]: the socket, its type, the address (four bytes or
    sixteen) and the port in network order. *)
Record sock_addr := SockAddr { sa_sk : nat; sa_type : Z; sa_ip : list Z; sa_port : Z }.

(** What the helpers return: the socket's cookie, the clock, and whether
    storage can be allocated. *)
Record helpers := Helpers { hp_cookie : Z; hp_ktime : Z; hp_alloc : bool }.

(** ** Address helpers *)
Definition loopback (ctx : sock_addr) (v6 : bool) : bool :=
  if v6 then sa_ip ctx =? replicate 15 0 ++ [1]
  else match sa_ip ctx with b :: _ => b =? 127 | [] => false end.

Definition read_destination (h : helpers) (ctx : sock_addr) (v6 : bool) : destination :=
  Destination (hp_cookie h) (hp_ktime h) (if v6 then AF_INET6 else AF_INET) (bpf_ntohs (sa_port ctx)) (array16 (sa_ip ctx)).

Definition to_local (ctx : sock_addr) (v6 : bool) (port : Z) : sock_addr :=
  SockAddr (sa_sk ctx) (sa_type ctx) (if v6 then replicate 15 0 ++ [1] else [127; 0; 0; 1]) (bpf_htons port).

(** ** [dns_slot] *)
Definition same_peer (d p : destination) : bool :=
  (d_Family p =? d_Family d) && (d_Port p =? d_Port d) && (d_Address p =? d_Address d).

(** The slot of [d], or the first empty one in [empty]. *)
Fixpoint slot_loop (i : nat) (empty : option nat) (d : destination) (peers : list destination) : nat + option nat :=
  match peers with
  | [] => inr empty
  | p :: peers' =>
      let empty' := match empty with Some e => Some e | None => if d_Family p =? 0 then Some i else None end in
      if same_peer d p then inl i else slot_loop (S i) empty' d peers'
  end.

Definition dns_slot (h : helpers) (ctx : sock_addr) (v6 : bool) (s : maps) : option nat * maps :=
  match udp_storage s !! sa_sk ctx, hp_alloc h with
  | None, false => (None, s)
  | stored, _ =>
      let peers := default (replicate DNS_SLOTS no_destination) stored in
      let s := Maps (tcp_storage s) (<[sa_sk ctx := peers]> (udp_storage s)) (connections s) in
      let d := read_destination h ctx v6 in
      match slot_loop 0 None d peers with
      | inl i => (Some i, s)
      | inr None => (None, s)
      | inr (Some e) => (Some e, Maps (tcp_storage s) (<[sa_sk ctx := <[e := d]> peers]> (udp_storage s)) (connections s))
      end
  end.

(** ** [redirect]: connect and sendmsg *)
Definition redirect (c : constants) (h : helpers) (ctx : sock_addr) (v6 sendmsg : bool) (s : maps) : bool * sock_addr * maps :=
  let port := bpf_ntohs (sa_port ctx) in
  if sa_type ctx =? SOCK_DGRAM then
    if port <>? 53 then (loopback ctx v6, ctx, s)
    else match dns_slot h ctx v6 s with
         | (None, s') => (false, ctx, s')
         | (Some slot, s') => (true, to_local ctx v6 (dns_base c + Z.of_nat slot), s')
         end
  else if sendmsg || (sa_type ctx <>? SOCK_STREAM) then (false, ctx, s)
  else if (port <>? 53) && loopback ctx v6 then (true, ctx, s)
  else match tcp_storage s !! sa_sk ctx, hp_alloc h with
       | None, false => (false, ctx, s)
       | _, _ =>
           let st := TcpState (read_destination h ctx v6) no_key false in
           (true, to_local ctx v6 (tcp_port c), Maps (<[sa_sk ctx := st]> (tcp_storage s)) (udp_storage s) (connections s))
       end.

(** ** [handle_sockops] *)

(** [struct bpf_sock_ops]: the namespace, the family, the local port in host
    order, the remote port in network order and the local address. *)
Record sock_ops := SockOps {
  so_netns : Z; so_family : Z; so_local_port : Z; so_remote_port : Z; so_local_ip : list Z
}.

#[export] Instance sock_ops_eq_dec : EqDecision sock_ops.
Proof. solve_decision. Defined.

(** The callbacks: a connection established by this side, with whether the map
    takes the entry and what it evicts for it; a change of state; others. *)
Inductive callback :=
| ActiveEstablished (ops : sock_ops) (update : bool) (evicted : list connectionKey)
| StateChange (newstate : Z)
| OtherCallback.

Definition TCP_CLOSE : Z := 7.

Definition established_key (ops : sock_ops) (old : connectionKey) : connectionKey :=
  ConnectionKey (so_netns ops) (so_family ops) (so_local_port ops) (bpf_ntohl (so_remote_port ops)) (k_Pad old)
    (if so_family ops =? AF_INET then firstn 4 (so_local_ip ops) ++ skipn 4 (k_Source old) else array16 (so_local_ip ops)).

Definition handle_sockops (sk : nat) (cb : callback) (s : maps) : maps :=
  match tcp_storage s !! sk with
  | None => s
  | Some st =>
      match cb with
      | ActiveEstablished ops update evicted =>
          let key := established_key ops (ts_key st) in
          let st' := TcpState (ts_original st) key (if update then true else ts_tracked st) in
          let conns := if update then <[key := ts_original st]> (foldr delete (connections s) evicted) else connections s in
          Maps (<[sk := st']> (tcp_storage s)) (udp_storage s) conns
      | StateChange newstate =>
          if (newstate =? TCP_CLOSE) && ts_tracked st then
            match connections s !! ts_key st with
            | Some d =>
                if d_Cookie d =? d_Cookie (ts_original st)
                then Maps (tcp_storage s) (udp_storage s) (delete (ts_key st) (connections s)) else s
            | None => s
            end
          else s
      | OtherCallback => s
      end
  end.

(** ** [restore]: getpeername and recvmsg *)
Definition restore (c : constants) (ctx : sock_addr) (v6 udp_only : bool) (s : maps) : bool * sock_addr :=
  let apply (d : destination) :=
    if d_Family d <>? (if v6 then AF_INET6 else AF_INET) then (true, ctx)
    else (true, SockAddr (sa_sk ctx) (sa_type ctx) (if v6 then d_Address d else firstn 4 (d_Address d)) (bpf_htons (d_Port d))) in
  if sa_type ctx =? SOCK_DGRAM then
    let port := bpf_ntohs (sa_port ctx) in
    if (port <? dns_base c) || (dns_base c + Z.of_nat DNS_SLOTS <=? port) || negb (loopback ctx v6) then (true, ctx)
    else match udp_storage s !! sa_sk ctx with
         | None => (true, ctx)
         | Some peers => match peers !! Z.to_nat (port - dns_base c) with Some d => apply d | None => (false, ctx) end
         end
  else if negb udp_only && (sa_type ctx =? SOCK_STREAM) then
    match tcp_storage s !! sa_sk ctx with Some st => apply (ts_original st) | None => (true, ctx) end
  else (true, ctx).

(** ** [attachCapture] *)
Definition hooks : list string :=
  ["handle_sockops"; "getpeer4"; "getpeer6"; "recvmsg4"; "recvmsg6"; "sendmsg4"; "sendmsg6"; "connect4"; "connect6"].

Record attachEnv := AttachEnv { ae_spec : option error; ae_rewrite : option error; ae_load : option error; ae_attach : string -> option error }.

(** The links open, newest last, and whether the collection is. *)
Record capture := Capture { cp_collection : bool; cp_links : list string }.

(** [capture.Close]: the links newest first, then the collection. *)
Fixpoint close_links (l : list string) (open : list string) : list string :=
  match l with
  | [] => open
  | _ :: l' => close_links l' (removelast open)
  end.
Definition capture_close (c : capture) : capture := Capture false (close_links (cp_links c) (cp_links c)).

Fixpoint attach_all (env : attachEnv) (l : list string) : SM capture unit :=
  match l with
  | [] => sret tt
  | h :: l' =>
      match ae_attach env h with
      | Some e => sfail (ErrWrap ("attach " +:+ h) e)
      | None => fun c => attach_all env l' (Capture (cp_collection c) (cp_links c ++ [h]))
      end
  end.

Definition attachCapture (env : attachEnv) : SM capture unit :=
  match ae_spec env, ae_rewrite env, ae_load env with
  | Some e, _, _ => sfail e
  | None, Some e, _ => sfail e
  | None, None, Some e => sfail (ErrWrap "load BPF" e)
  | None, None, None => fun c =>
      defer_unless_ok capture_close (attach_all env hooks) (Capture true [])
  end.

(** ** Runs of the programs *)

(** A connect or sendmsg of a socket, and a callback for one. *)
Inductive hook :=
| Redirect (ktime : Z) (alloc : bool) (ctx : sock_addr) (v6 sendmsg : bool)
| Callback (sk : nat) (cb : callback).

Section runs.
(** [bpf_get_socket_cookie]. *)
Context (c : constants) (cookie : nat -> Z).

Definition hook_step (s : maps) (ev : hook) : maps :=
  match ev with
  | Redirect ktime alloc ctx v6 sendmsg => (redirect c (Helpers (cookie (sa_sk ctx)) ktime alloc) ctx v6 sendmsg s).2
  | Callback sk cb => handle_sockops sk cb s
  end.
Definition hook_run (s : maps) (l : list hook) : maps := foldl hook_step s l.
End runs.

(** ** Confinement *)
Lemma loopback_local ctx v6 port : loopback (to_local ctx v6 port) v6 = true.
Proof. destruct v6; [apply bool_decide_eq_true_2|]; done. Qed.

(** C4: Whatever a workload connects or sends to, the programs let it through only
    to a loopback address: unchanged, or rewritten to the agent's proxy. *)
Theorem redirect_confined c h ctx v6 sendmsg s ctx' s' : redirect c h ctx v6 sendmsg s = (true, ctx', s') -> loopback ctx' v6 = true.
Proof.
  unfold redirect. case_bool_decide; [case_bool_decide; cbn [negb]|].
  - destruct (dns_slot h ctx v6 s) as [[slot|] s1]; intros [= <- <-]. apply loopback_local.
  - by intros [= H1 <- <-].
  - destruct (_ || _); [done|]. destruct (_ && _) eqn:E; [intros [= <- <-]; by apply andb_true_iff in E as [_ E]|].
    destruct (tcp_storage s !! sa_sk ctx), (hp_alloc h); intros [= <- <-]; apply loopback_local.
Qed.

(** ** Byte order is undone *)
Lemma swap16_range x : 0 <= swap16 x < 65536.
Proof. unfold swap16. divlia. Qed.

Lemma swap16_swap16 x : 0 <= x < 65536 -> swap16 (swap16 x) = x.
Proof. unfold swap16. intros H. divlia. Qed.

Lemma ntohs_htons x : 0 <= x < 65536 -> bpf_ntohs (bpf_htons x) = x.
Proof. intros H. unfold bpf_ntohs, bpf_htons, u16, wrap. rewrite Z.mod_small by lia. by apply swap16_swap16. Qed.

Lemma htons_ntohs x : 0 <= x < 65536 -> bpf_htons (bpf_ntohs x) = x.
Proof.
  intros H. unfold bpf_ntohs, bpf_htons, u16, wrap. pose proof (swap16_range x). rewrite Z.mod_small by lia. by apply swap16_swap16.
Qed.

(** A port as the kernel puts it into [remote_port]. *)
Definition remote_port (p : Z) : Z := bpf_htons p * 2 ^ 16.

Lemma ntohl_remote_port p : 0 <= p < 65536 -> bpf_ntohl (remote_port p) = p.
Proof.
  intros Hp. unfold bpf_ntohl, swap32, remote_port. change (2 ^ 24) with 16777216. change (2 ^ 16) with 65536.
  rewrite <- (ntohs_htons p Hp) at 5. unfold bpf_ntohs. pose proof (swap16_range (u16 p)) as Hs. fold (bpf_htons p) in Hs.
  set (s := bpf_htons p) in *. clearbody s. unfold swap16.
  assert (E1 : s * 65536 mod 256 = 0) by divlia. assert (E2 : s * 65536 / 256 mod 256 = 0) by divlia.
  assert (E3 : s * 65536 / 65536 = s) by divlia. assert (E4 : s * 65536 / 16777216 = s / 256) by divlia.
  rewrite E1, E2, E3, E4. lia.
Qed.

(** ** Addresses *)
Definition octets (n : nat) (l : list Z) : Prop := length l = n /\ Forall (fun b => 0 <= b < 256) l.
Definition addr_ok (ctx : sock_addr) (v6 : bool) : Prop :=
  octets (if v6 then 16 else 4) (sa_ip ctx) /\ 0 <= sa_port ctx < 65536.

Lemma array16_ip l (v6 : bool) : length l = (if v6 then 16 else 4)%nat -> (if v6 then array16 l else firstn 4 (array16 l)) = l.
Proof.
  intros Hl. unfold array16. destruct v6.
  - rewrite take_app_le by lia. by apply take_ge; lia.
  - rewrite take_take, take_app_le by lia. by apply take_ge; lia.
Qed.

(** ** The captured destination reaches the worker *)
Section captured.
Context (c : constants) (cookie : nat -> Z) {cookie_inj : Inj (=) (=) cookie}.

(** Every stored destination carries the cookie of its socket. *)
Definition cookies_ok (s : maps) : Prop :=
  forall sk st, tcp_storage s !! sk = Some st -> d_Cookie (ts_original st) = cookie sk.

Lemma dns_slot_tcp h ctx v6 s : tcp_storage (dns_slot h ctx v6 s).2 = tcp_storage s /\ connections (dns_slot h ctx v6 s).2 = connections s.
Proof.
  unfold dns_slot. destruct (udp_storage s !! sa_sk ctx), (hp_alloc h); try done; destruct (slot_loop _ _ _ _) as [|[]]; done.
Qed.

(** A redirect stores at most the state of its own socket. *)
Lemma redirect_tcp h ctx v6 sendmsg s : let s' := (redirect c h ctx v6 sendmsg s).2 in
  connections s' = connections s /\
  (tcp_storage s' = tcp_storage s \/
   tcp_storage s' = <[sa_sk ctx := TcpState (read_destination h ctx v6) no_key false]> (tcp_storage s)).
Proof.
  cbn zeta. unfold redirect. case_bool_decide.
  - case_bool_decide; cbn [negb]; [|by auto]. destruct (dns_slot_tcp h ctx v6 s) as [H1 H2].
    destruct (dns_slot h ctx v6 s) as [[slot|] s1]; cbn [snd] in *; auto.
  - destruct (_ || _); [by auto|]. destruct (_ && _); [by auto|]. destruct (tcp_storage s !! sa_sk ctx), (hp_alloc h); cbn; auto.
Qed.

(** A callback keeps the destination its socket asked for. *)
Lemma callback_tcp sk cb s : let s' := handle_sockops sk cb s in
  (forall sk', sk' <> sk -> tcp_storage s' !! sk' = tcp_storage s !! sk') /\
  (forall st', tcp_storage s' !! sk = Some st' -> exists st, tcp_storage s !! sk = Some st /\ ts_original st' = ts_original st).
Proof.
  cbn zeta. unfold handle_sockops. destruct (tcp_storage s !! sk) as [st|] eqn:E; [|by rewrite E].
  destruct cb as [ops update evicted|newstate|]; [|destruct (_ && _); [destruct (connections s !! _); [case_bool_decide|]|]|];
    cbn [tcp_storage]; try (split; [done|]; rewrite E; by eauto).
  split; [intros sk' Hne; by apply lookup_insert_ne|]. intros st'. rewrite lookup_insert_eq. intros [= <-]. eauto.
Qed.

Lemma cookies_step s ev : cookies_ok s -> cookies_ok (hook_step c cookie s ev).
Proof.
  intros Hs sk st. destruct ev as [ktime alloc ctx v6 sendmsg|sk' cb]; cbn [hook_step].
  - destruct (redirect_tcp (Helpers (cookie (sa_sk ctx)) ktime alloc) ctx v6 sendmsg s) as [_ [->| ->]]; [apply Hs|].
    destruct (decide (sa_sk ctx = sk)) as [<-|Hne]; [rewrite lookup_insert_eq; by intros [= <-]|rewrite lookup_insert_ne by done; apply Hs].
  - destruct (callback_tcp sk' cb s) as [H1 H2]. destruct (decide (sk = sk')) as [->|Hne]; [|rewrite H1 by done; apply Hs].
    intros (st0 & H0 & ->)%H2. by apply Hs.
Qed.

Lemma cookies_run l : forall s, cookies_ok s -> cookies_ok (hook_run c cookie s l).
Proof. induction l as [|ev l IH]; intros s Hs; [done|]. apply IH. by apply cookies_step. Qed.

Lemma redirect_other_type h ctx v6 sendmsg s : sa_type ctx <> SOCK_STREAM ->
  tcp_storage (redirect c h ctx v6 sendmsg s).2 = tcp_storage s.
Proof.
  intros Ht. unfold redirect. case_bool_decide.
  - case_bool_decide; cbn [negb]; [|done]. destruct (dns_slot_tcp h ctx v6 s) as [H1 _].
    by destruct (dns_slot h ctx v6 s) as [[slot|] s1].
  - rewrite (bool_decide_false (sa_type ctx = SOCK_STREAM)) by done. cbn [negb]. by rewrite orb_true_r.
Qed.

(** *** Histories of the kernel

    What the kernel guarantees of the calls it makes, over the sockets that are
    connected: the connect program of a stream socket runs while the socket is
    not connected, a connection is established on a socket that is not connected,
    and no two connections that are open at once have the same namespace, family,
    local address, local port and remote port.  The last is the uniqueness of TCP
    connections where, as for connections to the proxy, these determine the
    remote address, which the programs are not given. *)
Definition live_step (live : gmap nat sock_ops) (ev : hook) : gmap nat sock_ops :=
  match ev with
  | Callback sk (ActiveEstablished ops _ _) => <[sk := ops]> live
  | Callback sk (StateChange n) => if n =? TCP_CLOSE then delete sk live else live
  | _ => live
  end.

(** A port as the kernel gives it, and an address of the family. *)
Definition ops_ok (ops : sock_ops) : Prop :=
  (exists p, 0 <= p < 65536 /\ so_remote_port ops = remote_port p) /\
  length (so_local_ip ops) = if so_family ops =? AF_INET then 4%nat else 16%nat.

(** What the kernel guarantees of one call. *)
Definition kernel_step (live : gmap nat sock_ops) (ev : hook) : Prop :=
  match ev with
  | Redirect _ _ ctx _ _ => sa_type ctx = SOCK_STREAM -> live !! sa_sk ctx = None
  | Callback sk (ActiveEstablished ops _ _) => live !! sk = None /\ (forall sk', live !! sk' <> Some ops) /\ ops_ok ops
  | _ => True
  end.

Fixpoint kernel_history (live : gmap nat sock_ops) (l : list hook) : Prop :=
  match l with [] => True | ev :: l' => kernel_step live ev /\ kernel_history (live_step live ev) l' end.

Definition live_run (live : gmap nat sock_ops) (l : list hook) : gmap nat sock_ops := foldl live_step live l.

Lemma kernel_history_app l1 : forall live l2, kernel_history live (l1 ++ l2) <-> kernel_history live l1 /\ kernel_history (live_run live l1) l2.
Proof.
  induction l1 as [|ev l1 IH]; intros live l2; [cbn; tauto|].
  rewrite <- app_comm_cons. cbn [kernel_history]. rewrite IH. cbn [live_run foldl]. tauto.
Qed.

(** A key tells the connection, whatever the bytes of an IPv4 key past the
    address were. *)
Lemma established_key_inj ops old ops' old' : ops_ok ops -> ops_ok ops' -> established_key ops old = established_key ops' old' -> ops = ops'.
Proof.
  intros ((p & Hp & Ep) & Hl) ((p' & Hp' & Ep') & Hl') [= H1 H2 H3 H4 _ H6]. destruct ops as [n f lp rp ip], ops' as [n' f' lp' rp' ip'].
  cbn in *. subst. rewrite !ntohl_remote_port in H4 by done. subst. f_equal. revert Hl Hl' H6. case_bool_decide; intros Hl Hl' H6.
  - rewrite !take_ge in H6 by lia. by apply app_inj_1 in H6 as [? _]; [|congruence].
  - unfold array16 in H6. rewrite !take_app_le, !take_ge in H6 by lia. done.
Qed.

(** Every entry of the shared map belongs to a socket that is connected under
    its key, and is the destination that socket asked for. *)
Definition owner (live : gmap nat sock_ops) (storage : gmap nat tcp_state) (k : connectionKey) (d : destination) (sk : nat) : Prop :=
  exists st ops old, storage !! sk = Some st /\ ts_key st = k /\ ts_tracked st = true /\ ts_original st = d /\
    live !! sk = Some ops /\ k = established_key ops old.

Record owned (live : gmap nat sock_ops) (s : maps) : Prop := {
  ow_entry : forall k d, connections s !! k = Some d -> exists sk, owner live (tcp_storage s) k d sk;
  ow_inj : forall a b ops, live !! a = Some ops -> live !! b = Some ops -> a = b;
  ow_ok : forall sk ops, live !! sk = Some ops -> ops_ok ops;
  ow_cookies : cookies_ok s
}.

(** What concerns other sockets leaves an owner alone. *)
Lemma owner_other live live' storage storage' k d sk : owner live storage k d sk ->
  live' !! sk = live !! sk -> storage' !! sk = storage !! sk -> owner live' storage' k d sk.
Proof. intros (st & ops & old & H) H1 H2. exists st, ops, old. by rewrite H1, H2. Qed.

Lemma foldr_delete_Some {V} (m : gmap connectionKey V) k v l : foldr delete m l !! k = Some v -> m !! k = Some v.
Proof.
  induction l as [|x l IH]; [done|]. cbn [foldr]. intros H. apply lookup_delete_Some in H as [_ H]. by apply IH.
Qed.

Lemma foldr_delete_spares {V} (m : gmap connectionKey V) k l : k ∉ l -> foldr delete m l !! k = m !! k.
Proof.
  induction l as [|x l IH]; intros Hk; [done|]. apply not_elem_of_cons in Hk as [Hx Hk]. cbn [foldr]. by rewrite lookup_delete_ne, IH.
Qed.

Lemma owned_redirect live s ktime alloc ctx v6 sendmsg : owned live s -> kernel_step live (Redirect ktime alloc ctx v6 sendmsg) ->
  owned live (hook_step c cookie s (Redirect ktime alloc ctx v6 sendmsg)).
Proof.
  intros [He Hi Hok Hc] Hk. split; [|done|done|by apply cookies_step]. cbn [hook_step kernel_step] in *.
  set (h := Helpers (cookie (sa_sk ctx)) ktime alloc). intros k d.
  destruct (redirect_tcp h ctx v6 sendmsg s) as [-> Ht]. intros (sk & Hsk)%He. exists sk.
  eapply owner_other; [exact Hsk|done|]. destruct Ht as [-> | Ht]; [done|].
  destruct (decide (sa_type ctx = SOCK_STREAM)) as [E|E]; [|by rewrite redirect_other_type].
  rewrite Ht. apply lookup_insert_ne. intros <-. destruct Hsk as (st & ops & old & _ & _ & _ & _ & Hl & _). by rewrite (Hk E) in Hl.
Qed.

Lemma owned_established live s sk ops update evicted : owned live s -> kernel_step live (Callback sk (ActiveEstablished ops update evicted)) ->
  owned (live_step live (Callback sk (ActiveEstablished ops update evicted)))
    (hook_step c cookie s (Callback sk (ActiveEstablished ops update evicted))).
Proof.
  intros [He Hi Hok Hc] (Hnew & Huniq & Hops). cbn [live_step]. split; [| | |by apply cookies_step].
  - cbn [hook_step]. unfold handle_sockops.
    assert (Hne : forall k d sk', owner live (tcp_storage s) k d sk' -> sk' <> sk)
      by (intros k d sk' (st & ops' & old & _ & _ & _ & _ & Hl & _) ->; congruence).
    destruct (tcp_storage s !! sk) as [st0|] eqn:E0.
    2: { intros k d (sk' & Hsk)%He. exists sk'. pose proof (Hne _ _ _ Hsk). eapply owner_other; [exact Hsk|by apply lookup_insert_ne|done]. }
    cbn [connections tcp_storage]. set (key := established_key ops (ts_key st0)).
    assert (Hothers : forall k d, connections s !! k = Some d -> exists sk', owner (<[sk := ops]> live)
      (<[sk := TcpState (ts_original st0) key (if update then true else ts_tracked st0)]> (tcp_storage s)) k d sk').
    { intros k d (sk' & Hsk)%He. exists sk'. pose proof (Hne _ _ _ Hsk). eapply owner_other; [exact Hsk|by apply lookup_insert_ne..]. }
    destruct update; [|done]. intros k d. destruct (decide (key = k)) as [<-|Hkey].
    + rewrite lookup_insert_eq. intros [= <-]. exists sk. eexists _, ops, (ts_key st0). rewrite !lookup_insert_eq. by split_and!.
    + rewrite lookup_insert_ne by done. intros Hk%foldr_delete_Some. by apply Hothers.
  - intros a b o. rewrite !lookup_insert_Some. intros [[<- <-] | [Ha H1]] [[<- E] | [Hb H2]]; try done.
    + by destruct (Huniq b).
    + subst. by destruct (Huniq a).
    + by eapply Hi.
  - intros a o. rewrite lookup_insert_Some. intros [[_ <-] | [_ H]]; [done|by eapply Hok].
Qed.

Lemma owned_closed live s sk n : owned live s -> owned (live_step live (Callback sk (StateChange n))) (hook_step c cookie s (Callback sk (StateChange n))).
Proof.
  intros [He Hi Hok Hc]. split; [| | |by apply cookies_step].
  - cbn [live_step hook_step]. unfold handle_sockops. case_bool_decide as En; cbn [andb]; [|by destruct (tcp_storage s !! sk)].
    (* an entry whose owner is another socket stays owned by it *)
    assert (Hkeep : forall k d, connections s !! k = Some d -> (forall st, tcp_storage s !! sk = Some st -> ts_tracked st = true -> ts_original st = d -> ts_key st <> k) ->
      exists sk', owner (delete sk live) (tcp_storage s) k d sk').
    { intros k d (sk' & Hsk)%He Hno. exists sk'. eapply owner_other; [exact Hsk| |done]. apply lookup_delete_ne. intros <-.
      destruct Hsk as (st & ops & old & Hst & Hkey & Htr & Hor & _). by eapply Hno. }
    destruct (tcp_storage s !! sk) as [st0|] eqn:E0; [|intros k d Hk; by apply Hkeep].
    destruct (ts_tracked st0) eqn:Et; [|intros k d Hk; apply Hkeep; [done|]; intros st [= <-]; congruence].
    destruct (connections s !! ts_key st0) as [d0|] eqn:Ed.
    2: { intros k d Hk. apply Hkeep; [done|]. intros st [= <-] _ _ <-. congruence. }
    case_bool_decide as Eq; cbn [connections tcp_storage].
    + intros k d [Hne Hk]%lookup_delete_Some. apply Hkeep; [done|]. by intros st [= <-].
    + intros k d Hk. apply Hkeep; [done|]. intros st [= <-] _ Hor <-. congruence.
  - cbn [live_step]. case_bool_decide; [|done]. intros a b o [_ Ha]%lookup_delete_Some [_ Hb]%lookup_delete_Some. by eapply Hi.
  - cbn [live_step]. case_bool_decide; [|done]. intros a o [_ Ha]%lookup_delete_Some. by eapply Hok.
Qed.

Lemma owned_step live s ev : owned live s -> kernel_step live ev -> owned (live_step live ev) (hook_step c cookie s ev).
Proof.
  intros Ho Hk. destruct ev as [ktime alloc ctx v6 sendmsg|sk [ops update evicted|n|]].
  - by apply owned_redirect.
  - by apply owned_established.
  - by apply owned_closed.
  - cbn. unfold handle_sockops. by destruct (tcp_storage s !! sk).
Qed.

Lemma owned_empty : owned ∅ (Maps ∅ ∅ ∅).
Proof.
  split; cbn; [|intros a b k H; by rewrite lookup_empty in H|intros a o H; by rewrite lookup_empty in H|intros sk st H; cbn in H; by rewrite lookup_empty in H].
  intros k d H. by rewrite lookup_empty in H.
Qed.

Lemma owned_run l : forall live s, owned live s -> kernel_history live l -> owned (live_run live l) (hook_run c cookie s l).
Proof.
  induction l as [|ev l IH]; intros live s Ho Hk; [done|]. destruct Hk as [H1 H2]. by apply IH; [apply owned_step|].
Qed.

(** *** One connection *)

(** A connect or an establishment of the socket. *)
Definition restarts (sk : nat) (ev : hook) : Prop :=
  match ev with
  | Redirect _ _ ctx _ _ => sa_sk ctx = sk
  | Callback sk' (ActiveEstablished _ _ _) => sk' = sk
  | _ => False
  end.

Lemma storage_kept sk s ev : ~ restarts sk ev -> tcp_storage (hook_step c cookie s ev) !! sk = tcp_storage s !! sk.
Proof.
  intros Hr. destruct ev as [ktime alloc ctx v6 sendmsg|sk' cb]; cbn [hook_step restarts] in *.
  - destruct (redirect_tcp (Helpers (cookie (sa_sk ctx)) ktime alloc) ctx v6 sendmsg s) as [_ [->| ->]]; [done|]. by apply lookup_insert_ne.
  - destruct (decide (sk = sk')) as [<-|Hne]; [|by apply callback_tcp].
    unfold handle_sockops. destruct (tcp_storage s !! sk) as [st|] eqn:E; [|done].
    destruct cb as [ops update evicted|n|]; [done| |done]. destruct (_ && _); [|done].
    destruct (connections s !! _); [|done]. by case_bool_decide.
Qed.

Lemma storage_kept_run sk l : forall s, Forall (fun ev => ~ restarts sk ev) l -> tcp_storage (hook_run c cookie s l) !! sk = tcp_storage s !! sk.
Proof.
  induction l as [|ev l IH]; intros s Hl; [done|]. apply Forall_cons in Hl as [Hev Hl]. cbn [hook_run foldl].
  change (tcp_storage (hook_run c cookie (hook_step c cookie s ev) l) !! sk = tcp_storage s !! sk). rewrite IH by done. by apply storage_kept.
Qed.

(** While a socket is connected its state is left alone. *)
Lemma live_kept sk ops0 ev live s : live !! sk = Some ops0 -> kernel_step live ev -> ev <> Callback sk (StateChange TCP_CLOSE) ->
  live_step live ev !! sk = Some ops0 /\ tcp_storage (hook_step c cookie s ev) !! sk = tcp_storage s !! sk.
Proof.
  intros Hl Hk Hne. destruct ev as [ktime alloc ctx v6 sendmsg|sk' [ops update evicted|n|]]; cbn [live_step kernel_step] in *.
  - split; [done|]. destruct (decide (sa_type ctx = SOCK_STREAM)) as [E|E]; [|cbn [hook_step]; by rewrite redirect_other_type].
    apply storage_kept. cbn. intros <-. by rewrite (Hk E) in Hl.
  - destruct Hk as (Hnew & _). assert (sk <> sk') by congruence. split; [by rewrite lookup_insert_ne|]. apply storage_kept. cbn. congruence.
  - split; [|apply storage_kept; cbn; tauto]. case_bool_decide as En; [|done]. rewrite lookup_delete_ne; [done|]. congruence.
  - split; [done|]. apply storage_kept. cbn. tauto.
Qed.

(** The state of a connection that asked for [d] and is still open. *)
Record connected (sk : nat) (ops : sock_ops) (d : destination) (live : gmap nat sock_ops) (s : maps) : Prop := {
  cn_owned : owned live s;
  cn_live : live !! sk = Some ops;
  cn_state : exists st, tcp_storage s !! sk = Some st /\ ts_original st = d
}.

Lemma connected_step sk ops d live s ev : connected sk ops d live s -> kernel_step live ev -> ev <> Callback sk (StateChange TCP_CLOSE) ->
  connected sk ops d (live_step live ev) (hook_step c cookie s ev).
Proof.
  intros [Ho Hl (st & Hst & Hd)] Hk Hne. destruct (live_kept sk ops ev live s Hl Hk Hne) as [H1 H2].
  split; [by apply owned_step|done|]. exists st. by rewrite H2.
Qed.

(** The entry under its key, if there is one, is what it asked for. *)
Lemma connected_entry sk ops d live s d' : connected sk ops d live s -> connections s !! established_key ops no_key = Some d' -> d' = d.
Proof.
  intros [[He Hi Hok _] Hl (st & Hst & Hd)] (sk' & st' & ops' & old & Hst' & Hkey & _ & <- & Hl' & E)%He.
  apply established_key_inj in E as <-; [|by eapply Hok..]. pose proof (Hi _ _ _ Hl Hl') as <-. congruence.
Qed.

(** An event that has the map evict [k]. *)
Definition evicts (k : connectionKey) (ev : hook) : Prop :=
  match ev with Callback _ (ActiveEstablished _ true evicted) => k ∈ evicted | _ => False end.

(** Without an eviction the entry stays until its own socket closes, even when
    a socket with an older entry under the same key does. *)
Lemma entry_kept sk ops d live s ev : connected sk ops d live s ->
  kernel_step live ev -> ev <> Callback sk (StateChange TCP_CLOSE) -> ~ evicts (established_key ops no_key) ev ->
  connections s !! established_key ops no_key = Some d -> connections (hook_step c cookie s ev) !! established_key ops no_key = Some d.
Proof.
  intros [[He Hi Hok Hc] Hl (st & Hst & Hd)] Hk Hne Hev Hent.
  destruct ev as [ktime alloc ctx v6 sendmsg|sk' cb]; cbn [hook_step].
  { by rewrite (proj1 (redirect_tcp (Helpers (cookie (sa_sk ctx)) ktime alloc) ctx v6 sendmsg s)). }
  unfold handle_sockops. destruct (tcp_storage s !! sk') as [st'|] eqn:E; [|done].
  destruct cb as [ops' [] evicted|n|]; cbn [connections]; [|done| |done].
  - destruct Hk as (_ & Huniq & Hops'). rewrite lookup_insert_ne, foldr_delete_spares; [done|done|].
    intros Heq. apply established_key_inj in Heq as ->; [|done|by eapply Hok]. by destruct (Huniq sk).
  - case_bool_decide as En; cbn [andb]; [|done]. destruct (ts_tracked st'); [|done].
    destruct (connections s !! ts_key st') as [d'|] eqn:E'; [|done]. case_bool_decide as Hq; [|done].
    cbn [connections]. rewrite lookup_delete_ne; [done|]. intros Heq. rewrite Heq, Hent in E'. injection E' as <-.
    apply Hne. rewrite En. do 2 f_equal. apply cookie_inj. rewrite <- (Hc _ _ E), <- (Hc _ _ Hst). congruence.
Qed.

Lemma redirect_captures h ctx v6 s : hp_alloc h = true -> sa_type ctx = SOCK_STREAM ->
  bpf_ntohs (sa_port ctx) = 53 \/ loopback ctx v6 = false ->
  redirect c h ctx v6 false s = (true, to_local ctx v6 (tcp_port c),
    Maps (<[sa_sk ctx := TcpState (read_destination h ctx v6) no_key false]> (tcp_storage s)) (udp_storage s) (connections s)).
Proof.
  intros Ha Ht Hc. unfold redirect. rewrite Ht, Ha. change (SOCK_STREAM =? SOCK_DGRAM) with false. change (SOCK_STREAM <>? SOCK_STREAM) with false.
  cbn [orb]. assert (E : (bpf_ntohs (sa_port ctx) <>? 53) && loopback ctx v6 = false).
  { destruct Hc as [->| ->]; [done|apply andb_false_r]. }
  rewrite E. by destruct (tcp_storage s !! sa_sk ctx).
Qed.

(** The address the kernel was asked for, as the worker sees addresses. *)
Definition asked_addr (ctx : sock_addr) (v6 : bool) : addr :=
  if v6 then unmap (Addr6 (bytes_value (sa_ip ctx)) "") else Addr4 (bytes_value (sa_ip ctx)).

Lemma read_destination_addr h ctx v6 : addr_ok ctx v6 -> bpf_ntohs (sa_port ctx) <> 0 ->
  destination_addr (read_destination h ctx v6) = Ok (AddrPort (asked_addr ctx v6) (bpf_ntohs (sa_port ctx))).
Proof.
  intros [[Hl _] _] Hp. pose proof (swap16_range (sa_port ctx)) as Hr. fold (bpf_ntohs (sa_port ctx)) in Hr.
  pose proof (array16_ip (sa_ip ctx) v6 Hl) as Ha. unfold destination_addr, read_destination, asked_addr. cbn [d_Family d_Port d_Address].
  assert (E : (bpf_ntohs (sa_port ctx) =? 0) || (65535 <? bpf_ntohs (sa_port ctx)) = false).
  { rewrite bool_decide_eq_false_2 by done. cbn [orb]. apply Z.ltb_ge. lia. }
  assert (Eu : u16 (bpf_ntohs (sa_port ctx)) = bpf_ntohs (sa_port ctx)) by (apply Z.mod_small; lia).
  destruct v6; cbn [rbind]; rewrite Ha; [change (AF_INET6 =? 2) with false; change (AF_INET6 =? 10) with true|change (AF_INET =? 2) with true];
    cbn [rbind]; rewrite E, Eu; done.
Qed.

(** The key the kernel publishes is the one the worker looks up. *)
Lemma key_agrees (v6 : bool) netns ip port : octets (if v6 then 16 else 4) ip -> (v6 = true -> to4 ip = None) ->
  0 <= port < 65536 -> 0 <= tcp_port c < 65536 ->
  connectionIdentity (TcpConn (Ok netns) ip port (tcp_port c)) =
    Ok (established_key (SockOps netns (if v6 then AF_INET6 else AF_INET) port (remote_port (tcp_port c)) ip) no_key).
Proof.
  intros [Hl _] H4 Hp Ht. unfold connectionIdentity, established_key. cbn [rbind tc_cookie tc_remote_ip tc_remote_port tc_local_port].
  cbn [so_netns so_family so_local_port so_remote_port so_local_ip no_key k_Pad k_Source]. rewrite ntohl_remote_port by done.
  unfold u32, wrap. rewrite !Z.mod_small by lia. destruct v6.
  - rewrite H4 by done. change (AF_INET6 =? AF_INET) with false. unfold to16. by rewrite Hl.
  - change (AF_INET =? AF_INET) with true. unfold to4. rewrite Hl. cbn [Nat.eqb].
    by destruct ip as [|x0 [|x1 [|x2 [|x3 [|]]]]].
Qed.

Lemma read_destination_asked h ctx v6 a : addr_ok ctx v6 -> destination_addr (read_destination h ctx v6) = Ok a ->
  a = AddrPort (asked_addr ctx v6) (bpf_ntohs (sa_port ctx)).
Proof.
  intros Ha. destruct (decide (bpf_ntohs (sa_port ctx) = 0)) as [E|E]; [|rewrite read_destination_addr by done; by intros [= <-]].
  unfold destination_addr, read_destination. cbn [d_Family d_Port d_Address]. rewrite E. by destruct v6.
Qed.

Lemma lookup_loop_found lookups k d tries : forall i, lookup_loop tries i lookups k = Ok d -> exists j, lookups k j = LFound d.
Proof.
  induction tries as [|n IH]; intros i H; [done|]. cbn in H. destruct (lookups k i) as [d'| |e] eqn:E; [|by eapply IH|done].
  injection H as ->. eauto.
Qed.

(** A captured connection that has just been established. *)
Lemma opened_connection evs0 evs1 ktime ctx v6 ops update evicted :
  let h := Helpers (cookie (sa_sk ctx)) ktime true in
  let opening := evs0 ++ Redirect ktime true ctx v6 false :: evs1 ++ [Callback (sa_sk ctx) (ActiveEstablished ops update evicted)] in
  let s := hook_run c cookie (Maps ∅ ∅ ∅) opening in
  sa_type ctx = SOCK_STREAM -> bpf_ntohs (sa_port ctx) = 53 \/ loopback ctx v6 = false ->
  Forall (fun ev => ~ restarts (sa_sk ctx) ev) evs1 -> kernel_history ∅ opening ->
  connected (sa_sk ctx) ops (read_destination h ctx v6) (live_run ∅ opening) s /\
  (update = true -> connections s !! established_key ops no_key = Some (read_destination h ctx v6)).
Proof.
  intros h opening s Ht Hc Hr Hk.
  assert (Ho : owned (live_run ∅ opening) s) by (apply owned_run; [apply owned_empty|done]).
  unfold s, opening, hook_run, live_run in *. rewrite !foldl_app in *. cbn [foldl] in *. rewrite !foldl_app in *. cbn [foldl] in *.
  set (s0 := foldl (hook_step c cookie) (Maps ∅ ∅ ∅) evs0) in *.
  set (s1 := hook_step c cookie s0 _) in *.
  assert (E1 : tcp_storage s1 !! sa_sk ctx = Some (TcpState (read_destination h ctx v6) no_key false)).
  { unfold s1. cbn [hook_step]. fold h. rewrite redirect_captures by done. apply lookup_insert_eq. }
  change (foldl (hook_step c cookie) s1 evs1) with (hook_run c cookie s1 evs1) in *.
  rewrite <- (storage_kept_run (sa_sk ctx) evs1 s1 Hr) in E1. set (s2 := hook_run c cookie s1 evs1) in *.
  split; [split; [done|cbn [live_step]; apply lookup_insert_eq|]|]; cbn [hook_step]; unfold handle_sockops; rewrite E1; cbn [tcp_storage connections ts_key ts_original].
  - eexists. split; [apply lookup_insert_eq|done].
  - intros ->. apply lookup_insert_eq.
Qed.

(** The connection at every moment of [evs], and its entry as long as none
    evicts it. *)
Lemma connected_run sk ops d evs : forall live s, connected sk ops d live s -> kernel_history live evs -> Callback sk (StateChange TCP_CLOSE) ∉ evs ->
  forall n, connected sk ops d (live_run live (list.take n evs)) (hook_run c cookie s (list.take n evs)) /\
    (connections s !! established_key ops no_key = Some d -> Forall (fun ev => ~ evicts (established_key ops no_key) ev) evs ->
     connections (hook_run c cookie s (list.take n evs)) !! established_key ops no_key = Some d).
Proof.
  induction evs as [|ev evs IH]; intros live s Hc Hk Hno n; [by rewrite take_nil|]. destruct n as [|n]; [done|]. cbn [list.take].
  destruct Hk as [H1 H2]. apply not_elem_of_cons in Hno as [Hne Hno].
  destruct (IH _ _ (connected_step _ _ _ _ _ _ Hc H1 ltac:(congruence)) H2 Hno n) as [I1 I2]. split; [exact I1|].
  intros Hent [Hev Hevs]%Forall_cons. apply I2; [|done]. by apply (entry_kept sk ops d live).
Qed.

(** C2: A stream connection a workload opens to anywhere but a loopback port, or to
    port 53, is redirected to the proxy, if the kernel can store its state, as
    the program otherwise refuses it.  While it is open the worker that
    accepts it gets the address and port the workload asked for, or an error and
    never another destination: whatever sockets do before, between and after,
    whatever entries the shared map refuses or evicts, whenever between the
    events each of the lookups happens, and whichever of them fail.  It gets
    them, if the port is not zero, the map took the entry and has not evicted
    it.  Assumed of the kernel is [kernel_history]: no two connections open at
    once agree in namespace, family, local address and both ports; and that the
    local address of an IPv6 connection is not an IPv4-mapped one. *)
Theorem captured_destination evs0 evs1 evs2 ktime ctx v6 netns ip port update evicted :
  sa_type ctx = SOCK_STREAM -> addr_ok ctx v6 -> bpf_ntohs (sa_port ctx) = 53 \/ loopback ctx v6 = false ->
  octets (if v6 then 16 else 4) ip -> (v6 = true -> to4 ip = None) -> 0 <= port < 65536 -> 0 <= tcp_port c < 65536 ->
  let ops := SockOps netns (if v6 then AF_INET6 else AF_INET) port (remote_port (tcp_port c)) ip in
  let opening := evs0 ++ Redirect ktime true ctx v6 false :: evs1 ++ [Callback (sa_sk ctx) (ActiveEstablished ops update evicted)] in
  Forall (fun ev => ~ restarts (sa_sk ctx) ev) evs1 ->
  kernel_history ∅ (opening ++ evs2) -> Callback (sa_sk ctx) (StateChange TCP_CLOSE) ∉ evs2 ->
  let moment n := hook_run c cookie (Maps ∅ ∅ ∅) (opening ++ list.take n evs2) in
  let conn := TcpConn (Ok netns) ip port (tcp_port c) in
  (redirect c (Helpers (cookie (sa_sk ctx)) ktime true) ctx v6 false (hook_run c cookie (Maps ∅ ∅ ∅) evs0)).1 =
    (true, to_local ctx v6 (tcp_port c)) /\
  (forall lookups, (forall k i d, lookups k i = LFound d -> exists n, connections (moment n) !! k = Some d) ->
    forall a, (let! d := originalDestination lookups conn in destination_addr d) = Ok a ->
      a = AddrPort (asked_addr ctx v6) (bpf_ntohs (sa_port ctx))) /\
  (bpf_ntohs (sa_port ctx) <> 0 -> update = true -> Forall (fun ev => ~ evicts (established_key ops no_key) ev) evs2 ->
    forall n, (let! d := originalDestination (fun k i => match connections (moment (n i)) !! k with Some d => LFound d | None => LMissing end) conn in
      destination_addr d) = Ok (AddrPort (asked_addr ctx v6) (bpf_ntohs (sa_port ctx)))).
Proof.
  intros Ht Ha Hc Hip H4 Hport Htcp ops opening Hr1 Hk Hopen moment conn. set (h := Helpers (cookie (sa_sk ctx)) ktime true).
  set (d := read_destination h ctx v6). set (k := established_key ops no_key).
  destruct (opened_connection evs0 evs1 ktime ctx v6 ops update evicted) as [Hcn Hent]; [done..| |].
  { by apply kernel_history_app in Hk as [Hk _]. }
  fold opening h d k in Hcn, Hent. apply kernel_history_app in Hk as [_ Hk].
  assert (Hm : forall n, moment n = hook_run c cookie (hook_run c cookie (Maps ∅ ∅ ∅) opening) (list.take n evs2))
    by (intros n; unfold moment, hook_run; by rewrite foldl_app).
  pose proof (connected_run (sa_sk ctx) ops d evs2 _ _ Hcn Hk Hopen) as Hrun. fold k in Hrun.
  assert (Hid : connectionIdentity conn = Ok k) by (by apply key_agrees).
  split; [unfold h; by rewrite redirect_captures|]. unfold originalDestination. rewrite Hid. cbn [rbind]. split.
  - intros lookups Hl a H. apply rbind_Ok in H as (d' & Hd & Hda). apply lookup_loop_found in Hd as (i & Hi).
    apply Hl in Hi as (n & Hn). rewrite Hm in Hn. destruct (Hrun n) as [Hcr _].
    rewrite (connected_entry _ _ _ _ _ _ Hcr Hn) in Hda. by eapply read_destination_asked.
  - intros Hp Hu Hev n. specialize (Hent Hu). destruct (Hrun (n 0%nat)) as [_ Hkept]. specialize (Hkept Hent Hev).
    cbn [lookup_loop]. rewrite Hm, Hkept. cbn [rbind]. by apply read_destination_addr.
Qed.
End captured.

(** ** Answers come from where the query was sent *)
Section answers.
Context (c : constants) (cookie : nat -> Z).

Definition slots_ok (s : maps) : Prop := forall sk peers, udp_storage s !! sk = Some peers -> length peers = DNS_SLOTS.

(** A slot found holds the peer, a slot to fill is empty. *)
Lemma slot_loop_spec d peers : forall i empty,
  match slot_loop i empty d peers with
  | inl j => exists n p, j = (i + n)%nat /\ peers !! n = Some p /\ same_peer d p = true
  | inr (Some e) => empty = Some e \/ exists n p, e = (i + n)%nat /\ peers !! n = Some p /\ d_Family p = 0
  | inr None => empty = None
  end.
Proof.
  induction peers as [|p peers IH]; intros i empty; cbn [slot_loop]; [destruct empty; auto|].
  destruct (same_peer d p) eqn:Es; [exists 0%nat, p; split; [lia|done]|].
  specialize (IH (S i) (match empty with Some e => Some e | None => if d_Family p =? 0 then Some i else None end)).
  destruct (slot_loop (S i) _ d peers) as [j|[e|]].
  - destruct IH as (n & q & -> & Hq & Hs). exists (S n), q. split; [lia|done].
  - destruct IH as [IH|(n & q & -> & Hq & Hs)]; [|right; exists (S n), q; split; [lia|done]].
    destruct empty; [by left|]. case_bool_decide as Hf; [|done]. injection IH as <-. right. exists 0%nat, p. split; [lia|done].
  - destruct empty; [done|]. by case_bool_decide.
Qed.

Lemma same_peer_refl d : same_peer d d = true.
Proof. unfold same_peer. by rewrite !bool_decide_eq_true_2. Qed.

(** [dns_slot] by cases. *)
Definition stored_peers (sk : nat) (s : maps) : list destination := default (replicate DNS_SLOTS no_destination) (udp_storage s !! sk).
Definition set_peers (sk : nat) (peers : list destination) (s : maps) : maps :=
  Maps (tcp_storage s) (<[sk := peers]> (udp_storage s)) (connections s).

Lemma dns_slot_cases h ctx v6 s : let d := read_destination h ctx v6 in let peers := stored_peers (sa_sk ctx) s in
  dns_slot h ctx v6 s = (None, s) \/
  dns_slot h ctx v6 s = match slot_loop 0 None d peers with
    | inl i => (Some i, set_peers (sa_sk ctx) peers s)
    | inr None => (None, set_peers (sa_sk ctx) peers s)
    | inr (Some e) => (Some e, set_peers (sa_sk ctx) (<[e := d]> peers) s) end.
Proof.
  cbn zeta. unfold dns_slot, stored_peers, set_peers. destruct (udp_storage s !! sa_sk ctx), (hp_alloc h); auto; right;
    cbn [default from_option id]; destruct (slot_loop _ _ _ _) as [|[]]; cbn [tcp_storage udp_storage connections]; by rewrite ?insert_insert_eq.
Qed.

(** The slot handed out holds the destination that was asked for. *)
Lemma dns_slot_spec h ctx v6 s i s' : slots_ok s -> dns_slot h ctx v6 s = (Some i, s') ->
  (i < DNS_SLOTS)%nat /\ exists peers p, udp_storage s' !! sa_sk ctx = Some peers /\ peers !! i = Some p /\
    same_peer (read_destination h ctx v6) p = true.
Proof.
  intros Hs. assert (Hp : length (stored_peers (sa_sk ctx) s) = DNS_SLOTS).
  { unfold stored_peers. destruct (udp_storage s !! sa_sk ctx) eqn:E; [by apply (Hs (sa_sk ctx))|done]. }
  destruct (dns_slot_cases h ctx v6 s) as [->| ->]; [done|]. set (d := read_destination h ctx v6). set (peers := stored_peers _ s) in *.
  pose proof (slot_loop_spec d peers 0 None) as L. destruct (slot_loop 0 None d peers) as [j|[e|]]; intros [= <- <-]; cbn [set_peers udp_storage].
  - destruct L as (n & p & -> & Hn & Hsame). split; [rewrite <- Hp; by eapply lookup_lt_Some|].
    exists peers, p. split; [apply lookup_insert_eq|done].
  - destruct L as [?|(n & p & -> & Hn & _)]; [done|]. apply lookup_lt_Some in Hn as Hlt. split; [by rewrite <- Hp|].
    exists (<[n := d]> peers), d. split; [apply lookup_insert_eq|]. split; [by apply list_lookup_insert_eq|apply same_peer_refl].
Qed.

(** A filled slot is never changed again. *)
Definition slot_holds (sk i : nat) (p : destination) (s : maps) : Prop :=
  exists peers, udp_storage s !! sk = Some peers /\ peers !! i = Some p.

Lemma callback_udp sk cb s : udp_storage (handle_sockops sk cb s) = udp_storage s.
Proof.
  unfold handle_sockops. destruct (tcp_storage s !! sk); [|done].
  destruct cb; [done| |done]. destruct (_ && _); [|done]. destruct (connections s !! _); [|done]. by case_bool_decide.
Qed.

Lemma dns_slot_keeps h ctx v6 s sk i p : d_Family p <> 0 -> slot_holds sk i p s -> slot_holds sk i p (dns_slot h ctx v6 s).2.
Proof.
  intros Hf (peers & Hk & Hi). destruct (dns_slot_cases h ctx v6 s) as [->| ->]; [by exists peers|].
  assert (Hset : forall q, (sa_sk ctx = sk -> q !! i = Some p) -> slot_holds sk i p (set_peers (sa_sk ctx) q s)).
  { intros q Hq. unfold slot_holds, set_peers. cbn [udp_storage]. destruct (decide (sa_sk ctx = sk)) as [E|E].
    - exists q. rewrite E, lookup_insert_eq. auto.
    - exists peers. by rewrite lookup_insert_ne. }
  assert (Hst : sa_sk ctx = sk -> stored_peers (sa_sk ctx) s = peers) by (intros ->; unfold stored_peers; by rewrite Hk).
  pose proof (slot_loop_spec (read_destination h ctx v6) (stored_peers (sa_sk ctx) s) 0 None) as L.
  destruct (slot_loop _ _ _ _) as [j|[e|]]; cbn [snd]; apply Hset; intros E; rewrite Hst in * by done; try done.
  destruct L as [?|(n & q & -> & Hq & Hz)]; [done|]. cbn [Nat.add]. rewrite list_lookup_insert_ne; [done|]. intros ->. congruence.
Qed.

Lemma slot_kept sk i p l : d_Family p <> 0 -> forall s, slot_holds sk i p s -> slot_holds sk i p (hook_run c cookie s l).
Proof.
  intros Hf. induction l as [|ev l IH]; intros s Hs; [done|]. cbn [hook_run foldl]. apply IH.
  destruct ev as [ktime alloc ctx v6 sendmsg|sk' cb]; cbn [hook_step].
  - unfold redirect. case_bool_decide.
    + case_bool_decide; cbn [negb]; [|done]. pose proof (dns_slot_keeps (Helpers (cookie (sa_sk ctx)) ktime alloc) ctx v6 s sk i p Hf Hs) as Hk.
      destruct (dns_slot _ ctx v6 s) as [[slot|] s1]; exact Hk.
    + destruct (_ || _); [done|]. destruct (_ && _); [done|].
      by destruct (tcp_storage s !! sa_sk ctx), alloc.
  - destruct Hs as (peers & H1 & H2). exists peers. by rewrite callback_udp.
Qed.

(** Slots are always eight. *)
Lemma slots_run l : forall s, slots_ok s -> slots_ok (hook_run c cookie s l).
Proof.
  induction l as [|ev l IH]; intros s Hs; [done|]. cbn [hook_run foldl]. apply IH.
  destruct ev as [ktime alloc ctx v6 sendmsg|sk' cb]; cbn [hook_step]; [|intros sk peers; rewrite callback_udp; apply Hs].
  set (h := Helpers _ _ _). assert (Hset : forall q, length q = DNS_SLOTS -> slots_ok (set_peers (sa_sk ctx) q s)).
  { intros q Hq sk qs. cbn [set_peers udp_storage]. destruct (decide (sa_sk ctx = sk)) as [<-|Hne]; [rewrite lookup_insert_eq; by intros [= <-]|].
    rewrite lookup_insert_ne by done. apply Hs. }
  assert (Hp : length (stored_peers (sa_sk ctx) s) = DNS_SLOTS).
  { unfold stored_peers. destruct (udp_storage s !! sa_sk ctx) eqn:E; [by apply (Hs (sa_sk ctx))|done]. }
  assert (Hd : slots_ok (dns_slot h ctx v6 s).2).
  { destruct (dns_slot_cases h ctx v6 s) as [->| ->]; [done|]. destruct (slot_loop _ _ _ _) as [|[]]; apply Hset; by rewrite ?length_insert. }
  unfold redirect. case_bool_decide.
  - case_bool_decide; cbn [negb]; [|done]. destruct (dns_slot h ctx v6 s) as [[slot|] s1]; exact Hd.
  - destruct (_ || _); [done|]. destruct (_ && _); [done|]. by destruct (tcp_storage s !! sa_sk ctx), (hp_alloc h).
Qed.

(** What [restore] writes back for the destination a context asked for. *)
Lemma restored ctx v6 p h : addr_ok ctx v6 -> same_peer (read_destination h ctx v6) p = true ->
  d_Family p = (if v6 then AF_INET6 else AF_INET) /\ (if v6 then d_Address p else firstn 4 (d_Address p)) = sa_ip ctx /\
  bpf_htons (d_Port p) = sa_port ctx.
Proof.
  intros [[Hl _] Hp] Hs. unfold same_peer in Hs. bspec in Hs. destruct Hs as [[-> ->] ->]. cbn [read_destination d_Family d_Port d_Address].
  split; [done|]. split; [by apply array16_ip|by apply htons_ntohs].
Qed.

(** C15: A datagram to port 53 that the programs let through goes to one of the
    resolver's eight ports, and whatever any socket does afterwards an answer
    from that port is shown to come from where the query was sent. *)
Theorem dns_roundtrip evs ktime alloc ctx v6 sendmsg ctx' s' evs' udp_only :
  sa_type ctx = SOCK_DGRAM -> addr_ok ctx v6 -> bpf_ntohs (sa_port ctx) = 53 -> 0 <= dns_base c -> dns_base c + 8 <= 65536 ->
  redirect c (Helpers (cookie (sa_sk ctx)) ktime alloc) ctx v6 sendmsg (hook_run c cookie (Maps ∅ ∅ ∅) evs) = (true, ctx', s') ->
  dns_base c <= bpf_ntohs (sa_port ctx') < dns_base c + 8 /\ restore c ctx' v6 udp_only (hook_run c cookie s' evs') = (true, ctx).
Proof.
  intros Ht Ha H53 Hb1 Hb2 H. set (s := hook_run c cookie _ evs) in H. unfold redirect in H.
  rewrite Ht, H53 in H. change (SOCK_DGRAM =? SOCK_DGRAM) with true in H. change (53 <>? 53) with false in H. set (h := Helpers _ _ _) in H.
  assert (Hs : slots_ok s) by (apply slots_run; intros sk q Hq; cbn [udp_storage] in Hq; by rewrite lookup_empty in Hq).
  destruct (dns_slot h ctx v6 s) as [[i|] s1] eqn:E; [|done]. injection H as <- <-.
  destruct (dns_slot_spec h ctx v6 s i s1 Hs E) as (Hi & peers & p & Hk & Hp & Hsame). destruct (restored ctx v6 p h Ha Hsame) as (Hf & Hip & Hport).
  unfold DNS_SLOTS in Hi. cbn [to_local sa_port]. rewrite ntohs_htons by lia. split; [lia|].
  assert (Hfz : d_Family p <> 0) by (rewrite Hf; by destruct v6).
  destruct (slot_kept (sa_sk ctx) i p evs' Hfz s1) as (peers' & Hk' & Hp'); [by exists peers|].
  unfold restore. rewrite loopback_local. cbn [to_local sa_type sa_port sa_sk]. rewrite Ht, ntohs_htons by lia. change (SOCK_DGRAM =? SOCK_DGRAM) with true.
  assert (Er : (dns_base c + Z.of_nat i <? dns_base c) || (dns_base c + Z.of_nat DNS_SLOTS <=? dns_base c + Z.of_nat i) || negb true = false).
  { unfold DNS_SLOTS. apply orb_false_iff. split; [|done]. apply orb_false_iff. split; [apply Z.ltb_ge; lia|apply Z.leb_gt; lia]. }
  rewrite Er, Hk'. replace (Z.to_nat (dns_base c + Z.of_nat i - dns_base c)) with i by lia. rewrite Hp'.
  rewrite Hf. rewrite bool_decide_eq_true_2 by done. cbn [negb]. rewrite Hip, Hport. destruct ctx as [sk ty ip po]. cbn in *. by subst ty.
Qed.
End answers.

(** ** Peer names *)

(** An event that keeps the destination stored for a socket. *)
Definition keeps_original (sk : nat) (ev : hook) : Prop :=
  match ev with Redirect _ _ ctx _ _ => sa_sk ctx <> sk | Callback _ _ => True end.

Lemma original_kept c cookie sk d l : Forall (keeps_original sk) l -> forall s,
  (exists st, tcp_storage s !! sk = Some st /\ ts_original st = d) ->
  exists st, tcp_storage (hook_run c cookie s l) !! sk = Some st /\ ts_original st = d.
Proof.
  induction 1 as [|ev l Hev Hl IH]; intros s (st & Hst & Hd); [by exists st|]. cbn [hook_run foldl]. apply IH.
  destruct ev as [ktime alloc ctx v6 sendmsg|sk' cb]; cbn [hook_step keeps_original] in *.
  - destruct (redirect_tcp c (Helpers (cookie (sa_sk ctx)) ktime alloc) ctx v6 sendmsg s) as [_ [->| ->]]; [by exists st|].
    exists st. by rewrite lookup_insert_ne.
  - destruct (callback_tcp sk' cb s) as [H1 _]. destruct (decide (sk = sk')) as [->|Hne]; [|exists st; by rewrite H1].
    unfold handle_sockops. rewrite Hst. destruct cb as [ops update evicted|newstate|]; cbn [tcp_storage]; [rewrite lookup_insert_eq; by eauto| |by eauto].
    destruct (_ && _); [|by eauto]. destruct (connections s !! _); [|by eauto]. case_bool_decide; by eauto.
Qed.

Lemma restore_stream c pc v6 s st ctx h : sa_type pc = SOCK_STREAM -> sa_type ctx = SOCK_STREAM -> sa_sk pc = sa_sk ctx -> addr_ok ctx v6 ->
  tcp_storage s !! sa_sk ctx = Some st -> ts_original st = read_destination h ctx v6 -> restore c pc v6 false s = (true, ctx).
Proof.
  intros Hp Hc Hsk Ha Hst Ho. destruct (restored ctx v6 (ts_original st) h Ha) as (Hf & Hip & Hport); [rewrite Ho; apply same_peer_refl|].
  unfold restore. rewrite Hp. change (SOCK_STREAM =? SOCK_DGRAM) with false. change (SOCK_STREAM =? SOCK_STREAM) with true. cbn [negb andb].
  rewrite Hsk, Hst, Hf, bool_decide_eq_true_2 by done. cbn [negb]. rewrite Hip, Hport. destruct ctx as [sk ty ip po]. cbn in *. by subst ty.
Qed.

Lemma peername_back c cookie s ktime ctx v6 evs pc :
  sa_type ctx = SOCK_STREAM -> addr_ok ctx v6 -> bpf_ntohs (sa_port ctx) = 53 \/ loopback ctx v6 = false ->
  Forall (keeps_original (sa_sk ctx)) evs -> sa_type pc = SOCK_STREAM -> sa_sk pc = sa_sk ctx ->
  restore c pc v6 false (hook_run c cookie s (Redirect ktime true ctx v6 false :: evs)) = (true, ctx).
Proof.
  intros Ht Ha Hc He Hpt Hpk. set (h := Helpers (cookie (sa_sk ctx)) ktime true).
  destruct (original_kept c cookie (sa_sk ctx) (read_destination h ctx v6) evs He (hook_step c cookie s (Redirect ktime true ctx v6 false)))
    as (st & Hst & Ho); [|by eapply restore_stream].
  cbn [hook_step]. fold h. rewrite redirect_captures by done. cbn [snd tcp_storage]. eexists. split; [apply lookup_insert_eq|done].
Qed.

(** The peer name of a captured connection is the destination that was asked
    for, however it is written and whatever happens until the socket connects
    again. *)
Theorem peername_roundtrip c cookie s ktime ctx v6 evs pc :
  sa_type ctx = SOCK_STREAM -> addr_ok ctx v6 -> bpf_ntohs (sa_port ctx) = 53 \/ loopback ctx v6 = false ->
  Forall (keeps_original (sa_sk ctx)) evs -> sa_type pc = SOCK_STREAM -> sa_sk pc = sa_sk ctx ->
  restore c pc v6 false (hook_run c cookie s (Redirect ktime true ctx v6 false :: evs)) = (true, ctx).
Proof. apply peername_back. Qed.

(** C34: A captured socket that is connected again, to a loopback port, keeps the
    first destination: its peer name is wrong. *)
Theorem stale_peername c cookie s ktime ctx v6 ktime2 ctx2 :
  sa_type ctx = SOCK_STREAM -> addr_ok ctx v6 -> bpf_ntohs (sa_port ctx) = 53 \/ loopback ctx v6 = false ->
  sa_sk ctx2 = sa_sk ctx -> sa_type ctx2 = SOCK_STREAM -> loopback ctx2 v6 = true -> bpf_ntohs (sa_port ctx2) <> 53 ->
  let s1 := hook_run c cookie s [Redirect ktime true ctx v6 false] in
  redirect c (Helpers (cookie (sa_sk ctx2)) ktime2 true) ctx2 v6 false s1 = (true, ctx2, s1) /\
  restore c ctx2 v6 false s1 = (true, ctx).
Proof.
  intros Ht Ha Hc Hsk Ht2 Hl2 Hp2 s1. split.
  - unfold redirect. rewrite Ht2, Hl2. change (SOCK_STREAM =? SOCK_DGRAM) with false. change (SOCK_STREAM <>? SOCK_STREAM) with false.
    cbn [orb]. by rewrite bool_decide_eq_false_2.
  - apply (peername_back c cookie s ktime ctx v6 [] ctx2); done.
Qed.

(** C35: A loopback address is left alone as an IPv4 address, and captured when the
    same address is written as an IPv4-mapped IPv6 one. *)
Theorem mapped_loopback_captured c h s sk x y z port : hp_alloc h = true -> bpf_ntohs port <> 53 ->
  0 <= x < 256 -> 0 <= y < 256 -> 0 <= z < 256 ->
  let v4 := SockAddr sk SOCK_STREAM [127; x; y; z] port in
  let v6 := SockAddr sk SOCK_STREAM (replicate 10 0 ++ [255; 255; 127; x; y; z]) port in
  asked_addr v6 true = asked_addr v4 false /\
  redirect c h v4 false false s = (true, v4, s) /\ (redirect c h v6 true false s).1 = (true, to_local v6 true (tcp_port c)).
Proof.
  intros Ha Hp Hx Hy Hz v4 v6. split; [|split].
  - unfold asked_addr, v4, v6. cbn [sa_ip]. set (n := bytes_value [127; x; y; z]).
    assert (Hn : n = ((127 * 256 + x) * 256 + y) * 256 + z) by reflexivity.
    assert (Hm : bytes_value (replicate 10 0 ++ [255; 255; 127; x; y; z]) = 65535 * 2 ^ 32 + n) by (rewrite Hn; unfold bytes_value; cbn [replicate app foldl]; lia).
    assert (Hr : 0 <= n < 2 ^ 32) by lia. rewrite Hm. unfold unmap, is4In6. rewrite Z.div_add_l, Z.div_small by lia.
    rewrite bool_decide_eq_true_2 by done. f_equal. rewrite Z.add_comm, Z.mod_add by lia. by apply Z.mod_small.
  - unfold redirect, v4. cbn [sa_type sa_port]. change (SOCK_STREAM =? SOCK_DGRAM) with false. change (SOCK_STREAM <>? SOCK_STREAM) with false.
    cbn [orb]. by rewrite bool_decide_eq_false_2.
  - rewrite redirect_captures; [done..|by right].
Qed.

(** ** Attachment *)
Lemma close_links_all l : close_links l l = [].
Proof.
  assert (H : forall l o, length l = length o -> close_links l o = []); [|by apply H].
  clear l. induction l as [|x l IH]; intros o Ho; [by destruct o|]. cbn [close_links]. apply IH.
  destruct (exists_last (l := o)) as (o' & y & ->); [by destruct o|]. rewrite removelast_last. rewrite length_app in Ho. cbn in Ho. lia.
Qed.

Lemma attach_all_spec env l : forall c r c', attach_all env l c = (r, c') ->
  cp_collection c' = cp_collection c /\ is_panic r = false /\ (is_ok r = true -> cp_links c' = cp_links c ++ l).
Proof.
  induction l as [|h l IH]; intros c r c' H; cbn [attach_all] in H; [injection H as <- <-; by rewrite app_nil_r|].
  destruct (ae_attach env h); [by injection H as <- <-|]. destruct (IH _ _ _ H) as (H1 & H2 & H3). split; [done|]. split; [done|].
  intros Hr. rewrite H3 by done. cbn [cp_links]. by rewrite <- app_assoc.
Qed.

(** The programs are attached all or not at all, those that let connections
    through last; on any failure every link and the collection are closed. *)
Theorem attachCapture_all_or_none env r c' : attachCapture env (Capture false []) = (r, c') ->
  (is_ok r = true /\ c' = Capture true ["handle_sockops"; "getpeer4"; "getpeer6"; "recvmsg4"; "recvmsg6"; "sendmsg4"; "sendmsg6"; "connect4"; "connect6"]) \/
  (is_ok r = false /\ c' = Capture false []).
Proof.
  unfold attachCapture. destruct (ae_spec env); [intros [= <- <-]; by right|]. destruct (ae_rewrite env); [intros [= <- <-]; by right|].
  destruct (ae_load env); [intros [= <- <-]; by right|]. unfold defer_unless_ok.
  destruct (attach_all env hooks (Capture true [])) as [r1 c1] eqn:E. destruct (attach_all_spec _ _ _ _ _ E) as (H1 & H2 & H3).
  destruct r1 as [[]|e|p]; intros [= <- <-]; [left|right|done].
  - split; [done|]. destruct c1 as [col links]. cbn in *. by rewrite H1, H3.
  - split; [done|]. unfold capture_close. by rewrite close_links_all.
Qed.

(** ** The properties at concrete inputs *)
Module BPFExamples.
Definition c := Constants 15001 15053.
Definition cookie (sk : nat) : Z := Z.of_nat sk.
#[local] Instance cookie_inj : Inj (=) (=) cookie.
Proof. intros a b. unfold cookie. lia. Qed.

Definition out : sock_addr := SockAddr 7 SOCK_STREAM [203; 0; 113; 9] (bpf_htons 443).
Definition query : sock_addr := SockAddr 7 SOCK_DGRAM [192; 0; 2; 53] (bpf_htons 53).
Definition local : sock_addr := SockAddr 7 SOCK_STREAM [127; 0; 0; 1] (bpf_htons 80).
Definition other : sock_addr := SockAddr 8 SOCK_STREAM [198; 51; 100; 1] (bpf_htons 80).

Lemma out_ok : addr_ok out false.
Proof. split; [split; [reflexivity|repeat constructor; lia]|vm_compute; split; [discriminate|reflexivity]]. Qed.
Lemma query_ok : addr_ok query false.
Proof. split; [split; [reflexivity|repeat constructor; lia]|vm_compute; split; [discriminate|reflexivity]]. Qed.

Definition verdict := redirect c (Helpers 7 0 true) out false false (Maps ∅ ∅ ∅).
Lemma redirect_confined_witness : loopback verdict.1.2 false = true.
Proof. apply (redirect_confined c (Helpers 7 0 true) out false false (Maps ∅ ∅ ∅) verdict.1.2 verdict.2). vm_compute. reflexivity. Defined.

Lemma fresh_key (live : gmap nat sock_ops) k : Forall (fun kv => kv.2 <> k) (map_to_list live) -> forall sk, live !! sk <> Some k.
Proof. intros H sk Hsk. rewrite Forall_forall in H. apply (H (sk, k)); [by apply elem_of_map_to_list|done]. Qed.

(** Socket 8 used the local port of the connection before and has another one
    meanwhile; the map refuses no entry. *)
Definition here : sock_ops := SockOps 1 AF_INET 50000 (remote_port 15001) [127; 0; 0; 1].
Definition elsewhere : sock_ops := SockOps 1 AF_INET 50001 (remote_port 15001) [127; 0; 0; 1].
Definition earlier : list hook :=
  [Redirect 0 true other false false; Callback 8 (ActiveEstablished here true []); Callback 8 (StateChange 7)].
Definition between : list hook := [Redirect 1 true other false false].
Definition later : list hook := [Callback 8 (ActiveEstablished elsewhere true []); Callback 8 (StateChange 7)].
Definition opening : list hook := earlier ++ Redirect 2 true out false false :: between ++ [Callback 7 (ActiveEstablished here true [])].

Lemma here_ok : ops_ok here /\ ops_ok elsewhere.
Proof. split; (split; [exists 15001; split; [lia|reflexivity]|reflexivity]). Qed.

Lemma kernel_history_ok : kernel_history ∅ (opening ++ later).
Proof.
  cbn. split_and!; try done; try apply here_ok; apply fresh_key; apply (bool_decide_unpack _); vm_compute; exact I.
Qed.

(** The [i]-th lookup happens after [i] of the later events. *)
Lemma captured_destination_witness :
  (let! d := originalDestination (fun k i => match connections (hook_run c cookie (Maps ∅ ∅ ∅) (opening ++ list.take i later)) !! k with
      Some d => LFound d | None => LMissing end) (TcpConn (Ok 1) [127; 0; 0; 1] 50000 15001) in destination_addr d) =
  Ok (AddrPort (asked_addr out false) 443).
Proof.
  destruct (captured_destination c cookie earlier between later 2 out false 1 [127; 0; 0; 1] 50000 true []) as (_ & _ & H).
  - reflexivity.
  - apply out_ok.
  - right. reflexivity.
  - split; [reflexivity|repeat constructor; lia].
  - discriminate.
  - lia.
  - vm_compute. split; [discriminate|reflexivity].
  - repeat constructor. cbn. discriminate.
  - exact kernel_history_ok.
  - intros H. apply elem_of_cons in H as [H | H]; [discriminate H|]. apply list_elem_of_singleton in H. discriminate H.
  - refine (H _ eq_refl _ (fun i => i)); [vm_compute; discriminate|]. repeat constructor; cbn; try tauto. apply not_elem_of_nil.
Defined.

Definition answered := redirect c (Helpers 7 0 true) query false true (Maps ∅ ∅ ∅).
Lemma dns_roundtrip_witness :
  restore c answered.1.2 false true (hook_run c cookie answered.2 [Redirect 5 true query false true]) = (true, query).
Proof.
  apply (dns_roundtrip c cookie [] 0 true query false true answered.1.2 answered.2 [Redirect 5 true query false true] true).
  - reflexivity.
  - apply query_ok.
  - reflexivity.
  - vm_compute. discriminate.
  - vm_compute. discriminate.
  - vm_compute. reflexivity.
Defined.

Lemma peername_roundtrip_witness :
  restore c local false false (hook_run c cookie (Maps ∅ ∅ ∅) [Redirect 0 true out false false; Callback 7 (StateChange 7)]) = (true, out).
Proof.
  apply (peername_roundtrip c cookie (Maps ∅ ∅ ∅) 0 out false [Callback 7 (StateChange 7)] local);
    [reflexivity|apply out_ok|by right|by repeat constructor|reflexivity|reflexivity].
Defined.

Lemma stale_peername_witness :
  restore c local false false (hook_run c cookie (Maps ∅ ∅ ∅) [Redirect 0 true out false false]) = (true, out).
Proof.
  apply (stale_peername c cookie (Maps ∅ ∅ ∅) 0 out false 1 local);
    [reflexivity|apply out_ok|by right|reflexivity|reflexivity|reflexivity|vm_compute; discriminate].
Defined.

Lemma mapped_loopback_captured_witness :
  (redirect c (Helpers 7 0 true) (SockAddr 7 SOCK_STREAM (replicate 10 0 ++ [255; 255; 127; 0; 0; 1]) (bpf_htons 80)) true false (Maps ∅ ∅ ∅)).1 =
    (true, SockAddr 7 SOCK_STREAM (replicate 15 0 ++ [1]) (bpf_htons 15001)).
Proof.
  apply (mapped_loopback_captured c (Helpers 7 0 true) (Maps ∅ ∅ ∅) 7 0 0 1 (bpf_htons 80)); [reflexivity|vm_compute; discriminate|lia..].
Defined.

Definition env : attachEnv := AttachEnv None None None (fun h => if h =? "connect6" then Some ErrEOF else None).
Lemma attachCapture_all_or_none_witness : (attachCapture env (Capture false [])).2 = Capture false [].
Proof.
  destruct (attachCapture_all_or_none env (attachCapture env (Capture false [])).1 (attachCapture env (Capture false [])).2) as [[H _]|[_ H]].
  - apply surjective_pairing.
  - vm_compute in H. discriminate H.
  - exact H.
Defined.
End BPFExamples.
