(* ===== verification/AgentDNS.v ===== *)
(** * realm-agent: the resolver of the worker

    Models [src/pkgs/realm-agent/dns.go]: the table of declared host names,
    the answer to a query, the UDP workers with their bounded queue, the TCP
    loop and the listeners.  The DNS message library (miekg/dns) is the class
    [DnsLib] with the documented behaviour the resolver relies on in
    [DnsLaws]; the HTTPS exchange with the upstream resolver is an input. *)

From S2P Require Import Prelude GoStrings NetIP AgentConfig.

Open Scope Z_scope.
Open Scope go_scope.

(** ** Messages *)
Record question := Question { q_Name : string; q_Qtype : Z; q_Qclass : Z }.

#[export] Instance question_eq_dec : EqDecision question.
Proof. solve_decision. Defined.

Record record := RR { rr_Name : string; rr_Type : Z; rr_Class : Z; rr_Ttl : Z; rr_Data : list Z }.

(** The header fields and sections the resolver reads or writes; [m_Rest]
    stands for everything else, [m_Edns] for the UDP size of an OPT record. *)
Record msg := Msg {
  m_Id : Z; m_Response : bool; m_Opcode : Z; m_Rcode : Z;
  m_Authoritative : bool; m_RecursionAvailable : bool;
  m_Question : list question; m_Answer : list record;
  m_Edns : option Z; m_Rest : string
}.

Definition set_Rcode (m : msg) (r : Z) : msg :=
  Msg (m_Id m) (m_Response m) (m_Opcode m) r (m_Authoritative m) (m_RecursionAvailable m) (m_Question m)
    (m_Answer m) (m_Edns m) (m_Rest m).
Definition set_RecursionAvailable (m : msg) (b : bool) : msg :=
  Msg (m_Id m) (m_Response m) (m_Opcode m) (m_Rcode m) (m_Authoritative m) b (m_Question m)
    (m_Answer m) (m_Edns m) (m_Rest m).
Definition set_Authoritative (m : msg) (b : bool) : msg :=
  Msg (m_Id m) (m_Response m) (m_Opcode m) (m_Rcode m) b (m_RecursionAvailable m) (m_Question m)
    (m_Answer m) (m_Edns m) (m_Rest m).
Definition set_Answer (m : msg) (l : list record) : msg :=
  Msg (m_Id m) (m_Response m) (m_Opcode m) (m_Rcode m) (m_Authoritative m) (m_RecursionAvailable m) (m_Question m)
    l (m_Edns m) (m_Rest m).

Definition OpcodeQuery : Z := 0.
Definition ClassINET : Z := 1.
Definition TypeA : Z := 1.
Definition TypeAAAA : Z := 28.
Definition RcodeSuccess : Z := 0.
Definition RcodeFormatError : Z := 1.
Definition RcodeServerFailure : Z := 2.
Definition RcodeRefused : Z := 5.

(** What the resolver uses of the DNS library. *)
Class DnsLib := {
  canonicalName : string -> string;
  setReply : msg -> msg;
  pack : msg -> option string;
  unpack : string -> option msg;
  truncate : Z -> msg -> msg
}.

(** [SetReply] makes a reply to a request: same identifier, a successful
    response with at most the first question and no answers.  [Truncate] only
    removes records and sets the truncation bit. *)
Class DnsLaws `{DnsLib} : Prop := {
  setReply_reply q : m_Id (setReply q) = m_Id q /\ m_Response (setReply q) = true /\
    m_Rcode (setReply q) = RcodeSuccess /\ m_Authoritative (setReply q) = false /\
    m_Question (setReply q) = firstn 1 (m_Question q) /\ m_Answer (setReply q) = [];
  truncate_header n m : m_Id (truncate n m) = m_Id m /\ m_Response (truncate n m) = m_Response m /\
    m_Rcode (truncate n m) = m_Rcode m /\ m_Question (truncate n m) = m_Question m
}.

(** ** [newResolver] *)
Record resolver := Resolver { r_w : workload; r_hosts : gmap string (list addr) }.

(** Response of the upstream server: status, content type, body and whether
    reading the body fails. *)
Record response := Response {
  rs_Status : Z; rs_ContentType : string; rs_Body : string; rs_Fails : bool
}.

(** The outcome of building the request and of [client.Do]. *)
Inductive exchange := NoRequest | NoResponse | Responded (r : response).

(** [Addr.AsSlice]: the bytes in network order. *)
Fixpoint be_bytes (n : nat) (v : Z) : list Z :=
  match n with
  | O => []
  | S n' => be_bytes n' (v / 256) ++ [v mod 256]
  end.
Definition asSlice (a : addr) : list Z :=
  match a with AddrZero => [] | Addr4 v => be_bytes 4 v | Addr6 v _ => be_bytes 16 v end.

(** A query with the socket it came to and its sender. *)
Record udpQuery := UdpQuery { uq_conn : string * Z; uq_peer : string; uq_wire : string }.
#[export] Instance udpQuery_eq_dec : EqDecision udpQuery.
Proof. solve_decision. Defined.

Section resolver.
Context `{DnsLib}.

Fixpoint add_addresses (name : string) (hosts : gmap string (list addr)) (l : list string)
    : result (gmap string (list addr)) :=
  match l with
  | [] => Ok hosts
  | s :: l' =>
      match parseAddr s with
      | None => Panic "netip.MustParseAddr"
      | Some a =>
          add_addresses name (<[canonicalName name := default [] (hosts !! canonicalName name) ++ [a]]> hosts) l'
      end
  end.

(** The loop over [DNSHosts] in the order [entries] of this run. *)
Fixpoint add_hosts (hosts : gmap string (list addr)) (entries : list (string * list string))
    : result (gmap string (list addr)) :=
  match entries with
  | [] => Ok hosts
  | (name, addresses) :: entries' =>
      let! hosts' := add_addresses name hosts addresses in add_hosts hosts' entries'
  end.

Definition newResolver (w : workload) (entries : list (string * list string)) : result resolver :=
  let! hosts := add_hosts ∅ entries in Ok (Resolver w hosts).

(** ** [resolver.answer] *)

(** The records a declared address contributes to the answer. *)
Definition host_records (q : question) (ip : addr) : list record :=
  (if (q_Qtype q =? TypeA) && is4 ip then [RR (q_Name q) TypeA ClassINET 60 (asSlice ip)] else []) ++
  (if (q_Qtype q =? TypeAAAA) && is6 ip then [RR (q_Name q) TypeAAAA ClassINET 60 (asSlice ip)] else []).

(** The test on what came back from upstream. *)
Definition upstream_reply (q : msg) (quest : question) (r : response) : option msg :=
  if (rs_Status r <>? 200) || negb (hasPrefix (rs_ContentType r) "application/dns-message") then None
  else
    let body := limitReader 65536 (rs_Body r) in
    if rs_Fails r || (65535 <? len body) then None
    else
      match unpack body with
      | None => None
      | Some u =>
          if negb (m_Response u) || (m_Id u <>? m_Id q) || (m_Question u <>? [quest]) then None else Some u
      end.

Definition malformed (q : msg) : bool :=
  (m_Opcode q <>? OpcodeQuery) ||
  match m_Question q with [quest] => q_Qclass quest <>? ClassINET | _ => true end.

(** The reply, and what was posted upstream, if anything: [used] of the 64
    slots are taken. *)
Definition answer (r : resolver) (used : Z) (upstream : string -> exchange) (q : msg) : msg * option string :=
  let a := set_RecursionAvailable (setReply q) (w_InternetSocket (r_w r) <>? "") in
  if malformed q then (set_Rcode a RcodeFormatError, None)
  else
    match m_Question q with
    | [] => (set_Rcode a RcodeFormatError, None)
    | quest :: _ =>
        match r_hosts r !! canonicalName (q_Name quest) with
        | Some addresses =>
            (set_Answer (set_Authoritative a true) (m_Answer a ++ concat (host_records quest <$> addresses)), None)
        | None =>
            if w_InternetSocket (r_w r) =? "" then (set_Rcode a RcodeRefused, None)
            else if 64 <=? used then (set_Rcode a RcodeServerFailure, None)
            else
              match pack q with
              | None => (set_Rcode a RcodeFormatError, None)
              | Some raw =>
                  match upstream raw with
                  | NoRequest => (set_Rcode a RcodeServerFailure, None)
                  | NoResponse => (set_Rcode a RcodeServerFailure, Some raw)
                  | Responded resp =>
                      match upstream_reply q quest resp with
                      | Some u => (u, Some raw)
                      | None => (set_Rcode a RcodeServerFailure, Some raw)
                      end
                  end
              end
        end
    end.

(** ** UDP and TCP service *)
Definition udpAnswerSize (q : msg) : Z :=
  let size := match m_Edns q with Some n => n | None => 512 end in
  if size <? 512 then 512 else if 1232 <? size then 1232 else size.

(** [udpDNS.read] on one datagram: the queue holds at most 128. *)
Definition read_datagram (truncated : bool) (q : udpQuery) (queue : list udpQuery) : list udpQuery :=
  if truncated || (len (uq_wire q) <? 12) then queue
  else if Z.of_nat (length queue) <? 128 then queue ++ [q] else queue.

(** [udpDNS.work] on one datagram: what is sent back. *)
Definition work (reply : msg -> msg) (wire : string) : option string :=
  m ← unpack wire;
  if m_Response m then None else pack (truncate (udpAnswerSize m) (reply m)).

(** [resolver.tcp]: the queries read until an error, and the answers written;
    [writable] says whether each write succeeds. *)
Fixpoint tcp_loop (n : nat) (reply : msg -> msg) (queries : list msg) (writable : list bool) : list msg :=
  match n, queries with
  | S n', q :: queries' =>
      match writable with
      | true :: writable' => reply q :: tcp_loop n' reply queries' writable'
      | _ => []
      end
  | _, _ => []
  end.
Definition tcp (reply : msg -> msg) (queries : list msg) (writable : list bool) : list msg :=
  tcp_loop 128 reply queries writable.
End resolver.

(** ** [startDNS] *)
Definition sockets (base : Z) : list (string * Z) :=
  concat ((fun i => [("udp4", base + Z.of_nat i); ("udp6", base + Z.of_nat i)]) <$> seq 0 8).

(** [udpDNS.Close] on the open sockets. *)
Definition close_all (conns open : list (string * Z)) : list (string * Z) := filter (fun x => x ∉ conns) open.

(** Open the sockets one after the other; on a failure close those opened. *)
Fixpoint listen_loop (listen : string * Z -> bool) (opened todo : list (string * Z))
    : result (list (string * Z)) * list (string * Z) :=
  match todo with
  | [] => (Ok opened, opened)
  | s :: todo' =>
      if listen s then listen_loop listen (opened ++ [s]) todo'
      else (Err (ErrNew "listen"), close_all opened opened)
  end.

(** The listeners, or an error, and the sockets open afterwards. *)
Definition startDNS (listen : string * Z -> bool) (base : Z) : result (list (string * Z)) * list (string * Z) :=
  listen_loop listen [] (sockets base).

(** ** The table of declared names *)
Section hosts.
Context `{DnsLib}.

(** Some declared name with this canonical form has this address. *)
Definition declared (entries : list (string * list string)) (c : string) (a : addr) : Prop :=
  exists name l s, (name, l) ∈ entries /\ canonicalName name = c /\ s ∈ l /\ parseAddr s = Some a.

(** The addresses a table has for a name. *)
Definition in_table (hosts : gmap string (list addr)) (c : string) (a : addr) : Prop :=
  exists l, hosts !! c = Some l /\ a ∈ l.

Lemma in_table_snoc hosts c a c' a' :
  in_table (<[c := default [] (hosts !! c) ++ [a]]> hosts) c' a' <->
  in_table hosts c' a' \/ c' = c /\ a' = a.
Proof.
  unfold in_table. destruct (decide (c' = c)) as [->|Hne].
  - rewrite lookup_insert_eq. destruct (hosts !! c) as [l|]; simpl; split.
    + intros (k & [= <-] & Hk). apply elem_of_app in Hk as [Hk|Hk%list_elem_of_singleton]; eauto.
    + intros [(k & [= <-] & Hk)|[_ ->]]; eexists; (split; [done|]); apply elem_of_app; [by left|].
      right. by apply list_elem_of_singleton.
    + intros (k & [= <-] & Hk). apply list_elem_of_singleton in Hk. by right.
    + intros [(k & [=] & _)|[_ ->]]. eexists. split; [done|]. by apply list_elem_of_singleton.
  - setoid_rewrite lookup_insert_ne; [|done]. naive_solver.
Qed.

Lemma add_addresses_spec name l : forall hosts,
  Forall (fun s => is_Some (parseAddr s)) l ->
  exists hosts', add_addresses name hosts l = Ok hosts' /\
    (forall c a, in_table hosts' c a <->
       in_table hosts c a \/ c = canonicalName name /\ exists s, s ∈ l /\ parseAddr s = Some a) /\
    (forall c, is_Some (hosts' !! c) <-> is_Some (hosts !! c) \/ c = canonicalName name /\ l <> []).
Proof.
  induction l as [|s l IH]; intros hosts Hl; cbn [add_addresses].
  { exists hosts. split; [done|]. split; intros; [|naive_solver]. split; [by left|]. intros [?|(_ & s & Hs & _)]; [done|].
    by apply elem_of_nil in Hs. }
  apply Forall_cons in Hl as [[a Ha] Hl]. rewrite Ha.
  destruct (IH (<[canonicalName name := default [] (hosts !! canonicalName name) ++ [a]]> hosts) Hl)
    as (hosts' & -> & Hin & Hdom).
  exists hosts'. split; [done|]. split.
  - intros c b. rewrite Hin, in_table_snoc. setoid_rewrite elem_of_cons. naive_solver.
  - intros c. rewrite Hdom. destruct (decide (c = canonicalName name)) as [->|Hne].
    + rewrite lookup_insert_eq. naive_solver.
    + rewrite lookup_insert_ne by done. naive_solver.
Qed.

Lemma add_hosts_spec entries : forall hosts,
  Forall good_host entries ->
  exists hosts', add_hosts hosts entries = Ok hosts' /\
    (forall c a, in_table hosts' c a <-> in_table hosts c a \/ declared entries c a) /\
    (forall c, is_Some (hosts' !! c) <->
       is_Some (hosts !! c) \/ exists name l, (name, l) ∈ entries /\ c = canonicalName name).
Proof.
  induction entries as [|[name l] entries IH]; intros hosts He; cbn [add_hosts].
  { exists hosts. split; [done|]. split; intros; (split; [by left|]); intros [?|Hx]; try done.
    - destruct Hx as (n & k & s & Hx & _). by apply elem_of_nil in Hx.
    - destruct Hx as (n & k & Hx & _). by apply elem_of_nil in Hx. }
  apply Forall_cons in He as [(_ & _ & Hne & Hl) He]. cbn [fst snd] in *.
  destruct (add_addresses_spec name l hosts Hl) as (h1 & -> & Hin1 & Hdom1). cbn [rbind].
  destruct (IH h1 He) as (h2 & -> & Hin2 & Hdom2). exists h2. split; [done|]. split.
  - intros c a. rewrite Hin2, Hin1. unfold declared. setoid_rewrite elem_of_cons. naive_solver.
  - intros c. rewrite Hdom2, Hdom1. setoid_rewrite elem_of_cons. naive_solver.
Qed.

(** For an accepted workload the resolver is built without a panic, in
    whatever order the declared names are visited; a name is in the table
    exactly when a declared name has the same canonical form, with exactly the
    addresses declared for such names. *)
Theorem newResolver_hosts w entries :
  accepted w -> entries ≡ₚ map_to_list (w_DNSHosts w) ->
  exists r, newResolver w entries = Ok r /\ r_w r = w /\
    (forall c, is_Some (r_hosts r !! c) <-> exists name, is_Some (w_DNSHosts w !! name) /\ c = canonicalName name) /\
    (forall c a, in_table (r_hosts r) c a <->
       exists name l s, w_DNSHosts w !! name = Some l /\ canonicalName name = c /\ s ∈ l /\ parseAddr s = Some a).
Proof.
  intros Hw Hp. unfold newResolver.
  assert (Hg : Forall good_host entries).
  { rewrite Hp. apply Forall_forall. intros [name l] Hin. apply elem_of_map_to_list in Hin.
    exact (acc_hosts w Hw name l Hin). }
  destruct (add_hosts_spec entries ∅ Hg) as (hosts & -> & Hin & Hdom). cbn [rbind].
  exists (Resolver w hosts). split; [done|]. split; [done|]. cbn [r_hosts].
  split; intros c; [|intros a].
  - rewrite Hdom, lookup_empty. setoid_rewrite Hp. setoid_rewrite elem_of_map_to_list.
    split; [intros [[? ?]|(n & l & Hn & ->)]; [done|eauto]|]. intros (n & [l Hn] & ->). right. eauto.
  - rewrite Hin. unfold declared, in_table. rewrite lookup_empty. setoid_rewrite Hp.
    setoid_rewrite elem_of_map_to_list. naive_solver.
Qed.
End hosts.

(** ** Answers *)
Section answers.
Context `{DnsLaws}.

(** The answer section for a declared name: one record per address of the
    family that was asked for, in order; nothing for other types. *)
Definition local_records (q : question) (l : list addr) : list record :=
  if q_Qtype q =? TypeA then
    (fun ip => RR (q_Name q) TypeA ClassINET 60 (asSlice ip)) <$> filter (fun ip => is4 ip = true) l
  else if q_Qtype q =? TypeAAAA then
    (fun ip => RR (q_Name q) TypeAAAA ClassINET 60 (asSlice ip)) <$> filter (fun ip => is6 ip = true) l
  else [].

Lemma host_records_local q l : concat (host_records q <$> l) = local_records q l.
Proof.
  unfold host_records, local_records.
  assert (Hdiff : q_Qtype q = TypeA -> (q_Qtype q =? TypeAAAA) = false) by (intros ->; done).
  induction l as [|ip l IH]; csimpl.
  { by destruct (q_Qtype q =? TypeA), (q_Qtype q =? TypeAAAA). }
  rewrite IH. destruct (q_Qtype q =? TypeA) eqn:EA; bprop.
  - rewrite Hdiff by done. cbn [andb]. rewrite app_nil_r, filter_cons. destruct (is4 ip); case_decide; done.
  - cbn [andb app]. destruct (q_Qtype q =? TypeAAAA); [|done]. cbn [andb]. rewrite filter_cons.
    destruct (is6 ip); case_decide; done.
Qed.

(** How a query that is not malformed is answered, and what leaves the host. *)
Inductive answered (r : resolver) (used : Z) (upstream : string -> exchange) (q : msg) (quest : question)
    : msg -> option string -> Prop :=
| AnsweredLocally addresses a :
    r_hosts r !! canonicalName (q_Name quest) = Some addresses ->
    m_Authoritative a = true -> m_Rcode a = RcodeSuccess -> m_Question a = [quest] ->
    m_Answer a = local_records quest addresses -> answered r used upstream q quest a None
| AnsweredRefused a :
    r_hosts r !! canonicalName (q_Name quest) = None -> w_InternetSocket (r_w r) = "" ->
    m_Rcode a = RcodeRefused -> m_Answer a = [] -> answered r used upstream q quest a None
| AnsweredFailure a posted :
    r_hosts r !! canonicalName (q_Name quest) = None -> w_InternetSocket (r_w r) <> "" ->
    m_Rcode a = RcodeServerFailure \/ m_Rcode a = RcodeFormatError /\ pack q = None -> m_Answer a = [] ->
    (forall raw, posted = Some raw -> pack q = Some raw /\ used < 64) -> answered r used upstream q quest a posted
| AnsweredUpstream a raw resp :
    r_hosts r !! canonicalName (q_Name quest) = None -> w_InternetSocket (r_w r) <> "" -> used < 64 ->
    pack q = Some raw -> upstream raw = Responded resp -> rs_Status resp = 200 -> len (rs_Body resp) <= 65535 ->
    unpack (rs_Body resp) = Some a -> m_Question a = [quest] -> answered r used upstream q quest a (Some raw).

Lemma limitReader_len s : forall n, 0 <= n -> len (limitReader n s) < n -> limitReader n s = s.
Proof.
  induction s as [|c s IH]; intros n Hn; [done|]. cbn [limitReader]. destruct (n <=? 0) eqn:E; bprop.
  - intros Hl. pose proof (len_nonneg ""). simpl in Hl. lia.
  - rewrite len_cons. intros Hl. by rewrite IH by lia.
Qed.

Lemma upstream_reply_Some q quest resp u : upstream_reply q quest resp = Some u ->
  rs_Status resp = 200 /\ len (rs_Body resp) <= 65535 /\ unpack (rs_Body resp) = Some u /\
  m_Response u = true /\ m_Id u = m_Id q /\ m_Question u = [quest].
Proof.
  unfold upstream_reply. intros Hu. destruct (_ || _) eqn:E1; [discriminate Hu|]. cbv zeta in Hu.
  destruct (rs_Fails resp || _) eqn:E2; [discriminate Hu|]. bprop.
  assert (Hb : limitReader 65536 (rs_Body resp) = rs_Body resp) by (apply limitReader_len; lia).
  rewrite Hb in *. destruct (unpack (rs_Body resp)) as [u'|]; [|discriminate Hu].
  destruct (negb (m_Response u') || _ || _) eqn:E3; [discriminate Hu|]. injection Hu as <-. by bprop.
Qed.

(** C22: Every reply answers its query: it carries the query's identifier and is
    marked a response.  A malformed query gets a format error.  A declared name
    is answered from the table, authoritatively, with exactly the addresses of
    the family asked for, and never leaves the host; without an Internet socket
    nothing ever does.  What is passed on from upstream arrived with status
    200, within 65535 bytes, for exactly this question; anything else is a
    server failure. *)
Theorem answer_correct r used upstream q :
  let a := fst (answer r used upstream q) in
  let posted := snd (answer r used upstream q) in
  m_Id a = m_Id q /\ m_Response a = true /\
  ((malformed q = true /\ m_Rcode a = RcodeFormatError /\ m_Answer a = [] /\ posted = None) \/
   exists quest, m_Question q = [quest] /\ q_Qclass quest = ClassINET /\ m_Opcode q = OpcodeQuery /\
     answered r used upstream q quest a posted).
Proof.
  cbv zeta. unfold answer. destruct (setReply_reply q) as (Hid & Hr & Hrc & Hau & Hq & Ha).
  destruct (malformed q) eqn:Em; [split_and!; [done..|by left]|].
  unfold malformed in Em. apply orb_false_iff in Em as [Eop Ecl].
  destruct (m_Question q) as [|quest [|q2 l]] eqn:Eq; try discriminate Ecl. bprop.
  destruct (r_hosts r !! canonicalName (q_Name quest)) as [addresses|] eqn:Eh.
  { split_and!; [done..|]. right. exists quest. split_and!; try done. eapply AnsweredLocally; try done.
    cbn. by rewrite Ha, host_records_local. }
  destruct (w_InternetSocket (r_w r) =? "") eqn:Ei; bprop.
  { split_and!; [done..|]. right. exists quest. split_and!; try done. by apply AnsweredRefused. }
  destruct (64 <=? used) eqn:Eu; bprop.
  { split_and!; [done..|]. right. exists quest. split_and!; try done. apply AnsweredFailure; auto. done. }
  destruct (pack q) as [raw|] eqn:Ep.
  2: { split_and!; [done..|]. right. exists quest. split_and!; try done. apply AnsweredFailure; auto. done. }
  destruct (upstream raw) as [| |resp] eqn:Eup.
  1, 2: split_and!; [done..|]; right; exists quest; split_and!; try done; apply AnsweredFailure; auto; naive_solver.
  destruct (upstream_reply q quest resp) as [u|] eqn:Er.
  2: { split_and!; [done..|]. right. exists quest. split_and!; try done. apply AnsweredFailure; auto. naive_solver. }
  apply upstream_reply_Some in Er as (? & ? & ? & ? & ? & ?).
  cbn [fst snd]. split_and!; [done..|]. right. exists quest. split_and!; try done. by eapply AnsweredUpstream.
Qed.

(** The UDP service never answers a response, sizes its answers between 512
    and 1232 bytes whatever the query announces, keeps at most 128 datagrams
    queued in order, dropping the newest, and a TCP connection gets at most 128
    answers, each to the query in the same position. *)
Theorem dns_service_bounded reply q queue truncated query wire queries writable :
  512 <= udpAnswerSize q <= 1232 /\
  (forall n, m_Edns q = Some n -> 512 <= n <= 1232 -> udpAnswerSize q = n) /\
  (work reply wire <> None -> exists m, unpack wire = Some m /\ m_Response m = false) /\
  (Z.of_nat (length queue) <= 128 -> Z.of_nat (length (read_datagram truncated query queue)) <= 128) /\
  queue `prefix_of` read_datagram truncated query queue /\
  (length (tcp reply queries writable) <= 128)%nat /\
  tcp reply queries writable `prefix_of` (reply <$> queries).
Proof.
  split; [|split; [|split; [|split; [|split; [|split]]]]].
  - unfold udpAnswerSize. cbv zeta. destruct (_ <? 512) eqn:E1; [lia|]. destruct (1232 <? _) eqn:E2; bprop; lia.
  - intros n Hn Hr. unfold udpAnswerSize. rewrite Hn. cbv zeta.
    destruct (n <? 512) eqn:E1; bprop; [lia|]. destruct (1232 <? n) eqn:E2; bprop; lia.
  - unfold work. intros Hw. destruct (unpack wire) as [m|]; [|done]. cbn in Hw.
    destruct (m_Response m) eqn:E; [done|eauto].
  - unfold read_datagram. destruct (_ || _); [done|]. destruct (_ <? 128) eqn:E; bprop; [|done].
    rewrite length_app. simpl. lia.
  - unfold read_datagram. destruct (_ || _); [done|]. destruct (_ <? 128); [by apply prefix_app_r|done].
  - unfold tcp. generalize 128%nat. intros n. revert queries writable.
    induction n as [|n IH]; intros [|m queries] [|[] writable]; simpl; try lia. specialize (IH queries writable). lia.
  - unfold tcp. generalize 128%nat. intros n. revert queries writable.
    induction n as [|n IH]; intros [|m queries] [|[] writable]; csimpl; try apply prefix_nil.
    by apply prefix_cons.
Qed.
End answers.

(** ** Listeners *)
Lemma close_all_self conns : close_all conns conns = [].
Proof.
  unfold close_all. destruct (filter _ conns) as [|x l] eqn:E; [done|].
  assert (Hx : x ∈ filter (fun x => x ∉ conns) conns) by (rewrite E; by left).
  apply list_elem_of_filter in Hx as [? ?]. done.
Qed.

Lemma listen_loop_spec listen todo : forall opened,
  let '(r, open) := listen_loop listen opened todo in
  (r = Ok (opened ++ todo) /\ open = opened ++ todo /\ Forall (fun s => listen s = true) todo) \/
  (is_ok r = false /\ open = [] /\ Exists (fun s => listen s = false) todo).
Proof.
  induction todo as [|s todo IH]; intros opened; cbn [listen_loop].
  { left. rewrite app_nil_r. by split_and!. }
  destruct (listen s) eqn:E.
  - specialize (IH (opened ++ [s])). destruct (listen_loop _ _ todo) as [r open]. rewrite <- app_assoc in IH.
    destruct IH as [(-> & -> & Hl)|(Hr & -> & Hl)]; [left|right]; split_and!; try done; by constructor.
  - right. rewrite close_all_self. split_and!; try done. by constructor.
Qed.

(** Starting the resolver opens all sixteen sockets, on the eight ports of
    the workload in both families, each a valid port, or it fails and leaves
    none open. *)
Theorem startDNS_all_or_none listen w : accepted w ->
  let '(r, open) := startDNS listen (w_DNSBase w) in
  Forall (fun s => 1 <= s.2 <= 65535 /\ w_DNSBase w <= s.2 <= w_DNSBase w + 7) (sockets (w_DNSBase w)) /\
  length (sockets (w_DNSBase w)) = 16%nat /\ NoDup (sockets (w_DNSBase w)) /\
  ((r = Ok (sockets (w_DNSBase w)) /\ open = sockets (w_DNSBase w) /\
    Forall (fun s => listen s = true) (sockets (w_DNSBase w))) \/
   (is_ok r = false /\ open = [] /\ Exists (fun s => listen s = false) (sockets (w_DNSBase w)))).
Proof.
  intros Hw. pose proof (acc_ports w Hw) as (_ & Hb & _). unfold startDNS.
  pose proof (listen_loop_spec listen (sockets (w_DNSBase w)) []) as Hl.
  destruct (listen_loop _ _ _) as [r open]. split; [|split; [reflexivity|split; [|exact Hl]]].
  - unfold sockets. cbn [seq fmap list_fmap concat app].
    repeat (apply Forall_cons; split; [cbn [snd]; lia|]). apply Forall_nil. done.
  - unfold sockets. cbn [seq fmap list_fmap concat app].
    repeat (apply NoDup_cons; split;
      [rewrite ?not_elem_of_cons; split_and?; first [apply not_elem_of_nil|discriminate|intros [= Hx]; lia]|]).
    apply NoDup_nil. done.
Qed.

(** ** A concrete resolver *)
Module DnsExamples.
(** A library that meets the laws: names are already canonical but for the
    trailing dot, and a packed message is its rest. *)
#[local] Instance plain : DnsLib := {|
  canonicalName s := if hasSuffix s "." then s else s +:+ ".";
  setReply q := Msg (m_Id q) true (m_Opcode q) RcodeSuccess false false (firstn 1 (m_Question q)) [] None "";
  pack m := Some (m_Rest m);
  unpack s := Some (Msg 7 true 0 0 false true [Question "example.org." TypeA ClassINET]
                     [RR "example.org." TypeA ClassINET 30 [93; 184; 216; 34]] None s);
  truncate n m := m
|}.
#[local] Instance plain_laws : DnsLaws.
Proof. split; done. Qed.

Definition w : workload := Eval vm_compute in set_DNSHosts ConfigExamples.matrix' {["s3.nyaw.xyz" := ["127.0.0.1"; "::1"]]}.
Definition ask (name : string) (t : Z) : msg :=
  Msg 7 false 0 0 false false [Question name t ClassINET] [] None "".
Definition entries : list (string * list string) := [("s3.nyaw.xyz", ["127.0.0.1"; "::1"])].
Definition table : resolver := Resolver w {["s3.nyaw.xyz." := [Addr4 0x7f000001; Addr6 1 ""]]}.
Definition upstream (raw : string) : exchange := Responded (Response 200 "application/dns-message" "" false).

Lemma w_accepted : accepted w.
Proof.
  assert (Ht : typed w) by exact (proj1 (typed_w _ _ ConfigExamples.matrix_typed ConfigExamples.matrix_valid)).
  assert (Hv : validate w = Ok w) by (vm_compute; reflexivity).
  exact (proj2 (typed_w w w Ht Hv)).
Qed.

Lemma newResolver_hosts_witness :
  exists r, newResolver w entries = Ok r /\ in_table (r_hosts r) "s3.nyaw.xyz." (Addr4 0x7f000001).
Proof.
  destruct (newResolver_hosts w entries w_accepted) as (r & Hr & _ & _ & Ht).
  - replace (map_to_list (w_DNSHosts w)) with entries by (vm_compute; reflexivity). reflexivity.
  - exists r. split; [exact Hr|]. apply Ht. exists "s3.nyaw.xyz", ["127.0.0.1"; "::1"], "127.0.0.1".
    split_and!; [vm_compute; reflexivity|vm_compute; reflexivity|by left|vm_compute; reflexivity].
Defined.

Lemma answer_correct_witness :
  m_Answer (fst (answer table 0 upstream (ask "s3.nyaw.xyz." TypeAAAA))) =
    [RR "s3.nyaw.xyz." TypeAAAA ClassINET 60 (replicate 15 0 ++ [1])] /\
  m_Id (fst (answer table 0 upstream (ask "example.org." TypeA))) = 7.
Proof.
  split; [vm_compute; reflexivity|].
  exact (proj1 (answer_correct table 0 upstream (ask "example.org." TypeA))).
Defined.

Lemma startDNS_all_or_none_witness : length (sockets (w_DNSBase w)) = 16%nat.
Proof.
  pose proof (startDNS_all_or_none (fun _ => true) w w_accepted) as Hs.
  destruct (startDNS (fun _ => true) (w_DNSBase w)) as [r open]. exact (proj1 (proj2 Hs)).
Defined.

Example dns_rcodes :
  m_Rcode (fst (answer (Resolver (set_InternetSocket w "") (r_hosts table)) 0 upstream (ask "unknown.test." TypeA))) =
    RcodeRefused /\
  m_Rcode (fst (answer table 64 upstream (ask "unknown.test." TypeA))) = RcodeServerFailure /\
  m_Rcode (fst (answer table 0 upstream (ask "unknown.test." TypeA))) = RcodeServerFailure /\
  snd (answer table 0 upstream (ask "s3.nyaw.xyz." TypeA)) = None.
Proof. vm_compute. done. Qed.
End DnsExamples.
