(* ===== verification/AgentDNSService.v ===== *)
(** * realm-agent: the UDP service of the resolver

    Models [udpDNS] of [src/pkgs/realm-agent/dns.go]: a reader for each socket,
    a queue of 128 queries, 64 workers and [Close].  They run concurrently, so
    the service is a transition system: an event is one thing one of them does,
    and [dns_step] says when it may and what it changes.  Datagrams and the
    failures of reads and writes come from outside.  [received] and [sent] are
    the history of the queue and of the sockets. *)

From S2P Require Import Prelude GoStrings AgentDNS.

Open Scope Z_scope.
Open Scope go_scope.

(** Where a worker is: before the first [select], before the second, at work on
    a query, or gone. *)
Inductive worker := Top | Waiting | Busy (q : udpQuery) | Exited.
#[export] Instance worker_eq_dec : EqDecision worker.
Proof. solve_decision. Defined.

Notation socket := (string * Z)%type.

Record service := Service {
  sv_queue : list udpQuery;
  sv_workers : list worker;
  sv_readers : gset socket;
  sv_open : gset socket;
  sv_stop : bool;
  sv_returned : bool;
  sv_received : list udpQuery;
  sv_sent : list (socket * string * string) }.

Inductive event :=
| Datagram (c : socket) (peer bytes : string)
| ReadError (c : socket)
| Check (i : nat)
| Take (i : nat)
| StopSeen (i : nat)
| Finish (i : nat) (written : bool)
| CloseCall
| CloseConn (c : socket)
| CloseReturn.

(** The goroutines [startDNS] starts for its sockets. *)
Definition start_service (conns : list socket) : service :=
  Service [] (replicate 64 Top) (list_to_set conns) (list_to_set conns) false false [] [].

Definition buffer_size : nat := 1232.

Definition set_worker (s : service) (i : nat) (w : worker) : service :=
  Service (sv_queue s) (<[i := w]> (sv_workers s)) (sv_readers s) (sv_open s) (sv_stop s) (sv_returned s) (sv_received s) (sv_sent s).

Section service.
Context `{DnsLib} (reply : msg -> msg).

(** What a worker sends for a query. *)
Definition answer_of (q : udpQuery) : option (socket * string * string) :=
  wire ← work reply (uq_wire q); Some (uq_conn q, uq_peer q, wire).

(** [None]: the event cannot happen in this state. *)
Definition dns_step (s : service) (ev : event) : option service :=
  match ev with
  | Datagram c peer bytes =>
      if bool_decide (c ∈ sv_readers s) && bool_decide (c ∈ sv_open s) then
        let q := UdpQuery c peer (take buffer_size bytes) in
        let queue := read_datagram (Z.of_nat buffer_size <? len bytes) q (sv_queue s) in
        Some (Service queue (sv_workers s) (sv_readers s) (sv_open s) (sv_stop s) (sv_returned s)
                (if bool_decide (queue = sv_queue s) then sv_received s else sv_received s ++ [q]) (sv_sent s))
      else None
  | ReadError c =>
      if bool_decide (c ∈ sv_readers s) then
        Some (Service (sv_queue s) (sv_workers s) (sv_readers s ∖ {[c]}) (sv_open s) (sv_stop s) (sv_returned s) (sv_received s) (sv_sent s))
      else None
  | Check i =>
      match sv_workers s !! i with
      | Some Top => Some (set_worker s i (if sv_stop s then Exited else Waiting))
      | _ => None
      end
  | Take i =>
      match sv_workers s !! i, sv_queue s with
      | Some Waiting, q :: queue =>
          Some (Service queue (<[i := Busy q]> (sv_workers s)) (sv_readers s) (sv_open s) (sv_stop s) (sv_returned s) (sv_received s) (sv_sent s))
      | _, _ => None
      end
  | StopSeen i =>
      match sv_workers s !! i with
      | Some Waiting => if sv_stop s then Some (set_worker s i Exited) else None
      | _ => None
      end
  | Finish i written =>
      match sv_workers s !! i with
      | Some (Busy q) =>
          let s' := set_worker s i Top in
          Some (match answer_of q with
                | Some d =>
                    if written && bool_decide (uq_conn q ∈ sv_open s)
                    then Service (sv_queue s') (sv_workers s') (sv_readers s') (sv_open s') (sv_stop s') (sv_returned s') (sv_received s') (sv_sent s' ++ [d])
                    else s'
                | None => s'
                end)
      | _ => None
      end
  | CloseCall =>
      if sv_stop s then None
      else Some (Service (sv_queue s) (sv_workers s) (sv_readers s) (sv_open s) true (sv_returned s) (sv_received s) (sv_sent s))
  | CloseConn c =>
      if sv_stop s && bool_decide (c ∈ sv_open s) then
        Some (Service (sv_queue s) (sv_workers s) (sv_readers s) (sv_open s ∖ {[c]}) (sv_stop s) (sv_returned s) (sv_received s) (sv_sent s))
      else None
  | CloseReturn =>
      if sv_stop s && negb (sv_returned s) && bool_decide (sv_open s = ∅) && bool_decide (sv_readers s = ∅) &&
         forallb (fun w => bool_decide (w = Exited)) (sv_workers s) then
        Some (Service (sv_queue s) (sv_workers s) (sv_readers s) (sv_open s) (sv_stop s) true (sv_received s) (sv_sent s))
      else None
  end.

Fixpoint dns_run (s : service) (evs : list event) : option service :=
  match evs with [] => Some s | ev :: evs' => s' ← dns_step s ev; dns_run s' evs' end.
End service.

(** ** Lemmas *)
Definition at_work (w : worker) : option udpQuery := match w with Busy q => Some q | _ => None end.
Definition busy (s : service) : list udpQuery := omap at_work (sv_workers s).

Definition weight (w : worker) : nat := match w with Top | Waiting => 1 | Busy _ => 2 | Exited => 0 end.
Definition total (ws : list worker) : nat := sum_list_with weight ws.

(** What is left to do for [Close]. *)
Definition left_to_do (s : service) : nat :=
  4 * length (sv_queue s) + total (sv_workers s) + size (sv_readers s) + size (sv_open s) + Nat.b2n (negb (sv_returned s)).

Definition internal (ev : event) : bool := match ev with Datagram _ _ _ => false | _ => true end.

Lemma worker_split (ws : list worker) i w : ws !! i = Some w ->
  exists l1 l2, ws = l1 ++ w :: l2 /\ forall w', <[i := w']> ws = l1 ++ w' :: l2.
Proof.
  intros Hi. exists (list.take i ws), (list.drop (S i) ws). split; [symmetry; by apply take_drop_middle|]. intros w'.
  apply insert_take_drop. by eapply lookup_lt_Some.
Qed.

Lemma total_set ws i w w' : ws !! i = Some w -> (total (<[i := w']> ws) + weight w = total ws + weight w')%nat.
Proof.
  intros (l1 & l2 & -> & Hw)%worker_split. rewrite Hw. unfold total. rewrite !sum_list_with_app. cbn [sum_list_with]. lia.
Qed.

Lemma busy_set ws i w w' : ws !! i = Some w ->
  omap at_work (<[i := w']> ws) ++ option_list (at_work w) ≡ₚ omap at_work ws ++ option_list (at_work w').
Proof.
  intros (l1 & l2 & -> & Hw)%worker_split. rewrite Hw, !omap_app.
  assert (Hc : forall v, omap at_work (v :: l2) = option_list (at_work v) ++ omap at_work l2) by (intros v; cbn; by destruct (at_work v)).
  rewrite !Hc. rewrite <- !app_assoc. apply Permutation_app_head.
  rewrite (Permutation_app_comm (omap at_work l2) (option_list (at_work w))), (Permutation_app_comm (omap at_work l2) (option_list (at_work w'))).
  rewrite !app_assoc. apply Permutation_app_tail, Permutation_app_comm.
Qed.

(** What a partial function makes of some elements comes from as many of them. *)
Lemma submseteq_omap {A B} (f : A -> option B) k : forall l, l ⊆+ omap f k ->
  exists k', k' ⊆+ k /\ Forall2 (fun y x => f x = Some y) l k'.
Proof.
  induction k as [|x k IH]; intros l Hl; cbn in Hl.
  { apply submseteq_nil_r in Hl as ->. by exists []. }
  destruct (f x) as [y|] eqn:E; [|destruct (IH l Hl) as (k' & H1 & H2); exists k'; split; [by apply submseteq_cons|done]].
  apply submseteq_cons_r in Hl as [Hl | (l' & Hp & Hl)]; destruct (IH _ Hl) as (k' & H1 & H2); [exists k'; split; [by apply submseteq_cons|done]|].
  assert (H0 : Forall2 (fun y x => f x = Some y) (y :: l') (x :: k')) by (by constructor).
  symmetry in Hp. destruct (Permutation_Forall2 Hp H0) as (k2 & Hk & HF).
  exists k2. split; [rewrite <- Hk; by apply submseteq_skip|done].
Qed.

Lemma Forall2_impl_in_r {A B} (P Q : A -> B -> Prop) l k : Forall2 P l k ->
  (forall x y, y ∈ k -> P x y -> Q x y) -> Forall2 Q l k.
Proof. induction 1 as [|x y l k H _ IH]; intros HPQ; constructor; [apply HPQ; [by left|done]|]. apply IH. intros. apply HPQ; [by right|done]. Qed.

(** The effect of an event, without the bookkeeping. *)
Section laws.
Context `{DnsLib} (reply : msg -> msg).

(** The queries that were queued have been processed, are being processed or
    wait; what was sent answers processed ones. *)
Definition service_inv (conns : list socket) (s : service) : Prop :=
  (length (sv_queue s) <= 128)%nat /\ length (sv_workers s) = 64%nat /\ sv_open s ⊆ list_to_set conns /\
  Forall (fun q => uq_conn q ∈ conns /\ 12 <= len (uq_wire q) <= 1232) (sv_received s) /\
  (exists processed, sv_received s ≡ₚ processed ++ busy s ++ sv_queue s /\ sv_sent s ⊆+ omap (answer_of reply) processed) /\
  (sv_returned s = true -> sv_stop s = true /\ sv_open s = ∅ /\ sv_readers s = ∅ /\ Forall (fun w => w = Exited) (sv_workers s)).

Lemma read_datagram_cases truncated q queue : (length queue <= 128)%nat ->
  read_datagram truncated q queue = queue \/
  read_datagram truncated q queue = queue ++ [q] /\ truncated = false /\ 12 <= len (uq_wire q) /\ (length queue < 128)%nat.
Proof.
  intros Hl. unfold read_datagram. destruct truncated; cbn [orb]; [by left|]. destruct (len (uq_wire q) <? 12) eqn:E1; [by left|].
  destruct (Z.of_nat (length queue) <? 128) eqn:E2; [right|by left]. bprop. split_and!; (done || lia).
Qed.

Lemma service_inv_start conns : service_inv conns (start_service conns).
Proof.
  unfold service_inv, start_service, busy. cbn [sv_queue sv_workers sv_open sv_received sv_sent sv_returned].
  split; [cbn; lia|]. split; [done|]. split; [done|]. split; [constructor|]. split; [by exists []|done].
Qed.

(** Nothing happens after the return. *)
Lemma returned_final conns s ev : service_inv conns s -> sv_returned s = true -> dns_step reply s ev = None.
Proof.
  intros (_ & _ & _ & _ & _ & Hr) Hret. destruct (Hr Hret) as (Hst & Ho & Hrd & Hw). rewrite Forall_forall in Hw.
  assert (Hi : forall i, match sv_workers s !! i with Some Exited | None => True | _ => False end).
  { intros i. destruct (sv_workers s !! i) as [w|] eqn:E; [|done]. by rewrite (Hw w (list_elem_of_lookup_2 _ _ _ E)). }
  destruct ev as [c peer bytes|c|i|i|i|i written| |c|]; cbn [dns_step]; rewrite ?Hst, ?Ho, ?Hrd, ?Hret, ?(bool_decide_false (_ ∈ ∅)) by set_solver; try done;
    specialize (Hi i); destruct (sv_workers s !! i) as [[]|]; done.
Qed.

Lemma enqueue_inv conns s c peer bytes : service_inv conns s -> sv_returned s = false -> c ∈ sv_open s ->
  let q := UdpQuery c peer (take buffer_size bytes) in
  let queue := read_datagram (Z.of_nat buffer_size <? len bytes) q (sv_queue s) in
  service_inv conns (Service queue (sv_workers s) (sv_readers s) (sv_open s) (sv_stop s) (sv_returned s)
    (if bool_decide (queue = sv_queue s) then sv_received s else sv_received s ++ [q]) (sv_sent s)).
Proof.
  intros (Hq & Hw & Ho & Hf & (pr & Hp & Hs) & _) Hret Hc q queue.
  destruct (read_datagram_cases (Z.of_nat buffer_size <? len bytes) q (sv_queue s) Hq) as [E|(E & _ & Hl & Hn)]; fold queue in E; rewrite E.
  - rewrite bool_decide_true by done. unfold service_inv. cbn. split_and!; [done..|by exists pr|congruence].
  - assert (Hne : sv_queue s ++ [q] <> sv_queue s) by (intros Hx; apply (f_equal length) in Hx; rewrite length_app in Hx; cbn in Hx; lia).
    rewrite bool_decide_false by done. unfold service_inv. cbn [sv_queue sv_workers sv_open sv_received sv_sent sv_returned].
    split; [rewrite length_app; cbn; lia|]. split; [done|]. split; [done|]. split.
    { apply Forall_app. split; [done|]. apply Forall_singleton. split; [cbn; set_solver|]. split; [done|]. cbn [uq_wire q]. unfold q. cbn [uq_wire].
      rewrite len_take. unfold buffer_size. lia. }
    split; [|congruence]. exists pr. split; [|done]. unfold busy. cbn [sv_workers]. rewrite Hp. unfold busy. by rewrite !app_assoc.
Qed.

(** A worker that moves between two places where it holds no query. *)
Lemma move_inv conns s i w w' : service_inv conns s -> sv_returned s = false -> sv_workers s !! i = Some w -> at_work w = None -> at_work w' = None ->
  service_inv conns (set_worker s i w').
Proof.
  intros (Hq & Hw & Ho & Hf & (pr & Hp & Hs) & _) Hret Hi E E'. pose proof (busy_set _ _ _ w' Hi) as Hb. rewrite E, E', !app_nil_r in Hb.
  unfold service_inv, set_worker, busy. cbn. rewrite length_insert. split_and!; [done..| |congruence]. exists pr. by rewrite Hb.
Qed.

Lemma inv_event conns s ev s' : service_inv conns s -> dns_step reply s ev = Some s' -> service_inv conns s'.
Proof.
  intros Hinv Hstep. destruct (sv_returned s) eqn:Hret; [by rewrite (returned_final conns s ev Hinv Hret) in Hstep|].
  pose proof Hinv as (Hq & Hw & Ho & Hf & (pr & Hp & Hs) & _). destruct ev as [c peer bytes|c|i|i|i|i written| |c|]; cbn [dns_step] in Hstep.
  - destruct (_ && _) eqn:E; [|done]. bprop. apply Some_inj in Hstep as <-. by apply enqueue_inv.
  - destruct (bool_decide _); [|done]. injection Hstep as <-. unfold service_inv. cbn. split_and!; [done..|by exists pr|congruence].
  - destruct (sv_workers s !! i) as [[]|] eqn:Ei; try done. injection Hstep as <-. eapply move_inv; [done..|by destruct (sv_stop s)].
  - destruct (sv_workers s !! i) as [[]|] eqn:Ei; try done. destruct (sv_queue s) as [|q queue] eqn:Eq; [done|]. injection Hstep as <-.
    pose proof (busy_set _ _ _ (Busy q) Ei) as Hb. cbn [at_work option_list] in Hb. rewrite app_nil_r in Hb. unfold service_inv, busy. cbn in *.
    rewrite length_insert. split_and!; [lia|done..| |congruence]. exists pr. split; [|done]. rewrite Hp, Hb. unfold busy. by rewrite <- app_assoc.
  - destruct (sv_workers s !! i) as [[]|] eqn:Ei; try done. destruct (sv_stop s); [|done]. injection Hstep as <-. by eapply move_inv.
  - destruct (sv_workers s !! i) as [[]|] eqn:Ei; try done. injection Hstep as <-.
    pose proof (busy_set _ _ _ Top Ei) as Hb. cbn [at_work option_list] in Hb. rewrite app_nil_r in Hb.
    assert (Hp' : sv_received s ≡ₚ (q :: pr) ++ omap at_work (<[i := Top]> (sv_workers s)) ++ sv_queue s).
    { rewrite Hp. unfold busy. rewrite <- Hb. rewrite <- app_assoc. cbn. by rewrite Permutation_middle, <- (Permutation_middle _ (sv_queue s)). }
    assert (Hnew : forall sent, sent ⊆+ omap (answer_of reply) (q :: pr) -> service_inv conns
      (Service (sv_queue s) (<[i := Top]> (sv_workers s)) (sv_readers s) (sv_open s) (sv_stop s) (sv_returned s) (sv_received s) sent)).
    { intros sent Hsent. unfold service_inv, busy. cbn [sv_queue sv_workers sv_open sv_received sv_sent sv_returned sv_readers sv_stop]. rewrite length_insert.
      split_and!; [done..|by exists (q :: pr)|congruence]. }
    assert (Hkeep : sv_sent s ⊆+ omap (answer_of reply) (q :: pr)) by (cbn; destruct (answer_of reply q); [by apply submseteq_cons|done]).
    destruct (answer_of reply q) as [d|] eqn:Ed; [|by apply Hnew]. destruct (written && _); [|by apply Hnew].
    apply Hnew. cbn. rewrite Ed. rewrite (Permutation_app_comm (sv_sent s) [d]). by apply submseteq_skip.
  - destruct (sv_stop s) eqn:E; [done|]. injection Hstep as <-. unfold service_inv. cbn. split_and!; [done..|by exists pr|congruence].
  - destruct (_ && _); [|done]. injection Hstep as <-. unfold service_inv. cbn. split_and!; [done..|set_solver|done|by exists pr|congruence].
  - destruct (_ && _) eqn:E; [|done]. injection Hstep as <-. rewrite !andb_true_iff, !bool_decide_eq_true in E. destruct E as ((((Est & _) & Eo) & Er) & Ew).
    unfold service_inv. cbn. split_and!; [done..|by exists pr|]. intros _. split_and!; [done..|].
    apply Forall_forall. intros w Hin. rewrite forallb_forall in Ew. apply list_elem_of_In, Ew in Hin. by apply bool_decide_eq_true in Hin.
Qed.

Lemma inv_run conns s evs s' : service_inv conns s -> dns_run reply s evs = Some s' -> service_inv conns s'.
Proof.
  revert s. induction evs as [|ev evs IH]; intros s Hs Hr; cbn [dns_run] in Hr; [by injection Hr as <-|].
  destruct (dns_step reply s ev) as [s1|] eqn:E; [|done]. eapply IH; [by eapply inv_event|done].
Qed.

(** *** [Close] *)
Lemma size_minus (X : gset socket) c : c ∈ X -> (size (X ∖ {[c]}) < size X)%nat.
Proof. intros Hc. apply subset_size. set_solver. Qed.

Ltac fields := cbn [sv_queue sv_workers sv_readers sv_open sv_stop sv_returned sv_received sv_sent set_worker weight length negb Nat.b2n] in *.

(** After the stop, what the goroutines and [Close] do brings the return
    nearer; a datagram takes it four steps away at most. *)
Lemma left_event s ev s' : (length (sv_queue s) <= 128)%nat -> sv_stop s = true -> dns_step reply s ev = Some s' ->
  sv_stop s' = true /\ (if internal ev then (left_to_do s' < left_to_do s)%nat else (left_to_do s' <= left_to_do s + 4)%nat).
Proof.
  intros Hq Hst Hstep. unfold left_to_do. destruct ev as [c peer bytes|c|i|i|i|i written| |c|]; cbn [dns_step internal] in *.
  - destruct (_ && _); [|done]. apply Some_inj in Hstep as <-. split; [done|]. fields.
    destruct (read_datagram_cases (Z.of_nat buffer_size <? len bytes) (UdpQuery c peer (take buffer_size bytes)) (sv_queue s) Hq) as [->|(-> & _)]; [lia|].
    rewrite length_app. cbn [length]. lia.
  - destruct (bool_decide _) eqn:E; [|done]. apply bool_decide_eq_true in E. injection Hstep as <-. split; [done|]. pose proof (size_minus _ _ E). fields; lia.
  - destruct (sv_workers s !! i) as [[]|] eqn:Ei; try done. injection Hstep as <-. rewrite Hst. split; [done|]. pose proof (total_set _ _ _ Exited Ei). fields; lia.
  - destruct (sv_workers s !! i) as [[]|] eqn:Ei; try done. destruct (sv_queue s) as [|q queue]; [done|]. injection Hstep as <-. split; [done|].
    pose proof (total_set _ _ _ (Busy q) Ei). fields; lia.
  - destruct (sv_workers s !! i) as [[]|] eqn:Ei; try done. rewrite Hst in Hstep. injection Hstep as <-. split; [done|]. pose proof (total_set _ _ _ Exited Ei). fields; lia.
  - destruct (sv_workers s !! i) as [[]|] eqn:Ei; try done. injection Hstep as <-. pose proof (total_set _ _ _ Top Ei).
    destruct (answer_of reply q); [destruct (written && _)|]; fields; (split; [done|lia]).
  - by rewrite Hst in Hstep.
  - destruct (_ && _) eqn:E; [|done]. apply andb_true_iff in E as [_ E%bool_decide_eq_true]. injection Hstep as <-. split; [done|]. pose proof (size_minus _ _ E). fields; lia.
  - destruct (_ && _) eqn:E; [|done]. injection Hstep as <-. rewrite !andb_true_iff in E. destruct E as ((((_ & Er) & _) & _) & _). split; [done|].
    apply negb_true_iff in Er. rewrite Er. fields; lia.
Qed.

Lemma left_run conns s evs s' : service_inv conns s -> sv_stop s = true -> dns_run reply s evs = Some s' ->
  (length (List.filter internal evs) + left_to_do s' <= left_to_do s + 4 * length (List.filter (fun ev => negb (internal ev)) evs))%nat.
Proof.
  revert s. induction evs as [|ev evs IH]; intros s Hs Hst Hr; cbn [dns_run] in Hr; [injection Hr as <-; cbn; lia|].
  destruct (dns_step reply s ev) as [s1|] eqn:E; [|done]. destruct (left_event s ev s1 (proj1 Hs) Hst E) as [Hst1 Hl].
  specialize (IH s1 (inv_event _ _ _ _ Hs E) Hst1 Hr). cbn [List.filter]. destruct (internal ev); cbn [negb length]; lia.
Qed.

Lemma close_progress s : sv_stop s = true -> sv_returned s = false -> exists ev s', internal ev = true /\ dns_step reply s ev = Some s'.
Proof.
  intros Hst Hr. destruct (decide (sv_open s = ∅)) as [Ho|(c & Hc)%set_choose_L]; [|exists (CloseConn c); eexists; cbn; rewrite Hst, bool_decide_true by done; done].
  destruct (decide (sv_readers s = ∅)) as [Hrd|(c & Hc)%set_choose_L]; [|exists (ReadError c); eexists; cbn; rewrite bool_decide_true by done; done].
  destruct (forallb (fun w => bool_decide (w = Exited)) (sv_workers s)) eqn:Ew.
  { exists CloseReturn. eexists. cbn. rewrite Hst, Hr, Ho, Hrd, Ew, !bool_decide_true by done. done. }
  assert (Hex : exists i w, sv_workers s !! i = Some w /\ w <> Exited).
  { apply not_true_iff_false in Ew. rewrite forallb_forall in Ew. destruct (decide (Forall (fun w => w = Exited) (sv_workers s))) as [HF|HF].
    - destruct Ew. intros w Hw%list_elem_of_In. rewrite Forall_forall in HF. apply bool_decide_eq_true. by apply HF.
    - apply not_Forall_Exists in HF; [|intros w; apply _]. apply Exists_exists in HF as (w & Hw & Hne). apply list_elem_of_lookup in Hw as [i Hi]. eauto. }
  destruct Hex as (i & w & Hi & Hne). destruct w as [| |q|]; [exists (Check i)|exists (StopSeen i)|exists (Finish i false)|done]; eexists; cbn; rewrite Hi, ?Hst; done.
Qed.

(** *** What was received *)
Lemma answer_of_reply q d : answer_of reply q = Some d ->
  d.1 = (uq_conn q, uq_peer q) /\ exists m, unpack (uq_wire q) = Some m /\ m_Response m = false /\
    pack (truncate (udpAnswerSize m) (reply m)) = Some d.2.
Proof.
  unfold answer_of, work. intros (wire & Hw & [= <-])%bind_Some. apply bind_Some in Hw as (m & Hu & Hw).
  destruct (m_Response m) eqn:Em; [done|]. split; [done|]. by exists m.
Qed.

(** The datagrams that came to the sockets: where, from whom and what. *)
Definition datagrams (evs : list event) : list (socket * string * string) :=
  omap (fun ev => match ev with Datagram c peer bytes => Some (c, peer, bytes) | _ => None end) evs.

Definition datagram_of (q : udpQuery) : socket * string * string := (uq_conn q, uq_peer q, uq_wire q).

Lemma received_event conns s ev s' : service_inv conns s -> dns_step reply s ev = Some s' ->
  sv_received s' = sv_received s \/
  exists q, sv_received s' = sv_received s ++ [q] /\ datagrams [ev] = [datagram_of q].
Proof.
  intros Hinv Hstep. destruct ev as [c peer bytes|c|i|i|i|i written| |c|]; cbn [dns_step] in Hstep.
  { destruct (_ && _); [|done]. apply Some_inj in Hstep as <-. cbn [sv_received]. destruct (bool_decide _) eqn:E; [by left|].
    apply bool_decide_eq_false in E. right. eexists. split; [reflexivity|].
    destruct (read_datagram_cases (Z.of_nat buffer_size <? len bytes) (UdpQuery c peer (take buffer_size bytes)) (sv_queue s) (proj1 Hinv))
      as [?|(_ & Hl & _)]; [done|]. apply Z.ltb_ge in Hl. unfold datagram_of. cbn [uq_conn uq_peer uq_wire]. rewrite take_all; [done|]. by apply Nat2Z.inj_le. }
  all: left; repeat match type of Hstep with
    | context [match ?x with _ => _ end] => destruct x
    end; try done; by injection Hstep as <-.
Qed.

Lemma received_run conns evs : forall s s', service_inv conns s -> dns_run reply s evs = Some s' ->
  exists new, sv_received s' = sv_received s ++ new /\ datagram_of <$> new ⊆+ datagrams evs.
Proof.
  induction evs as [|ev evs IH]; intros s s' Hs Hr; cbn [dns_run] in Hr; [injection Hr as <-; exists []; by rewrite app_nil_r|].
  destruct (dns_step reply s ev) as [s1|] eqn:E; [|done].
  destruct (IH s1 s' (inv_event _ _ _ _ Hs E) Hr) as (new & -> & Hnew).
  change (datagrams (ev :: evs)) with (datagrams ([ev] ++ evs)). unfold datagrams. rewrite omap_app. fold (datagrams [ev]) (datagrams evs).
  destruct (received_event _ _ _ _ Hs E) as [-> | (q & -> & ->)].
  - exists new. split; [done|]. by apply submseteq_inserts_l.
  - exists (q :: new). split; [by rewrite <- app_assoc|]. cbn. by apply submseteq_skip.
Qed.

(** C23: The queue of the UDP service never holds more than 128 queries and at
    most 64 are being answered; and the datagrams sent match, one to one, with
    different datagrams that arrived: each goes out of the socket the other came
    to, to the peer that sent it, and is the packed reply, truncated to the size
    the query allows, to the message in it.  Those were whole datagrams of 12 to
    1232 bytes with a message that is no response.  All this under every
    interleaving of readers, workers and [Close]. *)
Theorem dns_replies conns evs s : dns_run reply (start_service conns) evs = Some s ->
  (length (sv_queue s) <= 128)%nat /\ (length (busy s) <= 64)%nat /\
  exists asked, asked ⊆+ datagrams evs /\
    Forall2 (fun answer query =>
      answer.1.1 = query.1.1 /\ answer.1.2 = query.1.2 /\ query.1.1 ∈ conns /\ 12 <= len query.2 <= 1232 /\
      exists m, unpack query.2 = Some m /\ m_Response m = false /\
        pack (truncate (udpAnswerSize m) (reply m)) = Some answer.2) (sv_sent s) asked.
Proof.
  intros Hr. destruct (inv_run conns _ _ _ (service_inv_start conns) Hr) as (Hq & Hw & _ & Hf & (pr & Hp & Hs) & _). split_and!; [done| |].
  - rewrite <- Hw. unfold busy. clear. induction (sv_workers s) as [|w ws IH]; [done|]. cbn. destruct (at_work w); cbn; lia.
  - destruct (received_run conns evs _ _ (service_inv_start conns) Hr) as (new & E & Hnew). cbn in E. subst new.
    assert (Hs' : sv_sent s ⊆+ omap (answer_of reply) (sv_received s)) by (rewrite Hp, omap_app; by apply submseteq_inserts_r).
    apply submseteq_omap in Hs' as (qs & Hqs & HF). exists (datagram_of <$> qs). split; [by etrans; [apply fmap_submseteq|]|].
    apply Forall2_fmap_r. eapply Forall2_impl_in_r; [exact HF|]. intros d q Hin Ha. rewrite Forall_forall in Hf.
    destruct (Hf q) as [Hc Hl]; [by eapply elem_of_submseteq|]. apply answer_of_reply in Ha as [E Hm]. by rewrite E.
Qed.

(** [Close] ends the service: until it returns, something other than a
    datagram can happen; what can happen before the return is bounded, by what
    is left to do and four steps for every datagram that still arrives; and
    after the return every socket is closed, every goroutine has ended and
    nothing happens any more. *)
Theorem dns_close_returns conns evs s : dns_run reply (start_service conns) evs = Some s -> sv_stop s = true ->
  (sv_returned s = false -> exists ev s', internal ev = true /\ dns_step reply s ev = Some s') /\
  (forall evs' s', dns_run reply s evs' = Some s' ->
    (length (List.filter internal evs') <= left_to_do s + 4 * length (List.filter (fun ev => negb (internal ev)) evs'))%nat) /\
  (sv_returned s = true -> sv_open s = ∅ /\ sv_readers s = ∅ /\ Forall (fun w => w = Exited) (sv_workers s) /\
    forall ev, dns_step reply s ev = None).
Proof.
  intros Hr Hst. pose proof (inv_run conns _ _ _ (service_inv_start conns) Hr) as Hinv. split_and!.
  - by apply close_progress.
  - intros evs' s' Hr'. pose proof (left_run conns s evs' s' Hinv Hst Hr'). lia.
  - intros Hret. pose proof Hinv as (_ & _ & _ & _ & _ & Hx). destruct (Hx Hret) as (_ & Ho & Hrd & Hw). split_and!; [done..|]. intros ev. by eapply returned_final.
Qed.
End laws.

(** ** A concrete service *)
Module ServiceExamples.
(** Messages are their bytes; those that begin with an R are responses. *)
#[local] Instance bytes_lib : DnsLib := {|
  canonicalName s := s;
  setReply q := q;
  pack m := Some (m_Rest m);
  unpack s := Some (Msg 7 (hasPrefix s "R") 0 0 false true [] [] None s);
  truncate n m := m
|}.
Definition reply (q : msg) : msg := Msg (m_Id q) true 0 0 false true [] [] None ("R" +:+ m_Rest q).

Definition conn : socket := ("udp4", 5300).
Definition query : udpQuery := UdpQuery conn "10.0.0.1:4000" "QUERYQUERYQUERY".
(** A query, a stray response and a fragment; two queries are taken and the
    first is answered before the service closes, with the other at work. *)
Definition history : list event :=
  [Datagram conn "10.0.0.1:4000" "QUERYQUERYQUERY"; Datagram conn "10.0.0.2:4000" "RESPONSERESPONSE"; Datagram conn "10.0.0.3:4000" "Q";
   Check 0; Take 0; Check 1; Take 1; Finish 0 true; CloseCall].
Definition closing : list event := [CloseConn conn; ReadError conn; Finish 1 true] ++ (Check <$> seq 0 64) ++ [CloseReturn].
Definition stopped : service := Eval vm_compute in default (start_service []) (dns_run reply (start_service [conn]) history).
Definition closed : service := Eval vm_compute in default (start_service []) (dns_run reply (start_service [conn]) (history ++ closing)).

Example one_answer : sv_sent closed = [(conn, "10.0.0.1:4000", "RQUERYQUERYQUERY")] /\ sv_returned closed = true.
Proof. done. Qed.

Lemma dns_replies_witness : dns_run reply (start_service [conn]) (history ++ closing) = Some closed /\
  exists asked, asked ⊆+ datagrams history /\
    Forall2 (fun answer query => answer.1.1 = query.1.1 /\ answer.1.2 = query.1.2) (sv_sent closed) asked.
Proof.
  assert (Hr : dns_run reply (start_service [conn]) (history ++ closing) = Some closed) by (vm_compute; reflexivity).
  split; [exact Hr|].
  destruct (dns_replies reply [conn] (history ++ closing) closed Hr) as (_ & _ & asked & Ha & HF).
  exists asked. split; [exact Ha|]. eapply Forall2_impl; [exact HF|]. intros x y H. split; apply H.
Defined.

Lemma dns_close_returns_witness : exists ev s', internal ev = true /\ dns_step reply stopped ev = Some s'.
Proof.
  assert (Hr : dns_run reply (start_service [conn]) history = Some stopped) by (vm_compute; reflexivity).
  exact (proj1 (dns_close_returns reply [conn] history stopped Hr eq_refl) eq_refl).
Defined.
End ServiceExamples.
