(* ===== verification/AgentNetwork.v ===== *)
(** * realm-agent: the private network namespace

    Models [src/pkgs/realm-agent/network.go]: the controller lists the links,
    addresses and routes of the namespace with the [ip] tool, refuses anything
    that could carry traffic outside, and gives the dummy interface its
    addresses.  The outcome of each [ip] call is an input, as a function of the
    arguments; the state is the list of the calls made. *)

From S2P Require Import Prelude GoStrings Json AgentConfig AgentWorker.

Open Scope Z_scope.
Open Scope go_scope.

(** ** Data *)
Record linkData := LinkData { ld_Local : string; ld_Remote : string; ld_Link : Z }.
Record linkInfo := LinkInfo { li_Kind : string; li_Data : linkData }.
Record namespaceLink := NamespaceLink {
  nl_Name : string; nl_Flags : list string; nl_Immutable : bool; nl_Info : linkInfo
}.

Definition linkData_fields : list (field linkData) :=
  [mk_field "local" ld_Local (fun d x => LinkData x (ld_Remote d) (ld_Link d)) dec_string;
   mk_field "remote" ld_Remote (fun d x => LinkData (ld_Local d) x (ld_Link d)) dec_string;
   mk_field "link" ld_Link (fun d x => LinkData (ld_Local d) (ld_Remote d) x) dec_int].
Definition linkInfo_fields : list (field linkInfo) :=
  [mk_field "info_kind" li_Kind (fun i x => LinkInfo x (li_Data i)) dec_string;
   mk_field "info_data" li_Data (fun i x => LinkInfo (li_Kind i) x) (dec_struct false linkData_fields)].
Definition namespaceLink_zero : namespaceLink := NamespaceLink "" [] false (LinkInfo "" (LinkData "" "" 0)).
Definition namespaceLink_fields : list (field namespaceLink) :=
  [mk_field "ifname" nl_Name (fun l x => NamespaceLink x (nl_Flags l) (nl_Immutable l) (nl_Info l)) dec_string;
   mk_field "flags" nl_Flags (fun l x => NamespaceLink (nl_Name l) x (nl_Immutable l) (nl_Info l))
     (dec_slice dec_string "");
   mk_field "netns-immutable" nl_Immutable
     (fun l x => NamespaceLink (nl_Name l) (nl_Flags l) x (nl_Info l)) dec_bool;
   mk_field "linkinfo" nl_Info (fun l x => NamespaceLink (nl_Name l) (nl_Flags l) (nl_Immutable l) x)
     (dec_struct false linkInfo_fields)].

(** [json.RawMessage] takes any value. *)
Definition dec_raw : decoder json := fun _ v => Some v.

Record addressEntry := AddressEntry { ae_Addresses : list json }.
Definition addressEntry_fields : list (field addressEntry) :=
  [mk_field "addr_info" ae_Addresses (fun _ x => AddressEntry x) (dec_slice dec_raw JNull)].

Record routeEntry := RouteEntry { re_Destination : string; re_Device : string }.
Definition routeEntry_fields : list (field routeEntry) :=
  [mk_field "dst" re_Destination (fun r x => RouteEntry x (re_Device r)) dec_string;
   mk_field "dev" re_Device (fun r x => RouteEntry (re_Destination r) x) dec_string].

Definition unmarshal {A} (fields : list (field A)) (zero : A) (raw : string) : result (list A) :=
  match parse_all raw with
  | None => Err (ErrNew "json: syntax")
  | Some v =>
      match dec_slice (dec_struct false fields) zero [] v with
      | None => Err (ErrNew "json: cannot unmarshal")
      | Some l => Ok l
      end
  end.

(** ** [namespaceLink.inertFallback] *)
Definition unspecified (s : string) : bool := (s =? "") || (s =? "any") || (s =? "::").

Definition inertFallback (l : namespaceLink) : bool :=
  let kind := fallbackTunnelKinds (nl_Name l) in
  (kind <>? "") && (li_Kind (nl_Info l) =? kind) && nl_Immutable l &&
  negb (existsb (fun f => f =? "UP") (nl_Flags l)) && (ld_Link (li_Data (nl_Info l)) =? 0) &&
  unspecified (ld_Local (li_Data (nl_Info l))) && unspecified (ld_Remote (li_Data (nl_Info l))).

(** ** [controller.setupNetwork] *)
Definition command : Type := list string.

Section setup.
Variable ip_tool : command -> result string.

Definition ip (args : command) : SM (list command) string := fun log => (ip_tool args, log ++ [args]).

Definition address_show (name : string) : command := ["-j"; "address"; "show"; "dev"; name].
Definition route_show (family : string) : command := [family; "-j"; "route"; "show"; "table"; "all"].
Definition link_show : command := ["-d"; "-j"; "link"; "show"].

(** The loop over the links: whether [realm0] exists, and the fallbacks. *)
Fixpoint scan_links (found : bool) (fallbacks : gset string) (links : list namespaceLink)
    : SM (list command) (bool * gset string) :=
  match links with
  | [] => sret (found, fallbacks)
  | l :: links' =>
      if nl_Name l =? "lo" then scan_links found fallbacks links'
      else if inertFallback l then
        do! raw <- ip (address_show (nl_Name l));
        do! addresses <- slift (unmarshal addressEntry_fields (AddressEntry []) raw);
        match addresses with
        | [AddressEntry []] => scan_links found ({[nl_Name l]} ∪ fallbacks) links'
        | _ => sfail (ErrNew "fallback tunnel has addresses")
        end
      else if (nl_Name l <>? "realm0") || (li_Kind (nl_Info l) <>? "dummy")
      then sfail (ErrNew "refusing namespace with external-capable interface")
      else scan_links true fallbacks links'
  end.

Fixpoint scan_routes (fallbacks : gset string) (routes : list routeEntry) : result unit :=
  match routes with
  | [] => Ok tt
  | r :: routes' =>
      reject bool_decide (re_Device r ∈ fallbacks) with ErrNew "fallback tunnel has routes";
      reject re_Destination r =? "default" with ErrNew "private namespace must not have a default route";
      scan_routes fallbacks routes'
  end.

Fixpoint check_families (fallbacks : gset string) (families : list string) : SM (list command) unit :=
  match families with
  | [] => sret tt
  | f :: families' =>
      do! raw <- ip (route_show f);
      do! routes <- slift (unmarshal routeEntry_fields (RouteEntry "" "") raw);
      run! slift (scan_routes fallbacks routes);
      check_families fallbacks families'
  end.

Fixpoint run_all (commands : list command) : SM (list command) unit :=
  match commands with
  | [] => sret tt
  | c :: commands' => run! ip c; run_all commands'
  end.

Definition link_add : command := ["link"; "add"; "realm0"; "type"; "dummy"].
Definition realm0_setup : list command :=
  [["-4"; "address"; "replace"; "192.0.2.254/32"; "dev"; "realm0"];
   ["-6"; "address"; "replace"; "2001:db8::ffff/128"; "dev"; "realm0"; "nodad"];
   ["link"; "set"; "realm0"; "up"]].

(** The part that only looks, and says whether the dummy exists. *)
Definition inspect : SM (list command) bool :=
  do! raw <- ip link_show;
  do! links <- slift (unmarshal namespaceLink_fields namespaceLink_zero raw);
  do! found <- scan_links false ∅ links;
  run! check_families found.2 ["-4"; "-6"];
  sret found.1.

Definition setupNetwork : SM (list command) unit :=
  do! found <- inspect;
  run! (if found then sret tt else run! ip link_add; sret tt);
  run_all realm0_setup.
End setup.

(** ** What the checks establish *)

(** A fallback tunnel that carries nothing: one of the four devices the kernel
    creates, of its own kind, pinned to the namespace, down, bound to no link
    and without endpoints. *)
Record inert_tunnel (l : namespaceLink) : Prop := {
  it_kind : (nl_Name l, li_Kind (nl_Info l)) ∈
    [("ip6tnl0", "ip6tnl"); ("gre0", "gre"); ("gretap0", "gretap"); ("erspan0", "erspan")];
  it_immutable : nl_Immutable l = true;
  it_down : "UP" ∉ nl_Flags l;
  it_unbound : ld_Link (li_Data (nl_Info l)) = 0;
  it_local : ld_Local (li_Data (nl_Info l)) ∈ [""; "any"; "::"];
  it_remote : ld_Remote (li_Data (nl_Info l)) ∈ [""; "any"; "::"]
}.

Lemma unspecified_iff s : unspecified s = true <-> s ∈ [""; "any"; "::"].
Proof. unfold unspecified. rewrite !orb_true_iff, !bool_decide_eq_true, !elem_of_cons, elem_of_nil. tauto. Qed.

Lemma fallback_kind_iff name kind : fallbackTunnelKinds name <> "" /\ kind = fallbackTunnelKinds name <->
  (name, kind) ∈ [("ip6tnl0", "ip6tnl"); ("gre0", "gre"); ("gretap0", "gretap"); ("erspan0", "erspan")].
Proof.
  unfold fallbackTunnelKinds. rewrite !elem_of_cons, elem_of_nil, !pair_equal_spec.
  repeat case_bool_decide; subst; naive_solver.
Qed.

Lemma inertFallback_iff l : inertFallback l = true <-> inert_tunnel l.
Proof.
  unfold inertFallback. rewrite !andb_true_iff, !negb_true_iff, !unspecified_iff, bool_decide_eq_false, !bool_decide_eq_true.
  assert (Hup : existsb (fun f => f =? "UP") (nl_Flags l) = false <-> "UP" ∉ nl_Flags l).
  { rewrite <- not_true_iff_false, existsb_exists. setoid_rewrite bool_decide_eq_true. setoid_rewrite list_elem_of_In. naive_solver. }
  rewrite Hup, fallback_kind_iff. split; [intros; destruct_and!; by constructor|by intros []].
Qed.

Lemma inertFallback_false l : inertFallback l = false <-> ~ inert_tunnel l.
Proof. rewrite <- inertFallback_iff. by rewrite not_true_iff_false. Qed.

Definition read_only (c : command) : Prop := "show" ∈ c.

Create HintDb reads.

Section sealed.
Context (ip_tool : command -> result string).

(** A link that cannot carry traffic out of the namespace. *)
Inductive link_sealed (l : namespaceLink) : Prop :=
| SealedLoopback : nl_Name l = "lo" -> link_sealed l
| SealedFallback raw :
    nl_Name l <> "lo" -> inert_tunnel l -> ip_tool (address_show (nl_Name l)) = Ok raw ->
    unmarshal addressEntry_fields (AddressEntry []) raw = Ok [AddressEntry []] -> link_sealed l
| SealedDummy :
    nl_Name l = "realm0" -> ~ inert_tunnel l -> li_Kind (nl_Info l) = "dummy" -> link_sealed l.

Definition is_fallback (links : list namespaceLink) (dev : string) : Prop :=
  exists l, l ∈ links /\ nl_Name l = dev /\ nl_Name l <> "lo" /\ inert_tunnel l.

Definition family_sealed (links : list namespaceLink) (family : string) : Prop :=
  exists raw routes, ip_tool (route_show family) = Ok raw /\
    unmarshal routeEntry_fields (RouteEntry "" "") raw = Ok routes /\
    Forall (fun r => re_Destination r <> "default" /\ ~ is_fallback links (re_Device r)) routes.

(** The namespace has only such links and no default route. *)
Definition sealed (found : bool) : Prop :=
  exists raw links, ip_tool link_show = Ok raw /\
    unmarshal namespaceLink_fields namespaceLink_zero raw = Ok links /\
    Forall link_sealed links /\
    family_sealed links "-4" /\ family_sealed links "-6" /\
    (found = true <-> exists l, l ∈ links /\ nl_Name l = "realm0").

(** *** The loops *)

(** A step that only reads: it extends the log by listings. *)
Definition reads {A} (m : SM (list command) A) : Prop :=
  forall log r log', m log = (r, log') -> exists k, log' = log ++ k /\ Forall read_only k.

Lemma reads_ret {A} (a : A) : reads (sret a).
Proof. intros log r log' [= _ <-]. exists []. by rewrite app_nil_r. Qed.

Lemma reads_lift {A} (a : result A) : reads (slift a).
Proof. intros log r log' [= _ <-]. exists []. by rewrite app_nil_r. Qed.

Lemma reads_ip c : read_only c -> reads (ip ip_tool c).
Proof. intros Hc log r log' [= _ <-]. exists [c]. split; [done|]. by constructor. Qed.

Lemma reads_bind {A B} (m : SM (list command) A) (k : A -> SM (list command) B) :
  reads m -> (forall a, reads (k a)) -> reads (sbind m k).
Proof.
  intros Hm Hk log r log' H. unfold sbind in H. destruct (m log) as [[a|e|p] log1] eqn:E.
  - destruct (Hm _ _ _ E) as (k1 & -> & H1). destruct (Hk a _ _ _ H) as (k2 & -> & H2).
    exists (k1 ++ k2). rewrite app_assoc. split; [done|]. by apply Forall_app.
  - injection H as _ <-. by eapply Hm.
  - injection H as _ <-. by eapply Hm.
Qed.

Hint Resolve reads_ret reads_lift reads_ip reads_bind : reads.

Lemma show_address n : read_only (address_show n).
Proof. unfold read_only, address_show. set_solver. Qed.
Lemma show_route f : read_only (route_show f).
Proof. unfold read_only, route_show. set_solver. Qed.
Lemma show_link : read_only link_show.
Proof. unfold read_only, link_show. set_solver. Qed.

Hint Resolve show_address show_route show_link : reads.

Lemma reads_scan_links links : forall found fb, reads (scan_links ip_tool found fb links).
Proof.
  induction links as [|l links IH]; intros found fb; cbn [scan_links]; [apply reads_ret|].
  destruct (nl_Name l =? "lo"); [apply IH|]. destruct (inertFallback l).
  - apply reads_bind; [auto with reads|]. intros raw. apply reads_bind; [auto with reads|].
    intros [|[[|? ?]] [|? ?]]; try apply (reads_lift (Err _)). apply IH.
  - destruct (_ || _); [apply (reads_lift (Err _))|apply IH].
Qed.

Lemma reads_check_families fb fs : reads (check_families ip_tool fb fs).
Proof.
  induction fs as [|f fs IH]; cbn [check_families]; [apply reads_ret|].
  apply reads_bind; [auto with reads|]. intros raw. apply reads_bind; [auto with reads|]. intros routes.
  apply reads_bind; auto with reads.
Qed.

Lemma reads_inspect : reads (inspect ip_tool).
Proof.
  unfold inspect. apply reads_bind; [auto with reads|]. intros raw. apply reads_bind; [auto with reads|].
  intros links. apply reads_bind; [apply reads_scan_links|]. intros found.
  apply reads_bind; [apply reads_check_families|]. intros _. apply reads_ret.
Qed.

Lemma fallback_cons l links dev :
  is_fallback (l :: links) dev <->
  (nl_Name l = dev /\ nl_Name l <> "lo" /\ inert_tunnel l) \/ is_fallback links dev.
Proof.
  unfold is_fallback. setoid_rewrite elem_of_cons. naive_solver.
Qed.

Lemma scan_links_Ok links : forall found fb log f fb' log',
  scan_links ip_tool found fb links log = (Ok (f, fb'), log') ->
  Forall link_sealed links /\ (forall dev, dev ∈ fb' <-> dev ∈ fb \/ is_fallback links dev) /\
  (f = true <-> found = true \/ exists l, l ∈ links /\ nl_Name l = "realm0").
Proof.
  induction links as [|l links IH]; intros found fb log f fb' log' H; cbn [scan_links] in H.
  { injection H as <- <- _. split; [constructor|]. split.
    - intros dev. split; [by left|]. intros [?|(l & Hl & _)]; [done|]. by apply elem_of_nil in Hl.
    - split; [by left|]. intros [?|(l & Hl & _)]; [done|]. by apply elem_of_nil in Hl. }
  destruct (nl_Name l =? "lo") eqn:El; bprop.
  { destruct (IH _ _ _ _ _ _ H) as (H1 & H2 & H3). split; [constructor; [by apply SealedLoopback|done]|]. split.
    - intros dev. rewrite H2, fallback_cons. naive_solver.
    - rewrite H3. setoid_rewrite elem_of_cons. naive_solver congruence. }
  destruct (inertFallback l) eqn:Ei; [apply inertFallback_iff in Ei|apply inertFallback_false in Ei].
  - apply sbind_Ok in H as (raw & log1 & Hraw & H). apply sbind_Ok in H as (adr & log2 & Hadr & H).
    injection Hraw as Hraw _. injection Hadr as Hadr _.
    destruct adr as [|[[|? ?]] [|? ?]]; try discriminate H.
    destruct (IH _ _ _ _ _ _ H) as (H1 & H2 & H3). split; [constructor; [by eapply SealedFallback|done]|]. split.
    + intros dev. rewrite H2, fallback_cons, elem_of_union, elem_of_singleton. naive_solver.
    + rewrite H3. setoid_rewrite elem_of_cons. split; [naive_solver|].
      intros [?|(l' & [->|Hl'] & Hn)]; [by left| |right; eauto].
      exfalso. apply it_kind in Ei. rewrite Hn in Ei. set_solver +Ei.
  - destruct (_ || _) eqn:Er; [discriminate H|]. bprop.
    destruct (IH _ _ _ _ _ _ H) as (S1 & S2 & S3). split; [constructor; [by apply SealedDummy|done]|]. split.
    + intros dev. rewrite S2, fallback_cons. naive_solver congruence.
    + rewrite S3. setoid_rewrite elem_of_cons. naive_solver.
Qed.

Lemma scan_routes_Ok fb routes : scan_routes fb routes = Ok tt <->
  Forall (fun r => re_Destination r <> "default" /\ re_Device r ∉ fb) routes.
Proof.
  induction routes as [|r routes IH]; cbn [scan_routes]; [split; [constructor|done]|].
  rewrite !reject_Ok, IH, Forall_cons, !bool_decide_eq_false. tauto.
Qed.

Lemma check_family_Ok fb f fs log log' : check_families ip_tool fb (f :: fs) log = (Ok tt, log') ->
  exists raw routes log1, ip_tool (route_show f) = Ok raw /\
    unmarshal routeEntry_fields (RouteEntry "" "") raw = Ok routes /\
    Forall (fun r => re_Destination r <> "default" /\ re_Device r ∉ fb) routes /\
    check_families ip_tool fb fs log1 = (Ok tt, log').
Proof.
  cbn [check_families]. intros H. apply sbind_Ok in H as (raw & log1 & Hraw & H).
  apply sbind_Ok in H as (routes & log2 & Hr & H). apply sbind_Ok in H as ([] & log3 & Hs & H).
  injection Hraw as Hraw _. injection Hr as Hr _. injection Hs as Hs _.
  exists raw, routes, log3. split_and!; try done. by apply scan_routes_Ok.
Qed.

Lemma inspect_Ok log found log' : inspect ip_tool log = (Ok found, log') -> sealed found.
Proof.
  unfold inspect. intros H. apply sbind_Ok in H as (raw & log1 & Hraw & H).
  apply sbind_Ok in H as (links & log2 & Hlinks & H). apply sbind_Ok in H as ([f fb] & log3 & Hscan & H).
  apply sbind_Ok in H as ([] & log4 & Hfam & H). injection Hraw as Hraw _. injection Hlinks as Hlinks _.
  injection H as <- _. cbn [fst snd] in *.
  destruct (scan_links_Ok _ _ _ _ _ _ _ Hscan) as (Hl & Hfb & Hf).
  assert (Hout : forall routes, Forall (fun r => re_Destination r <> "default" /\ re_Device r ∉ fb) routes ->
    Forall (fun r => re_Destination r <> "default" /\ ~ is_fallback links (re_Device r)) routes).
  { intros routes Hall. eapply Forall_impl; [exact Hall|]. intros r [Hd Hn]. split; [done|]. intros Hi. apply Hn, Hfb. by right. }
  apply check_family_Ok in Hfam as (raw4 & r4 & log5 & ? & ? & H4 & Hfam).
  apply check_family_Ok in Hfam as (raw6 & r6 & log6 & ? & ? & H6 & _).
  exists raw, links. split_and!; try done; [exists raw4, r4; auto|exists raw6, r6; auto|].
  rewrite Hf. naive_solver.
Qed.

(** *** The changes *)
Lemma run_all_prefix commands : forall log r log', run_all ip_tool commands log = (r, log') ->
  exists k, log' = log ++ k /\ k `prefix_of` commands /\ (r = Ok tt -> k = commands).
Proof.
  induction commands as [|c commands IH]; intros log r log' H; cbn [run_all] in H.
  { injection H as <- <-. exists []. by rewrite app_nil_r. }
  unfold sbind, ip in H. destruct (ip_tool c) as [out|e|p].
  - destruct (IH _ _ _ H) as (k & -> & Hk & Hok). exists (c :: k). rewrite <- app_assoc. split; [done|].
    split; [by apply prefix_cons|]. intros Hr. by rewrite Hok.
  - injection H as <- <-. exists [c]. split; [done|]. split; [|discriminate]. by apply prefix_cons, prefix_nil.
  - injection H as <- <-. exists [c]. split; [done|]. split; [|discriminate]. by apply prefix_cons, prefix_nil.
Qed.

Definition changes (found : bool) : list command :=
  (if found then [] else [["link"; "add"; "realm0"; "type"; "dummy"]]) ++
  [["-4"; "address"; "replace"; "192.0.2.254/32"; "dev"; "realm0"];
   ["-6"; "address"; "replace"; "2001:db8::ffff/128"; "dev"; "realm0"; "nodad"];
   ["link"; "set"; "realm0"; "up"]].

Lemma setup_run_all (found : bool) (log : list command) :
  (run! (if found then sret tt else run! ip ip_tool link_add; sret tt); run_all ip_tool realm0_setup) log
  = run_all ip_tool (changes found) log.
Proof.
  change (changes found) with ((if found then [] else [link_add]) ++ realm0_setup).
  destruct found; [done|]. cbn [app run_all]. unfold sbind, ip, sret. by destruct (ip_tool link_add).
Qed.
End sealed.

(** C25: Setting up a namespace first lists links, addresses and routes, and
    changes nothing unless every link is the loopback, an inert fallback
    tunnel without addresses, or the dummy, no route leads through a fallback,
    and there is no default route in either family.  Success means all that
    held and the dummy was created if missing and configured completely. *)
Theorem setupNetwork_sealed ip_tool r log :
  setupNetwork ip_tool [] = (r, log) ->
  exists listed changed, log = listed ++ changed /\ Forall read_only listed /\
    ((changed = [] /\ is_ok r = false) \/
     exists found, sealed ip_tool found /\ changed `prefix_of` changes found /\
       (r = Ok tt -> changed = changes found)).
Proof.
  intros H. unfold setupNetwork, sbind at 1 in H. destruct (inspect ip_tool []) as [o log1] eqn:E.
  destruct (reads_inspect ip_tool _ _ _ E) as (k & -> & Hk). cbn [app] in *. destruct o as [found|e|p].
  - rewrite setup_run_all in H. destruct (run_all_prefix ip_tool _ _ _ _ H) as (c & -> & Hc & Hok).
    exists k, c. split; [done|]. split; [done|]. right. exists found. split; [by eapply inspect_Ok|done].
  - injection H as <- <-. exists k, []. rewrite app_nil_r. split_and!; try done. by left.
  - injection H as <- <-. exists k, []. rewrite app_nil_r. split_and!; try done. by left.
Qed.

(** ** A concrete namespace *)
Module NetworkExamples.
Import ConfigExamples.
Definition tool (c : command) : result string :=
  if c =? link_show then Ok (dq "[{'ifname':'lo','flags':['LOOPBACK','UP']},{'ifname':'gre0','flags':['NOARP'],'netns-immutable':true,'linkinfo':{'info_kind':'gre','info_data':{'local':'any','remote':'any'}}}]")
  else if c =? address_show "gre0" then Ok (dq "[{'ifname':'gre0','addr_info':[]}]")
  else if c =? route_show "-4" then Ok (dq "[{'dst':'127.0.0.0/8','dev':'lo'}]")
  else Ok "[]".

Lemma setup_run : setupNetwork tool [] =
  (Ok tt, [link_show; address_show "gre0"; route_show "-4"; route_show "-6"] ++ changes false).
Proof. vm_compute. reflexivity. Qed.

Lemma setupNetwork_sealed_witness : exists found, sealed tool found.
Proof.
  destruct (setupNetwork_sealed tool _ _ setup_run) as (listed & changed & _ & _ & [[_ H]|(found & H & _)]).
  - discriminate H.
  - exists found. exact H.
Defined.
End NetworkExamples.
