(* ===== verification/AgentCgroup.v ===== *)
(** * realm-agent: which workload a process belongs to

    Models [workloadCgroup] and the account checks of [serve] in
    [src/pkgs/realm-agent/agent.go], and the cgroup budgets of [resources.go].
    A process that asks for network access is matched to a controller by its
    user and by the systemd unit in its cgroup path. *)

From S2P Require Import Prelude GoStrings Regex AgentConfig.

Open Scope Z_scope.
Open Scope go_scope.

(** ** [workloadCgroup] *)

(** The loop over the path elements: those up to the unit. *)
Fixpoint find_unit (unit : string) (parts : list string) : option (list string) :=
  match parts with
  | [] => None
  | part :: parts' =>
      if part =? unit then Some [part]
      else if negb (hasSuffix part ".slice") then None
      else cons part <$> find_unit unit parts'
  end.

Definition workloadCgroup (path unit : string) : result string :=
  reject (path =? "") || (path =? "/") || negb (hasPrefix path "/") || (clean path <>? path)
    with ErrNew "peer must have a dedicated cgroup v2 group";
  if unit =? "" then Ok path
  else
    match find_unit unit (split slash (trimPrefix path "/")) with
    | Some parts => Ok ("/" +:+ join "/" parts)
    | None => Err (ErrNew "peer does not belong to system unit")
    end.

(** The line of [/proc/PID/cgroup] for the unified hierarchy. *)
Definition unified_path (raw : string) : string :=
  match List.find (fun line => hasPrefix line "0::/") (split (char 10) raw) with
  | Some line => trimPrefix line "0::"
  | None => ""
  end.

(** ** The account checks of [serve] *)
Record account := Account { ac_uid : Z; ac_gid : Z; ac_workerUID : Z; ac_unit : string }.

(** One more workload next to the controllers already accepted. *)
Definition admit_account (accepted : list account) (a : account) : result (list account) :=
  reject (ac_uid a =? 0) || (ac_gid a =? 0) || (ac_workerUID a =? 0) || (ac_uid a =? ac_workerUID a)
    with ErrNew "unsafe account IDs";
  reject existsb (fun other => (ac_uid a =? ac_uid other) &&
                    ((ac_unit a =? "") || (ac_unit other =? "") || (ac_unit a =? ac_unit other))) accepted
    with ErrNew "shared application UID requires distinct attested system units";
  Ok (accepted ++ [a]).

Fixpoint admit_all (accepted todo : list account) : result (list account) :=
  match todo with
  | [] => Ok accepted
  | a :: todo' => let! accepted' := admit_account accepted a in admit_all accepted' todo'
  end.

(** What [prepare] asks of a peer: its user, and a cgroup of the unit. *)
Definition claims_peer (a : account) (uid : Z) (cgroup : string) : bool :=
  (ac_uid a =? uid) && is_ok (workloadCgroup cgroup (ac_unit a)).

(** ** Budgets of [workerCgroup] *)
Definition budget (w : workload) : list (string * string) :=
  [("memory.max", itoa (i64 (i64 (w_WorkerMemoryMiB w * 1024) * 1024)));
   ("memory.swap.max", "0"); ("memory.oom.group", "1");
   ("pids.max", itoa (w_WorkerTasks w));
   ("cpu.max", itoa (i64 (w_WorkerCPUQuota w * 1000)) +:+ " 100000")].

(** ** [delegatedWorkerRoot]: the path test *)
Definition is_space (c : ascii) : bool := in_range 9 13 c || (code c =? 32).
Fixpoint trimLeft (s : string) : string :=
  match s with
  | String c s' => if is_space c then trimLeft s' else s
  | EmptyString => EmptyString
  end.
Fixpoint trimRight (s : string) : string :=
  match s with
  | EmptyString => EmptyString
  | String c s' =>
      match trimRight s' with
      | EmptyString => if is_space c then EmptyString else String c EmptyString
      | r => String c r
      end
  end.
(** [strings.TrimSpace] on ASCII text, which is what the kernel file holds. *)
Definition trimSpace (s : string) : string := trimRight (trimLeft s).

Definition supervisor_path (raw : string) : result string :=
  let path := trimSpace (trimPrefix raw "0::") in
  reject negb (hasPrefix path "/") || (clean path <>? path) || (base path <>? "supervisor")
      || negb (hasSuffix (dir path) ".service")
    with ErrNew "serve requires a delegated systemd service with DelegateSubgroup=supervisor";
  Ok (dir path).

(** ** Lemmas *)
Lemma find_unit_Some unit parts p : find_unit unit parts = Some p <->
  exists slices rest, parts = slices ++ unit :: rest /\ p = slices ++ [unit] /\
    Forall (fun s => s <> unit /\ hasSuffix s ".slice" = true) slices.
Proof.
  revert p. induction parts as [|x parts IH]; intros p; cbn [find_unit].
  { split; [discriminate|]. intros (sl & rest & H & _). by destruct sl. }
  destruct (x =? unit) eqn:E1; bprop.
  - subst x. split.
    + intros [= <-]. by exists [], parts.
    + intros ([|y sl] & rest & H & -> & Hf); [done|]. injection H as <- _.
      apply Forall_cons in Hf as [[? _] _]. done.
  - destruct (hasSuffix x ".slice") eqn:E2; cbn [negb].
    + rewrite fmap_Some. setoid_rewrite IH. split.
      * intros (q & (sl & rest & -> & -> & Hf) & ->). exists (x :: sl), rest. split_and!; try done. by constructor.
      * intros ([|y sl] & rest & H & -> & Hf); [by injection H as -> ->|]. injection H as <- ->.
        apply Forall_cons in Hf as [_ Hf]. exists (sl ++ [unit]). split; [|done]. by exists sl, rest.
    + split; [discriminate|]. intros ([|y sl] & rest & H & -> & Hf); [by injection H as -> ->|].
      injection H as <- _. apply Forall_cons in Hf as [[_ ?] _]. congruence.
Qed.

(** The unit is the first element that is not a slice. *)
Lemma find_unit_first unit1 unit2 parts p1 p2 :
  hasSuffix unit1 ".slice" = false -> hasSuffix unit2 ".slice" = false ->
  find_unit unit1 parts = Some p1 -> find_unit unit2 parts = Some p2 -> unit1 = unit2.
Proof.
  intros H1 H2. revert p1 p2. induction parts as [|x parts IH]; intros p1 p2; cbn [find_unit]; [done|].
  destruct (x =? unit1) eqn:E1, (x =? unit2) eqn:E2; bprop; try congruence.
  - subst x. rewrite H1. done.
  - subst x. rewrite H2. done.
  - destruct (hasSuffix x ".slice"); [cbn [negb]|done]. rewrite !fmap_Some.
    intros (q1 & Hq1 & _) (q2 & Hq2 & _). by eapply IH.
Qed.

Lemma append_tails a b x y : a +:+ x = b +:+ y -> String.length x = String.length y -> x = y.
Proof.
  intros H Hl. assert (Hab : String.length a = String.length b).
  { pose proof (f_equal String.length H) as Hlen. rewrite !length_append in Hlen. lia. }
  clear Hl. revert b Hab H. induction a as [|c a IH]; intros [|d b] Hab H; try discriminate Hab.
  - by rewrite !append_nil_l in H.
  - rewrite !append_cons in H. injection H as _ H. injection Hab as Hab. by apply (IH b).
Qed.

Lemma service_not_slice s : good_unit s -> hasSuffix s ".slice" = false.
Proof.
  intros (stem & -> & _). apply not_true_iff_false. intros H. apply hasSuffix_spec in H as (r & H).
  change ".service" with (".ser" +:+ "vice") in H. change ".slice" with (".s" +:+ "lice") in H.
  rewrite <- !append_assoc in H. by apply append_tails in H.
Qed.

Definition no_slash (s : string) : Prop := all_chars (fun c => c <>? slash) s = true.

Lemma path_checks path : (path =? "") || (path =? "/") || negb (hasPrefix path "/") || (clean path <>? path) = false <->
  path <> "/" /\ isAbs path = true /\ clean path = path.
Proof.
  rewrite !orb_false_iff, !negb_false_iff, !bool_decide_eq_false, bool_decide_eq_true. unfold isAbs.
  split; [tauto|]. intros (? & Hp & ?). split_and!; try done. intros ->. discriminate Hp.
Qed.

(** A peer is attributed to a unit exactly when its cgroup path is absolute,
    clean and not the root, and consists of slices followed by that unit; the
    group captured is the whole unit.  Every other path is refused. *)
Theorem workloadCgroup_correct path unit p : good_unit unit ->
  workloadCgroup path unit = Ok p <->
  path <> "/" /\ isAbs path = true /\ clean path = path /\
  exists slices rest, path = "/" +:+ join "/" (slices ++ unit :: rest) /\
    p = "/" +:+ join "/" (slices ++ [unit]) /\
    Forall (fun s => hasSuffix s ".slice" = true) slices /\ Forall no_slash (slices ++ unit :: rest).
Proof.
  intros Hu. pose proof (service_not_slice unit Hu) as Hns. unfold workloadCgroup.
  rewrite reject_Ok, path_checks. rewrite bool_decide_false by (intros ->; destruct Hu as (stem & H & _); by destruct stem).
  split.
  - intros ((Hr & Ha & Hc) & H). split_and!; try done.
    destruct (find_unit unit _) as [parts|] eqn:E; [|discriminate H]. injection H as <-.
    apply find_unit_Some in E as (sl & rest & Hsp & -> & Hf). exists sl, rest.
    pose proof (proj1 (hasPrefix_spec path "/") Ha) as (body & ->). rewrite trimPrefix_append in Hsp.
    pose proof (split_no_sep slash body) as Hno. rewrite <- (join_split slash body). rewrite Hsp in Hno |- *.
    split_and!; try done. eapply Forall_impl; [exact Hf|]. by intros x [_ Hx].
  - intros (Hr & Ha & Hc & sl & rest & Hp & -> & Hf & Hno). split; [done|]. rewrite Hp, trimPrefix_append.
    change "/" with (String slash "") at 1. rewrite split_join by (try done; by destruct sl).
    assert (find_unit unit (sl ++ unit :: rest) = Some (sl ++ [unit])) as ->; [|done].
    apply find_unit_Some. exists sl, rest. split_and!; try done.
    eapply Forall_impl; [exact Hf|]. intros x Hx. split; [intros ->; congruence|done].
Qed.

(** ** One controller per peer *)
Lemma claims_units a b uid cgroup :
  good_unit (ac_unit a) -> good_unit (ac_unit b) ->
  claims_peer a uid cgroup = true -> claims_peer b uid cgroup = true -> ac_unit a = ac_unit b.
Proof.
  intros Ha Hb H1 H2. unfold claims_peer, workloadCgroup in *. bprop.
  destruct (_ || _); [discriminate|].
  rewrite bool_decide_false in * by (intros E; rewrite E in *; destruct Ha as (st & H' & _); by destruct st).
  destruct (find_unit (ac_unit a) _) eqn:E1; [|done].
  destruct (ac_unit b =? "") eqn:E3; bprop; [destruct Hb as (st & H' & _); rewrite E3 in H'; by destruct st|].
  destruct (find_unit (ac_unit b) _) eqn:E2; [|done].
  eapply find_unit_first; try done; by apply service_not_slice.
Qed.

Definition safe_account (a : account) : Prop :=
  ac_uid a <> 0 /\ ac_gid a <> 0 /\ ac_workerUID a <> 0 /\ ac_uid a <> ac_workerUID a.

(** Two accepted controllers of the same user have distinct units. *)
Definition apart (a b : account) : Prop :=
  ac_uid a = ac_uid b -> ac_unit a <> "" /\ ac_unit b <> "" /\ ac_unit a <> ac_unit b.

Lemma apart_sym a b : apart a b -> apart b a.
Proof. unfold apart. intros H E. destruct (H (eq_sym E)) as (? & ? & ?). done. Qed.

Definition all_apart (l : list account) : Prop :=
  forall i j a b, l !! i = Some a -> l !! j = Some b -> i <> j -> apart a b.

Lemma admit_account_Ok l a l' : admit_account l a = Ok l' ->
  l' = l ++ [a] /\ safe_account a /\ Forall (fun other => apart other a) l.
Proof.
  unfold admit_account. rewrite !reject_Ok. intros (Hs & He & [= <-]). bprop. split; [done|]. split; [by split_and!|].
  apply Forall_forall. intros o Ho E. apply not_true_iff_false in He.
  rewrite existsb_exists in He. split_and!; intros E2; apply He; exists o; rewrite <- list_elem_of_In;
    (split; [done|]); rewrite andb_true_iff, !orb_true_iff, !bool_decide_eq_true; auto.
Qed.

Lemma all_apart_snoc l a : all_apart l -> Forall (fun o => apart o a) l -> all_apart (l ++ [a]).
Proof.
  intros Hl Ha i j x y Hi Hj Hne. rewrite Forall_lookup in Ha.
  apply lookup_app_Some in Hi as [Hi|[Hi1 Hi]], Hj as [Hj|[Hj1 Hj]].
  - by eapply Hl.
  - apply list_lookup_singleton_Some in Hj as [_ <-]. by eapply Ha.
  - apply list_lookup_singleton_Some in Hi as [_ <-]. apply apart_sym. by eapply Ha.
  - apply list_lookup_singleton_Some in Hi as [? _]. apply list_lookup_singleton_Some in Hj as [? _]. lia.
Qed.

Lemma admit_all_Ok todo : forall l l', all_apart l -> Forall safe_account l -> admit_all l todo = Ok l' ->
  l' = l ++ todo /\ all_apart l' /\ Forall safe_account l'.
Proof.
  induction todo as [|a todo IH]; intros l l' Hl Hs H; cbn [admit_all] in H.
  { injection H as <-. by rewrite app_nil_r. }
  apply rbind_Ok in H as (l1 & H1 & H). apply admit_account_Ok in H1 as (-> & Ha & Hap).
  apply IH in H as (-> & ? & ?); [split_and!; [by rewrite <- app_assoc|done|done]|by apply all_apart_snoc|].
  apply Forall_app. split; [done|]. by apply Forall_singleton.
Qed.

(** No process is claimed by two controllers that are apart. *)
Lemma apart_claims l uid cgroup : all_apart l -> Forall (fun a => ac_unit a = "" \/ good_unit (ac_unit a)) l ->
  forall i j a b, l !! i = Some a -> l !! j = Some b ->
    claims_peer a uid cgroup = true -> claims_peer b uid cgroup = true -> i = j.
Proof.
  intros Hap Hu i j a b Hi Hj Ha Hb. destruct (decide (i = j)) as [|Hne]; [done|]. exfalso. rewrite Forall_lookup in Hu.
  assert (E : ac_uid a = ac_uid b) by (unfold claims_peer in *; bprop; congruence).
  destruct (Hap i j a b Hi Hj Hne E) as (Hna & Hnb & Hd). apply Hd.
  destruct (Hu i a Hi) as [?|Hga]; [done|]. destruct (Hu j b Hj) as [?|Hgb]; [done|].
  by eapply claims_units.
Qed.

(** When the controllers start, no account is root, workers never share the
    application's user, and no process, whatever its user and cgroup path, is
    claimed by two controllers. *)
Theorem peer_unambiguous todo l uid cgroup :
  Forall (fun a => ac_unit a = "" \/ good_unit (ac_unit a)) todo -> admit_all [] todo = Ok l ->
  l = todo /\ Forall safe_account l /\
  forall i j a b, l !! i = Some a -> l !! j = Some b ->
    claims_peer a uid cgroup = true -> claims_peer b uid cgroup = true -> i = j.
Proof.
  intros Hu H. apply admit_all_Ok in H as (-> & Hap & Hs); [|intros ? ? ? ? Hx; by rewrite lookup_nil in Hx|constructor].
  split; [done|]. split; [done|]. by apply apart_claims.
Qed.

(** The budgets written for an accepted workload are exact: no product
    overflows, memory is between 32 MiB and 4 GiB, at most 512 tasks, and the
    CPU quota per 100 ms is the configured percentage. *)
Theorem budget_exact w : accepted w ->
  budget w = [("memory.max", itoa (w_WorkerMemoryMiB w * 2 ^ 20)); ("memory.swap.max", "0");
              ("memory.oom.group", "1"); ("pids.max", itoa (w_WorkerTasks w));
              ("cpu.max", itoa (w_WorkerCPUQuota w * 1000) +:+ " 100000")] /\
  2 ^ 25 <= w_WorkerMemoryMiB w * 2 ^ 20 <= 2 ^ 32.
Proof.
  intros Hw. pose proof (acc_memory w Hw). pose proof (acc_cpu w Hw). split; [|lia]. unfold budget.
  rewrite (i64_small (w_WorkerMemoryMiB w * 1024)), !i64_small by (unfold minInt64, maxInt64; lia).
  by replace (w_WorkerMemoryMiB w * 1024 * 1024) with (w_WorkerMemoryMiB w * 2 ^ 20) by lia.
Qed.

(** ** Concrete units *)
Module CgroupExamples.
Definition synapse : string := "matrix-synapse.service".

Lemma synapse_good : good_unit synapse.
Proof. apply unit_match. vm_compute. reflexivity. Qed.

(** The table of the project's own test. *)
Example cgroup_table :
  workloadCgroup "/system.slice/matrix-synapse.service" synapse = Ok "/system.slice/matrix-synapse.service" /\
  workloadCgroup "/apps.slice/apps-media.slice/matrix-synapse.service/.control" synapse =
    Ok "/apps.slice/apps-media.slice/matrix-synapse.service" /\
  is_ok (workloadCgroup "/system.slice/matrix-synapse.service-copy" synapse) = false /\
  is_ok (workloadCgroup "/user.slice/user-1000.slice/user@1000.service/app.slice/matrix-synapse.service" synapse) = false /\
  is_ok (workloadCgroup "/system.slice/matrix-synapse.service/../other.service" synapse) = false /\
  is_ok (workloadCgroup "/" "") = false /\ is_ok (workloadCgroup "relative" "") = false /\
  workloadCgroup "/user.slice/libpod-test.scope/container" "" = Ok "/user.slice/libpod-test.scope/container".
Proof. vm_compute. done. Qed.

Lemma workloadCgroup_correct_witness :
  clean "/system.slice/matrix-synapse.service/.control" = "/system.slice/matrix-synapse.service/.control".
Proof.
  apply (workloadCgroup_correct "/system.slice/matrix-synapse.service/.control" synapse
    "/system.slice/matrix-synapse.service" synapse_good).
  vm_compute. reflexivity.
Defined.

Definition accounts : list account :=
  [Account 984 984 985 synapse; Account 984 984 986 "matrix-s3.service"; Account 990 990 991 ""].

Lemma accounts_units : Forall (fun a => ac_unit a = "" \/ good_unit (ac_unit a)) accounts.
Proof.
  constructor; [right; exact synapse_good|]. constructor; [right; apply unit_match; vm_compute; reflexivity|].
  constructor; [by left|constructor].
Qed.

Lemma peer_unambiguous_witness :
  admit_all [] accounts = Ok accounts /\
  claims_peer (Account 984 984 985 synapse) 984 "/system.slice/matrix-synapse.service" = true /\
  claims_peer (Account 984 984 986 "matrix-s3.service") 984 "/system.slice/matrix-synapse.service" = false.
Proof.
  split; [vm_compute; reflexivity|]. split; [vm_compute; reflexivity|].
  apply not_true_iff_false. intros H.
  destruct (peer_unambiguous accounts accounts 984 "/system.slice/matrix-synapse.service" accounts_units eq_refl)
    as (_ & _ & Hu).
  discriminate (Hu 0%nat 1%nat _ _ eq_refl eq_refl eq_refl H).
Defined.

Lemma budget_exact_witness : In ("memory.max", "134217728") (budget ConfigExamples.matrix').
Proof.
  rewrite (proj1 (budget_exact ConfigExamples.matrix' ConfigExamples.matrix_accepted)). left. vm_compute. reflexivity.
Defined.
End CgroupExamples.
