(* ===== verification/AgentController.v ===== *)
(** * realm-agent: the controller

    Models the controller of [src/pkgs/realm-agent/agent.go] with [recovery.go],
    [resources.go] and the sealed configuration of [sandbox.go]: the gate
    ([peerProcess], [processNetwork], [prepare]), starting a worker ([start]),
    the saved state ([saveState], [recover]) and the reconcile loop.  The state
    is the set of open handles (files, pipes, BPF links), the running worker
    processes with the capture each depends on, the state file, and the
    controller's current instance.  Outcomes of system calls are inputs.  A
    register records, for a fresh handle, what the kernel knows of it: the inode
    behind a cgroup or namespace, the cgroup a capture is attached to, the files
    a worker was given and what arrives on its readiness pipe.  The code never
    reads the register; the theorems about the gate do.
    [populated] opens and closes a file of its own, which leaves no trace here. *)

From S2P Require Import Prelude GoStrings Json AgentConfig AgentWorker AgentNetwork AgentCgroup.

Open Scope Z_scope.
Open Scope go_scope.

(** ** State *)
Record instance := Instance {
  i_capture : nat; i_cgroup : nat; i_netns : nat; i_lease : nat; i_resources : nat;
  i_process : nat;
  i_key : string;
  i_emptySince : option Z
}.

(** What the readiness pipe of a worker yields. *)
Inductive readiness :=
| ReadLine (line : string) (err : option error)
| ReadyTimeout
| ReadyCanceled.

(** What the kernel knows of a handle. *)
Inductive fact :=
| FNode (inode : result Z)                              (* what fstat says *)
| FCapture (cgroup : nat)                               (* attached to this cgroup *)
| FWorker (extraFiles : list nat) (report : readiness). (* descriptors 3, 4, ..., and its report *)

Record world := World {
  next : nat;                      (* the next fresh handle *)
  opened : gset nat;
  procs : gmap nat nat;            (* running worker, its capture *)
  state_file : option string;
  temps : gset nat;                (* temporary files *)
  current : option instance;
  orphaned : bool;                 (* a capture was closed under a running worker *)
  facts : gmap nat fact            (* the register *)
}.

Definition M (A : Type) : Type := SM world A.

Definition set_current (s : world) (c : option instance) : world :=
  World (next s) (opened s) (procs s) (state_file s) (temps s) c (orphaned s) (facts s).
Definition set_state_file (s : world) (f : option string) : world :=
  World (next s) (opened s) (procs s) f (temps s) (current s) (orphaned s) (facts s).
Definition set_temps (s : world) (t : gset nat) : world :=
  World (next s) (opened s) (procs s) (state_file s) t (current s) (orphaned s) (facts s).

(** [None] is success. *)
Definition check (o : option error) : M unit :=
  match o with None => sret tt | Some e => sfail e end.

(** Open a handle, with what is recorded of it. *)
Definition open_as (record : nat -> gmap nat fact -> gmap nat fact) (o : option error) : M nat := fun s =>
  match o with
  | Some e => (Err e, s)
  | None => (Ok (next s), World (S (next s)) ({[next s]} ∪ opened s) (procs s) (state_file s) (temps s)
                            (current s) (orphaned s) (record (next s) (facts s)))
  end.

Definition open_file : option error -> M nat := open_as (fun _ F => F).
(** A cgroup directory or namespace, with its inode; [attachCapture] of a
    cgroup, whose programs and links are modelled with the BPF side. *)
Definition open_node (o : option error) (inode : result Z) : M nat := open_as (fun h => <[h := FNode inode]>) o.
Definition attach_capture (o : option error) (cg : nat) : M nat := open_as (fun h => <[h := FCapture cg]>) o.

(** Closing twice is an error that the code ignores. *)
Definition close_file (h : nat) (s : world) : world :=
  World (next s) (opened s ∖ {[h]}) (procs s) (state_file s) (temps s) (current s)
    (orphaned s || bool_decide (map_Exists (fun _ c => c = h) (procs s))) (facts s).

(** Open a file, read it, close it. *)
Definition read_file {A} (o : option error) (r : result A) : M A :=
  do! f <- open_file o; defer (close_file f) (slift r).

(** [cmd.Start] of a worker that relies on a capture, and its end. *)
Definition spawn (o : option error) (capture : nat) (extraFiles : list nat) (report : readiness) : M nat := fun s =>
  match o with
  | Some e => (Err e, s)
  | None => (Ok (next s), World (S (next s)) (opened s) (<[next s := capture]> (procs s)) (state_file s) (temps s)
                            (current s) (orphaned s) (<[next s := FWorker extraFiles report]> (facts s)))
  end.
Definition reap (p : nat) (s : world) : world :=
  World (next s) (opened s) (delete p (procs s)) (state_file s) (temps s) (current s) (orphaned s) (facts s).

Definition exited (i : instance) (s : world) : bool := bool_decide (procs s !! i_process i = None).

(** ** [peerProcess] *)
Record peerEnv := PeerEnv {
  pe_raw : option error;        (* SyscallConn *)
  pe_control : option error;    (* Control *)
  pe_cred : option error;       (* SO_PEERCRED *)
  pe_pidfd : option error;      (* SO_PEERPIDFD *)
  pe_alive1 : option error;     (* poll before *)
  pe_proc : option error;       (* open /proc/PID *)
  pe_alive2 : option error;     (* poll after *)
  pe_uid : Z
}.

Definition peerProcess (env : peerEnv) : M (nat * Z) :=
  run! check (pe_raw env);
  run! check (pe_control env);
  run! check (pe_cred env);
  do! pidfd <- open_file (pe_pidfd env);
  defer (close_file pidfd) (
    run! check (pe_alive1 env);
    do! f <- open_file (pe_proc env);
    defer_unless_ok (close_file f) (
      run! check (pe_alive2 env);
      sret (f, pe_uid env))).

(** ** [processNetwork] *)
Record netEnv := NetEnv {
  ne_open : option error; ne_read : result string;     (* /proc/PID/cgroup *)
  ne_cg : option error; ne_ns : option error;
  ne_stat_cg : result Z; ne_stat_ns : result Z;        (* inode numbers *)
  ne_host : option error; ne_stat_host : result Z
}.

(** The key of a capture: inodes of its cgroup and network namespace. *)
Definition capture_key (cg ns : Z) : string := itoa cg +:+ ":" +:+ itoa ns.

Definition processNetwork (env : netEnv) (unit : string) : M (nat * nat * string) :=
  do! raw <- read_file (ne_open env) (ne_read env);
  do! path <- slift (workloadCgroup (unified_path (limitReader 8192 raw)) unit);
  do! cg <- open_node (ne_cg env) (ne_stat_cg env);
  defer_unless_ok (close_file cg) (
    do! ns <- open_node (ne_ns env) (ne_stat_ns env);
    defer_unless_ok (close_file ns) (
      do! a <- slift (ne_stat_cg env);
      do! b <- slift (ne_stat_ns env);
      do! same <- read_file (ne_host env) (Ok (match ne_stat_host env with Ok h => h =? b | _ => true end));
      run! (if same then sfail (ErrNew "refusing host network namespace") else sret tt);
      sret (cg, ns, capture_key a b))).

(** ** [populated] *)
Definition populated (events : option string) : bool :=
  match events with
  | Some s => contains (limitReader 4096 s) "populated 1"
  | None => false
  end.

(** ** [sealedWorkerConfig] and [workerCgroup] *)
Record sealEnv := SealEnv {
  sl_memfd : option error; sl_encode : option error; sl_seal : option error; sl_reopen : option error
}.

Definition sealedWorkerConfig (env : sealEnv) : M nat :=
  do! f <- open_file (sl_memfd env);
  defer (close_file f) (
    run! check (sl_encode env);
    run! check (sl_seal env);
    open_file (sl_reopen env)).

(** Opening and writing each control file; Go ranges over the budget in an
    unspecified order. *)
Record groupEnv := GroupEnv {
  ge_mkdir : option error;        (* other than EEXIST *)
  ge_open : option error;
  ge_events : option string;      (* cgroup.events *)
  ge_order : list (string * string);
  ge_open_control : string -> option error;
  ge_write : string * string -> option error
}.

Definition writeGroup (env : groupEnv) (kv : string * string) : M unit :=
  do! f <- open_file (ge_open_control env kv.1);
  defer (close_file f) (check (ge_write env kv)).

Fixpoint write_budget (env : groupEnv) (l : list (string * string)) : M unit :=
  match l with
  | [] => sret tt
  | kv :: l' => run! writeGroup env kv; write_budget env l'
  end.

Definition workerCgroup (env : groupEnv) : M nat :=
  run! check (ge_mkdir env);
  do! group <- open_file (ge_open env);
  defer_unless_ok (close_file group) (
    run! (if populated (ge_events env) then sfail (ErrNew "previous worker cgroup is still populated") else sret tt);
    run! write_budget env (ge_order env);
    sret group).

(** ** [controller.start] *)
Definition ready_line : string := "READY" +:+ String (char 10) "".

Definition ready_error (r : readiness) : option error :=
  match r with
  | ReadLine line None => if line <>? ready_line then Some (ErrNew "invalid worker readiness response") else None
  | ReadLine _ (Some e) => Some e
  | ReadyTimeout => Some (ErrNew "worker readiness timeout")
  | ReadyCanceled => Some ErrCanceled
  end.

Record startEnv := StartEnv {
  se_ip : command -> result string;
  se_attach : option error;
  se_ready_pipe : option error;
  se_config : sealEnv;
  se_lease_pipe : option error;
  se_exe : option error;
  se_dup : option error;
  se_group : groupEnv;
  se_spawn : option error;
  se_ready : readiness
}.

Definition close_now (h : nat) : M unit := fun s => (Ok tt, close_file h s).

(** Wait for the readiness line; on an error kill the worker and wait for it. *)
Definition await_ready (r : readiness) (p : nat) : M unit := fun s =>
  match ready_error r with
  | None => (Ok tt, s)
  | Some e => (Err e, reap p s)
  end.

Definition start (env : startEnv) (cg ns : nat) (key : string) : M instance :=
  run! slift (fst (setupNetwork (se_ip env) []));
  do! cap <- attach_capture (se_attach env) cg;
  defer_unless_ok (close_file cap) (
    do! readyR <- open_file (se_ready_pipe env);
    defer (close_file readyR) (
    do! readyW <- open_file None;
    defer (close_file readyW) (
    do! configR <- sealedWorkerConfig (se_config env);
    defer (close_file configR) (
    do! leaseR <- open_file (se_lease_pipe env);
    defer (close_file leaseR) (
    do! leaseW <- open_file None;
    defer_unless_ok (close_file leaseW) (
    run! check (se_exe env);
    do! mapFile <- open_file (se_dup env);
    defer (close_file mapFile) (
    do! resources <- workerCgroup (se_group env);
    defer_unless_ok (close_file resources) (
    do! p <- spawn (se_spawn env) cap [ns; mapFile; readyW; configR; leaseR; resources] (se_ready env);
    run! close_now readyW;
    run! close_now configR;
    run! close_now leaseR;
    run! await_ready (se_ready env) p;
    sret (Instance cap cg ns leaseW resources p key None))))))))).

(** ** [instance.close] and [expiredEmpty] *)

(** The worker is told to stop and killed after three seconds; either way it
    has ended before the capture is closed. *)
Definition instance_close (i : instance) (s : world) : world :=
  close_file (i_resources i) (close_file (i_netns i) (close_file (i_cgroup i) (close_file (i_capture i)
    (reap (i_process i) (close_file (i_lease i) s))))).

Definition expiredEmpty (i : instance) (events : option string) (now : Z) : bool * instance :=
  let set t := Instance (i_capture i) (i_cgroup i) (i_netns i) (i_lease i) (i_resources i) (i_process i) (i_key i) t in
  if populated events then (false, set None)
  else match i_emptySince i with
       | None => (false, set (Some now))
       | Some t => (30 * Second <=? now - t, i)
       end.

(** ** [saveState] *)
Record saveEnv := SaveEnv {
  sv_readlink : result string;
  sv_temp : option error; sv_encode : option error; sv_close : option error; sv_rename : option error
}.

Definition saved_json (cgroup key : string) : string :=
  marshal (JObj [("cgroup", JStr cgroup); ("key", JStr key)]) +:+ String (char 10) "".

Definition createTemp (o : option error) : M nat := fun s =>
  match open_file o s with
  | (Ok f, s') => (Ok f, set_temps s' ({[f]} ∪ temps s'))
  | r => r
  end.
Definition remove_temp (f : nat) (s : world) : world := set_temps s (temps s ∖ {[f]}).
Definition rename_state (o : option error) (f : nat) (content : string) : M unit := fun s =>
  match o with
  | Some e => (Err e, s)
  | None => (Ok tt, set_state_file (remove_temp f s) (Some content))
  end.

Definition saveState (env : saveEnv) (i : instance) : M unit :=
  do! path <- slift (sv_readlink env);
  do! f <- createTemp (sv_temp env);
  defer (remove_temp f) (
    run! defer (close_file f) (check (sv_encode env));
    run! check (sv_close env);
    rename_state (sv_rename env) f (saved_json (trimPrefix path "/sys/fs/cgroup") (i_key i))).

(** ** [prepare] *)
Record prepareEnv := PrepareEnv {
  pp_peer : peerEnv; pp_net : netEnv;
  pp_events : option string;      (* cgroup.events of the current instance *)
  pp_start : startEnv; pp_save : saveEnv
}.

Section controller.
(* the unit and the user of the workload *)
Variable c_unit : string.
Variable c_uid : Z.

(** What happens under the lock, and whether the instance took the handles. *)
Definition start_and_save (env : prepareEnv) (cg ns : nat) (key : string) (s : world) : result unit * bool * world :=
  match start (pp_start env) cg ns key s with
  | (Ok i, s1) =>
      match saveState (pp_save env) i (set_current s1 (Some i)) with
      | (Ok _, s2) => (Ok tt, true, s2)
      | (Err e, s2) => (Err e, true, set_current (instance_close i s2) None)
      | (Panic m, s2) => (Panic m, true, s2)
      end
  | (Err e, s1) => (Err e, false, s1)
  | (Panic m, s1) => (Panic m, false, s1)
  end.

Definition prepare_locked (env : prepareEnv) (cg ns : nat) (key : string) (s : world) : result unit * bool * world :=
  match current s with
  | None => start_and_save env cg ns key s
  | Some i =>
      if exited i s then start_and_save env cg ns key (set_current (instance_close i s) None)
      else if key =? i_key i then (Ok tt, false, s)
      else if populated (pp_events env)
      then (Err (ErrNew "workload already active in a different cgroup or network namespace"), false, s)
      else start_and_save env cg ns key (set_current (instance_close i s) None)
  end.

Definition wrong_uid (uid want : Z) : error :=
  ErrNew ("peer uid " +:+ itoa uid +:+ " is not configured uid " +:+ itoa want).

Definition prepare (env : prepareEnv) : M unit :=
  do! peer <- peerProcess (pp_peer env);
  defer (close_file peer.1) (
    run! (if peer.2 =? c_uid then sret tt else sfail (wrong_uid peer.2 c_uid));
    do! net <- processNetwork (pp_net env) c_unit;
    fun s =>
      let '(cg, ns, key) := net in
      let '(r, owned, s') := prepare_locked env cg ns key s in
      (r, if owned then s' else close_file ns (close_file cg s'))).

(** ** [recover] *)

(** One process of the saved cgroup. *)
Record pidEnv := PidEnv { pi_open : option error; pi_stat : result Z; pi_net : netEnv; pi_start : startEnv }.

Inductive dir_outcome := DirMissing | DirError (e : error) | DirOpened.

Record recoverEnv := RecoverEnv {
  rv_open : option error;           (* an existing state file *)
  rv_cgroup : dir_outcome;
  rv_remove : option error;         (* os.Remove of the state file *)
  rv_procs_open : option error; rv_procs : result string;
  rv_pid : string -> pidEnv
}.

Record savedState := SavedState { ss_Cgroup : string; ss_Key : string }.
Definition savedState_fields : list (field savedState) :=
  [mk_field "cgroup" ss_Cgroup (fun s x => SavedState x (ss_Key s)) dec_string;
   mk_field "key" ss_Key (fun s x => SavedState (ss_Cgroup s) x) dec_string].

(** [Decoder.Decode] of the first value of the stream. *)
Definition decode_state (content : string) : result savedState :=
  match parse (limitReader 8192 content) with
  | None => Err (ErrNew "json: syntax")
  | Some (v, _) =>
      match dec_struct false savedState_fields (SavedState "" "") v with
      | None => Err (ErrNew "json: cannot unmarshal")
      | Some s => Ok s
      end
  end.

Definition saved_cgroup_ok (cgroup : string) : bool :=
  negb ((cgroup =? "/") || negb (hasPrefix cgroup "/") || (clean cgroup <>? cgroup)).

(** [strings.Fields] on ASCII text. *)
Fixpoint fields_loop (cur : string) (s : string) : list string :=
  match s with
  | EmptyString => if cur =? "" then [] else [cur]
  | String c s' =>
      if is_space c then (if cur =? "" then fields_loop "" s' else cur :: fields_loop "" s')
      else fields_loop (cur +:+ String c "") s'
  end.
Definition strings_Fields (s : string) : list string := fields_loop "" s.

Definition remove_state (o : option error) : M unit := fun s =>
  match o with
  | Some e => (Err e, s)
  | None => (Ok tt, set_state_file s None)
  end.

Definition close_two (a b : nat) : M unit := fun s => (Ok tt, close_file b (close_file a s)).

(** The loop over the processes of the cgroup. *)
Fixpoint recover_loop (env : recoverEnv) (key : string) (pids : list string) : M unit :=
  match pids with
  | [] => sret tt
  | pid :: pids' =>
      match parseUint 32 pid with
      | None => recover_loop env key pids'
      | Some _ =>
          let e := rv_pid env pid in
          match pi_open e with
          | Some _ => recover_loop env key pids'
          | None =>
              do! proc <- open_file None;
              if match pi_stat e with Ok u => u <>? c_uid | _ => true end
              then run! close_now proc; recover_loop env key pids'
              else fun s =>
                match processNetwork (pi_net e) c_unit s with
                | (Ok (group, ns, k), s1) =>
                    (run! close_now proc;
                     if k <>? key then run! close_two group ns; recover_loop env key pids'
                     else fun s2 =>
                       match start (pi_start e) group ns k s2 with
                       | (Ok i, s3) => (Ok tt, set_current s3 (Some i))
                       | (Err err, s3) => (Err err, close_file ns (close_file group s3))
                       | (Panic m, s3) => (Panic m, s3)
                       end) s1
                | (_, s1) => (run! close_now proc; recover_loop env key pids') s1
                end
          end
      end
  end.

Definition recover (env : recoverEnv) : M unit := fun s =>
  match state_file s with
  | None => (Ok tt, s)
  | Some content =>
      (do! st <- read_file (rv_open env) (decode_state content);
       run! (if saved_cgroup_ok (ss_Cgroup st) then sret tt else sfail (ErrNew "invalid saved cgroup"));
       match rv_cgroup env with
       | DirMissing => remove_state (rv_remove env)
       | DirError e => sfail e
       | DirOpened =>
           do! cg <- open_file None;
           defer (close_file cg) (
             do! raw <- read_file (rv_procs_open env) (rv_procs env);
             recover_loop env (ss_Key st) (strings_Fields (limitReader (2 ^ 20) raw)))
       end) s
  end.

(** ** One round of [reconcile] *)
Record reconcileEnv := ReconcileEnv {
  rc_events : option string; rc_now : Z; rc_remove : option error; rc_recover : recoverEnv
}.

Definition reconcile_current (env : reconcileEnv) (s : world) : world :=
  match current s with
  | None => s
  | Some i =>
      if exited i s then set_current (instance_close i s) None
      else
        let '(expired, i') := expiredEmpty i (rc_events env) (rc_now env) in
        if expired
        then snd (remove_state (rc_remove env) (set_current (instance_close i' s) None))
        else set_current s (Some i')
  end.

(** The error of [recover] is logged. *)
Definition reconcile (env : reconcileEnv) (s : world) : world :=
  let s1 := reconcile_current env s in
  match current s1 with
  | None => snd (recover (rc_recover env) s1)
  | Some _ => s1
  end.

(** The end of [serve]. *)
Definition shutdown (s : world) : world :=
  match current s with
  | Some i => instance_close i s
  | None => s
  end.
End controller.

(** ** The state file *)
Lemma digits_plain s : all_chars is_digit s = true -> all_chars plain s = true.
Proof.
  apply all_chars_impl. intros c Hc. unfold is_digit, plain, in_range in *. bprop.
  rewrite !andb_true_iff, !negb_true_iff, !bool_decide_eq_false, !Z.leb_le. split_and!; lia.
Qed.

Lemma key_plain a b : (0 <= a)%Z -> (0 <= b)%Z -> all_chars plain (capture_key a b) = true.
Proof.
  intros Ha Hb. unfold capture_key. rewrite !all_chars_append.
  rewrite (digits_plain (itoa a)), (digits_plain (itoa b)) by (by apply itoa_digits). done.
Qed.

(** What the controller saves it reads back: for a cgroup path of plain
    characters and any two inode numbers, the decoder of the state file returns
    the path and the key that were encoded. *)
Theorem saved_state_roundtrip cgroup a b :
  all_chars plain cgroup = true -> (len cgroup <= 8000)%Z -> (0 <= a < 2 ^ 64)%Z -> (0 <= b < 2 ^ 64)%Z ->
  decode_state (saved_json cgroup (capture_key a b)) = Ok (SavedState cgroup (capture_key a b)).
Proof.
  intros Hc Hl Ha Hb. pose proof (key_plain a b ltac:(lia) ltac:(lia)) as Hk.
  unfold decode_state, saved_json. set (v := JObj _).
  assert (Hp : plainv v) by (cbn; split_and!; done).
  rewrite limitReader_all, parse_marshal_rest; [done|done|unfold v, maxNestingDepth; simpl; lia|done|].
  unfold v. cbn [marshal fmap list_fmap fst snd].
  rewrite (quote_plain cgroup), (quote_plain (capture_key a b)), (quote_plain "cgroup"), (quote_plain "key") by done.
  pose proof (len_itoa_le 20 a eq_refl ltac:(change (10 ^ 20)%Z with 100000000000000000000%Z; lia)).
  pose proof (len_itoa_le 20 b eq_refl ltac:(change (10 ^ 20)%Z with 100000000000000000000%Z; lia)).
  unfold capture_key. cbn [join]. repeat (rewrite len_append || rewrite len_cons). change (len "") with 0%Z. lia.
Qed.

Module ControllerExamples.
Lemma saved_state_roundtrip_witness :
  decode_state (saved_json "/system.slice/matrix-synapse.service" (capture_key 100 200)) =
    Ok (SavedState "/system.slice/matrix-synapse.service" "100:200").
Proof.
  rewrite (saved_state_roundtrip "/system.slice/matrix-synapse.service" 100 200); [vm_compute; reflexivity|..].
  - vm_compute. reflexivity.
  - vm_compute. discriminate.
  - split; [discriminate|reflexivity].
  - split; [discriminate|reflexivity].
Defined.
End ControllerExamples.
