(* ===== verification/AgentOwnership.v ===== *)
(** * realm-agent: ownership of handles and workers

    A small program logic for the controller: [acquires R E m Post] says that
    [m] leaves every handle it does not hand out closed, starts workers only on
    captures in [R] or handed out, and closes nothing of the caller's but
    handles in [E].  With it the controller is shown to leak nothing, and to
    recover a worker only for an attributed process. *)

From S2P Require Import Prelude GoStrings Json AgentConfig AgentWorker AgentNetwork AgentCgroup AgentController.

From Stdlib Require Import Sorting.Sorted.

Open Scope nat_scope.
Open Scope go_scope.

(** ** Well-formed states *)
Record wf (s : world) : Prop := {
  wf_open : forall h, h ∈ opened s -> h < next s;
  wf_dom : forall p c, procs s !! p = Some c -> p < next s;
  wf_range : forall p c, procs s !! p = Some c -> c ∈ opened s;
  wf_ok : orphaned s = false
}.

(** What an action that only opens, closes and spawns leaves alone. *)
Definition frame (s s' : world) : Prop :=
  next s <= next s' /\ state_file s' = state_file s /\ temps s' = temps s /\ current s' = current s.

Definition ready (R E : gset nat) (s : world) : Prop :=
  wf s /\ R ⊆ opened s /\ (forall h, h ∈ E -> h < next s) /\ E ## R /\
  forall p c, procs s !! p = Some c -> c ∉ E.

Definition outcome (R E : gset nat) (s s' : world) (own : gset nat) (run : gmap nat nat) : Prop :=
  wf s' /\ frame s s' /\ (forall h, h ∈ own -> next s <= h) /\ own ⊆ opened s' /\
  opened s' ⊆ own ∪ opened s /\ opened s ⊆ opened s' ∪ E /\ procs s' = run ∪ procs s /\
  forall p c, run !! p = Some c -> next s <= p /\ c ∈ R ∪ own.

Definition acquires {A} (R E : gset nat) (m : M A) (Post : A -> gset nat -> gmap nat nat -> Prop) : Prop :=
  forall s r s', ready R E s -> m s = (r, s') ->
    exists own run, match r with Ok a => Post a own run | _ => own = ∅ /\ run = ∅ end /\ outcome R E s s' own run.

(** Nothing handed out; one handle handed out. *)
Definition nothing {A} (Q : A -> Prop) (a : A) (own : gset nat) (run : gmap nat nat) : Prop :=
  own = ∅ /\ run = ∅ /\ Q a.
Definition handle (h : nat) (own : gset nat) (run : gmap nat nat) : Prop := own = {[h]} /\ run = ∅.

Lemma outcome_refl R E s : ready R E s -> outcome R E s s ∅ ∅.
Proof.
  intros (Hw & _). split; [done|]. split; [by split_and!|]. split_and!; try set_solver.
  by rewrite (left_id_L ∅ (∪)).
Qed.

Lemma acq_lift {A} R E (r : result A) Post : (forall a, r = Ok a -> Post a ∅ ∅) -> acquires R E (slift r) Post.
Proof.
  intros H s r' s' Hr [= <- <-]. exists ∅, ∅. split; [destruct r; auto|by apply outcome_refl].
Qed.

Lemma acq_ret {A} R E (a : A) Post : Post a ∅ ∅ -> acquires R E (sret a) Post.
Proof. intros H. apply (acq_lift R E (Ok a)). by intros ? [= <-]. Qed.

Lemma acq_fail {A} R E e (Post : A -> _) : acquires R E (sfail e) Post.
Proof. by apply (acq_lift R E (Err e)). Qed.

Lemma acq_check R E o : acquires R E (check o) (nothing (fun _ => True)).
Proof. destruct o; [apply acq_fail|by apply acq_ret]. Qed.

Lemma acq_weaken {A} R E (m : M A) (P Q : A -> gset nat -> gmap nat nat -> Prop) :
  acquires R E m P -> (forall a own run, P a own run -> Q a own run) -> acquires R E m Q.
Proof.
  intros Hm HPQ s r s' Hr H. destruct (Hm s r s' Hr H) as (own & run & Hp & Ho). exists own, run.
  split; [destruct r; auto|done].
Qed.

Lemma acq_open_as R E f o : acquires R E (open_as f o) handle.
Proof.
  intros s r s' Hr H. unfold open_as in H. destruct o; injection H as <- <-.
  { exists ∅, ∅. split; [done|by apply outcome_refl]. }
  exists {[next s]}, ∅. split; [done|]. destruct Hr as (Hw & _). destruct Hw as [Wo Wd Wr Wk]. split.
  { constructor; simpl; try done.
    - intros h Hh. apply elem_of_union in Hh as [Hh%elem_of_singleton|Hh]; [lia|]. specialize (Wo h Hh). lia.
    - intros p c Hp. specialize (Wd p c Hp). lia.
    - intros p c Hp. specialize (Wr p c Hp). set_solver. }
  split; [split_and!; simpl; try done; lia|]. simpl.
  split; [intros h Hh%elem_of_singleton; lia|]. split; [set_solver|]. split; [set_solver|]. split; [set_solver|].
  split; [by rewrite (left_id_L ∅ (∪))|]. intros p c Hp. by rewrite lookup_empty in Hp.
Qed.

Lemma acq_open R E o : acquires R E (open_file o) handle.
Proof. apply acq_open_as. Qed.

(** After an action that hands out nothing, the next one starts as ready. *)
Lemma outcome_ready R E s s' : ready R E s -> outcome R E s s' ∅ ∅ -> ready R E s'.
Proof.
  intros (Hw & HR & HE & HER & Hp) (Hw' & (Hn & _) & _ & _ & Hsub & Hsup & Hpr & _).
  rewrite (left_id_L ∅ (∪)) in Hpr. split; [done|]. split; [set_solver|]. split.
  { intros h Hh. specialize (HE h Hh). lia. }
  split; [done|]. by rewrite Hpr.
Qed.

Lemma held_frame_trans s1 s2 s3 : frame s1 s2 -> frame s2 s3 -> frame s1 s3.
Proof. intros (? & ? & ? & ?) (? & ? & ? & ?). split_and!; [lia|congruence..]. Qed.

Lemma outcome_trans R E s1 s2 s3 own run :
  outcome R E s1 s2 ∅ ∅ -> outcome R E s2 s3 own run -> outcome R E s1 s3 own run.
Proof.
  intros (_ & Hf & _ & _ & Hsub & Hsup & Hp & _) (Hw & Hf' & Ho & Hin & Hsub' & Hsup' & Hp' & Hrun).
  rewrite (left_id_L ∅ (∪)) in Hp. pose proof (proj1 Hf) as Hn.
  split; [done|]. split; [by eapply held_frame_trans|]. split.
  { intros h Hh. specialize (Ho h Hh). lia. }
  split; [done|]. split; [set_solver|]. split; [set_solver|]. split; [by rewrite Hp', Hp|].
  intros p c Hpc. destruct (Hrun p c Hpc). split; [lia|done].
Qed.

Lemma acq_bind {A B} R E (m : M A) (k : A -> M B) Q Post :
  acquires R E m (nothing Q) -> (forall a, Q a -> acquires R E (k a) Post) -> acquires R E (sbind m k) Post.
Proof.
  intros Hm Hk s r s' Hr H. unfold sbind in H. destruct (m s) as [[a|e|p] s1] eqn:Em.
  - destruct (Hm s _ s1 Hr Em) as (own & run & (-> & -> & Ha) & Ho).
    destruct (Hk a Ha s1 r s' (outcome_ready _ _ _ _ Hr Ho) H) as (own' & run' & Hp & Ho').
    exists own', run'. split; [done|by eapply outcome_trans].
  - injection H as <- <-. destruct (Hm s _ s1 Hr Em) as (own & run & (-> & ->) & Ho). by exists ∅, ∅.
  - injection H as <- <-. destruct (Hm s _ s1 Hr Em) as (own & run & (-> & ->) & Ho). by exists ∅, ∅.
Qed.

Lemma map_union_cases {A} (a b : gmap nat A) p c : (a ∪ b) !! p = Some c -> a !! p = Some c \/ b !! p = Some c.
Proof. rewrite lookup_union_Some_raw. tauto. Qed.

(** Closing a handle no worker depends on. *)
Lemma close_file_wf h s : wf s -> (forall p c, procs s !! p = Some c -> c <> h) -> wf (close_file h s).
Proof.
  intros [Wo Wd Wr Wk] Hp. constructor; simpl; try done.
  - intros x Hx. apply Wo. set_solver.
  - intros p c Hpc. specialize (Wr p c Hpc). specialize (Hp p c Hpc). set_solver.
  - rewrite Wk. simpl. apply bool_decide_eq_false. intros (p & c & Hpc & ->). by apply (Hp p h).
Qed.

(** The handle an acquirer hands out is fresh and open. *)
Lemma handle_facts R E s s1 h : ready R E s -> outcome R E s s1 {[h]} ∅ ->
  next s <= h < next s1 /\ h ∈ opened s1 /\ h ∉ opened s /\ h ∉ R /\ h ∉ E /\ procs s1 = procs s /\
  opened s1 ⊆ {[h]} ∪ opened s /\ opened s ⊆ opened s1 ∪ E /\ wf s1 /\ frame s s1.
Proof.
  intros (Hw & HR & HE & HER & Hp) (Hw' & Hf & Ho & Hin & Hsub & Hsup & Hpr & _).
  assert (Hh : h ∈ opened s1) by set_solver +Hin. pose proof (wf_open _ Hw' h Hh).
  assert (next s <= h) by (apply Ho; set_solver +).
  assert (Hns : h ∉ opened s) by (intros Hx; pose proof (wf_open _ Hw h Hx); lia).
  rewrite (left_id_L ∅ (∪)) in Hpr. split_and!; try done.
  - set_solver +HR Hns.
  - intros Hx. specialize (HE h Hx). lia.
Qed.

(** Acquire, use, and close on the way out. *)
Lemma acq_with {B} R E (m : M nat) (k : nat -> M B) Post :
  acquires R E m handle -> (forall h, acquires R ({[h]} ∪ E) (k h) Post) ->
  acquires R E (do! h <- m; defer (close_file h) (k h)) Post.
Proof.
  intros Hm Hk s r s' Hr H. unfold sbind in H. destruct (m s) as [[h|e|p] s1] eqn:Em.
  2,3: injection H as <- <-; destruct (Hm s _ s1 Hr Em) as (own & run & (-> & ->) & Ho); by exists ∅, ∅.
  destruct (Hm s _ s1 Hr Em) as (own & run & (-> & ->) & Ho).
  destruct (handle_facts R E s s1 h Hr Ho) as (Hn & Hh & Hns & HhR & HhE & Hp1 & Hsub1 & Hsup1 & Hw1 & Hf1).
  destruct Hr as (Hw & HR & HE & HER & Hp).
  assert (Hr1 : ready R ({[h]} ∪ E) s1).
  { split; [done|]. split; [set_solver +HR Hsup1 HER|]. split.
    { intros x Hx. apply elem_of_union in Hx as [->%elem_of_singleton|Hx]; [lia|]. specialize (HE x Hx). lia. }
    split; [set_solver +HER HhR|]. rewrite Hp1. intros p c Hpc. specialize (Hp p c Hpc).
    pose proof (wf_range _ Hw p c Hpc) as Hc. set_solver +Hp Hc Hns. }
  unfold defer in H. destruct (k h s1) as [r2 s2] eqn:Ek. injection H as <- <-.
  destruct (Hk h s1 _ s2 Hr1 Ek) as (own & run & Hpost & (Hw2 & Hf2 & Ho2 & Hin2 & Hsub2 & Hsup2 & Hp2 & Hrun2)).
  assert (Hhown : h ∉ own) by (intros Hx; specialize (Ho2 h Hx); lia).
  exists own, run. split; [done|]. split.
  { apply close_file_wf; [done|]. rewrite Hp2, Hp1. intros p c Hpc. apply map_union_cases in Hpc as [Hpc|Hpc].
    - destruct (Hrun2 p c Hpc) as [_ Hc]. set_solver +Hc HhR Hhown.
    - pose proof (wf_range _ Hw p c Hpc) as Hc. set_solver +Hc Hns. }
  split; [by eapply held_frame_trans|]. cbn [opened procs close_file next].
  split; [intros x Hx; specialize (Ho2 x Hx); lia|]. split; [set_solver +Hin2 Hhown|].
  split; [set_solver +Hsub1 Hsub2|]. split; [set_solver +Hsup1 Hsup2 Hns|].
  split; [by rewrite Hp2, Hp1|]. intros p c Hpc. destruct (Hrun2 p c Hpc). split; [lia|done].
Qed.

(** The failing exit of the next rule. *)
Lemma keep_failed R E s s1 s2 h own run :
  wf s -> frame s s1 -> frame s1 s2 -> procs s1 = procs s -> h ∉ opened s -> h ∉ E -> 
  opened s1 ⊆ {[h]} ∪ opened s -> opened s ⊆ opened s1 ∪ E -> wf s2 ->
  opened s2 ⊆ own ∪ opened s1 -> opened s1 ⊆ opened s2 ∪ E -> procs s2 = run ∪ procs s1 ->
  own = ∅ /\ run = ∅ ->
  exists own' run', (own' = ∅ /\ run' = ∅) /\ outcome R E s (close_file h s2) own' run'.
Proof.
  intros Hw Hf1 Hf2 Hp1 Hns HhE Hsub1 Hsup1 Hw2 Hsub2 Hsup2 Hp2 [-> ->].
  rewrite (left_id_L ∅ (∪)) in Hp2. exists ∅, ∅. split; [done|]. split.
  { apply close_file_wf; [done|]. rewrite Hp2, Hp1. intros p c Hpc. pose proof (wf_range _ Hw p c Hpc) as Hc. set_solver +Hc Hns. }
  split; [by eapply held_frame_trans|]. cbn [opened procs close_file next].
  split; [set_solver +|]. split; [set_solver +|]. split; [set_solver +Hsub1 Hsub2|].
  split; [set_solver +Hsup1 Hsup2 Hns|].
  split; [by rewrite (left_id_L ∅ (∪)), Hp2, Hp1|]. intros p c Hpc. by rewrite lookup_empty in Hpc.
Qed.

(** Acquire and keep on success, close on failure. *)
Lemma acq_keep {B} R E (m : M nat) (k : nat -> M B) (PostH : nat -> B -> gset nat -> gmap nat nat -> Prop) Post :
  acquires R E m handle -> (forall h, acquires ({[h]} ∪ R) E (k h) (PostH h)) ->
  (forall h b own run, PostH h b own run -> h ∉ own -> Post b ({[h]} ∪ own) run) ->
  acquires R E (do! h <- m; defer_unless_ok (close_file h) (k h)) Post.
Proof.
  intros Hm Hk HPost s r s' Hr H. unfold sbind in H. destruct (m s) as [[h|e|p] s1] eqn:Em.
  2,3: injection H as <- <-; destruct (Hm s _ s1 Hr Em) as (own & run & (-> & ->) & Ho); by exists ∅, ∅.
  destruct (Hm s _ s1 Hr Em) as (own & run & (-> & ->) & Ho).
  destruct (handle_facts R E s s1 h Hr Ho) as (Hn & Hh & Hns & HhR & HhE & Hp1 & Hsub1 & Hsup1 & Hw1 & Hf1).
  destruct Hr as (Hw & HR & HE & HER & Hp).
  assert (Hr1 : ready ({[h]} ∪ R) E s1).
  { split; [done|]. split; [set_solver +HR Hsup1 HER Hh|]. split; [intros x Hx; specialize (HE x Hx); lia|].
    split; [set_solver +HER HhE|]. by rewrite Hp1. }
  unfold defer_unless_ok in H. destruct (k h s1) as [r2 s2] eqn:Ek. injection H as <- <-.
  destruct (Hk h s1 _ s2 Hr1 Ek) as (own & run & Hpost & (Hw2 & Hf2 & Ho2 & Hin2 & Hsub2 & Hsup2 & Hp2 & Hrun2)).
  assert (Hhown : h ∉ own) by (intros Hx; specialize (Ho2 h Hx); lia).
  assert (Hh2 : h ∈ opened s2) by set_solver +Hh Hsup2 HhE.
  destruct r2 as [b|e|m2].
  - exists ({[h]} ∪ own), run. split; [by apply HPost|]. split; [done|]. split; [by eapply held_frame_trans|].
    split. { intros x Hx. apply elem_of_union in Hx as [->%elem_of_singleton|Hx]; [lia|]. specialize (Ho2 x Hx). lia. }
    split; [set_solver +Hin2 Hh2|]. split; [set_solver +Hsub1 Hsub2|]. split; [set_solver +Hsup1 Hsup2|].
    split; [by rewrite Hp2, Hp1|].
    intros p c Hpc. destruct (Hrun2 p c Hpc) as [? Hc]. split; [lia|set_solver +Hc].
  - by apply (keep_failed R E s s1 s2 h own run).
  - by apply (keep_failed R E s s1 s2 h own run).
Qed.

(** ** The operations that only acquire *)
Lemma acq_read_file {A} R E o (r : result A) : acquires R E (read_file o r) (nothing (fun a => r = Ok a)).
Proof. apply acq_with; [apply acq_open|]. intros h. by apply acq_lift. Qed.

Lemma acq_guard R E (b : bool) e : acquires R E (if b then sfail e else sret tt) (nothing (fun _ : unit => b = false)).
Proof. destruct b; [apply acq_fail|by apply acq_ret]. Qed.

Lemma acq_guard' R E (b : bool) e : acquires R E (if b then sret tt else sfail e) (nothing (fun _ : unit => b = true)).
Proof. destruct b; [by apply acq_ret|apply acq_fail]. Qed.

Lemma union_nil (h : nat) : {[h]} ∪ ∅ =@{gset nat} {[h]}.
Proof. apply (right_id_L ∅ (∪)). Qed.

(** Return the handle that is being kept. *)
Lemma acq_keep_ret {B} R E (m : M nat) (k : nat -> M B) (Q : nat -> B -> Prop)
    (Post : B -> gset nat -> gmap nat nat -> Prop) :
  acquires R E m handle ->
  (forall h, acquires ({[h]} ∪ R) E (k h) (nothing (Q h))) ->
  (forall h b, Q h b -> Post b {[h]} ∅) ->
  acquires R E (do! h <- m; defer_unless_ok (close_file h) (k h)) Post.
Proof.
  intros Hm Hk HP. apply (acq_keep R E m k (fun h => nothing (Q h))); [done|done|].
  intros h b own run (-> & -> & Hq) _. rewrite union_nil. auto.
Qed.

Lemma acq_peerProcess R E env :
  acquires R E (peerProcess env) (fun x own run => handle x.1 own run /\ x.2 = pe_uid env).
Proof.
  unfold peerProcess. do 3 (eapply acq_bind; [apply acq_check|intros [] _]).
  apply acq_with; [apply acq_open|]. intros pidfd. eapply acq_bind; [apply acq_check|intros [] _].
  apply (acq_keep_ret _ _ _ _ (fun h x => x = (h, pe_uid env))); [apply acq_open| |by intros h x ->].
  intros f. eapply acq_bind; [apply acq_check|intros [] _]. by apply acq_ret.
Qed.

(** What a successful [processNetwork] has established. *)
Record attested (env : netEnv) (unit key : string) : Prop := {
  at_cgroup : exists raw path, ne_read env = Ok raw /\
    workloadCgroup (unified_path (limitReader 8192 raw)) unit = Ok path;
  at_key : exists cg ns host, ne_stat_cg env = Ok cg /\ ne_stat_ns env = Ok ns /\ ne_stat_host env = Ok host /\
    host <> ns /\ key = capture_key cg ns
}.

Lemma acq_processNetwork R E env unit :
  acquires R E (processNetwork env unit)
    (fun '(cg, ns, key) own run => own = {[cg]} ∪ {[ns]} /\ run = ∅ /\ cg <> ns /\ attested env unit key).
Proof.
  unfold processNetwork. eapply acq_bind; [apply acq_read_file|]. intros raw Hraw.
  eapply acq_bind; [apply (acq_lift _ _ _ (nothing (fun p => workloadCgroup (unified_path (limitReader 8192 raw)) unit = Ok p)));
    by intros p Hp|]. intros path Hpath.
  apply (acq_keep _ _ _ _ (fun cg x own run => x.1.1 = cg /\ own = {[x.1.2]} /\ run = ∅ /\ attested env unit x.2)).
  { apply acq_open_as. }
  2: { intros cg [[c ns] key] own run (<- & -> & -> & Ha) Hne. split_and!; try done. cbn in *. set_solver. }
  intros cg.
  apply (acq_keep_ret _ _ _ _ (fun ns x => x.1.1 = cg /\ x.1.2 = ns /\ attested env unit x.2)); [apply acq_open_as| |].
  2: { intros ns [[c n] key] (<- & <- & Ha). done. }
  intros ns. eapply acq_bind; [apply (acq_lift _ _ _ (nothing (fun a => ne_stat_cg env = Ok a))); by intros a Ha|].
  intros a Ha. eapply acq_bind; [apply (acq_lift _ _ _ (nothing (fun b => ne_stat_ns env = Ok b))); by intros b Hb|].
  intros b Hb. eapply acq_bind; [apply acq_read_file|]. intros same [= Hsame].
  eapply acq_bind; [apply acq_guard|]. intros [] ->. apply acq_ret. split_and!; try done. cbn. split.
  - by exists raw, path.
  - destruct (ne_stat_host env) as [h|e|m] eqn:Eh; try discriminate Hsame. bprop. by exists a, b, h.
Qed.

Lemma acq_sealed R E env : acquires R E (sealedWorkerConfig env) handle.
Proof.
  unfold sealedWorkerConfig. apply acq_with; [apply acq_open|]. intros f.
  do 2 (eapply acq_bind; [apply acq_check|intros [] _]). apply acq_open.
Qed.

Lemma acq_write_budget R E env l : acquires R E (write_budget env l) (nothing (fun _ => True)).
Proof.
  induction l as [|kv l IH]; cbn [write_budget]; [by apply acq_ret|].
  eapply acq_bind; [|intros [] _; exact IH]. unfold writeGroup.
  apply acq_with; [apply acq_open|]. intros f. apply acq_check.
Qed.

Lemma acq_workerCgroup R E env : acquires R E (workerCgroup env) handle.
Proof.
  unfold workerCgroup. eapply acq_bind; [apply acq_check|intros [] _].
  apply (acq_keep_ret _ _ _ _ (fun h g => g = h)); [apply acq_open| |by intros h g ->].
  intros g. eapply acq_bind; [apply acq_guard|intros [] _].
  eapply acq_bind; [apply acq_write_budget|intros [] _]. by apply acq_ret.
Qed.

(** Spawn the worker, close its ends of the pipes, wait for it. *)
Lemma acq_spawn R E o cap files report a b c ready (i : nat -> instance) :
  cap ∈ R -> a ∈ E -> b ∈ E -> c ∈ E ->
  acquires R E
    (do! p <- spawn o cap files report; run! close_now a; run! close_now b; run! close_now c; run! await_ready ready p; sret (i p))
    (fun x own run => own = ∅ /\ exists p, x = i p /\ run = {[p := cap]} /\ ready_error ready = None).
Proof.
  intros Hcap Ha Hb Hc s r s' Hr H. pose proof Hr as (Hw & HR & HE & HER & Hp).
  unfold sbind, spawn in H. destruct o as [e|]; [injection H as <- <-; exists ∅, ∅; split; [done|by apply outcome_refl]|].
  unfold close_now in H. unfold await_ready in H.
  match type of H with context [reap _ ?t] => set (s1 := t) in H end.
  assert (Hfresh : procs s !! next s = None).
  { destruct (procs s !! next s) as [x|] eqn:Ex; [|done]. pose proof (wf_dom _ Hw _ _ Ex). lia. }
  assert (Hw1 : wf s1).
  { unfold s1. repeat apply close_file_wf; cbn [procs close_file].
    2-4: intros p x Hx; apply lookup_insert_Some in Hx as [[<- <-]|[_ Hx]];
      [intros Heq; apply (HER cap); [rewrite Heq; assumption|done]|intros ->; by apply (Hp p _ Hx)].
    destruct Hw as [Wo Wd Wr Wk]. constructor; cbn; try done.
    - intros h Hh. specialize (Wo h Hh). lia.
    - intros p x Hx. apply lookup_insert_Some in Hx as [[<- _]|[_ Hx]]; [lia|]. specialize (Wd p x Hx). lia.
    - intros p x Hx. apply lookup_insert_Some in Hx as [[_ <-]|[_ Hx]]; [set_solver +HR Hcap|by eapply Wr]. }
  assert (Hsub : opened s1 ⊆ opened s) by (unfold s1; cbn; set_solver +).
  assert (Hsup : opened s ⊆ opened s1 ∪ E).
  { intros x Hx. apply elem_of_union. destruct (decide (x ∈ E)) as [|Hn]; [by right|left]. unfold s1. cbn.
    rewrite !elem_of_difference, !elem_of_singleton. split_and!; try done; intros ->; done. }
  assert (Hf : frame s s1) by (unfold s1; split_and!; cbn; try done; lia).
  assert (Hp1 : procs s1 = {[next s := cap]} ∪ procs s) by (unfold s1; cbn; by rewrite insert_union_singleton_l).
  clearbody s1. destruct (ready_error ready) as [e|] eqn:Er; injection H as <- <-.
  - exists ∅, ∅. split; [done|]. destruct Hw1 as [Wo Wd Wr Wk].
    assert (Hd : delete (next s) (procs s1) = procs s).
    { rewrite Hp1, <- insert_union_singleton_l. by rewrite delete_insert_id. }
    split; [constructor; cbn; try done; rewrite ?Hd|].
    + intros p x Hx. eapply (Wd p x). by rewrite Hp1, lookup_union_r by (apply lookup_singleton_None; congruence).
    + intros p x Hx. eapply (Wr p x). rewrite Hp1, lookup_union_r; [done|]. apply lookup_singleton_None. congruence.
    + split; [exact Hf|]. cbn [opened reap procs]. split; [set_solver +|]. split; [set_solver +|].
      split; [set_solver +Hsub|]. split; [done|]. split; [by rewrite (left_id_L ∅ (∪))|].
      intros p x Hx. by rewrite lookup_empty in Hx.
  - exists ∅, {[next s := cap]}. split; [split; [done|]; by exists (next s)|].
    split; [done|]. split; [done|]. split; [set_solver +|]. split; [set_solver +|]. split; [set_solver +Hsub|].
    split; [done|]. split; [done|]. intros p x Hx. apply lookup_singleton_Some in Hx as [<- <-].
    split; [lia|set_solver +Hcap].
Qed.

(** The handles a worker instance brings with it, besides the two it is given. *)
Definition started (env : startEnv) (cg ns : nat) (key : string) (i : instance) (own : gset nat) (run : gmap nat nat) : Prop :=
  own = {[i_capture i]} ∪ ({[i_lease i]} ∪ {[i_resources i]}) /\ run = {[i_process i := i_capture i]} /\
  i_cgroup i = cg /\ i_netns i = ns /\ i_key i = key /\ i_emptySince i = None /\ i_lease i <> i_capture i /\
  ready_error (se_ready env) = None /\ fst (setupNetwork (se_ip env) []) = Ok tt.

Lemma acq_start R E env cg ns key : acquires R E (start env cg ns key) (started env cg ns key).
Proof.
  unfold start.
  eapply acq_bind; [apply (acq_lift _ _ _ (nothing (fun _ => fst (setupNetwork (se_ip env) []) = Ok tt))); by intros [] H|].
  intros [] Hsetup.
  apply (acq_keep _ _ _ _ (fun cap i own run => own = {[i_lease i]} ∪ {[i_resources i]} /\
    exists p, i = Instance cap cg ns (i_lease i) (i_resources i) p key None /\ run = {[p := cap]} /\
      ready_error (se_ready env) = None)).
  { apply acq_open_as. }
  2: { intros cap i own run (-> & p & Hi & -> & Hready) Hcap. rewrite Hi. cbn. rewrite Hi in Hcap. cbn in Hcap.
       split_and!; try done. set_solver. }
  intros cap. apply acq_with; [apply acq_open|]. intros readyR.
  apply acq_with; [apply acq_open|]. intros readyW. apply acq_with; [apply acq_sealed|]. intros configR.
  apply acq_with; [apply acq_open|]. intros leaseR.
  apply (acq_keep _ _ _ _ (fun lw i own run => own = {[i_resources i]} /\
    exists p, i = Instance cap cg ns lw (i_resources i) p key None /\ run = {[p := cap]} /\
      ready_error (se_ready env) = None)).
  { apply acq_open. }
  2: { intros lw i own run (-> & p & Hi & -> & Hready) Hlw. rewrite Hi. split; [done|]. exists p. done. }
  intros leaseW. eapply acq_bind; [apply acq_check|intros [] _]. apply acq_with; [apply acq_open|]. intros mapFile.
  apply (acq_keep _ _ _ _ (fun rs i own run => own = ∅ /\
    exists p, i = Instance cap cg ns leaseW rs p key None /\ run = {[p := cap]} /\
      ready_error (se_ready env) = None)).
  { apply acq_workerCgroup. }
  2: { intros rs i own run (-> & p & -> & -> & Hready) _. rewrite union_nil. split; [done|]. by exists p. }
  intros resources.
  apply (acq_spawn _ _ _ _ _ _ _ _ _ _ (fun p => Instance cap cg ns leaseW resources p key None)); set_solver +.
Qed.

(** ** The controller's invariant *)
Definition handles (i : instance) : gset nat :=
  {[i_capture i]} ∪ ({[i_lease i]} ∪ {[i_resources i]}) ∪ ({[i_cgroup i]} ∪ {[i_netns i]}).

(** Besides the handles in [base] exactly those of the current instance are
    open, its worker is the only one, and it has its capture. *)
Definition inv (base : gset nat) (s : world) : Prop :=
  wf s /\ temps s = ∅ /\
  match current s with
  | None => opened s = base /\ procs s = ∅
  | Some i => opened s = handles i ∪ base /\ handles i ## base /\ i_lease i <> i_capture i /\
      (procs s = ∅ \/ procs s = {[i_process i := i_capture i]})
  end.

Lemma capture_apart i base h : handles i ## base -> h ∈ base -> i_capture i <> h.
Proof. intros Hd Hh <-. apply (Hd (i_capture i)); [unfold handles; set_solver +|done]. Qed.

Lemma inv_ready base s : inv base s -> ready ∅ ∅ s.
Proof. intros [Hw _]. split; [done|]. split_and!; set_solver +. Qed.

(** Handles acquired by an action join the base. *)
Lemma inv_acquire base s s' own : inv base s -> outcome ∅ ∅ s s' own ∅ -> inv (own ∪ base) s' /\ own ## opened s.
Proof.
  intros (Hw & Ht & Hc) (Hw' & (_ & _ & Ht' & Hc') & Ho & Hin & Hsub & Hsup & Hp & _).
  rewrite (left_id_L ∅ (∪)) in Hp.
  assert (Hd : own ## opened s).
  { intros x Hx Hx'. specialize (Ho x Hx). pose proof (wf_open _ Hw x Hx'). lia. }
  assert (Heq : opened s' = own ∪ opened s) by set_solver +Hin Hsub Hsup.
  split; [|done]. split; [done|]. split; [congruence|]. rewrite Hc', Hp, Heq.
  destruct (current s) as [i|]; [|set_solver +Hc].
  destruct Hc as (Hop & Hdis & Hne & Hpr). rewrite Hop. split_and!; try done; [set_solver +|set_solver +Hd Hop Hdis].
Qed.

(** Closing a handle of the base. *)
Lemma inv_close base h s : inv ({[h]} ∪ base) s -> h ∉ base -> inv base (close_file h s).
Proof.
  intros (Hw & Ht & Hc) Hh. split.
  - apply close_file_wf; [done|]. intros p c Hpc. destruct (current s) as [i|].
    + destruct Hc as (_ & Hd & _ & [Hp|Hp]); rewrite Hp in Hpc; [by rewrite lookup_empty in Hpc|].
      apply lookup_singleton_Some in Hpc as [_ <-]. unfold handles in Hd. set_solver +Hd.
    + destruct Hc as [_ Hp]. rewrite Hp in Hpc. by rewrite lookup_empty in Hpc.
  - cbn. split; [done|]. destruct (current s) as [i|].
    + destruct Hc as (Hop & Hd & Hne & Hp). rewrite Hop. assert (Hn : h ∉ handles i) by (intros Hx; apply (Hd h Hx); set_solver +).
      apply disjoint_union_r in Hd as [_ Hd]. split_and!; try done. set_solver +Hn Hh.
    + destruct Hc as [Hop Hp]. rewrite Hop. split; [set_solver +Hh|done].
Qed.

Lemma instance_close_fields i s :
  opened (instance_close i s) = opened s ∖ handles i /\ procs (instance_close i s) = delete (i_process i) (procs s) /\
  next (instance_close i s) = next s /\ temps (instance_close i s) = temps s /\
  state_file (instance_close i s) = state_file s.
Proof. split; [|done]. unfold instance_close, handles. cbn. set_solver +. Qed.

Lemma no_procs_wf h s : wf s -> procs s = ∅ -> wf (close_file h s).
Proof. intros Hw Hp. apply close_file_wf; [done|]. intros p c Hpc. rewrite Hp in Hpc. by rewrite lookup_empty in Hpc. Qed.

Lemma instance_close_wf i s : wf s -> i_lease i <> i_capture i ->
  procs s = ∅ \/ procs s = {[i_process i := i_capture i]} ->
  wf (instance_close i s) /\ procs (instance_close i s) = ∅.
Proof.
  intros Hw Hne Hp. unfold instance_close. set (s1 := close_file (i_lease i) s).
  assert (Hw1 : wf s1).
  { apply close_file_wf; [done|]. intros p c Hpc. destruct Hp as [Hp|Hp]; rewrite Hp in Hpc.
    - by rewrite lookup_empty in Hpc.
    - apply lookup_singleton_Some in Hpc as [_ <-]. congruence. }
  assert (Hp2 : procs (reap (i_process i) s1) = ∅).
  { cbn. destruct Hp as [->| ->]; [apply delete_empty|apply delete_singleton_eq]. }
  assert (Hw2 : wf (reap (i_process i) s1)).
  { destruct Hw1 as [Wo Wd Wr Wk]. constructor; try done; rewrite Hp2; intros p c Hpc; by rewrite lookup_empty in Hpc. }
  split; [|done]. by repeat apply no_procs_wf.
Qed.

Lemma inv_instance_close base i s : inv base s -> current s = Some i ->
  inv base (set_current (instance_close i s) None).
Proof.
  intros (Hw & Ht & Hc) Hi. rewrite Hi in Hc. destruct Hc as (Hop & Hd & Hne & Hp).
  destruct (instance_close_wf i s Hw Hne Hp) as [[Wo Wd Wr Wk] Hp'].
  destruct (instance_close_fields i s) as (Ho & _ & _ & Ht' & _).
  split; [by constructor|]. split; [by cbn [temps set_current]; rewrite Ht'|]. cbn [current set_current opened procs].
  rewrite Ho, Hop. split; [|done]. set_solver +Hd.
Qed.

Lemma wf_set_current s c : wf s -> wf (set_current s c).
Proof. intros [Wo Wd Wr Wk]. by constructor. Qed.

Lemma inv_start base env cg ns key s r s1 :
  cg ∉ base -> ns ∉ base -> inv ({[cg]} ∪ {[ns]} ∪ base) s -> current s = None ->
  start env cg ns key s = (r, s1) ->
  match r with
  | Ok i => inv base (set_current s1 (Some i)) /\ i_key i = key /\ i_capture i ∈ opened s1 /\
      procs s1 = {[i_process i := i_capture i]} /\ ready_error (se_ready env) = None /\
      fst (setupNetwork (se_ip env) []) = Ok tt
  | _ => inv ({[cg]} ∪ {[ns]} ∪ base) s1 /\ current s1 = None
  end /\ state_file s1 = state_file s.
Proof.
  intros Hcg Hns Hinv Hcur H. destruct (acq_start ∅ ∅ env cg ns key s r s1 (inv_ready _ _ Hinv) H) as (own & run & Hpost & Ho).
  assert (Hfail : own = ∅ -> run = ∅ -> inv ({[cg]} ∪ {[ns]} ∪ base) s1 /\ current s1 = None).
  { intros -> ->. destruct (inv_acquire _ _ _ _ Hinv Ho) as [Hi _]. rewrite (left_id_L ∅ (∪)) in Hi.
    split; [done|]. destruct Ho as (_ & (_ & _ & _ & Hc) & _). congruence. }
  split; [|by destruct Ho as (_ & (_ & Hs & _) & _)].
  destruct r as [i|e|m]; [|destruct Hpost; auto..].
  destruct Hinv as (Hw & Ht & Hc). rewrite Hcur in Hc. destruct Hc as [Hop Hpr].
  destruct Ho as (Hw' & (_ & _ & Ht' & _) & Hfresh & Hin & Hsub & Hsup & Hp & _).
  destruct Hpost as (-> & -> & Hicg & Hins & Hkey & _ & Hne & Hready & Hsetup).
  assert (Hdis : ({[i_capture i]} ∪ ({[i_lease i]} ∪ {[i_resources i]}) : gset nat) ## opened s).
  { intros x Hx Hx'. specialize (Hfresh x Hx). pose proof (wf_open _ Hw x Hx'). lia. }
  rewrite Hpr, (right_id_L ∅ (∪)) in Hp.
  assert (Heq : opened s1 = ({[i_capture i]} ∪ ({[i_lease i]} ∪ {[i_resources i]})) ∪ opened s) by set_solver +Hin Hsub Hsup.
  split; [|split_and!; try done; set_solver +Hin]. split; [by apply wf_set_current|]. split; [cbn; congruence|].
  cbn [current set_current opened procs]. unfold handles. rewrite Hicg, Hins, Heq, Hop in *.
  split; [set_solver +|]. split; [|split; [done|by right]].
  apply disjoint_union_l. split; [apply disjoint_union_r in Hdis as [_ Hdis]; exact Hdis|].
  apply disjoint_union_l. split; by apply disjoint_singleton_l.
Qed.

(** ** Saving the state *)

(** Only the handle counter and the state file differ. *)
Definition bump (s : world) (f : option string) : world :=
  World (S (next s)) (opened s) (procs s) f (temps s) (current s) (orphaned s) (facts s).

Lemma bump_inv base s f : inv base s -> inv base (bump s f).
Proof.
  intros ([Wo Wd Wr Wk] & Ht & Hc). split; [|done]. constructor; cbn; try done.
  - intros h Hh. specialize (Wo h Hh). lia.
  - intros p c Hp. specialize (Wd p c Hp). lia.
Qed.

(** A temporary file opened, closed and removed again leaves no trace. *)
Lemma temp_gone s f : wf s -> temps s = ∅ ->
  World (S (next s)) (({[next s]} ∪ opened s) ∖ {[next s]}) (procs s) f (({[next s]} ∪ temps s) ∖ {[next s]})
    (current s) (orphaned s || bool_decide (map_Exists (fun _ c => c = next s) (procs s))) (facts s) = bump s f.
Proof.
  intros [Wo Wd Wr Wk] Ht. assert (Hn : next s ∉ opened s) by (intros Hx; specialize (Wo _ Hx); lia).
  unfold bump. f_equal.
  - set_solver +Hn.
  - rewrite Ht. set_solver +.
  - rewrite bool_decide_false, orb_false_r; [done|]. intros (p & c & Hpc & ->). apply Hn. by eapply Wr.
Qed.

Lemma saveState_spec base env i s r s' : inv base s -> saveState env i s = (r, s') ->
  match r with
  | Ok _ => exists path, sv_readlink env = Ok path /\
      s' = bump s (Some (saved_json (trimPrefix path "/sys/fs/cgroup") (i_key i)))
  | _ => s' = s \/ s' = bump s (state_file s)
  end.
Proof.
  intros (Hw & Ht & _) H. unfold saveState, sbind, slift in H.
  destruct (sv_readlink env) as [path|e|m] eqn:Er; [|injection H as <- <-; by left..].
  unfold createTemp, open_file, open_as in H. destruct (sv_temp env) as [e|]; [injection H as <- <-; by left|].
  unfold defer in H. cbn [fst snd] in H. unfold check in H.
  destruct (sv_encode env) as [e|]; cbn in H.
  { injection H as <- <-. right. exact (temp_gone s (state_file s) Hw Ht). }
  destruct (sv_close env) as [e|]; cbn in H.
  { injection H as <- <-. right. exact (temp_gone s (state_file s) Hw Ht). }
  destruct (sv_rename env) as [e|]; cbn in H.
  { injection H as <- <-. right. exact (temp_gone s (state_file s) Hw Ht). }
  injection H as <- <-. exists path. split; [done|]. rewrite <- (temp_gone s) by done.
  unfold set_state_file, remove_temp, set_temps. cbn. f_equal. set_solver +.
Qed.

(** ** The gate *)
Lemma start_and_save_spec base env cg ns key s r owned s' :
  cg ∉ base -> ns ∉ base -> inv ({[cg]} ∪ {[ns]} ∪ base) s -> current s = None ->
  start_and_save env cg ns key s = (r, owned, s') ->
  (if owned then inv base s' else inv ({[cg]} ∪ {[ns]} ∪ base) s') /\
  (r = Ok tt -> owned = true /\ exists i, current s' = Some i /\ i_key i = key /\ i_capture i ∈ opened s' /\
     procs s' !! i_process i = Some (i_capture i) /\
     exists path, state_file s' = Some (saved_json path key)).
Proof.
  intros Hcg Hns Hinv Hcur H. unfold start_and_save in H.
  destruct (start (pp_start env) cg ns key s) as [r1 s1] eqn:Es.
  destruct (inv_start base _ _ _ _ _ _ _ Hcg Hns Hinv Hcur Es) as [Hstart _].
  destruct r1 as [i|e|m]; [|injection H as <- <- <-; split; [tauto|discriminate]..].
  destruct Hstart as (Hi & Hkey & Hcap & Hpr & _).
  destruct (saveState (pp_save env) i (set_current s1 (Some i))) as [r2 s2] eqn:Ev.
  pose proof (saveState_spec base _ _ _ _ _ Hi Ev) as Hs. destruct r2 as [[]|e|m].
  - injection H as <- <- <-. destruct Hs as (path & _ & ->). split; [by apply bump_inv|]. intros _. split; [done|].
    exists i. split_and!; try done; [by cbn; rewrite Hpr, lookup_singleton_eq|]. rewrite <- Hkey. eauto.
  - injection H as <- <- <-. split; [|discriminate].
    destruct Hs as [-> | ->]; apply inv_instance_close; try done. by apply bump_inv.
  - injection H as <- <- <-. split; [|discriminate]. destruct Hs as [-> | ->]; [done|by apply bump_inv].
Qed.

Lemma prepare_locked_spec base env cg ns key s r owned s' :
  cg ∉ base -> ns ∉ base -> inv ({[cg]} ∪ {[ns]} ∪ base) s ->
  prepare_locked env cg ns key s = (r, owned, s') ->
  (if owned then inv base s' else inv ({[cg]} ∪ {[ns]} ∪ base) s') /\
  (r = Ok tt -> exists i, current s' = Some i /\ i_key i = key /\ i_capture i ∈ opened s' /\
     i_capture i ∉ base /\ (owned = true \/ i_capture i <> cg /\ i_capture i <> ns) /\
     procs s' !! i_process i = Some (i_capture i)).
Proof.
  intros Hcg Hns Hinv H. unfold prepare_locked in H.
  assert (Hfresh : forall s0, inv ({[cg]} ∪ {[ns]} ∪ base) s0 -> current s0 = None ->
    start_and_save env cg ns key s0 = (r, owned, s') -> 
    (if owned then inv base s' else inv ({[cg]} ∪ {[ns]} ∪ base) s') /\
    (r = Ok tt -> exists i, current s' = Some i /\ i_key i = key /\ i_capture i ∈ opened s' /\
       i_capture i ∉ base /\ (owned = true \/ i_capture i <> cg /\ i_capture i <> ns) /\
       procs s' !! i_process i = Some (i_capture i))).
  { intros s0 H0 Hc0 Hs. destruct (start_and_save_spec base _ _ _ _ _ _ _ _ Hcg Hns H0 Hc0 Hs) as [Hi Hok].
    split; [done|]. intros Hr. destruct (Hok Hr) as (-> & i & Hci & Hk & Hcap & Hp & _). exists i. split_and!; try done.
    - destruct Hi as (_ & _ & Hi). rewrite Hci in Hi. destruct Hi as (_ & Hd & _). unfold handles in Hd. set_solver +Hd.
    - by left. }
  destruct (current s) as [i|] eqn:Hcur; [|by apply (Hfresh s)].
  destruct (exited i s) eqn:Eex; [apply (Hfresh (set_current (instance_close i s) None)); [by apply inv_instance_close|done|done]|].
  destruct (key =? i_key i) eqn:Ek; bprop.
  { injection H as <- <- <-. split; [done|]. intros _. exists i. 
    destruct Hinv as (Hw & _ & Hc). rewrite Hcur in Hc. destruct Hc as (Hop & Hd & _ & Hp).
    unfold exited in Eex. bprop. destruct Hp as [Hp|Hp]; [by rewrite Hp, lookup_empty in Eex|].
    split_and!; try done.
    - rewrite Hop. unfold handles. set_solver +.
    - intros Hb. by eapply (capture_apart i _ (i_capture i) Hd); [set_solver +Hb|].
    - right. split; apply (capture_apart i _ _ Hd); set_solver +.
    - by rewrite Hp, lookup_singleton_eq. }
  destruct (populated (pp_events env)); [by injection H as <- <- <-|].
  apply (Hfresh (set_current (instance_close i s) None)); [by apply inv_instance_close|done|done].
Qed.

Lemma inv_base base s : inv base s -> base ⊆ opened s.
Proof. intros (_ & _ & Hc). destruct (current s); [destruct Hc as [-> _]|destruct Hc as [-> _]]; set_solver +. Qed.

(** An action that acquires nothing or fails, from an invariant state. *)
Lemma inv_nothing base s s' : inv base s -> outcome ∅ ∅ s s' ∅ ∅ -> inv base s'.
Proof. intros Hi Ho. destruct (inv_acquire _ _ _ _ Hi Ho) as [H _]. by rewrite (left_id_L ∅ (∪)) in H. Qed.

(** A handle acquired from an invariant state joins the base and is new to it. *)
Lemma inv_handle base s s' h : inv base s -> outcome ∅ ∅ s s' {[h]} ∅ -> inv ({[h]} ∪ base) s' /\ h ∉ base.
Proof.
  intros Hi Ho. destruct (inv_acquire _ _ _ _ Hi Ho) as [H Hd]. split; [done|].
  pose proof (inv_base _ _ Hi). set_solver.
Qed.

(** What a passed gate means for the peer. *)
Record admitted (c_unit : string) (c_uid : Z) (env : prepareEnv) (s' : world) : Prop := {
  ad_uid : pe_uid (pp_peer env) = c_uid;
  ad_alive : pe_alive1 (pp_peer env) = None /\ pe_alive2 (pp_peer env) = None;
  ad_instance : exists i, current s' = Some i /\ attested (pp_net env) c_unit (i_key i) /\
    procs s' !! i_process i = Some (i_capture i)
}.

Lemma peer_alive env s x s' : peerProcess env s = (Ok x, s') -> pe_alive1 env = None /\ pe_alive2 env = None.
Proof.
  unfold peerProcess, sbind, check, defer, defer_unless_ok, open_file, open_as, sfail, sret.
  destruct (pe_raw env), (pe_control env), (pe_cred env), (pe_pidfd env); try discriminate.
  destruct (pe_alive1 env); [discriminate|]. destruct (pe_proc env); [discriminate|].
  by destruct (pe_alive2 env).
Qed.

(** The part of [prepare] after the peer is known. *)
Lemma prepare_net_spec base c_unit env s r s' :
  inv base s ->
  (do! net <- processNetwork (pp_net env) c_unit;
   fun s => let '(cg, ns, key) := net in
     let '(r, owned, s') := prepare_locked env cg ns key s in
     (r, if owned then s' else close_file ns (close_file cg s'))) s = (r, s') ->
  inv base s' /\
  (r = Ok tt -> exists i, current s' = Some i /\ attested (pp_net env) c_unit (i_key i) /\
     i_capture i ∈ opened s' /\ i_capture i ∉ base /\ procs s' !! i_process i = Some (i_capture i)).
Proof.
  intros Hi H. unfold sbind in H. destruct (processNetwork (pp_net env) c_unit s) as [rn s1] eqn:En.
  destruct (acq_processNetwork ∅ ∅ (pp_net env) c_unit s rn s1 (inv_ready _ _ Hi) En) as (own & run & Hpost & Ho).
  destruct rn as [[[cg ns] key]|e|m].
  2,3: injection H as <- <-; destruct Hpost as [-> ->]; split; [by eapply inv_nothing|discriminate].
  destruct Hpost as (-> & -> & Hne & Hat). destruct (inv_acquire _ _ _ _ Hi Ho) as [Hi1 Hd].
  pose proof (inv_base _ _ Hi) as Hb.
  assert (Hcg : cg ∉ base) by set_solver +Hd Hb. assert (Hns : ns ∉ base) by set_solver +Hd Hb.
  destruct (prepare_locked env cg ns key s1) as [[r2 owned] s2] eqn:Ep. injection H as <- <-.
  destruct (prepare_locked_spec base _ _ _ _ _ _ _ _ Hcg Hns Hi1 Ep) as [Hinv Hok].
  split.
  - destruct owned; [done|]. apply inv_close; [|done]. apply inv_close; [|set_solver +Hne Hcg].
    by rewrite (assoc_L (∪)).
  - intros Hr. destruct (Hok Hr) as (i & Hc & Hk & Hcap & Hcb & Hcase & Hp). exists i. rewrite Hk.
    destruct owned; [by split_and!|]. destruct Hcase as [?|[Hc1 Hc2]]; [done|]. cbn. split_and!; try done.
    set_solver +Hcap Hc1 Hc2.
Qed.

Lemma prepare_spec base c_unit c_uid env s r s' :
  inv base s -> prepare c_unit c_uid env s = (r, s') ->
  inv base s' /\ (r = Ok tt -> admitted c_unit c_uid env s').
Proof.
  intros Hi H. unfold prepare in H. unfold sbind at 1 in H.
  destruct (peerProcess (pp_peer env) s) as [rp s1] eqn:Ep.
  destruct (acq_peerProcess ∅ ∅ (pp_peer env) s rp s1 (inv_ready _ _ Hi) Ep) as (own & run & Hpost & Ho).
  destruct rp as [[h u]|e|m].
  2,3: injection H as <- <-; destruct Hpost as [-> ->]; split; [by eapply inv_nothing|discriminate].
  destruct Hpost as [[-> ->] Hu]. cbn [fst snd] in *. destruct (inv_handle _ _ _ _ Hi Ho) as [Hi1 Hh].
  unfold defer in H. unfold sbind at 1 in H. destruct (u =? c_uid) eqn:Eu; bprop; cbn [sret sfail] in H.
  2: { injection H as <- <-. split; [by apply inv_close|discriminate]. }
  cbn in H. match type of H with context [sbind ?m ?k s1] => destruct (sbind m k s1) as [r2 s2] eqn:E2 end.
  injection H as <- <-. destruct (prepare_net_spec _ _ _ _ _ _ Hi1 E2) as [Hi2 Hok].
  split; [by apply inv_close|]. intros Hr. destruct (Hok Hr) as (i & Hc & Hat & Hcap & Hcb & Hp).
  constructor; [congruence|by eapply peer_alive|]. by exists i.
Qed.

(** ** Recovery *)

(** What a recovered instance is: of a process of the right user in the saved
    cgroup, attested to the unit, with the saved key. *)
Definition recovered (c_unit : string) (c_uid : Z) (env : recoverEnv) (key : string) (s' : world) : Prop :=
  forall i, current s' = Some i -> i_key i = key /\
    exists pid, pi_stat (rv_pid env pid) = Ok c_uid /\ attested (pi_net (rv_pid env pid)) c_unit key /\
      procs s' !! i_process i = Some (i_capture i).

Lemma open_ok s : open_file None s = (Ok (next s), World (S (next s)) ({[next s]} ∪ opened s) (procs s)
  (state_file s) (temps s) (current s) (orphaned s) (facts s)).
Proof. done. Qed.

Section recovery.
Context (c_unit : string) (c_uid : Z) (env : recoverEnv) (key : string).

(** One process of the cgroup, with the rest of the loop as [k]. *)
Lemma recover_process base (k : M unit) pid s r s' :
  (forall s r s', inv base s -> current s = None -> k s = (r, s') -> is_panic r = false ->
     inv base s' /\ recovered c_unit c_uid env key s') ->
  inv base s -> current s = None ->
  (let e := rv_pid env pid in
   do! proc <- open_file None;
   if match pi_stat e with Ok u => u <>? c_uid | _ => true end
   then run! close_now proc; k
   else fun s =>
     match processNetwork (pi_net e) c_unit s with
     | (Ok (group, ns, k'), s1) =>
         (run! close_now proc;
          if k' <>? key then run! close_two group ns; k
          else fun s2 =>
            match start (pi_start e) group ns k' s2 with
            | (Ok i, s3) => (Ok tt, set_current s3 (Some i))
            | (Err err, s3) => (Err err, close_file ns (close_file group s3))
            | (Panic m, s3) => (Panic m, s3)
            end) s1
     | (_, s1) => (run! close_now proc; k) s1
     end) s = (r, s') ->
  is_panic r = false -> inv base s' /\ recovered c_unit c_uid env key s'.
Proof.
  intros Hk Hi Hcur H Hnp. cbv zeta in H. unfold sbind at 1 in H. rewrite open_ok in H.
  destruct (acq_open ∅ ∅ None s _ _ (inv_ready _ _ Hi) (open_ok s)) as (own & run & [-> ->] & Ho).
  destruct (inv_handle _ _ _ _ Hi Ho) as [Hi1 Hh].
  match type of H with _ ?t = _ => set (s1 := t) in H end.
  fold s1 in Hi1. assert (Hc1 : current s1 = None) by done. clearbody s1. set (proc := next s) in *.
  assert (Hskip : forall t, inv ({[proc]} ∪ base) t -> current t = None ->
    (run! close_now proc; k) t = (r, s') -> inv base s' /\ recovered c_unit c_uid env key s').
  { intros t Ht Hct Hr. eapply (Hk (close_file proc t)); [by apply inv_close|done|exact Hr|done]. }
  destruct (match pi_stat (rv_pid env pid) with Ok u => u <>? c_uid | _ => true end) eqn:Eu; [by apply (Hskip s1)|].
  destruct (pi_stat (rv_pid env pid)) as [u| |] eqn:Est; try discriminate Eu. bprop. subst u.
  destruct (processNetwork (pi_net (rv_pid env pid)) c_unit s1) as [rn s2] eqn:En.
  destruct (acq_processNetwork ∅ ∅ _ c_unit s1 rn s2 (inv_ready _ _ Hi1) En) as (own & run & Hpost & Ho2).
  assert (Hc2 : current s2 = None) by (destruct Ho2 as (_ & (_ & _ & _ & Hx) & _); congruence).
  destruct rn as [[[group ns] k']|e|m].
  2,3: destruct Hpost as [-> ->]; apply (Hskip s2); [by eapply inv_nothing|done|done].
  destruct Hpost as (-> & -> & Hne & Hat). destruct (inv_acquire _ _ _ _ Hi1 Ho2) as [Hi2 Hd].
  pose proof (inv_base _ _ Hi1) as Hb. unfold sbind at 1, close_now at 1 in H. cbn beta iota in H.
  assert (Hg : group ∉ {[proc]} ∪ base) by set_solver +Hd Hb. assert (Hn : ns ∉ {[proc]} ∪ base) by set_solver +Hd Hb.
  assert (Hi3 : inv ({[group]} ∪ {[ns]} ∪ base) (close_file proc s2)).
  { apply inv_close; [|set_solver +Hg Hn Hh].
    by replace ({[proc]} ∪ ({[group]} ∪ {[ns]} ∪ base)) with ({[group]} ∪ {[ns]} ∪ ({[proc]} ∪ base)) by set_solver +. }
  destruct (k' =? key) eqn:Ek; bprop; cbn [negb] in H.
  2: { eapply (Hk (close_file ns (close_file group (close_file proc s2)))); [|exact Hc2|exact H|done]. apply inv_close; [|set_solver +Hn]. apply inv_close; [|set_solver +Hg Hne].
       by rewrite (assoc_L (∪)). }
  subst k'. destruct (start (pi_start (rv_pid env pid)) group ns key (close_file proc s2)) as [rs s3] eqn:Es.
  assert (Hg' : group ∉ base) by set_solver +Hg. assert (Hn' : ns ∉ base) by set_solver +Hn.
  destruct (inv_start base _ _ _ _ _ _ _ Hg' Hn' Hi3 Hc2 Es) as [Hst _].
  destruct rs as [i|e|m]; injection H as <- <-; [| |discriminate Hnp].
  - destruct Hst as (Hinv & Hkey & _ & Hp & _). split; [done|]. intros j [= <-]. split; [done|].
    exists pid. split_and!; try done. cbn. by rewrite Hp, lookup_singleton_eq.
  - destruct Hst as [Hinv Hc3]. split; [|intros j Hj; cbn in Hj; congruence].
    apply inv_close; [|set_solver +Hn]. apply inv_close; [|set_solver +Hg Hne]. by rewrite (assoc_L (∪)).
Qed.
End recovery.

Section recovery.
Context (c_unit : string) (c_uid : Z).

Lemma recover_loop_spec base env key pids : forall s r s',
  inv base s -> current s = None -> recover_loop c_unit c_uid env key pids s = (r, s') -> is_panic r = false ->
  inv base s' /\ recovered c_unit c_uid env key s'.
Proof.
  induction pids as [|pid pids IH]; intros s r s' Hi Hc H Hnp; cbn [recover_loop] in H.
  { injection H as <- <-. split; [done|]. intros i Hi'. congruence. }
  destruct (parseUint 32 pid); [|by eapply IH]. cbv zeta in H.
  destruct (pi_open (rv_pid env pid)); [by eapply IH|].
  by eapply (recover_process c_unit c_uid env key base (recover_loop c_unit c_uid env key pids) pid s r s' IH).
Qed.

(** Reading a file acquires nothing. *)
Lemma inv_read_file {A} base o (x : result A) s r s' : inv base s -> read_file o x s = (r, s') ->
  inv base s' /\ current s' = current s /\ state_file s' = state_file s /\ (forall a, r = Ok a -> x = Ok a).
Proof.
  intros Hi H. destruct (acq_read_file ∅ ∅ o x s r s' (inv_ready _ _ Hi) H) as (own & run & Hp & Ho).
  assert (own = ∅ /\ run = ∅) as [-> ->] by (destruct r; [destruct Hp as (? & ? & _)|..]; tauto).
  split; [by eapply inv_nothing|]. destruct Ho as (_ & (_ & Hs & _ & Hc) & _). split_and!; try done.
  intros a ->. by destruct Hp as (_ & _ & ?).
Qed.

Lemma set_state_inv base s f : inv base s -> inv base (set_state_file s f).
Proof. intros ([Wo Wd Wr Wk] & Ht & Hc). split; [by constructor|done]. Qed.

Lemma recover_spec base env s r s' :
  inv base s -> current s = None -> recover c_unit c_uid env s = (r, s') -> is_panic r = false ->
  inv base s' /\
  (current s' = None \/ exists content st, state_file s = Some content /\ decode_state content = Ok st /\
     saved_cgroup_ok (ss_Cgroup st) = true /\ recovered c_unit c_uid env (ss_Key st) s').
Proof.
  intros Hi Hc H Hnp. unfold recover in H. destruct (state_file s) as [content|] eqn:Ef.
  2: { injection H as <- <-. split; [done|by left]. }
  unfold sbind at 1 in H. destruct (read_file (rv_open env) (decode_state content) s) as [r1 s1] eqn:E1.
  destruct (inv_read_file _ _ _ _ _ _ Hi E1) as (Hi1 & Hc1 & Hf1 & Hst). rewrite Hc in Hc1.
  destruct r1 as [st|e|m]; [|injection H as <- <-; split; [done|by left]..]. specialize (Hst st eq_refl).
  unfold sbind at 1 in H. destruct (saved_cgroup_ok (ss_Cgroup st)) eqn:Eg; cbn beta iota delta [sret sfail] in H.
  2: { injection H as <- <-. split; [done|by left]. }
  destruct (rv_cgroup env) as [|e|].
  { unfold remove_state in H. destruct (rv_remove env); injection H as <- <-; (split; [|by left]); [done|].
    by apply set_state_inv. }
  { injection H as <- <-. split; [done|by left]. }
  unfold sbind at 1 in H. rewrite open_ok in H.
  destruct (acq_open ∅ ∅ None s1 _ _ (inv_ready _ _ Hi1) (open_ok s1)) as (own & run & [-> ->] & Ho).
  destruct (inv_handle _ _ _ _ Hi1 Ho) as [Hi2 Hh]. unfold defer in H.
  match type of H with context [sbind ?m ?k ?t] => set (s2 := t) in *; destruct (sbind m k s2) as [r3 s3] eqn:E3 end.
  assert (Hc2 : current s2 = None) by done. clearbody s2. injection H as <- <-.
  unfold sbind in E3. destruct (read_file (rv_procs_open env) (rv_procs env) s2) as [r4 s4] eqn:E4.
  destruct (inv_read_file _ _ _ _ _ _ Hi2 E4) as (Hi4 & Hc4 & _ & _). rewrite Hc2 in Hc4.
  destruct r4 as [raw|e|m]; [|injection E3 as <- <-; split; [by apply inv_close|by left]..].
  destruct (recover_loop_spec _ _ _ _ _ _ _ Hi4 Hc4 E3 Hnp) as [Hi5 Hrec].
  split; [by apply inv_close|]. right. by exists content, st.
Qed.

(** ** Reconciliation *)
Lemma reconcile_current_inv base env s : inv base s -> inv base (reconcile_current env s).
Proof.
  intros Hi. unfold reconcile_current. destruct (current s) as [i|] eqn:Hc; [|done].
  destruct (exited i s); [by apply inv_instance_close|].
  destruct (expiredEmpty i (rc_events env) (rc_now env)) as [expired i'] eqn:Ee.
  assert (Hsame : handles i' = handles i /\ i_lease i' = i_lease i /\ i_capture i' = i_capture i /\
    i_process i' = i_process i /\ instance_close i' s = instance_close i s).
  { unfold expiredEmpty in Ee. destruct (populated _); [by injection Ee as <- <-|].
    destruct (i_emptySince i); by injection Ee as <- <-. }
  destruct Hsame as (Hh & Hl & Hca & Hpr & Hcl). destruct expired.
  - rewrite Hcl. unfold remove_state. destruct (rc_remove env); cbn [snd]; [by apply inv_instance_close|].
    by apply set_state_inv, inv_instance_close.
  - destruct Hi as (Hw & Ht & Hx). rewrite Hc in Hx. split; [by apply wf_set_current|]. split; [done|].
    cbn [current set_current opened procs]. by rewrite Hh, Hl, Hca, Hpr.
Qed.

(** The steps of a controller: a connection to its gate, a round of the
    reconcile loop that does not crash the process, the end of its worker. *)
Inductive step (s : world) : world -> Prop :=
| StepPrepare env : step s (snd (prepare c_unit c_uid env s))
| StepReconcile env :
    is_panic (fst (recover c_unit c_uid (rc_recover env) (reconcile_current env s))) = false ->
    step s (reconcile c_unit c_uid env s)
| StepExit i : current s = Some i -> step s (reap (i_process i) s).

Lemma exit_inv base s i : inv base s -> current s = Some i -> inv base (reap (i_process i) s).
Proof.
  intros (Hw & Ht & Hx) Hc. rewrite Hc in Hx. destruct Hx as (Hop & Hd & Hne & Hp).
  assert (Hp' : delete (i_process i) (procs s) = ∅).
  { destruct Hp as [->| ->]; [apply delete_empty|apply delete_singleton_eq]. }
  split; [|split; [done|]; cbn; rewrite Hc; split_and!; try done; by left].
  destruct Hw as [Wo Wd Wr Wk]. constructor; cbn; try done; rewrite Hp'; intros p c Hx; by rewrite lookup_empty in Hx.
Qed.

Lemma step_inv base s s' : inv base s -> step s s' -> inv base s'.
Proof.
  intros Hi H. destruct H as [env|env Hnp|i Hc].
  - destruct (prepare c_unit c_uid env s) as [r s'] eqn:E. by apply (prepare_spec base c_unit c_uid env s r s' Hi).
  - pose proof (reconcile_current_inv base env s Hi) as Hi1. unfold reconcile. cbv zeta.
    destruct (current (reconcile_current env s)) eqn:Hc; [done|].
    destruct (recover c_unit c_uid (rc_recover env) (reconcile_current env s)) as [r s'] eqn:E.
    by apply (recover_spec base (rc_recover env) _ r s' Hi1 Hc).
  - by apply exit_inv.
Qed.

Lemma steps_inv base s s' : inv base s -> rtc step s s' -> inv base s'.
Proof. intros Hi H. induction H as [|s1 s2 s3 H1 _ IH]; [done|]. apply IH. by eapply step_inv. Qed.
End recovery.

(** ** Theorems *)

(** C8: Over every sequence of gate requests, reconcile rounds and worker
    deaths the controller holds exactly the handles of its current instance
    besides those it started with, leaves no temporary file, runs no worker but
    that instance's, and never closes a capture while its worker runs; stopping
    it then releases everything. *)
Theorem controller_no_leak c_unit c_uid s0 s :
  wf s0 -> temps s0 = ∅ -> procs s0 = ∅ -> current s0 = None -> rtc (step c_unit c_uid) s0 s ->
  orphaned s = false /\ temps s = ∅ /\
  opened s = match current s with Some i => handles i | None => ∅ end ∪ opened s0 /\
  (forall p c, procs s !! p = Some c -> exists i, current s = Some i /\ p = i_process i /\ c = i_capture i) /\
  orphaned (shutdown s) = false /\ opened (shutdown s) = opened s0 /\ procs (shutdown s) = ∅.
Proof.
  intros Hw Ht Hp Hc Hs.
  assert (Hi : inv (opened s0) s).
  { eapply steps_inv; [|exact Hs]. split; [done|]. split; [done|]. by rewrite Hc. }
  destruct Hi as (Hw' & Ht' & Hx). unfold shutdown. split; [by apply wf_ok|]. split; [done|].
  destruct (current s) as [i|].
  - destruct Hx as (Hop & Hd & Hne & Hpr). destruct (instance_close_wf i s Hw' Hne Hpr) as [Hw2 Hp2].
    destruct (instance_close_fields i s) as (Ho & _). split_and!; try done.
    + intros p c Hpc. exists i. destruct Hpr as [E|E]; rewrite E in Hpc; [by rewrite lookup_empty in Hpc|].
      by apply lookup_singleton_Some in Hpc as [<- <-].
    + by apply wf_ok.
    + rewrite Ho, Hop. set_solver +Hd.
  - destruct Hx as [Hop Hpr]. split_and!; try done; [by rewrite Hop, (left_id_L ∅ (∪))| |by apply wf_ok].
    intros p c Hpc. rewrite Hpr in Hpc. by rewrite lookup_empty in Hpc.
Qed.

(** Recovery brings back a worker only for a process of the configured
    user found in the saved cgroup, attributed to the unit, with exactly the
    saved cgroup and namespace, and that worker runs behind its capture. *)
Theorem recover_sound c_unit c_uid s0 s env r s' i :
  wf s0 -> temps s0 = ∅ -> procs s0 = ∅ -> current s0 = None -> rtc (step c_unit c_uid) s0 s ->
  current s = None -> recover c_unit c_uid env s = (r, s') -> is_panic r = false -> current s' = Some i ->
  exists content st pid, state_file s = Some content /\ decode_state content = Ok st /\
    hasPrefix (ss_Cgroup st) "/" = true /\ ss_Cgroup st <> "/" /\ clean (ss_Cgroup st) = ss_Cgroup st /\
    i_key i = ss_Key st /\ pi_stat (rv_pid env pid) = Ok c_uid /\ attested (pi_net (rv_pid env pid)) c_unit (i_key i) /\
    procs s' !! i_process i = Some (i_capture i).
Proof.
  intros Hw Ht Hp Hc Hs Hcur H Hnp Hci.
  assert (Hi : inv (opened s0) s).
  { eapply steps_inv; [|exact Hs]. split; [done|]. split; [done|]. by rewrite Hc. }
  destruct (recover_spec c_unit c_uid _ env s r s' Hi Hcur H Hnp) as [_ [Hx|(content & st & Hf & Hd & Hg & Hrec)]];
    [congruence|].
  destruct (Hrec i Hci) as (Hk & pid & H1 & H2 & H3). exists content, st, pid. rewrite Hk.
  unfold saved_cgroup_ok in Hg. bprop. by split_and!.
Qed.

(** ** Releasing an empty workload *)

(** The rounds of the reconcile loop that found the same instance, as the
    contents of [cgroup.events] and the time of each. *)
Definition watch (i : instance) (rounds : list (option string * Z)) : instance :=
  foldl (fun i r => (expiredEmpty i r.1 r.2).2) i rounds.

Definition empty_round (r : option string * Z) : Prop := populated r.1 = false.

Lemma watch_snoc i rounds r : watch i (rounds ++ [r]) = (expiredEmpty (watch i rounds) r.1 r.2).2.
Proof. unfold watch. by rewrite foldl_app. Qed.

Lemma emptySince_step i r : i_emptySince (expiredEmpty i r.1 r.2).2 =
  if populated r.1 then None else Some (default r.2 (i_emptySince i)).
Proof. unfold expiredEmpty. destruct (populated r.1); [done|]. by destruct (i_emptySince i) eqn:E; cbn; rewrite ?E. Qed.

Lemma sorted_before (pre : list (option string * Z)) r l :
  StronglySorted Z.le (pre.*2 ++ (r : option string * Z).2 :: l) -> Forall (fun x => x.2 <= r.2)%Z pre.
Proof.
  induction pre as [|x pre IH]; cbn; intros H; [constructor|]. apply StronglySorted_inv in H as [H Hx].
  constructor; [|by apply IH]. rewrite Forall_forall in Hx. apply Hx. set_solver.
Qed.

(** The remembered time is that of the first of the empty rounds at the end. *)
Lemma watch_since i rounds t : i_emptySince i = None -> i_emptySince (watch i rounds) = Some t ->
  exists pre ev mid, rounds = pre ++ (ev, t) :: mid /\ Forall empty_round ((ev, t) :: mid).
Proof.
  intros Hi. revert t. induction rounds as [|r rounds IH] using rev_ind; intros t H; [cbn in H; congruence|].
  rewrite watch_snoc, emptySince_step in H. destruct (populated r.1) eqn:E; [discriminate|]. injection H as H.
  destruct (i_emptySince (watch i rounds)) as [t'|]; cbn in H; subst t.
  - destruct (IH t' eq_refl) as (pre & ev & mid & -> & Hm). exists pre, ev, (mid ++ [r]).
    rewrite <- app_assoc. split; [done|]. rewrite app_comm_cons. apply Forall_app. split; [done|by constructor].
  - exists rounds, r.1, []. destruct r. split; [done|]. by constructor.
Qed.

(** Once empty rounds begin, some time not after the first is remembered. *)
Lemma watch_remembers i pre r mid : i_emptySince i = None ->
  Forall (fun x => x.2 <= r.2)%Z pre -> Forall empty_round (r :: mid) ->
  exists t, i_emptySince (watch i (pre ++ r :: mid)) = Some t /\ (t <= r.2)%Z.
Proof.
  intros Hi Hp [Hr Hm]%Forall_cons. induction mid as [|x mid IH] using rev_ind.
  - rewrite watch_snoc, emptySince_step, Hr. eexists; split; [done|].
    destruct (i_emptySince (watch i pre)) as [t|] eqn:E; cbn; [|lia].
    apply (watch_since i pre t Hi) in E as (a & ev & b & -> & _). by apply Forall_app in Hp as [_ [Hp _]%Forall_cons].
  - apply Forall_app in Hm as [Hm [Hx _]%Forall_cons]. destruct (IH Hm) as (t & Ht & Hle).
    rewrite app_comm_cons, app_assoc, watch_snoc, emptySince_step, Hx, Ht. eauto.
Qed.

(** An instance is released for being empty exactly when some earlier round
    at least thirty seconds ago found its cgroup empty and so did every round
    since: one occupied round in between keeps the capture, and so does the
    short gap between the gate and the start of the application. *)
Theorem expiredEmpty_correct i rounds events now :
  i_emptySince i = None -> StronglySorted Z.le (rounds.*2 ++ [now]) ->
  (expiredEmpty (watch i rounds) events now).1 = true <->
  populated events = false /\ exists pre r mid, rounds = pre ++ r :: mid /\
    Forall empty_round (r :: mid) /\ (30 * Second <= now - r.2)%Z.
Proof.
  intros Hi Hs. unfold expiredEmpty. destruct (populated events) eqn:Ep; [naive_solver discriminate|].
  destruct (i_emptySince (watch i rounds)) as [t|] eqn:E; cbn [fst]; rewrite ?Z.leb_le; split.
  - intros Ht. split; [done|]. destruct (watch_since _ _ _ Hi E) as (pre & ev & mid & -> & Hm). eauto 10.
  - intros (_ & pre & r & mid & -> & Hm & Ht). destruct (watch_remembers i pre r mid Hi) as (t' & E' & Hle).
    + rewrite fmap_app, <- app_assoc in Hs. by apply sorted_before in Hs.
    + done.
    + rewrite E in E'. injection E' as <-. lia.
  - discriminate.
  - intros (_ & pre & r & mid & -> & Hm & _). destruct (watch_remembers i pre r mid Hi) as (t' & E' & _); [|done|congruence].
    rewrite fmap_app, <- app_assoc in Hs. by apply sorted_before in Hs.
Qed.

(** ** A concrete run *)
Module OwnershipExamples.
Definition group_env : groupEnv :=
  GroupEnv None None (Some "populated 0") (budget ConfigExamples.matrix') (fun _ => None) (fun _ => None).
Definition start_env : startEnv :=
  StartEnv NetworkExamples.tool None None (SealEnv None None None None) None None None group_env None
    (ReadLine ready_line None).
Definition net_env : netEnv :=
  NetEnv None (Ok ("0::/system.slice/matrix-synapse.service" +:+ String (char 10) "")) None None
    (Ok 100%Z) (Ok 200%Z) None (Ok 300%Z).
Definition env : prepareEnv :=
  PrepareEnv (PeerEnv None None None None None None None 984) net_env None start_env
    (SaveEnv (Ok "/sys/fs/cgroup/system.slice/matrix-synapse.service") None None None None).
Definition pid_env : pidEnv := PidEnv None (Ok 984%Z) net_env start_env.
Definition recover_env : recoverEnv :=
  RecoverEnv None DirOpened None None (Ok ("4242" +:+ String (char 10) "")) (fun _ => pid_env).
Definition round : reconcileEnv := ReconcileEnv (Some "populated 1") 0 None recover_env.

Definition w0 : world := World 10 {[1; 2]} ∅ None ∅ None false ∅.
Definition unit := CgroupExamples.synapse.
Definition w1 : world := Eval vm_compute in snd (prepare unit 984 env w0).
Definition i1 : instance := Eval vm_compute in default (Instance 0 0 0 0 0 0 "" None) (current w1).
Definition w2 : world := Eval vm_compute in reap (i_process i1) w1.
(** The reconcile loop closes the dead instance before it recovers. *)
Definition w3 : world := Eval vm_compute in reconcile_current round w2.
Definition w4 : world := Eval vm_compute in snd (recover unit 984 recover_env w3).

Lemma w0_wf : wf w0.
Proof.
  constructor; cbn; try done.
  - intros h Hh. apply elem_of_union in Hh as [Hh%elem_of_singleton|Hh%elem_of_singleton]; lia.
Qed.

Lemma w1_run : prepare unit 984 env w0 = (Ok tt, w1).
Proof. vm_compute. reflexivity. Qed.

Lemma step1 : step unit 984 w0 w1.
Proof. pose proof (StepPrepare unit 984 w0 env) as H. by rewrite w1_run in H. Qed.

Lemma step2 : step unit 984 w1 w2.
Proof. exact (StepExit unit 984 w1 i1 eq_refl). Qed.

Lemma w4_run : recover unit 984 recover_env w3 = (Ok tt, w4).
Proof. vm_compute. reflexivity. Qed.

Lemma step3 : step unit 984 w2 w4.
Proof.
  assert (E : reconcile unit 984 round w2 = w4) by (vm_compute; reflexivity).
  rewrite <- E. apply (StepReconcile unit 984 w2 round). vm_compute. reflexivity.
Qed.

Lemma run_to_w4 : rtc (step unit 984) w0 w4.
Proof. eapply rtc_l; [exact step1|]. eapply rtc_l; [exact step2|]. eapply rtc_l; [exact step3|]. apply rtc_refl. Qed.

Lemma controller_no_leak_witness : orphaned w4 = false /\ opened (shutdown w4) = {[1; 2]}.
Proof.
  destruct (controller_no_leak unit 984 w0 w4 w0_wf eq_refl eq_refl eq_refl run_to_w4) as (H1 & _ & _ & _ & _ & H2 & _).
  split; [exact H1|exact H2].
Defined.

(** A controller restarted with a state file on disk. *)
Definition r0 : world := World 10 {[1; 2]} ∅ (Some (saved_json "/system.slice/matrix-synapse.service" (capture_key 100 200)))
  ∅ None false ∅.
Definition r1 : world := Eval vm_compute in snd (recover unit 984 recover_env r0).
Definition j1 : instance := Eval vm_compute in default (Instance 0 0 0 0 0 0 "" None) (current r1).

Lemma r0_wf : wf r0.
Proof.
  constructor; cbn; try done.
  - intros h Hh. apply elem_of_union in Hh as [Hh%elem_of_singleton|Hh%elem_of_singleton]; lia.
Qed.

Lemma r1_run : recover unit 984 recover_env r0 = (Ok tt, r1).
Proof. vm_compute. reflexivity. Qed.

Lemma recover_sound_witness : current r1 = Some j1 /\ procs r1 !! i_process j1 = Some (i_capture j1).
Proof.
  split; [reflexivity|].
  destruct (recover_sound unit 984 r0 r0 recover_env (Ok tt) r1 j1 r0_wf eq_refl eq_refl eq_refl (rtc_refl _ _)
    eq_refl r1_run eq_refl eq_refl) as (content & st & pid & _ & _ & _ & _ & _ & _ & _ & _ & H).
  exact H.
Defined.

Lemma expiredEmpty_correct_witness :
  (expiredEmpty (watch j1 [(Some "populated 1", 0%Z); (None, (2 * Second)%Z); (None, (20 * Second)%Z)]) None (32 * Second)%Z).1 = true.
Proof.
  apply expiredEmpty_correct; [reflexivity| |].
  - repeat constructor; vm_compute; discriminate.
  - split; [reflexivity|]. exists [(Some "populated 1", 0%Z)], (None, (2 * Second)%Z), [(None, (20 * Second)%Z)].
    split; [reflexivity|]. split; [repeat constructor|]. vm_compute. discriminate.
Defined.
End OwnershipExamples.
