(* ===== verification/AgentGate.v ===== *)
(** * realm-agent: what stands behind an open gate

    The application of a workload waits at the gate of [src/pkgs/realm-agent/agent.go]
    until [controller.prepare] answers.  Here the register of AgentController is
    followed through every operation of the controller: [informs m Q] says that
    [m] only adds to the register, never touches the current instance, and on
    success leaves [Q] true of it.  The theorem is that a gate opens only for a
    live peer of the right user and unit, and only with a capture attached to
    that peer's own cgroup and a running worker that was given that peer's own
    namespace and said it is ready. *)

From S2P Require Import Prelude GoStrings AgentConfig AgentWorker AgentNetwork AgentCgroup AgentController AgentOwnership.

Open Scope nat_scope.
Open Scope go_scope.

(** ** A key tells the two inodes *)
Lemma capture_key_inj a b a' b' : capture_key a b = capture_key a' b' -> a = a' /\ b = b'.
Proof.
  intros E. destruct (split_mark numeral ":" _ _ _ _ (itoa_numeral a) (itoa_numeral a') eq_refl E) as [Ea Eb].
  split; by apply itoa_inj.
Qed.

(** ** Following the register *)
Definition tidy (s : world) : Prop := forall h f, facts s !! h = Some f -> h < next s.
Definition extends (s s' : world) : Prop := next s <= next s' /\ facts s ⊆ facts s' /\ current s' = current s.

Lemma extends_trans s1 s2 s3 : extends s1 s2 -> extends s2 s3 -> extends s1 s3.
Proof. intros (? & ? & ?) (? & ? & ?). split_and!; [lia|by etrans|congruence]. Qed.

(** An assertion that later entries do not disturb. *)
Definition stable (P : gmap nat fact -> Prop) : Prop := forall F F', F ⊆ F' -> P F -> P F'.

Definition informs {A} (P : gmap nat fact -> Prop) (m : M A) (Q : A -> gmap nat fact -> Prop) : Prop :=
  forall s r s', tidy s -> P (facts s) -> m s = (r, s') ->
    tidy s' /\ extends s s' /\ forall a, r = Ok a -> Q a (facts s').

(** What touches neither register nor instance. *)
Definition quiet (f : world -> world) : Prop :=
  forall s, facts (f s) = facts s /\ next (f s) = next s /\ current (f s) = current s.

Lemma quiet_close h : quiet (close_file h).
Proof. done. Qed.

Lemma quiet_tidy f s : quiet f -> tidy s -> tidy (f s) /\ extends s (f s).
Proof.
  intros Hf Ht. destruct (Hf s) as (E1 & E2 & E3). unfold tidy, extends. rewrite E1, E2. by split_and!.
Qed.

Lemma stable_true : stable (fun _ => True).
Proof. done. Qed.
Lemma stable_at h f : stable (fun F => F !! h = Some f).
Proof. intros F F' Hs H. by eapply lookup_weaken. Qed.
Lemma stable_and P Q : stable P -> stable Q -> stable (fun F => P F /\ Q F).
Proof. intros HP HQ F F' Hs [H1 H2]. split; [by eapply HP|by eapply HQ]. Qed.

Lemma informs_pre {A} P P' (m : M A) Q : (forall F, P F -> P' F) -> informs P' m Q -> informs P m Q.
Proof. intros H Hm s r s' Ht Hp. apply Hm; auto. Qed.

Lemma informs_post {A} P (m : M A) Q Q' : informs P m Q -> (forall a F, Q a F -> Q' a F) -> informs P m Q'.
Proof. intros Hm HQ s r s' Ht Hp H. destruct (Hm s r s' Ht Hp H) as (? & ? & Hr). split_and!; auto. Qed.

Lemma informs_bind {A B} P (m : M A) (k : A -> M B) R Q :
  informs P m R -> (forall a, informs (R a) (k a) Q) -> informs P (sbind m k) Q.
Proof.
  intros Hm Hk s r s' Ht Hp H. unfold sbind in H. destruct (m s) as [[a|e|p] s1] eqn:Em;
    destruct (Hm s _ s1 Ht Hp Em) as (Ht1 & He1 & Hr1).
  - destruct (Hk a s1 r s' Ht1 (Hr1 a eq_refl) H) as (Ht2 & He2 & Hr2). split_and!; [done|by eapply extends_trans|done].
  - injection H as <- <-. by split_and!.
  - injection H as <- <-. by split_and!.
Qed.

Lemma informs_defer {A} P c (m : M A) Q : quiet c -> informs P m Q -> informs P (defer c m) Q.
Proof.
  intros Hc Hm s r s' Ht Hp H. unfold defer in H. destruct (m s) as [r1 s1] eqn:Em. injection H as <- <-.
  destruct (Hm s r1 s1 Ht Hp Em) as (Ht1 & He1 & Hr1). destruct (quiet_tidy c s1 Hc Ht1) as [Ht2 He2].
  split_and!; [done|by eapply extends_trans|]. destruct (Hc s1) as (-> & _). done.
Qed.

Lemma informs_unless {A} P c (m : M A) Q : quiet c -> informs P m Q -> informs P (defer_unless_ok c m) Q.
Proof.
  intros Hc Hm s r s' Ht Hp H. unfold defer_unless_ok in H. destruct (m s) as [r1 s1] eqn:Em. injection H as <- <-.
  destruct (Hm s r1 s1 Ht Hp Em) as (Ht1 & He1 & Hr1). destruct r1 as [a|e|p]; [by split_and!|..];
    destruct (quiet_tidy c s1 Hc Ht1) as [Ht2 He2]; (split_and!; [done|by eapply extends_trans|done]).
Qed.

Lemma informs_lift {A} P (x : result A) : informs P (slift x) (fun a F => P F /\ x = Ok a).
Proof. intros s r s' Ht Hp [= <- <-]. split_and!; [done|by split_and!|]. by intros a ->. Qed.

Lemma informs_ret {A} (P : gmap nat fact -> Prop) (a : A) (Q : A -> gmap nat fact -> Prop) :
  (forall F, P F -> Q a F) -> informs P (sret a) Q.
Proof. intros HQ s r s' Ht Hp [= <- <-]. split_and!; [done|by split_and!|]. intros b [= <-]. auto. Qed.

Lemma informs_check P o : informs P (check o) (fun _ F => P F).
Proof. destruct o as [e|]; [|by apply informs_ret]. eapply informs_post; [apply (informs_lift P (Err e))|by intros a F []]. Qed.

Lemma informs_guard P (b : bool) e : informs P (if b then sfail e else sret tt) (fun _ F => P F).
Proof. destruct b; [apply (informs_check P (Some e))|by apply informs_ret]. Qed.

(** A fresh entry is the only change to the register. *)
Lemma fresh_entry s f : tidy s -> facts s ⊆ <[next s := f]> (facts s) /\
  forall h g, <[next s := f]> (facts s) !! h = Some g -> h < S (next s).
Proof.
  intros Ht. assert (Hn : facts s !! next s = None).
  { destruct (facts s !! next s) as [g|] eqn:E; [|done]. specialize (Ht _ _ E). lia. }
  split; [by apply insert_subseteq|]. intros h g Hg. apply lookup_insert_Some in Hg as [[<- _]|[_ Hg]]; [lia|].
  specialize (Ht _ _ Hg). lia.
Qed.

Lemma informs_open P o : informs P (open_file o) (fun _ F => P F).
Proof.
  intros s r s' Ht Hp H. unfold open_file, open_as in H. destruct o as [e|]; injection H as <- <-.
  - split_and!; [done|by split_and!|discriminate].
  - split_and!; cbn; [|split_and!; cbn; [lia|done..]|done]. intros h f Hf. specialize (Ht h f Hf). cbn. lia.
Qed.

Lemma informs_entry P o f : stable P -> informs P (open_as (fun h => <[h := f]>) o) (fun h F => P F /\ F !! h = Some f).
Proof.
  intros HP s r s' Ht Hp H. unfold open_as in H. destruct o as [e|]; injection H as <- <-.
  - split_and!; [done|by split_and!|discriminate].
  - destruct (fresh_entry s f Ht) as [Hs Hd]. split_and!; cbn; [exact Hd|split_and!; cbn; [lia|done..]|].
    intros h [= <-]. split; [by eapply HP|apply lookup_insert_eq].
Qed.

Lemma informs_spawn P o cap files report : stable P ->
  informs P (spawn o cap files report) (fun p F => P F /\ F !! p = Some (FWorker files report)).
Proof.
  intros HP s r s' Ht Hp H. unfold spawn in H. destruct o as [e|]; injection H as <- <-.
  - split_and!; [done|by split_and!|discriminate].
  - destruct (fresh_entry s (FWorker files report) Ht) as [Hs Hd]. split_and!; cbn; [exact Hd|split_and!; cbn; [lia|done..]|].
    intros h [= <-]. split; [by eapply HP|apply lookup_insert_eq].
Qed.

Lemma informs_await P r p : informs P (await_ready r p) (fun _ F => P F /\ ready_error r = None).
Proof.
  intros s x s' Ht Hp H. unfold await_ready in H. destruct (ready_error r) as [e|]; injection H as <- <-;
    by split_and!.
Qed.

Lemma informs_close_now P h : informs P (close_now h) (fun _ F => P F).
Proof. intros s r s' Ht Hp [= <- <-]. by split_and!. Qed.

#[local] Hint Resolve quiet_close stable_true stable_at stable_and informs_check informs_open informs_guard informs_close_now : gate.

(** A step that adds nothing we follow. *)
Ltac follow := first [eapply informs_defer; [by auto with gate|] | eapply informs_unless; [by auto with gate|]
  | eapply informs_bind; [by auto with gate|intros ?]].

Lemma informs_read_file {A} P o (x : result A) : informs P (read_file o x) (fun a F => P F /\ x = Ok a).
Proof. unfold read_file. do 2 follow. apply informs_lift. Qed.

Lemma informs_peerProcess P env : informs P (peerProcess env) (fun _ F => P F).
Proof. unfold peerProcess. repeat follow. by apply informs_ret. Qed.

Lemma informs_sealed P env : informs P (sealedWorkerConfig env) (fun _ F => P F).
Proof. unfold sealedWorkerConfig. repeat follow. apply informs_open. Qed.

Lemma informs_write_budget P env l : informs P (write_budget env l) (fun _ F => P F).
Proof.
  induction l as [|kv l IH]; cbn [write_budget]; [by apply informs_ret|].
  eapply informs_bind; [|intros []; exact IH]. unfold writeGroup. do 2 follow. apply informs_check.
Qed.

Lemma informs_workerCgroup P env : informs P (workerCgroup env) (fun _ F => P F).
Proof.
  unfold workerCgroup. repeat follow. eapply informs_bind; [apply informs_write_budget|intros []]. by apply informs_ret.
Qed.

#[local] Hint Resolve informs_sealed informs_workerCgroup informs_read_file informs_peerProcess : gate.

(** The line of a worker that is ready. *)
Lemma ready_exactly r : ready_error r = None -> r = ReadLine ("READY" +:+ String (char 10) "") None.
Proof. unfold ready_error. destruct r as [line [e|]| |]; try discriminate. case_bool_decide as E; [|done]. by rewrite E. Qed.

(** What stands behind an instance: a capture of its cgroup, and a worker whose
    first descriptor is its namespace and which said it is ready. *)
Definition captured (F : gmap nat fact) (i : instance) : Prop :=
  F !! i_capture i = Some (FCapture (i_cgroup i)) /\
  exists rest, F !! i_process i = Some (FWorker (i_netns i :: rest) (ReadLine ("READY" +:+ String (char 10) "") None)).

Lemma informs_start P env cg ns key : stable P ->
  informs P (start env cg ns key)
    (fun i F => P F /\ captured F i /\ i_cgroup i = cg /\ i_netns i = ns /\ i_key i = key).
Proof.
  intros HP. unfold start. eapply informs_bind; [apply informs_lift|intros []].
  eapply informs_pre; [intros F [H _]; exact H|].
  eapply informs_bind; [by apply informs_entry|]. intros cap. cbn beta.
  repeat follow. eapply informs_bind; [apply informs_spawn; auto with gate|]. intros p. cbn beta. repeat follow.
  eapply informs_bind; [apply informs_await|]. intros []. cbn beta. apply informs_ret.
  intros F [[[Hp Hcap] Hw] Hr%ready_exactly]. rewrite Hr in Hw. split_and!; try done. cbn. split; [done|]. by eexists.
Qed.

(** The two handles of [processNetwork] have the inodes of the key. *)
Definition inodes (F : gmap nat fact) (cg ns : nat) (key : string) : Prop :=
  exists a b, F !! cg = Some (FNode (Ok a)) /\ F !! ns = Some (FNode (Ok b)) /\ key = capture_key a b.

Lemma informs_processNetwork P env unit : stable P ->
  informs P (processNetwork env unit) (fun '(cg, ns, key) F => P F /\ inodes F cg ns key).
Proof.
  intros HP. unfold processNetwork. eapply informs_bind; [apply informs_read_file|intros raw].
  eapply informs_pre; [intros F [H _]; exact H|]. eapply informs_bind; [apply informs_lift|intros path].
  eapply informs_pre; [intros F [H _]; exact H|]. eapply informs_bind; [by apply informs_entry|intros cg]. follow.
  eapply informs_bind; [apply informs_entry; auto with gate|intros ns]. follow.
  eapply informs_bind; [apply informs_lift|intros a]. eapply informs_bind; [apply informs_lift|intros b].
  eapply informs_bind; [apply informs_read_file|intros same]. follow. apply informs_ret.
  intros F [[[[[Hp Hcg] Hns] Ha] Hb] _]. cbn in *. rewrite Ha in Hcg. rewrite Hb in Hns. split; [done|]. by exists a, b.
Qed.

(** ** The instance of the controller *)
Definition backed (F : gmap nat fact) (i : instance) : Prop := captured F i /\ inodes F (i_cgroup i) (i_netns i) (i_key i).

Definition guarded (s : world) : Prop := tidy s /\ forall i, current s = Some i -> backed (facts s) i.

Lemma inodes_stable cg ns key : stable (fun F => inodes F cg ns key).
Proof.
  intros F F' Hs (a & b & Ha & Hb & Hk). exists a, b. split_and!; [..|done]; by eapply lookup_weaken.
Qed.

Lemma backed_stable i : stable (fun F => backed F i).
Proof.
  intros F F' Hs [[Hc (rest & Hw)] Hi]. split; [split; [|exists rest]; by eapply lookup_weaken|by eapply inodes_stable].
Qed.

Lemma guarded_extends s s' : guarded s -> tidy s' -> extends s s' -> guarded s'.
Proof.
  intros [_ Hb] Ht (_ & Hs & Hc). split; [done|]. rewrite Hc. intros i Hi. by apply (backed_stable i _ _ Hs), Hb.
Qed.

Lemma guarded_informs {A} P (m : M A) Q s r s' : informs P m Q -> P (facts s) -> guarded s -> m s = (r, s') ->
  guarded s' /\ forall a, r = Ok a -> Q a (facts s').
Proof.
  intros Hm Hp Hg H. destruct (Hm s r s' (proj1 Hg) Hp H) as (Ht & He & Hq). split; [by eapply guarded_extends|done].
Qed.

Lemma guarded_quiet f s : quiet f -> guarded s -> guarded (f s).
Proof. intros Hf Hg. destruct (quiet_tidy f s Hf (proj1 Hg)) as [Ht He]. by eapply guarded_extends. Qed.

Lemma guarded_none s : tidy s -> guarded (set_current s None).
Proof. intros Ht. by split. Qed.

Lemma quiet_instance_close i : quiet (instance_close i).
Proof. done. Qed.

Lemma informs_saveState P env i : informs P (saveState env i) (fun _ F => P F).
Proof.
  unfold saveState. eapply informs_bind; [apply informs_lift|intros path].
  eapply informs_bind with (R := fun _ F => P F).
  { intros s r s' Ht [Hp _] H. unfold createTemp in H. destruct (open_file (sv_temp env) s) as [[f|e|m] s1] eqn:Eo;
      injection H as <- <-; by destruct (informs_open P (sv_temp env) s _ s1 Ht Hp Eo) as (? & ? & ?). }
  intros f. eapply informs_defer; [done|]. eapply informs_bind; [follow; apply informs_check|]. intros []. follow.
  intros s r s' Ht Hp H. unfold rename_state in H. destruct (sv_rename env); injection H as <- <-; by split_and!.
Qed.

Lemma guarded_start env cg ns key s r s1 : guarded s -> inodes (facts s) cg ns key ->
  start env cg ns key s = (r, s1) ->
  guarded s1 /\ forall i, r = Ok i -> guarded (set_current s1 (Some i)).
Proof.
  intros Hg Hi H.
  destruct (guarded_informs _ _ _ _ _ _ (informs_start _ env cg ns key (inodes_stable cg ns key)) Hi Hg H) as [Hg1 Hq].
  split; [done|]. intros i Hr. destruct (Hq i Hr) as (Hin & Hc & <- & <- & <-).
  split; [exact (proj1 Hg1)|]. by intros j [= <-].
Qed.

Lemma guarded_start_and_save env cg ns key s r owned s' : guarded s -> inodes (facts s) cg ns key ->
  start_and_save env cg ns key s = (r, owned, s') -> guarded s'.
Proof.
  intros Hg Hi H. unfold start_and_save in H. destruct (start (pp_start env) cg ns key s) as [r1 s1] eqn:Es.
  destruct (guarded_start _ _ _ _ _ _ _ Hg Hi Es) as [Hg1 Hcur].
  destruct r1 as [i|e|m]; [|by injection H as _ _ <-..].
  destruct (saveState (pp_save env) i (set_current s1 (Some i))) as [r2 s2] eqn:Ev.
  destruct (guarded_informs _ _ _ _ _ _ (informs_saveState (fun _ => True) _ _) I (Hcur i eq_refl) Ev) as [Hg2 _].
  destruct r2; injection H as _ _ <-; [done| |done]. apply guarded_none, (guarded_quiet _ _ (quiet_instance_close i)), Hg2.
Qed.

Lemma guarded_prepare_locked env cg ns key s r owned s' : guarded s -> inodes (facts s) cg ns key ->
  prepare_locked env cg ns key s = (r, owned, s') -> guarded s'.
Proof.
  intros Hg Hi H. unfold prepare_locked in H.
  assert (Hclosed : forall i, guarded (set_current (instance_close i s) None)).
  { intros i. apply guarded_none, (guarded_quiet _ _ (quiet_instance_close i)), Hg. }
  destruct (current s) as [i|]; [|by eapply guarded_start_and_save].
  destruct (exited i s); [eapply guarded_start_and_save; [apply (Hclosed i)|done..]|].
  destruct (key =? i_key i); [by injection H as _ _ <-|]. destruct (populated _); [by injection H as _ _ <-|].
  eapply guarded_start_and_save; [apply (Hclosed i)|done..].
Qed.

Lemma guarded_prepare c_unit c_uid env s r s' : guarded s -> prepare c_unit c_uid env s = (r, s') -> guarded s'.
Proof.
  intros Hg H. unfold prepare in H. unfold sbind at 1 in H.
  destruct (peerProcess (pp_peer env) s) as [[[h u]|e|m] s1] eqn:Ep;
    destruct (guarded_informs _ _ _ _ _ _ (informs_peerProcess (fun _ => True) _) I Hg Ep) as [Hg1 _];
    [|by injection H as _ <-..].
  unfold defer in H. destruct (sbind _ _ s1) as [r2 s2] eqn:E2. injection H as _ <-. apply guarded_quiet; [done|].
  unfold sbind at 1 in E2. cbn [snd] in E2. destruct (u =? c_uid); cbn beta iota delta [sret sfail] in E2; [|by injection E2 as _ <-].
  unfold sbind in E2. destruct (processNetwork (pp_net env) c_unit s1) as [rn s3] eqn:En.
  destruct (guarded_informs _ _ _ _ _ _ (informs_processNetwork _ (pp_net env) c_unit stable_true) I Hg1 En) as [Hg3 Hq].
  destruct rn as [[[cg ns] key]|e|m]; [|by injection E2 as _ <-..]. destruct (Hq _ eq_refl) as [_ Hi].
  destruct (prepare_locked env cg ns key s3) as [[r4 owned] s4] eqn:E4. injection E2 as _ <-.
  pose proof (guarded_prepare_locked _ _ _ _ _ _ _ _ Hg3 Hi E4) as Hg4. destruct owned; [done|].
  by repeat (apply guarded_quiet; [done|]).
Qed.

Section runs.
Context (c_unit : string) (c_uid : Z).

Lemma guarded_recover_loop env key pids : forall s r s',
  guarded s -> recover_loop c_unit c_uid env key pids s = (r, s') -> guarded s'.
Proof.
  induction pids as [|pid pids IH]; intros s r s' Hg H; cbn [recover_loop] in H; [by injection H as _ <-|].
  destruct (parseUint 32 pid); [|by eapply IH]. cbv zeta in H. destruct (pi_open (rv_pid env pid)); [by eapply IH|].
  unfold sbind at 1 in H. destruct (open_file None s) as [ro s1] eqn:Eo.
  destruct (guarded_informs _ _ _ _ _ _ (informs_open (fun _ => True) None) I Hg Eo) as [Hg1 _].
  destruct ro as [proc|e|m]; [|by injection H as _ <-..].
  destruct (match pi_stat (rv_pid env pid) with Ok u => u <>? c_uid | _ => true end).
  { eapply IH; [|exact H]. by apply guarded_quiet. }
  destruct (processNetwork (pi_net (rv_pid env pid)) c_unit s1) as [rn s2] eqn:En.
  destruct (guarded_informs _ _ _ _ _ _ (informs_processNetwork _ _ c_unit stable_true) I Hg1 En) as [Hg2 Hq].
  destruct rn as [[[group ns] k]|e|m]; [|eapply IH; [|exact H]; by apply guarded_quiet..].
  destruct (Hq _ eq_refl) as [_ Hi]. unfold sbind at 1, close_now at 1 in H. cbn beta iota in H.
  destruct (k <>? key); [eapply IH; [|exact H]; by repeat (apply guarded_quiet; [done|])|].
  destruct (start (pi_start (rv_pid env pid)) group ns k (close_file proc s2)) as [rs s3] eqn:Es.
  destruct (guarded_start _ _ _ _ _ _ _ (guarded_quiet _ _ (quiet_close proc) Hg2) Hi Es) as [Hg3 Hcur].
  destruct rs as [i|e|m]; injection H as _ <-; [by apply Hcur|by repeat (apply guarded_quiet; [done|])|done].
Qed.

Lemma guarded_remove_state o s : guarded s -> guarded (snd (remove_state o s)).
Proof. intros Hg. by destruct o. Qed.

Lemma guarded_recover env s r s' : guarded s -> recover c_unit c_uid env s = (r, s') -> guarded s'.
Proof.
  intros Hg H. unfold recover in H. destruct (state_file s) as [content|]; [|by injection H as _ <-].
  unfold sbind at 1 in H. destruct (read_file (rv_open env) (decode_state content) s) as [r1 s1] eqn:E1.
  destruct (guarded_informs _ _ _ _ _ _ (informs_read_file (fun _ => True) _ _) I Hg E1) as [Hg1 _].
  destruct r1 as [st|e|m]; [|by injection H as _ <-..]. unfold sbind at 1 in H.
  destruct (saved_cgroup_ok (ss_Cgroup st)); cbn beta iota delta [sret sfail] in H; [|by injection H as _ <-].
  destruct (rv_cgroup env) as [|e|]; [|by injection H as _ <-|].
  { replace s' with (snd (remove_state (rv_remove env) s1)) by by rewrite H. by apply guarded_remove_state. }
  unfold sbind at 1 in H. destruct (open_file None s1) as [ro s2] eqn:Eo.
  destruct (guarded_informs _ _ _ _ _ _ (informs_open (fun _ => True) None) I Hg1 Eo) as [Hg2 _].
  destruct ro as [cg|e|m]; [|by injection H as _ <-..]. unfold defer in H. destruct (sbind _ _ s2) as [r3 s3] eqn:E3.
  injection H as _ <-. apply guarded_quiet; [done|]. unfold sbind in E3.
  destruct (read_file (rv_procs_open env) (rv_procs env) s2) as [r4 s4] eqn:E4.
  destruct (guarded_informs _ _ _ _ _ _ (informs_read_file (fun _ => True) _ _) I Hg2 E4) as [Hg4 _].
  destruct r4; [by eapply guarded_recover_loop|by injection E3 as _ <-..].
Qed.

Lemma guarded_reconcile_current env s : guarded s -> guarded (reconcile_current env s).
Proof.
  intros Hg. unfold reconcile_current. destruct (current s) as [i|] eqn:Hc; [|done].
  assert (Hclosed : forall j, guarded (set_current (instance_close j s) None)) by (intros j; by apply guarded_none, Hg).
  destruct (exited i s); [apply Hclosed|].
  destruct (expiredEmpty i (rc_events env) (rc_now env)) as [expired i'] eqn:Ee.
  destruct expired; [apply guarded_remove_state, Hclosed|]. destruct Hg as [Ht Hb]. split; [done|]. intros j [= <-].
  specialize (Hb i Hc). unfold expiredEmpty in Ee. by destruct (populated _); [|destruct (i_emptySince i)]; simplify_eq.
Qed.

Lemma guarded_step s s' : guarded s -> step c_unit c_uid s s' -> guarded s'.
Proof.
  intros Hg H. destruct H as [env|env Hnp|i Hc].
  - destruct (prepare c_unit c_uid env s) as [r s'] eqn:E. by eapply guarded_prepare.
  - pose proof (guarded_reconcile_current env s Hg) as Hg1. unfold reconcile. cbv zeta.
    destruct (current (reconcile_current env s)); [done|].
    destruct (recover c_unit c_uid (rc_recover env) (reconcile_current env s)) as [r s'] eqn:E. by eapply guarded_recover.
  - by apply guarded_quiet.
Qed.

Lemma guarded_steps s s' : guarded s -> rtc (step c_unit c_uid) s s' -> guarded s'.
Proof. intros Hg H. induction H as [|s1 s2 s3 H1 _ IH]; [done|]. apply IH. by eapply guarded_step. Qed.
End runs.

(** ** The gate *)

(** What an open gate means: for the peer, and for what stands behind it in
    the state [s']. *)
Record gate_open (c_unit : string) (c_uid : Z) (env : prepareEnv) (s' : world) : Prop := {
  go_uid : pe_uid (pp_peer env) = c_uid;
  go_alive : pe_alive1 (pp_peer env) = None /\ pe_alive2 (pp_peer env) = None;
  go_unit : exists raw path, ne_read (pp_net env) = Ok raw /\
    workloadCgroup (unified_path (limitReader 8192 raw)) c_unit = Ok path;
  go_instance : exists i cg ns host rest, current s' = Some i /\
    (* the peer's cgroup and namespace, which is not the host's *)
    ne_stat_cg (pp_net env) = Ok cg /\ ne_stat_ns (pp_net env) = Ok ns /\ ne_stat_host (pp_net env) = Ok host /\ host <> ns /\
    (* a capture attached to that cgroup *)
    facts s' !! i_capture i = Some (FCapture (i_cgroup i)) /\ facts s' !! i_cgroup i = Some (FNode (Ok cg)) /\
    (* a running worker of that capture, in that namespace, that is ready *)
    procs s' !! i_process i = Some (i_capture i) /\
    facts s' !! i_process i = Some (FWorker (i_netns i :: rest) (ReadLine ("READY" +:+ String (char 10) "") None)) /\
    facts s' !! i_netns i = Some (FNode (Ok ns)) /\
    (* and every handle of it is open *)
    handles i ⊆ opened s'
}.

(** C5: A gate passes only for a live peer of the configured user whose cgroup
    is attributed to the unit and whose network namespace is not the host's,
    and only with a capture attached to a cgroup of exactly the peer's inode and
    a running worker behind that capture which was started with a namespace of
    exactly the peer's inode as its first descriptor and answered with exactly
    the line READY. *)
Theorem gate_sound c_unit c_uid s0 s env s' :
  wf s0 -> temps s0 = ∅ -> procs s0 = ∅ -> current s0 = None -> facts s0 = ∅ -> rtc (step c_unit c_uid) s0 s ->
  prepare c_unit c_uid env s = (Ok tt, s') -> gate_open c_unit c_uid env s'.
Proof.
  intros Hw Ht Hp Hc Hf Hs H.
  assert (Hi : inv (opened s0) s).
  { eapply steps_inv; [|exact Hs]. split; [done|]. split; [done|]. by rewrite Hc. }
  assert (Hg : guarded s).
  { eapply guarded_steps; [|exact Hs]. split; [intros h f; by rewrite Hf, lookup_empty|by rewrite Hc]. }
  destruct (prepare_spec (opened s0) c_unit c_uid env s (Ok tt) s' Hi H) as [Hi' Hok].
  destruct (Hok eq_refl) as [Hu Ha (i & Hcur & [Hunit (cg & ns & host & Ecg & Ens & Eh & Hne & Hkey)] & Hrun)].
  destruct (guarded_prepare _ _ _ _ _ _ Hg H) as [_ Hb].
  destruct (Hb i Hcur) as [[Hcap (rest & Hwk)] (a & b & Fa & Fb & Hkey')].
  rewrite Hkey in Hkey'. apply capture_key_inj in Hkey' as [<- <-]. constructor; try done.
  exists i, cg, ns, host, rest. split_and!; try done. destruct Hi' as (_ & _ & Hx). rewrite Hcur in Hx.
  destruct Hx as [-> _]. set_solver +.
Qed.

Module GateExamples.
Import OwnershipExamples.

Lemma gate_sound_witness : gate_open unit 984 env w1.
Proof.
  exact (gate_sound unit 984 w0 w0 env w1 w0_wf eq_refl eq_refl eq_refl eq_refl (rtc_refl _ _) w1_run).
Defined.
End GateExamples.
