(* ===== verification/AgentSandbox.v ===== *)
(** * realm-agent: the worker's sandbox

    Models [src/pkgs/realm-agent/sandbox.go]: which host directories a worker
    may see ([workerSocketDirectories]) and the bootstrap that builds its root
    and drops privileges before it executes the worker ([sandboxWorker]).  The
    bootstrap is a sequence of system calls; their outcomes are inputs, the
    state is the log of those made, in order.  The deferred [config.Close] is
    not logged: a successful [Exec] never reaches it, and on an error the
    process ends right after it. *)

From Stdlib Require Import Sorting.Sorted.
From S2P Require Import Prelude GoStrings Json AgentConfig.

Open Scope Z_scope.
Open Scope go_scope.

(** ** [workerSocketDirectories] *)

(** Directories never exposed, and trees nothing below which is. *)
Definition protected : list string :=
  ["/"; "/run"; "/var"; "/var/run"; "/tmp"; "/etc"; "/nix"; "/proc"; "/sys"; "/dev"; "/run/realm-agent"].
Definition protected_trees : list string := ["/nix/"; "/proc/"; "/sys/"; "/dev/"; "/run/realm-agent/"].

Definition needs_directory (d : string) : bool :=
  existsb (fun p => d =? p) protected || existsb (fun p => hasPrefix d p) protected_trees.

Fixpoint collect_directories (sockets : list string) : result (list string) :=
  match sockets with
  | [] => Ok []
  | socket :: sockets' =>
      if socket =? "" then collect_directories sockets'
      else
        reject needs_directory (dir socket) with ErrNew "egress socket needs a dedicated directory";
        let! rest := collect_directories sockets' in
        Ok (dir socket :: rest)
  end.

(** [slices.Compact] on strings. *)
Fixpoint slices_Compact (l : list string) : list string :=
  match l with
  | [] => []
  | x :: l' =>
      match l' with
      | y :: _ => if x =? y then slices_Compact l' else x :: slices_Compact l'
      | [] => [x]
      end
  end.

Definition workerSocketDirectories (w : workload) : result (list string) :=
  let! directories := collect_directories (w_InternetSocket w :: (rt_Socket <$> w_Routes w)) in
  Ok (slices_Compact (slices_Sort directories)).

(** ** [sandboxWorker] *)
Inductive sysop :=
| JoinCgroup (fd : Z) | CloseCgroup (fd : Z) (* write our PID, close the handle *)
| SeekConfig (fd : Z) | Executable
| Umask | Mkdir (root : string) | Lstat (root : string)
| LockThread | Unshare | MakePrivate | MountTmpfs (root : string)
| OpenPath (src : string) (directory : bool) | MkdirAll (path : string) | CreateFile (path : string)
| BindMount (src target : string) | SetReadOnly (target : string) | ClosePath
| EvalSymlinks (path : string)
| MkdirOld (root : string) | Chdir (path : string) | PivotRoot | UnmountOld | RemoveOld | RemountReadOnly
| Setgroups | Setgid (gid : Z) | Setuid (uid : Z) | Capset | AmbientClear | NoNewPrivs
| CloseNamespace (fd : Z)
| Exec (path : string) (argv envp : list string).

#[export] Instance sysop_eq_dec : EqDecision sysop.
Proof. solve_decision. Defined.

Record sandboxEnv := SandboxEnv {
  sb_euid : Z;
  sb_config : Z -> string;                   (* what can be read from a descriptor *)
  sb_exe : string;
  sb_lstat : Z * Z;                          (* mode and owner of the root *)
  sb_ca : string;                            (* the CA bundle with links resolved *)
  sb_sys : sysop -> option error             (* [None] is success *)
}.

Record workerConfiguration := WorkerConfiguration { wc_Workload : workload; wc_CABundle : string }.
Definition workerConfiguration_fields : list (field workerConfiguration) :=
  [mk_field "workload" wc_Workload (fun c x => WorkerConfiguration x (wc_CABundle c)) (dec_struct false (workload_fields false));
   mk_field "caBundle" wc_CABundle (fun c x => WorkerConfiguration (wc_Workload c) x) dec_string].

Definition decode_worker (content : string) : result workerConfiguration :=
  match parse (limitReader (2 ^ 20) content) with
  | None => Err (ErrNew "json: syntax")
  | Some (v, _) =>
      match dec_struct false workerConfiguration_fields (WorkerConfiguration workload_zero "") v with
      | None => Err (ErrNew "json: cannot unmarshal")
      | Some wc => Ok wc
      end
  end.

Definition S_IFMT : Z := 61440.
Definition S_IFDIR : Z := 16384.
Definition unsafe_root (mode owner : Z) : bool :=
  (Z.land mode S_IFMT <>? S_IFDIR) || (owner <>? 0) || (Z.land mode 18 <>? 0).

Definition log : Type := list sysop.

Section sandbox.
Variable env : sandboxEnv.

Definition call (o : sysop) : SM log unit := fun l =>
  (match sb_sys env o with None => Ok tt | Some e => Err e end, l ++ [o]).

(** A call that cannot fail, or whose result is ignored. *)
Definition tell (o : sysop) : SM log unit := fun l => (Ok tt, l ++ [o]).

Fixpoint calls (ops : list sysop) : SM log unit :=
  match ops with
  | [] => sret tt
  | o :: ops' => run! call o; calls ops'
  end.

(** The named result is wrapped with the stage that was reached. *)
Definition in_stage {A} (stage : string) (m : SM log A) : SM log A := fun l =>
  match m l with
  | (Err e, l') => (Err (ErrWrap ("sandbox " +:+ stage) e), l')
  | r => r
  end.

Definition note (o : sysop) (l : log) : log := l ++ [o].

Definition bind_path (root src dst : string) (directory : bool) : SM log unit :=
  run! call (OpenPath src directory);
  defer (note ClosePath) (
    let target := path_join root dst in
    run! call (MkdirAll (dir target));
    run! call (if directory then MkdirAll target else CreateFile target);
    run! call (BindMount src target);
    call (SetReadOnly target)).

Fixpoint bind_all (root : string) (directories : list string) : SM log unit :=
  match directories with
  | [] => sret tt
  | d :: directories' => run! bind_path root d d true; bind_all root directories'
  end.

Definition guard (b : bool) (msg : string) : SM log unit := if b then sret tt else sfail (ErrNew msg).

Definition ca_target : string := "/etc/ssl/certs/ca-certificates.crt".

(** What the bootstrap executes, and with which environment. *)
Definition exec_argv (exe : string) : list string := [exe; "worker"].
Definition exec_env : list string :=
  ["GOMAXPROCS=2"; "SSL_CERT_FILE=/etc/ssl/certs/ca-certificates.crt"; "SSL_CERT_DIR=/nonexistent"].

Definition drop_ops (uid gid : Z) : list sysop :=
  [Setgroups; Setgid gid; Setuid uid; Capset; AmbientClear; NoNewPrivs].
Definition pivot_ops : list sysop :=
  [PivotRoot; Chdir "/"; UnmountOld; RemoveOld; RemountReadOnly].

Definition sandboxWorker (uid gid : Z) : SM log unit :=
  run! in_stage "join worker cgroup" (
    run! guard ((sb_euid env =? 0) && (0 <? uid) && (0 <? gid)) "sandbox requires root and unprivileged target IDs";
    defer (note (CloseCgroup 8)) (call (JoinCgroup 8)));
  do! input <- in_stage "read sealed configuration" (
    do! wc <- slift (decode_worker (sb_config env 6));
    do! w <- slift (validate (wc_Workload wc));
    run! call (SeekConfig 6);
    do! directories <- slift (workerSocketDirectories w);
    run! call Executable;
    run! guard (hasPrefix (sb_exe env) "/nix/store/") "sandbox executable must be in the immutable Nix store";
    sret (w, wc_CABundle wc, directories));
  let '(w, ca_bundle, directories) := input in
  let root := path_join (dir (w_Socket w)) "root" in
  run! in_stage "prepare minimal root" (
    run! tell Umask;
    run! calls [Mkdir root; Lstat root];
    run! guard (negb (unsafe_root (sb_lstat env).1 (sb_lstat env).2)) "unsafe worker sandbox directory";
    run! tell LockThread;
    calls [Unshare; MakePrivate; MountTmpfs root]);
  run! in_stage "bind declared paths" (
    run! bind_path root "/nix/store" "/nix/store" true;
    run! call (EvalSymlinks ca_bundle);
    run! bind_path root (sb_ca env) ca_target false;
    run! bind_all root directories;
    calls [MkdirOld root; Chdir root]);
  run! in_stage "pivot minimal root" (calls pivot_ops);
  run! in_stage "drop worker credentials" (
    run! calls (drop_ops uid gid);
    tell (CloseNamespace 3));
  in_stage "exec unprivileged worker" (call (Exec (sb_exe env) (exec_argv (sb_exe env)) exec_env)).
End sandbox.

(** ** The directories a worker sees *)
Lemma needs_directory_false d : needs_directory d = false <->
  d ∉ protected /\ Forall (fun p => hasPrefix d p = false) protected_trees.
Proof.
  unfold needs_directory. rewrite orb_false_iff, <- !not_true_iff_false, !existsb_exists, Forall_forall.
  setoid_rewrite bool_decide_eq_true. setoid_rewrite <- list_elem_of_In. split.
  - intros [H1 H2]. split; [naive_solver|]. intros p Hp. apply not_true_iff_false. naive_solver.
  - intros [H1 H2]. split; [naive_solver|]. intros (p & Hp & Hx). by rewrite (H2 p Hp) in Hx.
Qed.

Lemma collect_spec sockets l : collect_directories sockets = Ok l ->
  (forall d, d ∈ l <-> exists s, s ∈ sockets /\ s <> "" /\ d = dir s) /\ Forall (fun d => needs_directory d = false) l.
Proof.
  revert l. induction sockets as [|s sockets IH]; intros l H; cbn [collect_directories] in H.
  { injection H as <-. split; [|constructor]. intros d. split; [intros Hd; by apply elem_of_nil in Hd|].
    intros (s & Hs & _). by apply elem_of_nil in Hs. }
  destruct (s =? "") eqn:E; bprop.
  - destruct (IH l H) as [H1 H2]. split; [|done]. intros d. rewrite H1. setoid_rewrite elem_of_cons. naive_solver.
  - apply reject_Ok in H as [Hn H]. apply rbind_Ok in H as (rest & Hr & [= <-]). destruct (IH rest Hr) as [H1 H2].
    split; [|by constructor]. intros d. rewrite elem_of_cons, H1. setoid_rewrite elem_of_cons. naive_solver.
Qed.

Lemma compact_elem l d : d ∈ slices_Compact l <-> d ∈ l.
Proof.
  induction l as [|x [|y l] IH]; [done|done|]. cbn [slices_Compact].
  destruct (x =? y) eqn:E; bprop.
  - subst x. change (slices_Compact (y :: l)) with (slices_Compact (y :: l)) in IH. rewrite IH, !elem_of_cons. tauto.
  - rewrite elem_of_cons. cbn [slices_Compact] in IH. rewrite IH. by rewrite !elem_of_cons.
Qed.

Lemma compact_NoDup l : StronglySorted sle l -> NoDup (slices_Compact l).
Proof.
  induction 1 as [|x l Hl IH Hx]; [constructor|]. destruct l as [|y l].
  { apply NoDup_singleton. }
  change (NoDup (if x =? y then slices_Compact (y :: l) else x :: slices_Compact (y :: l))).
  destruct (x =? y) eqn:E; bprop; [done|]. constructor; [|done]. rewrite compact_elem, elem_of_cons.
  intros [?|Hin]; [done|]. apply E. apply String.leb_antisym.
  - by apply Forall_cons in Hx as [? _].
  - apply StronglySorted_inv in Hl as [_ Hy]. rewrite Forall_forall in Hy. by apply Hy.
Qed.

(** The sockets a policy names. *)
Definition policy_socket (w : workload) (s : string) : Prop :=
  s <> "" /\ (s = w_InternetSocket w \/ exists r, r ∈ w_Routes w /\ s = rt_Socket r).

(** A directory that holds more of the host than one socket. *)
Definition host_tree (d : string) : Prop :=
  d ∈ ["/"; "/run"; "/var"; "/var/run"; "/tmp"; "/etc"; "/nix"; "/proc"; "/sys"; "/dev"; "/run/realm-agent"] \/
  Exists (fun p => hasPrefix d p = true) ["/nix/"; "/proc/"; "/sys/"; "/dev/"; "/run/realm-agent/"].

Lemma needs_directory_tree d : needs_directory d = true <-> host_tree d.
Proof.
  unfold host_tree. rewrite <- (not_false_iff_true (needs_directory d)), needs_directory_false.
  change protected_trees with ["/nix/"; "/proc/"; "/sys/"; "/dev/"; "/run/realm-agent/"].
  assert (Hp : d ∈ protected <-> d ∈ ["/"; "/run"; "/var"; "/var/run"; "/tmp"; "/etc"; "/nix"; "/proc"; "/sys"; "/dev"; "/run/realm-agent"]).
  { rewrite !list_elem_of_In. cbn. tauto. }
  rewrite Hp, !Exists_cons, !Forall_cons, Exists_nil, Forall_nil, <- !not_true_iff_false.
  destruct (decide (d ∈ ["/"; "/run"; "/var"; "/var/run"; "/tmp"; "/etc"; "/nix"; "/proc"; "/sys"; "/dev"; "/run/realm-agent"])); [tauto|].
  destruct (hasPrefix d "/nix/"), (hasPrefix d "/proc/"), (hasPrefix d "/sys/"), (hasPrefix d "/dev/"),
    (hasPrefix d "/run/realm-agent/"); naive_solver.
Qed.

Lemma collect_total sockets : is_ok (collect_directories sockets) = true <->
  forall s, s ∈ sockets -> s <> "" -> ~ host_tree (dir s).
Proof.
  induction sockets as [|s sockets IH]; cbn [collect_directories]; [set_solver|].
  setoid_rewrite elem_of_cons. destruct (s =? "") eqn:E; bprop.
  { rewrite IH. naive_solver. }
  destruct (needs_directory (dir s)) eqn:En.
  - split; [discriminate|]. intros H. destruct (H s (or_introl eq_refl) E). by apply needs_directory_tree.
  - assert (Hs : ~ host_tree (dir s)) by (rewrite <- needs_directory_tree, En; discriminate).
    transitivity (is_ok (collect_directories sockets) = true); [by destruct (collect_directories sockets)|].
    rewrite IH. naive_solver.
Qed.

(** A policy is given its sockets' directories exactly when none of them
    is a system directory or lies below the store, the kernel file systems or
    the agent's own state; the worker then sees exactly the directories of the
    sockets the policy names, each once. *)
Theorem workerSocketDirectories_correct w :
  (is_ok (workerSocketDirectories w) = true <-> forall s, policy_socket w s -> ~ host_tree (dir s)) /\
  forall l, workerSocketDirectories w = Ok l ->
    NoDup l /\ forall d, d ∈ l <-> exists s, policy_socket w s /\ d = dir s.
Proof.
  unfold workerSocketDirectories, policy_socket. split.
  - transitivity (is_ok (collect_directories (w_InternetSocket w :: (rt_Socket <$> w_Routes w))) = true).
    { by destruct (collect_directories _). }
    rewrite collect_total. setoid_rewrite elem_of_cons. setoid_rewrite list_elem_of_fmap. naive_solver.
  - intros l H. apply rbind_Ok in H as (k & Hk & [= <-]). apply collect_spec in Hk as [H1 _].
    split; [by apply compact_NoDup, sort_sorted|].
    intros d. rewrite compact_elem, sort_perm, H1. setoid_rewrite elem_of_cons. setoid_rewrite list_elem_of_fmap.
    naive_solver.
Qed.

(** ** The order of the bootstrap *)
Definition infallible (o : sysop) : bool :=
  match o with Umask | LockThread | CloseNamespace _ | CloseCgroup _ | ClosePath => true | _ => false end.

Section order.
Context (env : sandboxEnv).

Definition succeeded (o : sysop) : Prop := infallible o = true \/ sb_sys env o = None.

(** Every call [m] makes satisfies [P], and on success they all succeeded. *)
Definition makes {A} (P : sysop -> Prop) (m : SM log A) : Prop :=
  forall l r l', m l = (r, l') ->
    exists k, l' = l ++ k /\ Forall P k /\ (is_ok r = true -> Forall succeeded k).

Lemma makes_lift {A} P (r : result A) : makes P (slift r).
Proof. intros l r' l' [= <- <-]. exists []. rewrite app_nil_r. by split_and!. Qed.

Lemma makes_guard P b msg : makes P (guard b msg).
Proof. unfold guard. destruct b; [apply (makes_lift P (Ok tt))|apply (makes_lift P (Err _))]. Qed.

Lemma makes_call (P : sysop -> Prop) o : P o -> makes P (call env o).
Proof.
  intros Ho l r l' [= <- <-]. exists [o]. split; [done|]. split; [by constructor|].
  destruct (sb_sys env o) eqn:E; [discriminate|]. intros _. constructor; [by right|constructor].
Qed.

Lemma makes_tell (P : sysop -> Prop) o : P o -> infallible o = true -> makes P (tell o).
Proof.
  intros Ho Hi l r l' [= <- <-]. exists [o]. split; [done|]. split; [by constructor|]. intros _.
  constructor; [by left|constructor].
Qed.

Lemma makes_bind {A B} P (m : SM log A) (k : A -> SM log B) :
  makes P m -> (forall a, makes P (k a)) -> makes P (sbind m k).
Proof.
  intros Hm Hk l r l' H. unfold sbind in H. destruct (m l) as [[a|e|p] l1] eqn:E.
  2,3: injection H as <- <-; destruct (Hm _ _ _ E) as (k1 & -> & H1 & _); exists k1; by split_and!.
  destruct (Hm _ _ _ E) as (k1 & -> & H1 & S1). destruct (Hk a _ _ _ H) as (k2 & -> & H2 & S2).
  exists (k1 ++ k2). rewrite app_assoc, !Forall_app. split_and!; try done. intros Hr. split; [by apply S1|by apply S2].
Qed.

Lemma makes_defer {A} P (m : SM log A) o : P o -> infallible o = true -> makes P m -> makes P (defer (note o) m).
Proof.
  intros Ho Hi Hm l r l' H. unfold defer in H. destruct (m l) as [r1 l1] eqn:E. injection H as <- <-.
  destruct (Hm _ _ _ E) as (k & -> & H1 & S1). exists (k ++ [o]). unfold note. rewrite app_assoc, Forall_app.
  split; [done|]. split; [split; [done|by constructor]|]. intros Hr. apply Forall_app.
  split; [by apply S1|]. constructor; [by left|constructor].
Qed.

Lemma makes_stage {A} P st (m : SM log A) : makes P m -> makes P (in_stage st m).
Proof.
  intros Hm l r l' H. unfold in_stage in H. destruct (m l) as [r1 l1] eqn:E.
  destruct (Hm _ _ _ E) as (k & -> & H1 & S1). exists k.
  destruct r1; injection H as <- <-; by split_and!.
Qed.

Lemma makes_calls P ops : Forall P ops -> makes P (calls env ops).
Proof.
  induction ops as [|o ops IH]; intros H; cbn [calls]; [apply (makes_lift P (Ok tt))|].
  apply Forall_cons in H as [Ho H]. apply makes_bind; [by apply makes_call|]. intros []. by apply IH.
Qed.

(** Anything but executing; binds only from the given sources. *)
Definition quiet (sources : list string) (o : sysop) : Prop :=
  match o with
  | Exec _ _ _ => False
  | BindMount src _ => src ∈ sources
  | _ => True
  end.

Lemma makes_bind_path sources root src dst directory :
  src ∈ sources -> makes (quiet sources) (bind_path env root src dst directory).
Proof.
  intros Hs. unfold bind_path. apply makes_bind; [by apply makes_call|]. intros []. apply makes_defer; [done|done|].
  apply makes_bind; [by apply makes_call|]. intros [].
  apply makes_bind; [apply makes_call; by destruct directory|]. intros [].
  apply makes_bind; [by apply makes_call|]. intros []. by apply makes_call.
Qed.

Lemma makes_bind_all sources root ds : ds ⊆ sources -> makes (quiet sources) (bind_all env root ds).
Proof.
  induction ds as [|d ds IH]; intros Hs; cbn [bind_all]; [apply (makes_lift _ (Ok tt))|].
  apply makes_bind; [apply makes_bind_path; set_solver|]. intros []. apply IH. set_solver.
Qed.

(** What a successful run of a straight line has logged. *)
Lemma calls_Ok ops : forall l l', calls env ops l = (Ok tt, l') ->
  l' = l ++ ops /\ Forall (fun o => sb_sys env o = None) ops.
Proof.
  induction ops as [|o ops IH]; intros l l' H; cbn [calls] in H.
  { injection H as <-. by rewrite app_nil_r. }
  apply sbind_Ok in H as ([] & l1 & Hc & H). unfold call in Hc. apply IH in H as [-> Hs].
  destruct (sb_sys env o) eqn:E; [discriminate Hc|]. injection Hc as <-. rewrite <- app_assoc. split; [done|]. by constructor.
Qed.

Lemma in_stage_Ok {A} st (m : SM log A) l a l' : in_stage st m l = (Ok a, l') -> m l = (Ok a, l').
Proof. unfold in_stage. by destruct (m l) as [[]]. Qed.

(** If a bind runs an action that never executes first, an execution in the
    log means the first part succeeded. *)
Lemma exec_after {A B} sources (m : SM log A) (k : A -> SM log B) l r l' :
  makes (quiet sources) m -> sbind m k l = (r, l') -> (forall o, o ∈ l -> quiet sources o) ->
  (exists p argv envp, Exec p argv envp ∈ l') ->
  exists a l1, m l = (Ok a, l1) /\ k a l1 = (r, l') /\ (forall o, o ∈ l1 -> quiet sources o) /\
    (Forall succeeded l -> Forall succeeded l1).
Proof.
  intros Hm H Hl (p & argv & envp & Hp). unfold sbind in H. destruct (m l) as [r1 l1] eqn:E.
  destruct (Hm _ _ _ E) as (k1 & -> & Hq & Hs). rewrite Forall_forall in Hq.
  assert (Hl1 : forall o, o ∈ l ++ k1 -> quiet sources o) by (intros o Ho; apply elem_of_app in Ho as [?|?]; auto).
  destruct r1 as [a|e|m1].
  - exists a, (l ++ k1). split_and!; try done. intros Hx. apply Forall_app. split; [done|by apply Hs].
  - injection H as _ <-. destruct (Hl1 _ Hp).
  - injection H as _ <-. destruct (Hl1 _ Hp).
Qed.
(** The calls a successful run of [m] appends to the log, in order. *)
Definition emits {A} (m : SM log A) (ops : list sysop) : Prop := forall l a l', m l = (Ok a, l') -> l' = l ++ ops.

Lemma emits_lift {A} (r : result A) : emits (slift r) [].
Proof. intros l a l' [= _ <-]. by rewrite app_nil_r. Qed.

Lemma emits_ret {A} (a : A) : emits (sret a) [].
Proof. apply (emits_lift (Ok a)). Qed.

Lemma emits_guard b msg : emits (guard b msg) [].
Proof. unfold guard. destruct b; [apply emits_ret|apply (emits_lift (Err _))]. Qed.

Lemma emits_call o : emits (call env o) [o].
Proof. intros l a l' H. by injection H as _ <-. Qed.

Lemma emits_tell o : emits (tell o) [o].
Proof. intros l a l' H. by injection H as _ <-. Qed.

Lemma emits_bind {A B} (m : SM log A) (k : A -> SM log B) o1 o2 :
  emits m o1 -> (forall a, emits (k a) o2) -> emits (sbind m k) (o1 ++ o2).
Proof. intros Hm Hk l b l' H. apply sbind_Ok in H as (a & l1 & ->%Hm & ->%Hk). by rewrite app_assoc. Qed.

Lemma emits_defer {A} (m : SM log A) o ops : emits m ops -> emits (defer (note o) m) (ops ++ [o]).
Proof.
  intros Hm l a l' H. unfold defer in H. destruct (m l) as [r l1] eqn:E. injection H as -> <-.
  rewrite (Hm _ _ _ E). unfold note. by rewrite app_assoc.
Qed.

Lemma emits_calls ops : emits (calls env ops) ops.
Proof. intros l [] l' H. by apply calls_Ok in H as [-> _]. Qed.

Lemma emits_stage {A} st (m : SM log A) ops : emits m ops -> emits (in_stage st m) ops.
Proof. intros Hm l a l' H. apply in_stage_Ok in H. eauto. Qed.

(** What binding one source read-only into the root takes. *)
Definition bound_ops (root src dst : string) (directory : bool) : list sysop :=
  let target := path_join root dst in
  [OpenPath src directory; MkdirAll (dir target); (if directory then MkdirAll target else CreateFile target);
   BindMount src target; SetReadOnly target; ClosePath].

Lemma emits_bind_path root src dst directory :
  emits (bind_path env root src dst directory) (bound_ops root src dst directory).
Proof.
  apply (emits_bind _ _ [_] [_; _; _; _; _]); [apply emits_call|]. intros []. apply (emits_defer _ _ [_; _; _; _]).
  apply (emits_bind _ _ [_] [_; _; _]); [apply emits_call|]. intros [].
  apply (emits_bind _ _ [_] [_; _]); [apply emits_call|]. intros [].
  apply (emits_bind _ _ [_] [_]); [apply emits_call|]. intros []. apply emits_call.
Qed.

Lemma emits_bind_all root ds : emits (bind_all env root ds) (concat ((fun d => bound_ops root d d true) <$> ds)).
Proof.
  induction ds as [|d ds IH]; [apply emits_ret|]. apply emits_bind; [apply emits_bind_path|]. by intros [].
Qed.
End order.

Lemma quiet_weaken sources sources' o : sources ⊆ sources' -> quiet sources o -> quiet sources' o.
Proof. destruct o; cbn; auto. Qed.

Section bootstrap.
Context (env : sandboxEnv) (uid gid : Z).

Definition read_input : SM log (workload * string * list string) :=
  in_stage "read sealed configuration" (
    do! wc <- slift (decode_worker (sb_config env 6));
    do! w <- slift (validate (wc_Workload wc));
    run! call env (SeekConfig 6);
    do! directories <- slift (workerSocketDirectories w);
    run! call env Executable;
    run! guard (hasPrefix (sb_exe env) "/nix/store/") "sandbox executable must be in the immutable Nix store";
    sret (w, wc_CABundle wc, directories)).

Lemma read_input_Ok l w ca dirs l' : read_input l = (Ok (w, ca, dirs), l') ->
  exists wc, decode_worker (sb_config env 6) = Ok wc /\ validate (wc_Workload wc) = Ok w /\
    workerSocketDirectories w = Ok dirs /\ hasPrefix (sb_exe env) "/nix/store/" = true /\ ca = wc_CABundle wc.
Proof.
  intros H. apply in_stage_Ok in H. apply sbind_Ok in H as (wc & l1 & [= Hwc _] & H).
  apply sbind_Ok in H as (w' & l2 & [= Hw _] & H). apply sbind_Ok in H as ([] & l3 & _ & H).
  apply sbind_Ok in H as (ds & l4 & [= Hd _] & H). apply sbind_Ok in H as ([] & l5 & _ & H).
  apply sbind_Ok in H as ([] & l6 & Hg & H). injection H as <- <- <- _. exists wc.
  unfold guard in Hg. destruct (hasPrefix (sb_exe env) "/nix/store/"); [done|discriminate Hg].
Qed.

Lemma join_ids l l' : in_stage "join worker cgroup" (
  run! guard ((sb_euid env =? 0) && (0 <? uid) && (0 <? gid)) "sandbox requires root and unprivileged target IDs";
  defer (note (CloseCgroup 8)) (call env (JoinCgroup 8))) l = (Ok tt, l') -> sb_euid env = 0 /\ 0 < uid /\ 0 < gid.
Proof.
  intros H. apply in_stage_Ok in H. apply sbind_Ok in H as ([] & l0 & Hg & _). unfold guard in Hg.
  destruct (_ && _) eqn:E; [|discriminate Hg]. by bprop.
Qed.

Lemma makes_read_input sources : makes env (quiet sources) read_input.
Proof.
  apply makes_stage. apply makes_bind; [apply makes_lift|]. intros wc. apply makes_bind; [apply makes_lift|]. intros w.
  apply makes_bind; [by apply makes_call|]. intros []. apply makes_bind; [apply makes_lift|]. intros ds.
  apply makes_bind; [by apply makes_call|]. intros []. apply makes_bind; [apply makes_guard|]. intros [].
  apply (makes_lift _ _ (Ok _)).
Qed.

Lemma makes_join sources : makes env (quiet sources) (in_stage "join worker cgroup" (
  run! guard ((sb_euid env =? 0) && (0 <? uid) && (0 <? gid)) "sandbox requires root and unprivileged target IDs";
  defer (note (CloseCgroup 8)) (call env (JoinCgroup 8)))).
Proof.
  apply makes_stage. apply makes_bind; [apply makes_guard|]. intros []. apply makes_defer; [done|done|].
  by apply makes_call.
Qed.

Lemma makes_root sources root : makes env (quiet sources) (in_stage "prepare minimal root" (
  run! tell Umask;
  run! calls env [Mkdir root; Lstat root];
  run! guard (negb (unsafe_root (sb_lstat env).1 (sb_lstat env).2)) "unsafe worker sandbox directory";
  run! tell LockThread;
  calls env [Unshare; MakePrivate; MountTmpfs root])).
Proof.
  apply makes_stage. apply makes_bind; [by apply makes_tell|]. intros [].
  apply makes_bind; [apply makes_calls; by repeat constructor|]. intros [].
  apply makes_bind; [apply makes_guard|]. intros []. apply makes_bind; [by apply makes_tell|]. intros [].
  apply makes_calls. by repeat constructor.
Qed.

Lemma makes_binds root ca dirs :
  makes env (quiet ("/nix/store" :: sb_ca env :: dirs)) (in_stage "bind declared paths" (
    run! bind_path env root "/nix/store" "/nix/store" true;
    run! call env (EvalSymlinks ca);
    run! bind_path env root (sb_ca env) ca_target false;
    run! bind_all env root dirs;
    calls env [MkdirOld root; Chdir root])).
Proof.
  apply makes_stage. apply makes_bind; [apply makes_bind_path; set_solver|]. intros [].
  apply makes_bind; [by apply makes_call|]. intros []. apply makes_bind; [apply makes_bind_path; set_solver|]. intros [].
  apply makes_bind; [apply makes_bind_all; set_solver|]. intros []. apply makes_calls. by repeat constructor.
Qed.

Lemma makes_drop sources : makes env (quiet sources) (in_stage "drop worker credentials" (
  run! calls env (drop_ops uid gid);
  tell (CloseNamespace 3))).
Proof.
  apply makes_stage. apply makes_bind; [apply makes_calls; by repeat constructor|]. intros []. by apply makes_tell.
Qed.

Lemma emits_join : emits (in_stage "join worker cgroup" (
  run! guard ((sb_euid env =? 0) && (0 <? uid) && (0 <? gid)) "sandbox requires root and unprivileged target IDs";
  defer (note (CloseCgroup 8)) (call env (JoinCgroup 8)))) [JoinCgroup 8; CloseCgroup 8].
Proof.
  apply emits_stage, (emits_bind _ _ [] [_; _]); [apply emits_guard|]. intros []. apply (emits_defer _ _ [_]), emits_call.
Qed.

Lemma emits_read_input : emits read_input [SeekConfig 6; Executable].
Proof.
  apply emits_stage, (emits_bind _ _ [] [_; _]); [apply emits_lift|]. intros wc.
  apply (emits_bind _ _ [] [_; _]); [apply emits_lift|]. intros w.
  apply (emits_bind _ _ [_] [_]); [apply emits_call|]. intros [].
  apply (emits_bind _ _ [] [_]); [apply emits_lift|]. intros ds.
  apply (emits_bind _ _ [_] []); [apply emits_call|]. intros [].
  apply (emits_bind _ _ [] []); [apply emits_guard|]. intros []. apply emits_ret.
Qed.

Definition root_ops (root : string) : list sysop :=
  [Umask; Mkdir root; Lstat root; LockThread; Unshare; MakePrivate; MountTmpfs root].

Lemma root_Ok root l l' : in_stage "prepare minimal root" (
  run! tell Umask;
  run! calls env [Mkdir root; Lstat root];
  run! guard (negb (unsafe_root (sb_lstat env).1 (sb_lstat env).2)) "unsafe worker sandbox directory";
  run! tell LockThread;
  calls env [Unshare; MakePrivate; MountTmpfs root]) l = (Ok tt, l') ->
  l' = l ++ root_ops root /\ unsafe_root (sb_lstat env).1 (sb_lstat env).2 = false.
Proof.
  intros H. apply in_stage_Ok in H. apply sbind_Ok in H as ([] & l1 & ->%emits_tell & H).
  apply sbind_Ok in H as ([] & l2 & ->%emits_calls & H). apply sbind_Ok in H as ([] & l3 & Hg & H).
  pose proof (emits_guard _ _ _ _ _ Hg) as ->. apply sbind_Ok in H as ([] & l4 & ->%emits_tell & ->%emits_calls).
  rewrite app_nil_r, <- !app_assoc. split; [done|]. unfold guard in Hg. by destruct (unsafe_root _ _).
Qed.

(** Everything mounted into the root: the store, the CA bundle, the directories. *)
Definition mount_ops (root ca : string) (dirs : list string) : list sysop :=
  bound_ops root "/nix/store" "/nix/store" true ++ [EvalSymlinks ca] ++ bound_ops root (sb_ca env) ca_target false ++
  concat ((fun d => bound_ops root d d true) <$> dirs).

Lemma emits_binds root ca dirs : emits (in_stage "bind declared paths" (
    run! bind_path env root "/nix/store" "/nix/store" true;
    run! call env (EvalSymlinks ca);
    run! bind_path env root (sb_ca env) ca_target false;
    run! bind_all env root dirs;
    calls env [MkdirOld root; Chdir root])) (mount_ops root ca dirs ++ [MkdirOld root; Chdir root]).
Proof.
  unfold mount_ops. rewrite <- !app_assoc. apply emits_stage, emits_bind; [apply emits_bind_path|]. intros [].
  apply emits_bind; [apply emits_call|]. intros []. apply emits_bind; [apply emits_bind_path|]. intros [].
  apply emits_bind; [apply emits_bind_all|]. intros []. apply emits_calls.
Qed.

(** What a bootstrap that executes the worker has done. *)
Lemma sandbox_trace r l :
  sandboxWorker env uid gid [] = (r, l) -> (exists p argv envp, Exec p argv envp ∈ l) ->
  exists wc w dirs, let root := path_join (dir (w_Socket w)) "root" in
    decode_worker (sb_config env 6) = Ok wc /\ validate (wc_Workload wc) = Ok w /\ workerSocketDirectories w = Ok dirs /\
    sb_euid env = 0 /\ 0 < uid /\ 0 < gid /\ hasPrefix (sb_exe env) "/nix/store/" = true /\
    unsafe_root (sb_lstat env).1 (sb_lstat env).2 = false /\
    exists before, l = before ++ [Exec (sb_exe env) [sb_exe env; "worker"]
        ["GOMAXPROCS=2"; "SSL_CERT_FILE=/etc/ssl/certs/ca-certificates.crt"; "SSL_CERT_DIR=/nonexistent"]] /\ Forall (succeeded env) before /\
      before = [JoinCgroup 8; CloseCgroup 8; SeekConfig 6; Executable] ++
        [Umask; Mkdir root; Lstat root; LockThread; Unshare; MakePrivate; MountTmpfs root] ++
        mount_ops root (wc_CABundle wc) dirs ++ [MkdirOld root; Chdir root] ++
        [PivotRoot; Chdir "/"; UnmountOld; RemoveOld; RemountReadOnly] ++
        [Setgroups; Setgid gid; Setuid uid; Capset; AmbientClear; NoNewPrivs; CloseNamespace 3].
Proof.
  intros H Hex. unfold sandboxWorker in H. fold read_input in H.
  destruct (exec_after env [] _ _ _ _ _ (makes_join []) H) as ([] & l1 & H1 & H2 & Q1 & S1); [set_solver|done|].
  destruct (exec_after env [] _ _ _ _ _ (makes_read_input []) H2 Q1 Hex) as ([[w ca] dirs] & l2 & H3 & H4 & Q2 & S2).
  destruct (read_input_Ok _ _ _ _ _ H3) as (wc & Hwc & Hw & Hd & Hexe & ->).
  assert (Q2' : forall o, o ∈ l2 -> quiet ("/nix/store" :: sb_ca env :: dirs) o).
  { intros o Ho. apply (quiet_weaken []); [set_solver|by apply Q2]. }
  destruct (exec_after env _ _ _ _ _ _ (makes_root _ _) H4 Q2' Hex) as ([] & l3 & H3' & H5 & Q3 & S3).
  destruct (exec_after env _ _ _ _ _ _ (makes_binds _ _ _) H5 Q3 Hex) as ([] & l4 & H4' & H6 & Q4 & S4).
  destruct (exec_after env ("/nix/store" :: sb_ca env :: dirs) _ _ _ _ _
    (makes_stage env _ _ _ (makes_calls env (quiet _) pivot_ops ltac:(by repeat constructor))) H6 Q4 Hex)
    as ([] & l5 & H7 & H8 & Q5 & S5).
  destruct (exec_after env ("/nix/store" :: sb_ca env :: dirs) _ _ _ _ _
    (makes_drop _) H8 Q5 Hex) as ([] & l6 & H9 & H10 & Q6 & S6).
  assert (Hall := S6 (S5 (S4 (S3 (S2 (S1 ltac:(constructor))))))).
  destruct (join_ids _ _ H1) as (He & Hu & Hg). apply root_Ok in H3' as [E3 Hroot].
  apply emits_join in H1. apply emits_read_input in H3. apply emits_binds in H4'.
  apply in_stage_Ok, emits_calls in H7. apply in_stage_Ok in H9. apply sbind_Ok in H9 as ([] & l7 & H9%emits_calls & H11).
  injection H11 as E6. exists wc, w, dirs. cbv zeta. split_and!; try done. exists l6. split; [|split; [done|]].
  - unfold in_stage, call in H10. by destruct (sb_sys env (Exec _ _ _)); injection H10 as _ <-.
  - subst. by rewrite <- !app_assoc.
Qed.

(** C14: The bootstrap executes the worker only as its very last act and with
    every call before it successful.  By then, in this order, it has joined the
    worker cgroup through descriptor 8 and closed that writable handle, read the
    sealed configuration from descriptor 6,
    checked that the root directory is safe, left the mount namespace of the
    host, bound the store, the CA bundle and the directories of the validated
    policy read-only and nothing else, pivoted into that root, detached and
    removed the old one and made it read-only, and given up supplementary
    groups, group, user, capabilities, ambient capabilities and new privileges
    for the configured unprivileged user and group, and closed descriptor 3; it
    executes itself as the worker with a fixed environment. *)
Theorem sandbox_exec_last r l :
  sandboxWorker env uid gid [] = (r, l) -> (exists p argv envp, Exec p argv envp ∈ l) ->
  exists wc w dirs, let root := path_join (dir (w_Socket w)) "root" in
    decode_worker (sb_config env 6) = Ok wc /\ validate (wc_Workload wc) = Ok w /\ workerSocketDirectories w = Ok dirs /\
    sb_euid env = 0 /\ 0 < uid /\ 0 < gid /\ hasPrefix (sb_exe env) "/nix/store/" = true /\
    unsafe_root (sb_lstat env).1 (sb_lstat env).2 = false /\
    exists before, l = before ++ [Exec (sb_exe env) [sb_exe env; "worker"]
        ["GOMAXPROCS=2"; "SSL_CERT_FILE=/etc/ssl/certs/ca-certificates.crt"; "SSL_CERT_DIR=/nonexistent"]] /\ Forall (succeeded env) before /\
      before = [JoinCgroup 8; CloseCgroup 8; SeekConfig 6; Executable] ++
        [Umask; Mkdir root; Lstat root; LockThread; Unshare; MakePrivate; MountTmpfs root] ++
        mount_ops root (wc_CABundle wc) dirs ++ [MkdirOld root; Chdir root] ++
        [PivotRoot; Chdir "/"; UnmountOld; RemoveOld; RemountReadOnly] ++
        [Setgroups; Setgid gid; Setuid uid; Capset; AmbientClear; NoNewPrivs; CloseNamespace 3].
Proof. apply sandbox_trace. Qed.
End bootstrap.

(** ** A concrete bootstrap *)
Module SandboxExamples.
Import ConfigExamples.
Definition config : string := dq
  "{'workload':{'name':'matrix','user':'synapse','group':'synapse','workerUser':'adapter','socket':'/run/realm/matrix/control.sock','internetSocket':'/run/egress/internet.sock','internetPorts':[443],'routes':[{'prefix':'fdcc::/16','port':443,'socket':'/run/egress/broad.sock'}]},'caBundle':'/etc/ssl/certs/ca-certificates.crt'}".
Definition env : sandboxEnv :=
  SandboxEnv 0 (fun fd => if fd =? 6 then config else "") "/nix/store/x-realm-agent/bin/realm-agent" (16877, 0) "/nix/store/y-cacert/ca.crt" (fun _ => None).
Definition run : result unit * log := Eval vm_compute in sandboxWorker env 985 984 [].
(** The same with a failing [setuid]. *)
Definition no_setuid : sandboxEnv :=
  SandboxEnv 0 (fun fd => if fd =? 6 then config else "") "/nix/store/x-realm-agent/bin/realm-agent" (16877, 0) "/nix/store/y-cacert/ca.crt"
    (fun o => if o =? Setuid 985 then Some (ErrNew "EPERM") else None).

Lemma run_eq : sandboxWorker env 985 984 [] = (fst run, snd run).
Proof. vm_compute. reflexivity. Qed.

Lemma run_execs : exists p argv envp, Exec p argv envp ∈ snd run.
Proof.
  exists "/nix/store/x-realm-agent/bin/realm-agent", (exec_argv "/nix/store/x-realm-agent/bin/realm-agent"), exec_env. apply list_elem_of_In. vm_compute. tauto.
Qed.

Lemma sandbox_exec_last_witness : exists before,
  snd run = before ++ [Exec "/nix/store/x-realm-agent/bin/realm-agent" ["/nix/store/x-realm-agent/bin/realm-agent"; "worker"]
    ["GOMAXPROCS=2"; "SSL_CERT_FILE=/etc/ssl/certs/ca-certificates.crt"; "SSL_CERT_DIR=/nonexistent"]] /\ Forall (succeeded env) before.
Proof.
  destruct (sandbox_exec_last env 985 984 (fst run) (snd run) run_eq run_execs)
    as (wc & w & dirs & _ & _ & _ & _ & _ & _ & _ & _ & before & H & Hs & _).
  exists before. exact (conj H Hs).
Defined.

Example setuid_failure : is_ok (fst (sandboxWorker no_setuid 985 984 [])) = false /\
  last (snd (sandboxWorker no_setuid 985 984 [])) = Some (Setuid 985).
Proof. vm_compute. done. Qed.

Lemma matrix_directories : workerSocketDirectories matrix' = Ok ["/run/egress"].
Proof. vm_compute. reflexivity. Qed.

Example exposed_run : is_ok (workerSocketDirectories (set_InternetSocket matrix' "/run/internet.sock")) = false.
Proof. vm_compute. reflexivity. Qed.
End SandboxExamples.
