(* ===== verification/AgentServe.v ===== *)
(** * realm-agent: start of the host service and of a worker

    Models [serve], [numericUser] and [numericGroup] of
    [src/pkgs/realm-agent/agent.go], [delegatedWorkerRoot] of [resources.go], the
    set-up in [runWorker] of [worker.go] and [run] of [main.go].  Each is a
    sequence of system calls whose outcomes are inputs; the log holds the calls
    that succeeded, in order. *)

From S2P Require Import Prelude GoStrings GoFlag Json NetIP AgentConfig AgentWorker AgentBPF AgentDNS AgentCgroup AgentController AgentSandbox ActionLog.

Open Scope Z_scope.
Open Scope go_scope.

(** ** [delegatedWorkerRoot] *)
Inductive group_action := OpenGroup (path : string) | CloseGroup (path : string) | WriteGroup (path name value : string).

Record delegationEnv := DelegationEnv {
  de_cgroup : result string; de_open : string -> option error; de_write : string -> string -> option error;
  de_order : list (string * string)    (* the order in which the map is ranged over *)
}.

Definition supervisor_budget : list (string * string) :=
  [("memory.max", "268435456"); ("memory.swap.max", "0"); ("pids.max", "128")].

Definition cgroupfs : string := "/sys/fs/cgroup".

Fixpoint write_groups (env : delegationEnv) (path : string) (l : list (string * string)) : SM (list group_action) unit :=
  match l with
  | [] => sret tt
  | (name, value) :: l' => run! act (WriteGroup path name value) (de_write env path name); write_groups env path l'
  end.

Definition add_action {A} (a : A) (log : list A) : list A := log ++ [a].

Definition wrap_error {S A} (msg : string) (m : SM S A) : SM S A := fun s =>
  match m s with (Err e, s') => (Err (ErrWrap msg e), s') | r => r end.

(** The limits of the subgroup the process runs in. *)
Definition limit_supervisor (env : delegationEnv) (supervisor : string) : SM (list group_action) unit :=
  run! act (OpenGroup supervisor) (de_open env supervisor);
  defer (add_action (CloseGroup supervisor)) (write_groups env supervisor (de_order env)).

Definition delegatedWorkerRoot (env : delegationEnv) : SM (list group_action) string :=
  do! raw <- slift (de_cgroup env);
  do! unit_dir <- slift (supervisor_path raw);
  let root := cgroupfs +:+ unit_dir in
  run! act (OpenGroup root) (de_open env root);
  defer_unless_ok (add_action (CloseGroup root)) (
    run! wrap_error "enable delegated worker controllers"
      (act (WriteGroup root "cgroup.subtree_control" "+cpu +memory +pids") (de_write env root "cgroup.subtree_control"));
    run! limit_supervisor env (cgroupfs +:+ trimSpace (trimPrefix raw "0::"));
    sret root).

(** ** Accounts *)
Definition numericUser (lookup : string -> result string) (name : string) : result Z :=
  let! uid := lookup name in
  match atoi uid with Some n => Ok n | None => Err (ErrNew "strconv.Atoi") end.
Definition numericGroup : (string -> result string) -> string -> result Z := numericUser.

(** ** [serve] *)

(** What is at the path of a control socket. *)
Inductive at_path := Nothing | ASocket | SomethingElse | Unreadable (e : error).

Record serveEnv := ServeEnv {
  se_euid : Z; se_user : string -> result string; se_group : string -> result string;
  se_mkdir : string -> option error; se_chown : string -> option error; se_lstat : string -> at_path; se_remove : string -> option error;
  se_listen : string -> option error; se_chmod : string -> option error
}.

Inductive serve_action :=
| MkdirAll (path : string) (mode : Z)
| Chown (path : string) (uid gid : Z)
| Remove (path : string)
| ListenUnix (path : string)
| Chmod (path : string) (mode : Z)
| StartController (a : account)
| NotifyReady
| CloseListener (path : string)
| CloseController (a : account)
| GroupAction (g : group_action).

(** The log, and the slices [listeners] and [controllers] of [serve]. *)
Record serving := Serving { sv_log : list serve_action; sv_listeners : list string; sv_controllers : list account }.

Definition add_logged (l : list serve_action) (s : serving) : serving :=
  Serving (sv_log s ++ l) (sv_listeners s) (sv_controllers s).
Definition append_listener (path : string) : SM serving unit := fun s =>
  (Ok tt, Serving (sv_log s) (sv_listeners s ++ [path]) (sv_controllers s)).
Definition append_controller (a : account) : SM serving unit := fun s =>
  (Ok tt, Serving (sv_log s) (sv_listeners s) (sv_controllers s ++ [a])).
Definition controllers : SM serving (list account) := fun s => (Ok (sv_controllers s), s).

(** Calls that only add to the log, and those of [delegatedWorkerRoot]. *)
Definition logging {A} (m : SM (list serve_action) A) : SM serving A := fun s =>
  let '(r, log) := m [] in (r, add_logged log s).
Definition grouping {A} (m : SM (list group_action) A) : SM serving A := fun s =>
  let '(r, log) := m [] in (r, add_logged (GroupAction <$> log) s).

Section serve.
Context (env : serveEnv).

(** A socket left over from an earlier run is removed, anything else is not. *)
Definition clear_path (path : string) : SM (list serve_action) unit :=
  match se_lstat env path with
  | ASocket => act (Remove path) (se_remove env path)
  | SomethingElse => sfail (ErrNew "control path is not a socket")
  | Nothing => sret tt
  | Unreadable e => sfail e
  end.

(** The directory of a control socket, and the path of the socket free. *)
Definition clear_gate (w : workload) (gid : Z) : SM (list serve_action) unit :=
  run! act (MkdirAll (dir (w_Socket w)) 488) (se_mkdir env (dir (w_Socket w)));
  run! act (Chown (dir (w_Socket w)) 0 gid) (se_chown env (dir (w_Socket w)));
  clear_path (w_Socket w).

Definition restrict_gate (w : workload) (gid : Z) : SM (list serve_action) unit :=
  run! act (Chown (w_Socket w) 0 gid) (se_chown env (w_Socket w));
  act (Chmod (w_Socket w) 432) (se_chmod env (w_Socket w)).

Definition open_gate (w : workload) (gid : Z) : SM serving unit :=
  run! logging (clear_gate w gid);
  run! logging (act (ListenUnix (w_Socket w)) (se_listen env (w_Socket w)));
  run! append_listener (w_Socket w);
  logging (restrict_gate w gid).

Definition account_of (w : workload) : result account :=
  let! uid := numericUser (se_user env) (w_User w) in
  let! gid := numericGroup (se_group env) (w_Group w) in
  let! workerUID := numericUser (se_user env) (w_WorkerUser w) in
  Ok (Account uid gid workerUID (w_Unit w)).

Fixpoint serve_workloads (l : list workload) : SM serving unit :=
  match l with
  | [] => logging (act NotifyReady None)
  | w :: l' =>
      do! a <- slift (account_of w);
      do! others <- controllers;
      run! slift (admit_account others a);
      run! open_gate w (ac_gid a);
      run! append_controller a;
      run! logging (act (StartController a) None);
      serve_workloads l'
  end.

(** The deferred clean-up: the listeners of the slice, then the controllers. *)
Definition serve_cleanup (s : serving) : serving :=
  add_logged (CloseController <$> sv_controllers s) (add_logged (CloseListener <$> sv_listeners s) s).

(** From the check of the user to the return. *)
Definition serve (groups : delegationEnv) (config : list workload) : SM serving unit :=
  if se_euid env <>? 0 then sfail (ErrNew "serve requires host root privileges")
  else
    do! root <- grouping (delegatedWorkerRoot groups);
    defer (add_logged [GroupAction (CloseGroup root)]) (defer serve_cleanup (serve_workloads config)).
End serve.

(** ** [runWorker]: from the start to readiness *)
Inductive worker_action :=
| WatchLease (fd : Z)
| OpenMap (fd : Z)
| DropPrivileges (option_ : string)
| ListenDNS (socket : string * Z)
| ListenTCP (network : string) (port : Z)
| AcceptLoop (network : string)
| WriteReady (fd : Z)
| CloseTCP (network : string)
| CloseDNS.

Record workerEnv := WorkerEnv {
  we_config : Z -> string; we_map : Z -> option error; we_euid : Z; we_prctl : string -> option error; we_interfaces : result (list iface);
  we_udp : string * Z -> bool; we_tcp : string -> option error; we_ready : Z -> option error
}.

(** The first JSON value of the configuration file. *)
Definition decode_config (content : string) : result workerConfiguration :=
  match parse content with
  | None => Err (ErrNew "json: syntax")
  | Some (v, _) =>
      match dec_struct false workerConfiguration_fields (WorkerConfiguration workload_zero "") v with
      | None => Err (ErrNew "json: cannot unmarshal")
      | Some wc => Ok wc
      end
  end.

Definition guarded {S} (b : bool) (msg : string) : SM S unit := if b then sret tt else sfail (ErrNew msg).

Fixpoint logs_all {A} (l : list A) : SM (list A) unit :=
  match l with [] => sret tt | a :: l' => run! act a None; logs_all l' end.

(** The listeners for both families; the first is closed when the second
    cannot be opened. *)
Definition listen_tcp (env : workerEnv) (port : Z) : SM (list worker_action) unit :=
  run! act (ListenTCP "tcp4" port) (we_tcp env "tcp4");
  defer_unless_ok (add_action (CloseTCP "tcp4")) (act (ListenTCP "tcp6" port) (we_tcp env "tcp6")).

Definition worker_serve (env : workerEnv) (w : workload) : SM (list worker_action) unit :=
  run! listen_tcp env (w_TCPPort w);
  run! logs_all [AcceptLoop "tcp4"; AcceptLoop "tcp6"];
  act (WriteReady 5) (we_ready env 5).

(** Up to the wait for the end of the context; [Ok] when the worker runs. *)
Definition runWorker (env : workerEnv) : SM (list worker_action) unit :=
  run! act (WatchLease 7) None;
  do! wc <- slift (decode_config (we_config env 6));
  do! w <- slift (validate (wc_Workload wc));
  run! act (OpenMap 4) (we_map env 4);
  run! guarded (we_euid env <>? 0) "worker must not run as root";
  run! act (DropPrivileges "PR_SET_NO_NEW_PRIVS") (we_prctl env "PR_SET_NO_NEW_PRIVS");
  run! act (DropPrivileges "PR_SET_DUMPABLE") (we_prctl env "PR_SET_DUMPABLE");
  do! interfaces <- slift (we_interfaces env);
  run! slift (check_interfaces interfaces);
  do! sockets <- slift (startDNS (we_udp env) (w_DNSBase w)).1;
  run! logs_all (ListenDNS <$> sockets);
  defer_unless_ok (add_action CloseDNS) (worker_serve env w).

(** ** [main.go] *)
Inductive command :=
| Sandbox (uid gid : Z) | Worker | Gate (socket : string) | Serve (workloads : list workload)
| Validated (workloads : list workload) | CheckKernel (cgroup : string).

(** The options after [flag.Parse]; positional arguments are ignored. *)
Record options := Options { o_config : string; o_socket : string; o_uid : Z; o_gid : Z; o_cgroup : string }.

Definition parse_options (args : list string) : result options :=
  let! parsed := parseFlagsInt ["config"; "socket"; "cgroup"] [("uid", 0); ("gid", 0)] args in
  let values := parsed.1 in
  let text name := default "" (values !! name) in
  Ok (Options (text "config") (text "socket") (int_value values "uid") (int_value values "gid") (text "cgroup")).

(** What [check-kernel] sees of the cgroup: the open, whether it is the root of
    the hierarchy, and the content of [cgroup.events]. *)
Record kernelEnv := KernelEnv { ke_open : option error; ke_isRoot : result bool; ke_events : result string }.

Definition check_kernel (env : kernelEnv) (cgroup : string) : result string :=
  reject (cgroup =? "") || (cgroup =? "/sys/fs/cgroup") with ErrNew "--cgroup must name a dedicated test cgroup";
  match ke_open env with
  | Some e => Err e
  | None =>
      let! root := ke_isRoot env in
      reject root with ErrNew "refusing to probe the cgroup root";
      let! raw := ke_events env in
      require contains (limitReader 8192 raw) ("populated 0" +:+ String (char 10) "") else ErrNew "refusing to probe a populated cgroup";
      Ok cgroup
  end.

(** What [run] goes on to, or its error. *)
Definition run (kernel : kernelEnv) (load : string -> result (list workload)) (args : list string) : result command :=
  match args with
  | [] => Err (ErrNew "usage: realm-agent {serve|validate|gate|worker|check-kernel}")
  | name :: rest =>
      let! o := parse_options rest in
      if name =? "sandbox" then Ok (Sandbox (o_uid o) (o_gid o))
      else if name =? "worker" then Ok Worker
      else if name =? "gate" then (reject o_socket o =? "" with ErrNew "--socket required"; Ok (Gate (o_socket o)))
      else if (name =? "serve") || (name =? "validate") then
        let! c := load (o_config o) in
        if name =? "validate" then Ok (Validated c) else Ok (Serve c)
      else if name =? "check-kernel" then
        let! cgroup := check_kernel kernel (o_cgroup o) in Ok (CheckKernel cgroup)
      else Err (ErrNew ("unknown command " +:+ name))
  end.

(** ** Properties of the delegated group *)
Lemma write_groups_spec env path l : forall log r log', write_groups env path l log = (r, log') ->
  exists done, log' = log ++ ((fun nv => WriteGroup path nv.1 nv.2) <$> done) /\ is_panic r = false /\ (r = Ok tt -> done = l).
Proof.
  induction l as [|[name value] l IH]; intros log r log' H; cbn [write_groups] in H.
  { injection H as <- <-. exists []. by rewrite app_nil_r. }
  unfold sbind, act in H. destruct (de_write env path name); [injection H as <- <-; exists []; by rewrite app_nil_r|].
  destruct (IH _ _ _ H) as (d & -> & Hp & Hd). exists ((name, value) :: d). split; [by rewrite <- app_assoc|]. split; [done|].
  intros Hr. by rewrite Hd.
Qed.

(** A group that is opened is closed. *)
Definition group_ends (x y : group_action) : Prop :=
  match x with OpenGroup p => y = CloseGroup p | _ => False end.

Lemma inert_writes path (l : list (string * string)) : Forall (inert group_ends) ((fun nv => WriteGroup path nv.1 nv.2) <$> l).
Proof. apply Forall_fmap, Forall_true. by intros nv y []. Qed.

Lemma paired_group p acts : paired group_ends acts -> paired group_ends (OpenGroup p :: acts ++ [CloseGroup p]).
Proof.
  intros H. apply paired_cons. split; [intros y ->; set_solver|]. apply paired_app; [done|].
  apply paired_inert, Forall_singleton. by intros y [].
Qed.

Lemma limit_supervisor_spec env sup log r log' : limit_supervisor env sup log = (r, log') ->
  exists acts, log' = log ++ acts /\ paired group_ends acts /\
    (r = Ok tt -> acts = OpenGroup sup :: ((fun nv => WriteGroup sup nv.1 nv.2) <$> de_order env) ++ [CloseGroup sup]).
Proof.
  unfold limit_supervisor, sbind, act. destruct (de_open env sup).
  { intros [= <- <-]. exists []. rewrite app_nil_r. split; [done|]. split; [apply paired_nil|done]. }
  unfold defer. destruct (write_groups env sup (de_order env) _) as [r1 l1] eqn:E. intros [= <- <-].
  apply write_groups_spec in E as (dn & -> & _ & Hd). unfold add_action. eexists. split; [by rewrite <- !app_assoc|]. split.
  - apply paired_group, paired_inert, inert_writes.
  - intros Hr. by rewrite Hd.
Qed.

Lemma supervisor_path_Ok raw d : supervisor_path raw = Ok d -> let path := trimSpace (trimPrefix raw "0::") in
  d = dir path /\ clean path = path /\ base path = "supervisor" /\ hasSuffix (dir path) ".service" = true.
Proof. unfold supervisor_path. rewrite reject_Ok. intros [H [= <-]]. bprop. done. Qed.

Lemma delegated_log env r log : delegatedWorkerRoot env [] = (r, log) ->
  (is_ok r = false -> paired group_ends log) /\ forall root, r = Ok root -> exists raw d, supervisor_path raw = Ok d /\ root = cgroupfs +:+ d /\
    let sup := cgroupfs +:+ trimSpace (trimPrefix raw "0::") in
    log = [OpenGroup root; WriteGroup root "cgroup.subtree_control" "+cpu +memory +pids"] ++
       OpenGroup sup :: ((fun nv => WriteGroup sup nv.1 nv.2) <$> de_order env) ++ [CloseGroup sup].
Proof.
  intros H. unfold delegatedWorkerRoot, sbind at 1 in H. cbn [slift] in H.
  destruct (de_cgroup env) as [raw|e|m]; [|injection H as <- <-; split; [intros _; apply paired_nil|done]..].
  unfold sbind at 1 in H. cbn [slift] in H.
  destruct (supervisor_path raw) as [d|e|m] eqn:Ed; [|injection H as <- <-; split; [intros _; apply paired_nil|done]..].
  unfold sbind at 1, act at 1 in H. set (root := cgroupfs +:+ d) in *.
  destruct (de_open env root); [injection H as <- <-; split; [intros _; apply paired_nil|done]|].
  unfold defer_unless_ok, wrap_error, sbind, act in H. destruct (de_write env root _).
  { injection H as <- <-. split; [|done]. intros _. apply (paired_group root []), paired_nil. }
  destruct (limit_supervisor env _ _) as [r1 l1] eqn:El. apply limit_supervisor_spec in El as (acts & -> & Hbal & Hok).
  assert (Hclosed : paired group_ends (OpenGroup root :: (WriteGroup root "cgroup.subtree_control" "+cpu +memory +pids" :: acts) ++ [CloseGroup root])).
  { apply paired_group, paired_cons. split; [by intros y []|done]. }
  destruct r1 as [[]|e|m]; unfold sret in H; injection H as <- <-; [|by split..].
  split; [done|]. intros ? [= <-]. exists raw, d. split; [done|]. split; [done|]. by rewrite Hok.
Qed.

Lemma delegated_root env root log : delegatedWorkerRoot env [] = (Ok root, log) ->
  exists rest, log = OpenGroup root :: rest /\ paired group_ends rest.
Proof.
  intros H. destruct (delegated_log _ _ _ H) as [_ Hok]. destruct (Hok root eq_refl) as (raw & d & _ & _ & ->). eexists. split; [reflexivity|].
  apply paired_cons. split; [by intros y []|]. apply paired_group, paired_inert, inert_writes.
Qed.

(** The delegated group is handed out only below a [.service] whose subgroup
    [supervisor] this process is in, with the controllers enabled and all three
    limits of the supervisor written; on an error every group that was opened is
    closed again. *)
Theorem delegatedWorkerRoot_sound env r log : delegatedWorkerRoot env [] = (r, log) -> Permutation (de_order env) supervisor_budget ->
  (forall root, r = Ok root -> exists path, root = "/sys/fs/cgroup" +:+ dir path /\ clean path = path /\ base path = "supervisor" /\
     hasSuffix (dir path) ".service" = true /\
     log = [OpenGroup root; WriteGroup root "cgroup.subtree_control" "+cpu +memory +pids"; OpenGroup ("/sys/fs/cgroup" +:+ path)] ++
       ((fun nv => WriteGroup ("/sys/fs/cgroup" +:+ path) nv.1 nv.2) <$> de_order env) ++ [CloseGroup ("/sys/fs/cgroup" +:+ path)] /\
     forall n v, (n, v) ∈ [("memory.max", "268435456"); ("memory.swap.max", "0"); ("pids.max", "128")] ->
       WriteGroup ("/sys/fs/cgroup" +:+ path) n v ∈ log) /\
  (is_ok r = false -> forall pre p post, log = pre ++ OpenGroup p :: post -> CloseGroup p ∈ post).
Proof.
  intros H Hperm. destruct (delegated_log env r log H) as [Hb1 Hb2].
  split; [|intros Hr pre p post E; by apply (Hb1 Hr pre (OpenGroup p))]. intros root Hr. destruct (Hb2 root Hr) as (raw & d & Hd & -> & Hlog).
  apply supervisor_path_Ok in Hd as (-> & H1 & H2 & H3). exists (trimSpace (trimPrefix raw "0::")). split_and!; try done.
  intros n v Hnv. rewrite Hlog. apply elem_of_app. right. right. apply elem_of_app. left. apply list_elem_of_fmap. exists (n, v).
  split; [done|]. by rewrite Hperm.
Qed.

(** ** Properties of [serve] *)

(** A listener is closed, a controller stopped, a group closed. *)
Definition serve_ends (x y : serve_action) : Prop :=
  match x with
  | ListenUnix p => y = CloseListener p
  | StartController a => y = CloseController a
  | GroupAction (OpenGroup p) => y = GroupAction (CloseGroup p)
  | _ => False
  end.

Definition listening (log : list serve_action) : list string := omap (fun a => match a with ListenUnix p => Some p | _ => None end) log.
Definition closed_listeners (log : list serve_action) : list string := omap (fun a => match a with CloseListener p => Some p | _ => None end) log.
Definition started (log : list serve_action) : list account := omap (fun a => match a with StartController a => Some a | _ => None end) log.
Definition stopped (log : list serve_action) : list account := omap (fun a => match a with CloseController a => Some a | _ => None end) log.

(** What happens before the clean-up, and what of it opens nothing. *)
Definition setting_up (a : serve_action) : Prop :=
  match a with CloseListener _ | CloseController _ | GroupAction _ => False | _ => True end.
Definition quiet (a : serve_action) : Prop :=
  match a with ListenUnix _ | StartController _ => False | _ => setting_up a end.

Lemma quiet_setting_up l : Forall quiet l -> Forall setting_up l.
Proof. intros H. eapply Forall_impl; [exact H|]. intros [] Hx; exact Hx || done. Qed.

Definition free_path (p : at_path) : Prop := p = Nothing \/ p = ASocket.

Lemma omap_nothing {A B} (f : A -> option B) (l : list A) : Forall (fun x => f x = None) l -> omap f l = [].
Proof. induction 1 as [|x l Hx _ IH]; [done|]. cbn. by rewrite Hx. Qed.

Lemma omap_fmap_all {A B} (f : A -> option B) (g : B -> A) (l : list B) : (forall x, f (g x) = Some x) -> omap f (g <$> l) = l.
Proof. intros H. induction l as [|x l IH]; [done|]. cbn. rewrite H. by f_equal. Qed.

Lemma omap_fmap_none {A B C} (f : A -> option B) (g : C -> A) (l : list C) : (forall x, f (g x) = None) -> omap f (g <$> l) = [].
Proof. intros H. apply omap_nothing, Forall_fmap, Forall_true. done. Qed.

Lemma setup_closes_none l : Forall setting_up l ->
  Forall (fun a => match a with CloseListener p => Some p | _ => None end = None) l /\
  Forall (fun a => match a with CloseController a => Some a | _ => None end = None) l.
Proof. intros H. split; (eapply Forall_impl; [exact H|]); by intros []. Qed.

Section serve_laws.
Context (env : serveEnv).

Lemma logs_clear path : logs quiet (clear_path env path) (fun _ _ => free_path (se_lstat env path)).
Proof.
  unfold clear_path, free_path. destruct (se_lstat env path).
  - eapply logs_weaken; [apply logs_ret|]. auto.
  - eapply logs_weaken; [by apply logs_act|]. auto.
  - apply logs_fail.
  - apply logs_fail.
Qed.

Lemma logs_clear_gate w gid : logs quiet (clear_gate env w gid) (fun _ _ => free_path (se_lstat env (w_Socket w))).
Proof.
  unfold clear_gate. eapply logs_weaken; [apply logs_step; [done|]; apply logs_step; [done|]; apply logs_clear|].
  by intros b l (l1 & _ & l2 & _ & H).
Qed.

Lemma logs_restrict w gid : logs quiet (restrict_gate env w gid) (fun _ l => l = [Chown (w_Socket w) 0 gid; Chmod (w_Socket w) 432]).
Proof.
  unfold restrict_gate. eapply logs_weaken; [apply logs_step; [done|]; by apply logs_act|]. by intros b l (l1 & -> & ->).
Qed.

Lemma logging_spec {A} (m : SM (list serve_action) A) Q s r s' : logs quiet m Q -> logging m s = (r, s') ->
  exists acts, s' = add_logged acts s /\ Forall quiet acts /\ forall a, r = Ok a -> Q a acts.
Proof.
  intros Hm. unfold logging. destruct (m []) as [r0 l] eqn:E. intros [= <- <-]. destruct (Hm _ _ _ E) as (acts & -> & Hq & HQ).
  by exists acts.
Qed.

(** A controller starts right after its socket got its owner and mode, on a
    path that was free. *)
Definition gated (config : list workload) (log : list serve_action) : Prop :=
  forall pre a post, log = pre ++ StartController a :: post ->
    exists w pre', w ∈ config /\ account_of env w = Ok a /\ free_path (se_lstat env (w_Socket w)) /\
      pre = pre' ++ [ListenUnix (w_Socket w); Chown (w_Socket w) 0 (ac_gid a); Chmod (w_Socket w) 432].

Lemma gated_snoc config log x : gated config log ->
  (forall a, x = StartController a -> exists w pre', w ∈ config /\ account_of env w = Ok a /\ free_path (se_lstat env (w_Socket w)) /\
      log = pre' ++ [ListenUnix (w_Socket w); Chown (w_Socket w) 0 (ac_gid a); Chmod (w_Socket w) 432]) ->
  gated config (log ++ [x]).
Proof.
  intros Hg Hx pre a post E. destruct post as [|y post _] using rev_ind.
  - apply app_inj_tail in E as [<- ->]. by apply Hx.
  - rewrite app_comm_cons, app_assoc in E. apply app_inj_tail in E as [E _]. by apply (Hg pre a post).
Qed.

Lemma gated_others config log acts : gated config log -> Forall (fun x => forall a, x <> StartController a) acts -> gated config (log ++ acts).
Proof.
  intros Hg Hq. induction acts as [|x acts IH] using rev_ind; [by rewrite app_nil_r|]. apply Forall_app in Hq as [Hq [Hx _]%Forall_cons].
  rewrite app_assoc. apply gated_snoc; [by apply IH|]. intros a E. by destruct (Hx a).
Qed.

(** The invariant of the loop over the workloads: the slices hold what is to be
    undone. *)
Record serve_inv (config : list workload) (base : list serve_action) (s : serving) : Prop := {
  si_setup : exists setup, sv_log s = base ++ setup /\ Forall setting_up setup;
  si_listeners : listening (sv_log s) = sv_listeners s;
  si_controllers : started (sv_log s) = sv_controllers s;
  si_gated : gated config (sv_log s);
  si_apart : all_apart (sv_controllers s);
  si_safe : Forall safe_account (sv_controllers s)
}.

Lemma inv_quiet config base s acts : serve_inv config base s -> Forall quiet acts -> serve_inv config base (add_logged acts s).
Proof.
  intros [(setup & E & Hs) Hl Hc Hg Ha Hf] Hq. split; cbn; try done.
  - exists (setup ++ acts). rewrite E, <- app_assoc. split; [done|]. apply Forall_app. split; [done|]. by apply quiet_setting_up.
  - unfold listening in *. rewrite omap_app, Hl, (omap_nothing _ acts); [by rewrite app_nil_r|]. eapply Forall_impl; [exact Hq|]. by intros [].
  - unfold started in *. rewrite omap_app, Hc, (omap_nothing _ acts); [by rewrite app_nil_r|]. eapply Forall_impl; [exact Hq|]. by intros [].
  - apply gated_others; [done|]. eapply Forall_impl; [exact Hq|]. by intros [].
Qed.

Lemma inv_listen config base s p : serve_inv config base s ->
  serve_inv config base (Serving (sv_log s ++ [ListenUnix p]) (sv_listeners s ++ [p]) (sv_controllers s)).
Proof.
  intros [(setup & E & Hs) Hl Hc Hg Ha Hf]. split; cbn; try done.
  - exists (setup ++ [ListenUnix p]). rewrite E, <- app_assoc. split; [done|]. apply Forall_app. split; [done|]. by apply Forall_singleton.
  - unfold listening in *. by rewrite omap_app, Hl.
  - unfold started in *. rewrite omap_app, Hc. apply app_nil_r.
  - apply gated_snoc; [done|]. by intros a [=].
Qed.

Lemma serve_inv_start config base s w a pre : serve_inv config base s -> w ∈ config -> account_of env w = Ok a ->
  free_path (se_lstat env (w_Socket w)) -> safe_account a -> Forall (fun other => apart other a) (sv_controllers s) ->
  sv_log s = pre ++ [ListenUnix (w_Socket w); Chown (w_Socket w) 0 (ac_gid a); Chmod (w_Socket w) 432] ->
  serve_inv config base (Serving (sv_log s ++ [StartController a]) (sv_listeners s) (sv_controllers s ++ [a])).
Proof.
  intros [(setup & E & Hs) Hl Hc Hg Ha Hf] Hw Hacc Hp Hsafe Hap Epre. split; cbn.
  - exists (setup ++ [StartController a]). rewrite E, <- app_assoc. split; [done|]. apply Forall_app. split; [done|]. by apply Forall_singleton.
  - unfold listening in *. rewrite omap_app, Hl. apply app_nil_r.
  - unfold started in *. by rewrite omap_app, Hc.
  - apply gated_snoc; [done|]. intros a' [= <-]. by exists w, pre.
  - by apply all_apart_snoc.
  - apply Forall_app. split; [done|]. by apply Forall_singleton.
Qed.

Lemma open_gate_spec config base w gid s r s' : serve_inv config base s -> open_gate env w gid s = (r, s') ->
  serve_inv config base s' /\ sv_controllers s' = sv_controllers s /\
  (r = Ok tt -> free_path (se_lstat env (w_Socket w)) /\
    exists pre, sv_log s' = pre ++ [ListenUnix (w_Socket w); Chown (w_Socket w) 0 gid; Chmod (w_Socket w) 432]).
Proof.
  intros Hi H. unfold open_gate in H. unfold sbind at 1 in H. destruct (logging (clear_gate env w gid) s) as [r1 s1] eqn:E1.
  apply (logging_spec _ _ _ _ _ (logs_clear_gate w gid)) in E1 as (a1 & -> & Hq1 & Hf). apply (inv_quiet _ _ _ _ Hi) in Hq1.
  destruct r1 as [[]|e|m]; [|injection H as <- <-; done..]. specialize (Hf tt eq_refl).
  unfold sbind at 1, logging at 1, act at 1 in H. destruct (se_listen env (w_Socket w)) as [e|].
  { injection H as <- <-. split; [|done]. apply (inv_quiet _ _ _ []); [done|constructor]. }
  unfold sbind, append_listener in H. apply (inv_listen _ _ _ (w_Socket w)) in Hq1.
  apply (logging_spec _ _ _ _ _ (logs_restrict w gid)) in H as (a2 & -> & Hq2 & Hr). split; [by apply inv_quiet|]. split; [done|].
  intros ->. split; [done|]. exists (sv_log s ++ a1). cbn. rewrite (Hr tt eq_refl). by rewrite <- !app_assoc.
Qed.

Lemma serve_workloads_inv config base l : forall s r s', l ⊆ config -> serve_inv config base s -> serve_workloads env l s = (r, s') ->
  serve_inv config base s' /\ (is_ok r = true -> NotifyReady ∈ sv_log s' /\ length (sv_controllers s') = (length (sv_controllers s) + length l)%nat).
Proof.
  induction l as [|w l IH]; intros s r s' Hsub Hi H; cbn [serve_workloads] in H.
  { injection H as <- <-. split; [by apply inv_quiet; [|apply Forall_singleton]|]. intros _. cbn. split; [set_solver|lia]. }
  unfold sbind at 1 in H. cbn [slift] in H. destruct (account_of env w) as [a|e|p] eqn:Ea; [|by injection H as <- <-..].
  unfold sbind at 1, controllers in H. unfold sbind at 1 in H. cbn [slift] in H.
  destruct (admit_account (sv_controllers s) a) as [cs|e|p] eqn:Ec; [|by injection H as <- <-..].
  apply admit_account_Ok in Ec as (_ & Hs & Hap).
  unfold sbind at 1 in H. destruct (open_gate env w (ac_gid a) s) as [r1 s1] eqn:Eg.
  destruct (open_gate_spec _ _ _ _ _ _ _ Hi Eg) as (Hi1 & Hc1 & Hok). destruct r1 as [[]|e|p]; [|by injection H as <- <-..].
  destruct (Hok eq_refl) as (Hf & pre & Epre). rewrite <- Hc1 in Hap.
  apply IH in H as [Hinv Hlen]; [|set_solver|].
  - split; [done|]. intros Hr. destruct (Hlen Hr) as [Hn ->]. split; [done|]. cbn. rewrite length_app, Hc1. cbn. lia.
  - by apply (serve_inv_start config base s1 w a pre); [..|apply Hsub; left|done|done|done|done|done].
Qed.

Lemma gated_account config log a : gated config log -> a ∈ started log -> exists w, w ∈ config /\ account_of env w = Ok a.
Proof.
  intros Hg Ha. apply list_elem_of_omap in Ha as (x & Hx & Ex). destruct x; try done. injection Ex as ->.
  apply list_elem_of_split in Hx as (l1 & l2 & E). destruct (Hg _ _ _ E) as (w & _ & Hw & Hacc & _). eauto.
Qed.

Lemma account_unit w a : account_of env w = Ok a -> ac_unit a = w_Unit w.
Proof.
  unfold account_of. intros (uid & _ & H)%rbind_Ok. apply rbind_Ok in H as (gid & _ & H).
  apply rbind_Ok in H as (wuid & _ & H). by injection H as <-.
Qed.

(** *** The whole of [serve] *)
Lemma paired_groups l : paired group_ends l -> paired serve_ends (GroupAction <$> l).
Proof.
  induction l as [|x l IH]; [intros _; apply paired_nil|]. intros [Hx Hl]%paired_cons. cbn. apply paired_cons. split; [|by apply IH].
  destruct x as [p| |]; try done. intros y ->. apply list_elem_of_fmap. exists (CloseGroup p). split; [done|]. by apply Hx.
Qed.

(** What the deferred calls append. *)
Definition clean_up (s : serving) : list serve_action := (CloseListener <$> sv_listeners s) ++ (CloseController <$> sv_controllers s).

Lemma paired_clean_up base setup s : sv_log s = base ++ setup -> Forall setting_up setup ->
  listening (sv_log s) = sv_listeners s -> started (sv_log s) = sv_controllers s -> paired serve_ends (setup ++ clean_up s).
Proof.
  intros E Hs Hl Hc. apply paired_undone.
  - intros x y Hx Hy. unfold clean_up. rewrite <- Hl, <- Hc, E. unfold listening, started. rewrite elem_of_app, !list_elem_of_fmap.
    rewrite Forall_forall in Hs. specialize (Hs x Hx). destruct x as [| | |p| |a| | | |g]; try done; rewrite Hy.
    + left. exists p. split; [done|]. apply list_elem_of_omap. exists (ListenUnix p). split; [set_solver|done].
    + right. exists a. split; [done|]. apply list_elem_of_omap. exists (StartController a). split; [set_solver|done].
  - apply paired_inert. unfold clean_up. apply Forall_app. split; apply Forall_fmap, Forall_true; by intros x y [].
Qed.

Lemma paired_serve config root rest s : serve_inv config (GroupAction <$> (OpenGroup root :: rest)) s -> paired group_ends rest ->
  paired serve_ends (sv_log s ++ clean_up s ++ [GroupAction (CloseGroup root)]).
Proof.
  intros [(setup & E & Hs) Hl Hc _ _ _] Hrest. pose proof (paired_clean_up _ _ _ E Hs Hl Hc) as Hp. rewrite E. cbn. apply paired_cons.
  split; [intros y ->; set_solver|]. rewrite <- !app_assoc. apply paired_app; [by apply paired_groups|]. rewrite app_assoc.
  apply paired_app; [done|]. apply paired_inert, Forall_singleton. by intros y [].
Qed.

(** How a run of [serve] looks once the delegated group is there. *)
Lemma serve_shape groups config r s : serve env groups config (Serving [] [] []) = (r, s) ->
  (exists l, sv_log s = GroupAction <$> l /\ paired group_ends l /\ is_ok r = false) \/
  (exists root rest s1, serve_inv config (GroupAction <$> (OpenGroup root :: rest)) s1 /\ paired group_ends rest /\
    sv_log s = sv_log s1 ++ clean_up s1 ++ [GroupAction (CloseGroup root)] /\
    (is_ok r = true -> NotifyReady ∈ sv_log s1 /\ length (sv_controllers s1) = length config)).
Proof.
  unfold serve. case_bool_decide as He; cbn [negb]; [|intros [= <- <-]; left; exists []; split; [done|]; split; [apply paired_nil|done]].
  unfold sbind, grouping. destruct (delegatedWorkerRoot groups []) as [rg lg] eqn:Eg. destruct (delegated_log _ _ _ Eg) as [Hfail _].
  destruct rg as [root|e|m]; [|intros [= <- <-]; left; exists lg; split; [done|]; split; [by apply Hfail|done]..].
  apply delegated_root in Eg as (rest & -> & Hrest). intros H. right. unfold defer in H.
  set (s00 := add_logged _ _) in H. destruct (serve_workloads env config s00) as [r1 s1] eqn:E.
  injection H as <- <-. exists root, rest, s1.
  assert (H0 : serve_inv config (GroupAction <$> (OpenGroup root :: rest)) s00).
  { split; cbn [s00 add_logged sv_log sv_listeners sv_controllers app].
    - exists []. split; [by rewrite app_nil_r|constructor].
    - by apply (omap_fmap_none _ GroupAction (OpenGroup root :: rest)).
    - by apply (omap_fmap_none _ GroupAction (OpenGroup root :: rest)).
    - refine (gated_others config [] (GroupAction <$> (OpenGroup root :: rest)) _ _).
      + intros pre a post E0. by destruct pre.
      + apply Forall_fmap, Forall_true. by intros x a.
    - intros i j a b Hi. by rewrite lookup_nil in Hi.
    - constructor. }
  destruct (serve_workloads_inv _ _ config _ _ _ ltac:(done) H0 E) as [Hinv Hlen]. split; [done|]. split; [|split].
  - done.
  - unfold clean_up. cbn. by rewrite <- !app_assoc.
  - done.
Qed.

(** C7: Whatever system calls fail, [serve] returns with everything it opened
    undone: every listener it opened is closed afterwards, every controller it
    started stopped and every cgroup it opened closed, each as often as it was
    opened.  Every controller it starts has safe account numbers; no process,
    whatever its user and cgroup, is claimed by two of them, if the units are
    of the form a configuration must have; and each is started only after its
    socket, on a path nothing else used, belongs to root and its group with
    mode 0660.  A run without an error has reported readiness and started one
    controller per workload. *)
Theorem serve_safe groups config r s : Forall (fun w => w_Unit w = "" \/ good_unit (w_Unit w)) config ->
  serve env groups config (Serving [] [] []) = (r, s) ->
  (forall pre x post y, sv_log s = pre ++ x :: post -> serve_ends x y -> y ∈ post) /\
  closed_listeners (sv_log s) = listening (sv_log s) /\ stopped (sv_log s) = started (sv_log s) /\
  Forall safe_account (started (sv_log s)) /\
  (forall uid cgroup i j a b, started (sv_log s) !! i = Some a -> started (sv_log s) !! j = Some b ->
    claims_peer a uid cgroup = true -> claims_peer b uid cgroup = true -> i = j) /\
  (forall pre a post, sv_log s = pre ++ StartController a :: post ->
    exists w pre', w ∈ config /\ account_of env w = Ok a /\ (se_lstat env (w_Socket w) = Nothing \/ se_lstat env (w_Socket w) = ASocket) /\
      pre = pre' ++ [ListenUnix (w_Socket w); Chown (w_Socket w) 0 (ac_gid a); Chmod (w_Socket w) 432]) /\
  (is_ok r = true -> NotifyReady ∈ sv_log s /\ length (started (sv_log s)) = length config).
Proof.
  intros Hunits H. destruct (serve_shape _ _ _ _ H) as [(l & E & Hp & Hr)|(root & rest & s1 & Hi & Hrest & E & Hok)].
  - assert (Hnone : started (sv_log s) = []) by (rewrite E; by apply omap_fmap_none).
    rewrite Hnone. split; [rewrite E; by apply paired_groups|]. split; [rewrite E; unfold closed_listeners, listening; by rewrite !omap_fmap_none|].
    split; [rewrite E; by apply omap_fmap_none|]. split; [constructor|]. split; [|split; [|congruence]].
    + intros uid cgroup i j a b Hi. by rewrite lookup_nil in Hi.
    + intros pre a post Ea. exfalso. rewrite Ea in Hnone. unfold started in Hnone. rewrite omap_app in Hnone. cbn in Hnone.
      by apply app_eq_nil in Hnone as [_ ?].
  - pose proof Hi as [(setup & Eset & Hset) Hl Hc Hg Ha Hs].
    assert (Hst : started (sv_log s) = sv_controllers s1).
    { rewrite E. unfold started, clean_up. rewrite !omap_app, !omap_fmap_none by done. fold (started (sv_log s1)). rewrite Hc. apply app_nil_r. }
    assert (Hli : listening (sv_log s) = sv_listeners s1).
    { rewrite E. unfold listening, clean_up. rewrite !omap_app, !omap_fmap_none by done. fold (listening (sv_log s1)). rewrite Hl. apply app_nil_r. }
    rewrite Hst, Hli. split; [|split; [|split; [|split; [done|split; [|split]]]]].
    + rewrite E. by apply (paired_serve config root rest).
    + rewrite E, Eset. unfold closed_listeners, clean_up. rewrite !omap_app, (omap_nothing _ setup) by (by apply setup_closes_none).
      rewrite (omap_fmap_all _ CloseListener), !omap_fmap_none by done. cbn. by rewrite ?app_nil_r.
    + rewrite E, Eset. unfold stopped, clean_up. rewrite !omap_app, (omap_nothing _ setup) by (by apply setup_closes_none).
      rewrite (omap_fmap_all _ CloseController), !omap_fmap_none by done. cbn. by rewrite ?app_nil_r.
    + intros uid cgroup. apply apart_claims; [done|]. apply Forall_forall. intros a Hin. rewrite <- Hc in Hin.
      destruct (gated_account _ _ _ Hg Hin) as (w & Hw & Hacc). rewrite (account_unit _ _ Hacc). rewrite Forall_forall in Hunits. by apply Hunits.
    + rewrite E. apply gated_others; [done|]. unfold clean_up. rewrite !Forall_app, Forall_singleton. split_and!; [apply Forall_fmap, Forall_true..|]; done.
    + intros Hr. destruct (Hok Hr) as [Hn Hlen]. rewrite E. split; [set_solver|done].
Qed.
End serve_laws.

(** ** Properties of the worker's start *)

(** Everything but the announcement. *)
Definition unready (a : worker_action) : Prop := match a with WriteReady _ => False | _ => True end.

Lemma logs_logs_all l : Forall unready l -> logs unready (logs_all l) (fun _ acts => acts = l).
Proof.
  induction 1 as [|a l Ha Hl IH]; [eapply logs_weaken; [apply logs_ret|]; by intros ? ? [_ ->]|]. cbn [logs_all].
  eapply logs_weaken; [apply logs_step; [done|exact IH]|]. by intros b acts (l' & -> & ->).
Qed.

Lemma logs_unless_ok {A B} (allowed : A -> Prop) (x : A) (m : SM (list A) B) Q : allowed x -> logs allowed m Q ->
  logs allowed (defer_unless_ok (add_action x) m) Q.
Proof.
  intros Hx Hm log r log'. unfold defer_unless_ok. destruct (m log) as [r1 log1] eqn:E. destruct (Hm _ _ _ E) as (acts & -> & Hq & HQ).
  intros [= <- <-]. destruct r1; [by exists acts|..]; exists (acts ++ [x]); (split; [unfold add_action; by rewrite app_assoc|]);
    (split; [apply Forall_app; by split; [|apply Forall_singleton]|done]).
Qed.

Lemma logs_tcp env port : logs unready (listen_tcp env port) (fun _ l => l = [ListenTCP "tcp4" port; ListenTCP "tcp6" port]).
Proof.
  unfold listen_tcp. eapply logs_weaken; [apply logs_step; [done|]; apply logs_unless_ok; [done|by apply logs_act]|]. by intros b l (l1 & -> & ->).
Qed.

(** What precedes the announcement is complete when it is made. *)
Lemma worker_serve_spec env w log r log' : worker_serve env w log = (r, log') ->
  (exists acts, log' = log ++ acts /\ Forall unready acts /\ is_ok r = false) \/
  (r = Ok tt /\ log' = log ++ [ListenTCP "tcp4" (w_TCPPort w); ListenTCP "tcp6" (w_TCPPort w); AcceptLoop "tcp4"; AcceptLoop "tcp6"; WriteReady 5]).
Proof.
  unfold worker_serve. intros H. unfold sbind at 1 in H. destruct (listen_tcp env (w_TCPPort w) log) as [r1 log1] eqn:E1.
  destruct (logs_tcp _ _ _ _ _ E1) as (a1 & -> & Q1 & O1). destruct r1 as [[]|e|p]; [|left; injection H as <- <-; eauto..].
  rewrite (O1 tt eq_refl) in *. cbn [logs_all] in H. unfold sbind, sret, act in H. destruct (we_ready env 5); injection H as <- <-.
  - left. eexists. split; [by rewrite <- !app_assoc|]. split; [repeat constructor|done].
  - right. split; [done|]. by rewrite <- !app_assoc.
Qed.

Lemma iface_allowed_iff i : iface_allowed i = true ->
  if_Loopback i = true \/ if_Name i = "realm0" \/
  if_Name i ∈ ["ip6tnl0"; "gre0"; "gretap0"; "erspan0"] /\ if_Up i = false /\ if_Addrs i = Some 0%nat.
Proof.
  unfold iface_allowed, fallbackTunnelKinds. rewrite !orb_true_iff, !andb_true_iff, !negb_true_iff, !bool_decide_eq_true.
  intros [[((Hn & Hu) & Ha) | ?] | ?]; [|by left|by right; left]. right. right. split; [|done].
  repeat case_bool_decide; set_solver.
Qed.

(** What a worker that reports readiness has done. *)
Lemma worker_trace env r log fd : runWorker env [] = (r, log) -> WriteReady fd ∈ log ->
  r = Ok tt /\ we_euid env <> 0 /\ we_map env 4 = None /\
  (exists interfaces, we_interfaces env = Ok interfaces /\
    Forall (fun i => if_Loopback i = true \/ if_Name i = "realm0" \/
      if_Name i ∈ ["ip6tnl0"; "gre0"; "gretap0"; "erspan0"] /\ if_Up i = false /\ if_Addrs i = Some 0%nat) interfaces) /\
  exists wc w, decode_config (we_config env 6) = Ok wc /\ validate (wc_Workload wc) = Ok w /\
    log = [WatchLease 7; OpenMap 4; DropPrivileges "PR_SET_NO_NEW_PRIVS"; DropPrivileges "PR_SET_DUMPABLE"] ++
      (ListenDNS <$> concat ((fun i => [("udp4", w_DNSBase w + Z.of_nat i); ("udp6", w_DNSBase w + Z.of_nat i)]) <$> seq 0 8)) ++
      [ListenTCP "tcp4" (w_TCPPort w); ListenTCP "tcp6" (w_TCPPort w); AcceptLoop "tcp4"; AcceptLoop "tcp6"; WriteReady 5].
Proof.
  unfold runWorker. intros H Hin.
  assert (Hno : forall (r0 : result unit) l, Forall unready l -> (r0, l) = (r, log) -> False).
  { intros r0 l Hl [= -> ->]. rewrite Forall_forall in Hl. by apply (Hl _ Hin). }
  unfold sbind at 1, act at 1 in H. cbn [app] in H.
  unfold sbind at 1 in H. cbn [slift] in H. destruct (decode_config (we_config env 6)) as [wc|e|p] eqn:Ed; [|by apply Hno in H; [|repeat constructor]..].
  unfold sbind at 1 in H. cbn [slift] in H. destruct (validate (wc_Workload wc)) as [w|e|p] eqn:Ev; [|by apply Hno in H; [|repeat constructor]..].
  unfold sbind at 1, act at 1 in H. destruct (we_map env 4) as [e|] eqn:Em; [by apply Hno in H; [|repeat constructor]|]. cbn [app] in H.
  unfold sbind at 1, guarded in H. case_bool_decide as Hu; cbn [negb] in H; [by apply Hno in H; [|repeat constructor]|]. unfold sret in H.
  unfold sbind at 1, act at 1 in H. destruct (we_prctl env "PR_SET_NO_NEW_PRIVS"); [by apply Hno in H; [|repeat constructor]|].
  unfold sbind at 1, act at 1 in H. destruct (we_prctl env "PR_SET_DUMPABLE"); [by apply Hno in H; [|repeat constructor]|].
  unfold sbind at 1 in H. cbn [slift] in H. destruct (we_interfaces env) as [l|e|p] eqn:Ei; [|by apply Hno in H; [|repeat constructor]..].
  unfold sbind at 1, check_interfaces in H. destruct (forallb iface_allowed l) eqn:Ea; cbn [slift] in H; [|by apply Hno in H; [|repeat constructor]].
  unfold sbind at 1 in H. cbn [slift] in H. unfold startDNS in H. pose proof (listen_loop_spec (we_udp env) (sockets (w_DNSBase w)) []) as L.
  destruct (listen_loop (we_udp env) [] (sockets (w_DNSBase w))) as [rs open]. cbn [fst] in H.
  destruct L as [(-> & _ & _)|(Hf & _ & _)]; [|destruct rs; [done|by apply Hno in H; [|repeat constructor]..]].
  unfold sbind at 1 in H. cbn [app] in H. destruct (logs_all (ListenDNS <$> sockets (w_DNSBase w)) _) as [r1 log1] eqn:E1.
  apply logs_logs_all in E1 as (acts & -> & Hq & Hacts); [|apply Forall_fmap, Forall_true; done].
  destruct r1 as [[]|e|p]; [|by apply Hno in H; [|apply Forall_app; split; [repeat constructor|]]..]. rewrite (Hacts tt eq_refl) in *.
  unfold defer_unless_ok in H. destruct (worker_serve env w _) as [r2 log2] eqn:E2.
  destruct (worker_serve_spec _ _ _ _ _ E2) as [(acts' & -> & Hq' & Hr')|[-> ->]].
  - exfalso. destruct r2; [done|..]; (apply Hno in H; [done|]); unfold add_action; rewrite !Forall_app; split_and!; try done; repeat constructor.
  - injection H as <- <-. split; [done|]. split; [done|]. split; [done|]. split.
    + exists l. split; [done|]. apply Forall_forall. intros i Hi. rewrite forallb_forall in Ea. apply iface_allowed_iff, Ea. by apply list_elem_of_In.
    + exists wc, w. split; [done|]. split; [done|]. unfold sockets. cbn [app]. by rewrite <- ?app_assoc.
Qed.

(** C13: A worker reports readiness only as a process that is not root, can gain
    no privileges and is not dumpable; in a namespace each interface of which is
    a loopback, is named realm0, or has the name of one of the kernel's four
    fallback tunnels and is down without an address; with a configuration that
    decodes and validates and its map open; after it watches the lease of its
    parent and its sixteen resolver sockets and both proxy listeners are open, on
    the ports of that configuration; and it reports it last. *)
Theorem worker_ready env r log fd : runWorker env [] = (r, log) -> WriteReady fd ∈ log ->
  r = Ok tt /\ we_euid env <> 0 /\ we_map env 4 = None /\
  (exists interfaces, we_interfaces env = Ok interfaces /\
    Forall (fun i => if_Loopback i = true \/ if_Name i = "realm0" \/
      if_Name i ∈ ["ip6tnl0"; "gre0"; "gretap0"; "erspan0"] /\ if_Up i = false /\ if_Addrs i = Some 0%nat) interfaces) /\
  exists wc w, decode_config (we_config env 6) = Ok wc /\ validate (wc_Workload wc) = Ok w /\
    log = [WatchLease 7; OpenMap 4; DropPrivileges "PR_SET_NO_NEW_PRIVS"; DropPrivileges "PR_SET_DUMPABLE"] ++
      (ListenDNS <$> concat ((fun i => [("udp4", w_DNSBase w + Z.of_nat i); ("udp6", w_DNSBase w + Z.of_nat i)]) <$> seq 0 8)) ++
      [ListenTCP "tcp4" (w_TCPPort w); ListenTCP "tcp6" (w_TCPPort w); AcceptLoop "tcp4"; AcceptLoop "tcp6"; WriteReady 5].
Proof. apply worker_trace. Qed.

(** ** The properties at concrete runs *)
Module ServeExamples.
Definition workload_named (name user unit : string) : workload :=
  set_Socket (set_WorkerUser (set_Group (set_User (set_Unit (set_Name workload_zero name) unit) user) "realm") "adapter")
    ("/run/realm/" +:+ name +:+ "/control.sock").
Definition mail := workload_named "mail" "mail" "mail.service".
Definition web := workload_named "web" "web" "".
(** Same user as [mail], but no unit to tell them apart. *)
Definition clash := workload_named "clash" "mail" "".

Definition users (name : string) : result string :=
  if name =? "mail" then Ok "970" else if name =? "web" then Ok "971" else if name =? "adapter" then Ok "990" else Err (ErrNew "unknown user").
Definition env : serveEnv :=
  ServeEnv 0 users (fun _ => Ok "980") (fun _ => None) (fun _ => None)
    (fun p => if p =? w_Socket web then ASocket else Nothing) (fun _ => None) (fun _ => None) (fun _ => None).
Definition delegation (failing : string) : delegationEnv :=
  DelegationEnv (Ok ("0::/system.slice/realm-agent.service/supervisor" +:+ String (char 10) "")) (fun _ => None)
    (fun _ name => if name =? failing then Some (ErrNew "EACCES") else None)
    [("pids.max", "128"); ("memory.max", "268435456"); ("memory.swap.max", "0")].
Definition outcome := serve env (delegation "") [mail; web; clash] (Serving [] [] []).

(** The third workload is refused, after two controllers were started. *)
Example clash_refused : is_ok outcome.1 = false /\ started (sv_log outcome.2) = [Account 970 980 990 "mail.service"; Account 971 980 990 ""].
Proof. vm_compute. done. Qed.

(** The mode of the second socket cannot be set: its listener is open, and its
    controller not started. *)
Definition half_way := serve (ServeEnv 0 users (fun _ => Ok "980") (fun _ => None) (fun _ => None) (fun _ => Nothing) (fun _ => None) (fun _ => None)
    (fun p => if p =? w_Socket web then Some (ErrNew "EPERM") else None)) (delegation "") [mail; web] (Serving [] [] []).

Lemma serve_safe_witness : closed_listeners (sv_log half_way.2) = [w_Socket mail; w_Socket web] /\ stopped (sv_log half_way.2) = [Account 970 980 990 "mail.service"].
Proof.
  unfold half_way. match goal with |- context [serve ?e ?g ?c ?s0] =>
    destruct (serve_safe e g c (serve e g c s0).1 (serve e g c s0).2) as (_ & H1 & H2 & _); [|apply surjective_pairing|] end.
  - constructor; [right|constructor; [by left|constructor]]. exists "mail". split; [reflexivity|]. split; [discriminate|reflexivity].
  - rewrite H1, H2. vm_compute. split; reflexivity.
Defined.

Definition loopback_only : list iface := [Iface "lo" true true (Some 2%nat)].
Definition worker : workerEnv :=
  WorkerEnv (fun fd => if fd =? 6 then SandboxExamples.config else "") (fun _ => None) 990 (fun _ => None) (Ok loopback_only)
    (fun _ => true) (fun _ => None) (fun _ => None).
Definition worker_run : result unit * list worker_action := Eval vm_compute in runWorker worker [].
Lemma worker_run_eq : runWorker worker [] = (worker_run.1, worker_run.2).
Proof. vm_compute. reflexivity. Qed.

Lemma worker_ready_witness : worker_run.1 = Ok tt.
Proof.
  apply (worker_ready worker worker_run.1 worker_run.2 5 worker_run_eq). apply list_elem_of_In. vm_compute. tauto.
Defined.

Definition delegated := delegatedWorkerRoot (delegation "pids.max") [].

Lemma delegatedWorkerRoot_sound_witness : CloseGroup "/sys/fs/cgroup/system.slice/realm-agent.service" ∈ tail delegated.2.
Proof.
  apply (delegatedWorkerRoot_sound (delegation "pids.max") delegated.1 delegated.2) with (pre := []).
  - apply surjective_pairing.
  - apply (bool_decide_unpack _). vm_compute. exact I.
  - vm_compute. reflexivity.
  - vm_compute. reflexivity.
Defined.
End ServeExamples.
