(* ===== verification/AgentHandover.v ===== *)
(** * realm-agent: what the controller hands to its worker

    Models the command, environment, descriptors and sealed configuration that
    [controller.start] of [src/pkgs/realm-agent/agent.go] and
    [sealedWorkerConfig] of [sandbox.go] give to the bootstrap.
    [worker_handover] composes them with the other side: the options [main.go]
    parses, the runs of the bootstrap ([AgentSandbox]) and of the worker
    ([AgentServe]), the configuration they decode and the descriptors they use
    by number.  The tool that enters the namespace is a parameter. *)

From S2P Require Import Prelude GoStrings GoFlag Json AgentConfig AgentSandbox AgentServe.

Open Scope Z_scope.
Open Scope go_scope.

(** ** The sealed configuration *)
Section encode.
(** Whether an empty slice or map is nil, by its field. *)
Variable isNil : string -> bool.








End encode.


Definition worker_env : list string := ["PATH=/run/current-system/sw/bin"; "GOMAXPROCS=2"].

(** The program the configuration names as [namespaceTool] is not part of the
    repository.  What [start] relies on is what nsenter documents: with [--net=]
    and a file it enters the network namespace of that file and executes the
    command after the two dashes, in the process it is. *)
Class NamespaceTool := {
  enter_namespace : list string -> option (string * list string);
  enter_net : forall tool path command,
    enter_namespace (tool :: ("--net=" +:+ path) :: "--" :: command) = Some (path, command)
}.

(** *** Descriptors *)
Inductive role := Standard | Namespace | Connections | Readiness | SealedConfig | Lease | Budget.
#[export] Instance role_eq_dec : EqDecision role.
Proof. solve_decision. Defined.



















(** ** The text parses *)



















(** ** A concrete worker *)
Module HandoverExamples.
Import ConfigExamples.

(** A tool that looks for its option and for the dashes. *)
Definition nsenter (args : list string) : option (string * list string) :=
  match args with
  | _ :: option_ :: dashes :: command =>
      if hasPrefix option_ "--net=" && (dashes =? "--") then Some (trimPrefix option_ "--net=", command) else None
  | _ => None
  end.
#[local] Instance nsenter_tool : NamespaceTool.
Proof.
  refine {| enter_namespace := nsenter |}. intros tool path command. unfold nsenter.
  rewrite trimPrefix_append. rewrite (proj2 (hasPrefix_spec _ _)) by eauto. done.
Defined.







Example options_refused : is_ok (parse_options ["--uid"; "x"]) = false /\ is_ok (parse_options ["-uid=0x10"; "--nope"]) = false /\
  parse_options ["-uid=0x10"; "--socket"; "/s"; "rest"] = Ok (Options "" "/s" 16 0 "").
Proof. vm_compute. done. Qed.
End HandoverExamples.
