(* ===== verification/IdentityConfig.v ===== *)
(** * realm-identity-metrics: configuration and command output

    Models [config.go], [admin.go] and the first half of [workloads.go] of
    [src/pkgs/realm-identity-metrics]: the configuration with its checks, the
    bounded capture of command output, and the readers of what [systemctl] and
    [spire-server] print.  The SPIFFE identifier parser of go-spiffe is a class. *)

From S2P Require Import Prelude GoStrings Regex Json NetIP AgentConfig.

Open Scope Z_scope.
Open Scope go_scope.

(** ** [config.go] *)
Record spiffeID := SpiffeID { id_String : string; id_TrustDomain : string; id_Path : string }.

(** [spiffeid.TrustDomainFromString] with [String], and [spiffeid.FromString]. *)
Class Spiffe := {
  trustDomainFromString : string -> option string;
  fromString : string -> option spiffeID
}.

Definition maxConfigBytes : Z := 262144.

Definition alnum (c : ascii) : bool := is_lower c || is_digit c.
Definition nodePattern : regex := rlabel alnum (fun c => alnum c || (c =? "."%char) || (c =? "-"%char)) 61.

Record WorkloadTarget := Target { wt_Unit : string; wt_Identity : string; wt_Address : string; wt_Source : string }.
Definition target_fields : list (field WorkloadTarget) :=
  [mk_field "unit" wt_Unit (fun t x => Target x (wt_Identity t) (wt_Address t) (wt_Source t)) dec_string;
   mk_field "identity" wt_Identity (fun t x => Target (wt_Unit t) x (wt_Address t) (wt_Source t)) dec_string;
   mk_field "address" wt_Address (fun t x => Target (wt_Unit t) (wt_Identity t) x (wt_Source t)) dec_string;
   mk_field "source" wt_Source (fun t x => Target (wt_Unit t) (wt_Identity t) (wt_Address t) x) dec_string].

Record Config := MkConfig {
  c_Node : string; c_TrustDomain : string; c_ListenAddress : string; c_BundlePath : string;
  c_ServerAddress : string; c_WorkloadSocket : string; c_ServerAdminSocket : string;
  c_SPIREServerBinary : string; c_Nodes : list string; c_SystemctlBinary : string;
  c_Workloads : list WorkloadTarget
}.

Definition config_fields : list (field Config) :=
  [mk_field "node" c_Node (fun '(MkConfig _ b d e f g h i j k l) x => MkConfig x b d e f g h i j k l) dec_string;
   mk_field "trust_domain" c_TrustDomain (fun '(MkConfig a _ d e f g h i j k l) x => MkConfig a x d e f g h i j k l) dec_string;
   mk_field "listen_address" c_ListenAddress (fun '(MkConfig a b _ e f g h i j k l) x => MkConfig a b x e f g h i j k l) dec_string;
   mk_field "bundle_path" c_BundlePath (fun '(MkConfig a b d _ f g h i j k l) x => MkConfig a b d x f g h i j k l) dec_string;
   mk_field "server_address" c_ServerAddress (fun '(MkConfig a b d e _ g h i j k l) x => MkConfig a b d e x g h i j k l) dec_string;
   mk_field "workload_socket" c_WorkloadSocket (fun '(MkConfig a b d e f _ h i j k l) x => MkConfig a b d e f x h i j k l) dec_string;
   mk_field "server_admin_socket" c_ServerAdminSocket (fun '(MkConfig a b d e f g _ i j k l) x => MkConfig a b d e f g x i j k l) dec_string;
   mk_field "spire_server_binary" c_SPIREServerBinary (fun '(MkConfig a b d e f g h _ j k l) x => MkConfig a b d e f g h x j k l) dec_string;
   mk_field "nodes" c_Nodes (fun '(MkConfig a b d e f g h i _ k l) x => MkConfig a b d e f g h i x k l) (dec_slice dec_string "");
   mk_field "systemctl_binary" c_SystemctlBinary (fun '(MkConfig a b d e f g h i j _ l) x => MkConfig a b d e f g h i j x l) dec_string;
   mk_field "workloads" c_Workloads (fun '(MkConfig a b d e f g h i j k _) x => MkConfig a b d e f g h i j k x)
     (dec_slice (dec_struct true target_fields) (Target "" "" "" ""))].

Definition config_defaults : Config :=
  MkConfig "" "" "127.0.0.1:18494" "/var/lib/realm-spire/trust-bundle.pem" "eihort.nyaw.xyz:8081"
    "/run/spire/agent/public/api.sock" "" "" [] "" [].

Definition validNode (node : string) : bool :=
  matchString nodePattern node && forallb (matchString nodePattern) (split "." node).

Definition cleanAbsolute (p : string) : bool := isAbs p && (clean p =? p) && (p <>? "/").

Definition validPort (p : string) : bool :=
  match atoi p with Some n => (0 <? n) && (n <=? 65535) | None => false end.

Definition canaryID (c : Config) : string :=
  "spiffe://" +:+ c_TrustDomain c +:+ "/observer/identity/" +:+ c_Node c.
Definition agentID (c : Config) (node : string) : string :=
  "spiffe://" +:+ c_TrustDomain c +:+ "/spire/agent/http_fqdn/" +:+ node.
Definition aliasID (c : Config) (node : string) : string :=
  "spiffe://" +:+ c_TrustDomain c +:+ "/agent/" +:+ node.

(** [net.ParseIP]: no zones, and a mapped address is the IPv4 one. *)
Definition parseIP (s : string) : option addr :=
  match parseAddr s with
  | Some a => if zone a =? "" then Some (unmap a) else None
  | None => None
  end.

Definition loopbackAddress (address : string) : bool :=
  match splitHostPort address with
  | Some (host, port) =>
      match parseIP host with Some ip => isLoopback ip && validPort port | None => false end
  | None => false
  end.

(** ** [readPublicFile] *)
Record public_file := PublicFile {
  pf_open : bool; pf_stat : bool; pf_regular : bool; pf_size : Z;
  pf_content : string;                  (* what reading yields, which may have grown *)
  pf_readErr : bool
}.

Definition readPublicFile (f : public_file) (limit : Z) : result string :=
  require pf_open f else ErrNew "open";
  require pf_stat f else ErrNew "stat";
  reject negb (pf_regular f) || (limit <? pf_size f) with ErrNew "invalid public file";
  let raw := limitReader (limit + 1) (pf_content f) in
  reject pf_readErr f with ErrNew "read";
  reject limit <? len raw with ErrNew "public file exceeds limit";
  Ok raw.

(** ** [workloads.go]: the targets *)
Definition sourceGhostunnel : string := "ghostunnel_status_watch".
Definition sourceCaddy : string := "caddy_loaded".
Definition maxWorkloads : Z := 512.

Definition alnum_any (c : ascii) : bool := is_lower c || is_upper c || is_digit c.
Definition unitPattern : regex :=
  RSeq (RCls alnum_any)
    (RSeq (RStar (RCls (fun c => alnum_any c || (c =? "_"%char) || (c =? "."%char) || (c =? "@"%char) ||
                                 (c =? ":"%char) || (c =? "-"%char))))
       (rlit ".service")).

Section validate.
Context `{Spiffe}.

Fixpoint check_targets (c : Config) (units addresses : gset string) (targets : list WorkloadTarget) : result unit :=
  match targets with
  | [] => Ok tt
  | t :: targets' =>
      reject (255 <? len (wt_Unit t)) || negb (matchString unitPattern (wt_Unit t)) || bool_decide (wt_Unit t ∈ units)
        with ErrNew "invalid or duplicate workload unit";
      require match fromString (wt_Identity t) with
              | Some id => (len (wt_Identity t) <=? 2048) && (id_String id =? wt_Identity t) &&
                           (id_TrustDomain id =? c_TrustDomain c) && (id_Path id <>? "")
              | None => false
              end else ErrNew "workload identity must use the current trust domain";
      reject negb (loopbackAddress (wt_Address t)) || bool_decide (wt_Address t ∈ addresses)
        with ErrNew "workload addresses must be distinct loopback IPs and ports";
      require (wt_Source t =? sourceGhostunnel) || (wt_Source t =? sourceCaddy) else ErrNew "invalid workload source";
      check_targets c ({[wt_Unit t]} ∪ units) ({[wt_Address t]} ∪ addresses) targets'
  end.

Definition validateWorkloads (c : Config) : result unit :=
  reject maxWorkloads <? Z.of_nat (length (c_Workloads c)) with ErrNew "too many workloads";
  reject (c_SystemctlBinary c <>? "") &&
         (negb (cleanAbsolute (c_SystemctlBinary c)) || (base (c_SystemctlBinary c) <>? "systemctl"))
    with ErrNew "systemctl_binary must be an absolute systemctl path";
  reject (0 <? Z.of_nat (length (c_Workloads c))) && (c_SystemctlBinary c =? "")
    with ErrNew "workloads require systemctl_binary";
  check_targets c ∅ ∅ (c_Workloads c).

Fixpoint check_nodes (seen : gset string) (nodes : list string) : result unit :=
  match nodes with
  | [] => Ok tt
  | n :: nodes' =>
      reject negb (validNode n) || bool_decide (n ∈ seen) with ErrNew "invalid or duplicate cohort node";
      check_nodes ({[n]} ∪ seen) nodes'
  end.

Definition config_validate (c : Config) : result unit :=
  require validNode (c_Node c) else ErrNew "invalid node";
  require match trustDomainFromString (c_TrustDomain c) with
          | Some td => (td =? c_TrustDomain c) && (c_TrustDomain c <>? "")
          | None => false
          end else ErrNew "invalid trust_domain";
  require loopbackAddress (c_ListenAddress c) else ErrNew "listen_address must use a loopback IP and port";
  require match splitHostPort (c_ServerAddress c) with
          | Some (host, port) => (host <>? "") && (len host <=? 253) && validPort port
          | None => false
          end else ErrNew "invalid server_address";
  require cleanAbsolute (c_BundlePath c) && cleanAbsolute (c_WorkloadSocket c)
    else ErrNew "file and socket paths must be absolute";
  let admin := (c_ServerAdminSocket c <>? "") || (c_SPIREServerBinary c <>? "") in
  reject admin && ((c_Node c <>? "eihort") || negb (cleanAbsolute (c_ServerAdminSocket c)) ||
                   negb (cleanAbsolute (c_SPIREServerBinary c)) || (base (c_SPIREServerBinary c) <>? "spire-server"))
    with ErrNew "admin collection requires Eihort and absolute socket and spire-server paths";
  reject 128 <? Z.of_nat (length (c_Nodes c)) with ErrNew "too many nodes";
  let! _ := check_nodes ∅ (c_Nodes c) in
  reject (0 <? Z.of_nat (length (c_Nodes c))) && negb admin with ErrNew "nodes require admin collection";
  reject admin && (Z.of_nat (length (c_Nodes c)) =? 0) with ErrNew "admin collection requires explicit nodes";
  validateWorkloads c.

Definition readConfig (f : public_file) : result Config :=
  match readPublicFile f maxConfigBytes with
  | Ok raw =>
      match parse raw with
      | None => Err (ErrNew "invalid configuration JSON")
      | Some (v, rest) =>
          match dec_struct true config_fields config_defaults v with
          | None => Err (ErrNew "invalid configuration JSON")
          | Some c =>
              require skip_ws rest =? "" else ErrNew "unexpected configuration data";
              let! _ := config_validate c in Ok c
          end
      end
  | _ => Err (ErrNew "cannot read configuration")
  end.
End validate.

(** ** [parseWorkloadActivity] *)
Definition maxAdminBytes : Z := 8388608.
Definition unit_error : error := ErrNew "workload_unit_metadata".
Definition newline : ascii := char 10.

(** The closure [commit] over [id], [state] and [result]. *)
Definition commit (expected : gset string) (id state : string) (res : gmap string string)
    : result (string * string * gmap string string) :=
  if (id =? "") && (state =? "") then Ok (id, state, res)
  else
    reject negb (bool_decide (id ∈ expected)) || (state =? "") || (default "" (res !! id) <>? "") with unit_error;
    Ok ("", "", <[id := state]> res).

Fixpoint activity_loop (expected : gset string) (id state : string) (res : gmap string string) (lines : list string)
    : result (string * string * gmap string string) :=
  match lines with
  | [] => Ok (id, state, res)
  | line :: lines' =>
      if line =? "" then
        let! st := commit expected id state res in
        let '(id', state', res') := st in activity_loop expected id' state' res' lines'
      else
        match cut "=" line with
        | None => Err unit_error
        | Some (key, value) =>
            if key =? "Id" then
              reject id <>? "" with unit_error; activity_loop expected value state res lines'
            else if key =? "ActiveState" then
              reject state <>? "" with unit_error; activity_loop expected id value res lines'
            else Err unit_error
        end
  end.

Definition parseWorkloadActivity (raw : string) (targets : list WorkloadTarget) : result (gmap string string) :=
  reject maxAdminBytes <? len raw with unit_error;
  let expected := list_to_set (wt_Unit <$> targets) : gset string in
  let! st := activity_loop expected "" "" ∅ (split newline raw) in
  let '(id, state, res) := st in
  let! st' := commit expected id state res in
  let '(_, _, res') := st' in
  reject Z.of_nat (size res') <>? Z.of_nat (length targets) with unit_error;
  Ok res'.

(** ** [admin.go]: bounded command output *)
Record cappedOutput := CappedOutput { co_buffer : string; co_exceeded : bool }.

Definition capped_write (b : cappedOutput) (p : string) : result Z * cappedOutput :=
  if maxAdminBytes - len (co_buffer b) <? len p
  then (Err (ErrNew "admin_output_limit"), CappedOutput (co_buffer b) true)
  else (Ok (len p), CappedOutput (co_buffer b +:+ p) (co_exceeded b)).

(** The command writes [chunks] until a write fails; [runErr] is what
    [cmd.Run] reports, [ctxErr] what the context says afterwards. *)
Fixpoint write_chunks (b : cappedOutput) (chunks : list string) : cappedOutput :=
  match chunks with
  | [] => b
  | p :: chunks' =>
      match capped_write b p with
      | (Ok _, b') => write_chunks b' chunks'
      | (_, b') => b'
      end
  end.

Definition runCommand (chunks : list string) (runErr : bool) (ctxErr : option error) : result string :=
  let out := write_chunks (CappedOutput "" false) chunks in
  if runErr || co_exceeded out then
    if co_exceeded out then Err (ErrNew "admin_output_limit")
    else match ctxErr with Some e => Err e | None => Err (ErrNew "admin_command") end
  else Ok (co_buffer out).

(** ** [parseAgents] *)
Record publicID := PublicID { pid_TrustDomain : string; pid_Path : string }.
Definition publicID_fields : list (field publicID) :=
  [mk_field "trust_domain" pid_TrustDomain (fun i x => PublicID x (pid_Path i)) dec_string;
   mk_field "path" pid_Path (fun i x => PublicID (pid_TrustDomain i) x) dec_string].

Definition id_matches (id : publicID) (domain path : string) : bool :=
  (pid_TrustDomain id =? domain) && (pid_Path id =? path).

Record agentRecord := AgentRecord {
  ag_ID : publicID; ag_AttestationType : string; ag_Banned : option bool; ag_CanReattest : option bool;
  ag_Expires : string
}.
Definition agentRecord_zero : agentRecord := AgentRecord (PublicID "" "") "" None None "".
Definition agentRecord_fields : list (field agentRecord) :=
  [mk_field "id" ag_ID (fun '(AgentRecord _ b d e f) x => AgentRecord x b d e f) (dec_struct false publicID_fields);
   mk_field "attestation_type" ag_AttestationType (fun '(AgentRecord a _ d e f) x => AgentRecord a x d e f) dec_string;
   mk_field "banned" ag_Banned (fun '(AgentRecord a b _ e f) x => AgentRecord a b x e f) (dec_ptr dec_bool false);
   mk_field "can_reattest" ag_CanReattest (fun '(AgentRecord a b d _ f) x => AgentRecord a b d x f) (dec_ptr dec_bool false);
   mk_field "x509svid_expires_at" ag_Expires (fun '(AgentRecord a b d e _) x => AgentRecord a b d e x) dec_string].

Record agentResult := AgentResult { ar_Node : string; ar_NotAfter : Z; ar_Valid : bool }.

(** [json.Unmarshal] of a whole document into a struct. *)
Definition unmarshal_struct {A} (fields : list (field A)) (zero : A) (raw : string) : option A :=
  match parse_all raw with Some v => dec_struct false fields zero v | None => None end.

Definition agents_fields : list (field (option (list agentRecord))) :=
  [mk_field "agents" (fun x => x) (fun _ x => x) (dec_ptr (dec_slice (dec_struct false agentRecord_fields) agentRecord_zero) [])].

(** The largest expiry accepted: the end of the year 9999. *)
Definition expiry_limit : Z := 253402300799.

Definition agent_result (c : Config) (now : Z) (agents : list agentRecord) (node : string) : agentResult :=
  match filter (fun a => id_matches (ag_ID a) (c_TrustDomain c) ("/spire/agent/http_fqdn/" +:+ node) = true) agents with
  | [a] =>
      let notAfter :=
        match atoi (ag_Expires a) with
        | Some expiry => if (0 <? expiry) && (expiry <=? expiry_limit) then expiry else 0
        | None => 0
        end in
      AgentResult node notAfter
        ((Unix now <? notAfter) && (ag_AttestationType a =? "http_fqdn") && (ag_Banned a =? Some false) &&
         (ag_CanReattest a =? Some true))
  | _ => AgentResult node 0 false
  end.

(** The results come with the error when some node is not valid. *)
Definition parseAgents (raw : string) (c : Config) (now : Z) : list agentResult * option error :=
  match (if maxAdminBytes <? len raw then None else unmarshal_struct agents_fields None raw) with
  | Some (Some agents) =>
      let results := agent_result c now agents <$> c_Nodes c in
      (results, if forallb ar_Valid results then None else Some (ErrNew "agents_metadata"))
  | _ => ([], Some (ErrNew "agents_json"))
  end.

(** ** [aliasMetadata] *)
Record selector := Selector { sel_Type : string; sel_Value : string }.
Definition selector_fields : list (field selector) :=
  [mk_field "type" sel_Type (fun s x => Selector x (sel_Value s)) dec_string;
   mk_field "value" sel_Value (fun s x => Selector (sel_Type s) x) dec_string].

Record entryRecord := EntryRecord {
  en_ID : publicID; en_Parent : publicID; en_Selectors : list selector; en_Expires : string
}.
Definition entryRecord_zero : entryRecord := EntryRecord (PublicID "" "") (PublicID "" "") [] "".
Definition entryRecord_fields : list (field entryRecord) :=
  [mk_field "spiffe_id" en_ID (fun '(EntryRecord _ b d e) x => EntryRecord x b d e) (dec_struct false publicID_fields);
   mk_field "parent_id" en_Parent (fun '(EntryRecord a _ d e) x => EntryRecord a x d e) (dec_struct false publicID_fields);
   mk_field "selectors" en_Selectors (fun '(EntryRecord a b _ e) x => EntryRecord a b x e)
     (dec_slice (dec_struct false selector_fields) (Selector "" ""));
   mk_field "expires_at" en_Expires (fun '(EntryRecord a b d _) x => EntryRecord a b d x) dec_string].
Definition entries_fields : list (field (list entryRecord)) :=
  [mk_field "entries" (fun x => x) (fun _ x => x) (dec_slice (dec_struct false entryRecord_fields) entryRecord_zero)].

(** The zero [time.Time], January 1 of year 1, in nanoseconds from the epoch. *)
Definition zeroTime : Z := -62135596800 * Second.
Definition isZero (t : Z) : bool := t =? zeroTime.

(** [time.Unix(sec, 0)]: the seconds since year 1 are kept in 64 bits. *)
Definition timeUnix (sec : Z) : Z := (i64 (sec + 62135596800) - 62135596800) * Second.

Definition alias_entry_ok (c : Config) (node : string) (entry : entryRecord) : bool :=
  id_matches (en_ID entry) (c_TrustDomain c) ("/agent/" +:+ node) &&
  id_matches (en_Parent entry) (c_TrustDomain c) ("/spire/agent/http_fqdn/" +:+ node) &&
  match en_Selectors entry with
  | [s] => (sel_Type s =? "spiffe_id") && (sel_Value s =? agentID c node)
  | _ => false
  end.

Definition aliasMetadata (raw : string) (c : Config) (node : string) (now : Z) : Z * bool :=
  match (if maxAdminBytes <? len raw then None else unmarshal_struct entries_fields [] raw) with
  | Some [entry] =>
      if (en_Expires entry <>? "") && (en_Expires entry <>? "0") then
        match atoi (en_Expires entry) with
        | Some expiry =>
            if expiry <=? Unix now then (zeroTime, false) else (timeUnix expiry, alias_entry_ok c node entry)
        | None => (zeroTime, false)
        end
      else (zeroTime, alias_entry_ok c node entry)
  | _ => (zeroTime, false)
  end.

(** ** What a configuration promises *)
Definition good_label (s : string) : Prop :=
  (1 <= String.length s <= 63)%nat /\ all_chars (fun c => alnum c || (c =? "."%char) || (c =? "-"%char)) s = true /\
  (exists c, head_char s = Some c /\ alnum c = true) /\ (exists c, last_char s = Some c /\ alnum c = true).

Definition good_node (s : string) : Prop := good_label s /\ Forall good_label (split "." s).

Definition good_path (p : string) : Prop := isAbs p = true /\ clean p = p /\ p <> "/".

(** A textual loopback address with a port. *)
Definition loopback_port (a : string) : Prop :=
  exists host port ip n, splitHostPort a = Some (host, port) /\ parseIP host = Some ip /\ isLoopback ip = true /\
    atoi port = Some n /\ 0 < n <= 65535.

Section contract.
Context `{Spiffe}.

Record good_target (c : Config) (t : WorkloadTarget) : Prop := {
  gt_unit : len (wt_Unit t) <= 255 /\ matches unitPattern (wt_Unit t);
  gt_identity : len (wt_Identity t) <= 2048 /\
    exists path, fromString (wt_Identity t) = Some (SpiffeID (wt_Identity t) (c_TrustDomain c) path) /\ path <> "";
  gt_address : loopback_port (wt_Address t);
  gt_source : wt_Source t = "ghostunnel_status_watch" \/ wt_Source t = "caddy_loaded"
}.

(** The admin socket is configured, which only the node [eihort] may do. *)
Definition admin_ok (c : Config) : Prop :=
  c_Node c = "eihort" /\ good_path (c_ServerAdminSocket c) /\ good_path (c_SPIREServerBinary c) /\
  base (c_SPIREServerBinary c) = "spire-server" /\ c_Nodes c <> [].
Definition no_admin (c : Config) : Prop := c_ServerAdminSocket c = "" /\ c_SPIREServerBinary c = "" /\ c_Nodes c = [].

Record good_config (c : Config) : Prop := {
  gc_node : good_node (c_Node c);
  gc_domain : c_TrustDomain c <> "" /\ trustDomainFromString (c_TrustDomain c) = Some (c_TrustDomain c);
  gc_listen : loopback_port (c_ListenAddress c);
  gc_server : exists host port n, splitHostPort (c_ServerAddress c) = Some (host, port) /\ host <> "" /\
    len host <= 253 /\ atoi port = Some n /\ 0 < n <= 65535;
  gc_paths : good_path (c_BundlePath c) /\ good_path (c_WorkloadSocket c);
  gc_admin : admin_ok c \/ no_admin c;
  gc_nodes : (length (c_Nodes c) <= 128)%nat /\ NoDup (c_Nodes c) /\ Forall good_node (c_Nodes c);
  gc_systemctl : c_SystemctlBinary c = "" /\ c_Workloads c = [] \/
    good_path (c_SystemctlBinary c) /\ base (c_SystemctlBinary c) = "systemctl";
  gc_workloads : (length (c_Workloads c) <= 512)%nat /\ Forall (good_target c) (c_Workloads c) /\
    NoDup (wt_Unit <$> c_Workloads c) /\ NoDup (wt_Address <$> c_Workloads c)
}.
End contract.

Lemma nodePattern_spec s : matchString nodePattern s = true <-> good_label s.
Proof.
  rewrite matchString_spec. unfold nodePattern, good_label. apply matches_label.
  intros c ->. done.
Qed.

Lemma validNode_spec s : validNode s = true <-> good_node s.
Proof.
  unfold validNode, good_node. rewrite andb_true_iff, nodePattern_spec, forallb_forall, Forall_forall.
  setoid_rewrite nodePattern_spec. by setoid_rewrite list_elem_of_In.
Qed.

Lemma cleanAbsolute_spec p : cleanAbsolute p = true <-> good_path p.
Proof.
  unfold cleanAbsolute, good_path. bspec. tauto.
Qed.

Lemma validPort_spec p : validPort p = true <-> exists n, atoi p = Some n /\ 0 < n <= 65535.
Proof.
  unfold validPort. destruct (atoi p) as [n|]; [|naive_solver]. bspec. naive_solver.
Qed.

Lemma loopbackAddress_spec a : loopbackAddress a = true <-> loopback_port a.
Proof.
  unfold loopbackAddress, loopback_port. destruct (splitHostPort a) as [[host port]|]; [|naive_solver].
  destruct (parseIP host) as [ip|] eqn:E; [|naive_solver]. rewrite andb_true_iff, validPort_spec. naive_solver.
Qed.

Lemma good_path_nonempty p : good_path p -> p <> "".
Proof. intros (H & _) ->. discriminate H. Qed.

Section accepts.
Context `{Spiffe}.

Lemma check_nodes_spec nodes : forall seen, check_nodes seen nodes = Ok tt <->
  Forall good_node nodes /\ NoDup nodes /\ (forall n, n ∈ nodes -> n ∉ seen).
Proof.
  induction nodes as [|n nodes IH]; intros seen; cbn [check_nodes].
  { split; [|done]. intros _. split_and!; [constructor|constructor|set_solver]. }
  rewrite Forall_cons, NoDup_cons, <- validNode_spec.
  destruct (validNode n); cbn [negb orb]; [|naive_solver].
  case_bool_decide as Hn; [split; [discriminate|]; intros (_ & _ & Hx); destruct (Hx n); [set_solver|done]|].
  rewrite IH. set_solver.
Qed.

Lemma check_target_identity c t :
  match fromString (wt_Identity t) with
  | Some id => (len (wt_Identity t) <=? 2048) && (id_String id =? wt_Identity t) &&
               (id_TrustDomain id =? c_TrustDomain c) && (id_Path id <>? "")
  | None => false
  end = true <->
  len (wt_Identity t) <= 2048 /\
    exists path, fromString (wt_Identity t) = Some (SpiffeID (wt_Identity t) (c_TrustDomain c) path) /\ path <> "".
Proof.
  destruct (fromString (wt_Identity t)) as [[a b p]|]; [|naive_solver]. cbn. bspec. naive_solver.
Qed.

Lemma check_targets_spec c targets : forall units addresses, check_targets c units addresses targets = Ok tt <->
  Forall (good_target c) targets /\ NoDup (wt_Unit <$> targets) /\ NoDup (wt_Address <$> targets) /\
  (forall t, t ∈ targets -> wt_Unit t ∉ units /\ wt_Address t ∉ addresses).
Proof.
  induction targets as [|t targets IH]; intros units addresses; cbn [check_targets].
  { split; [|done]. intros _. split_and!; [constructor..|set_solver]. }
  rewrite !fmap_cons, !NoDup_cons, Forall_cons, !list_elem_of_fmap.
  assert (Hgood : good_target c t <-> (len (wt_Unit t) <= 255 /\ matches unitPattern (wt_Unit t)) /\
    (len (wt_Identity t) <= 2048 /\
     exists path, fromString (wt_Identity t) = Some (SpiffeID (wt_Identity t) (c_TrustDomain c) path) /\ path <> "") /\
    loopback_port (wt_Address t) /\ (wt_Source t = "ghostunnel_status_watch" \/ wt_Source t = "caddy_loaded")).
  { split; [intros [? ? ? ?]; tauto|intros (?&?&?&?); by constructor]. }
  rewrite Hgood, <- (check_target_identity c t), <- loopbackAddress_spec, <- matchString_spec. clear Hgood.
  destruct (255 <? len (wt_Unit t)) eqn:E1; cbn [orb].
  { apply Z.ltb_lt in E1. split; [discriminate|]. intros ((((? & _) & _) & _) & _). lia. }
  apply Z.ltb_ge in E1. destruct (matchString unitPattern (wt_Unit t)); cbn [negb orb]; [|naive_solver].
  case_bool_decide as Eu; [split; [discriminate|]; intros (_ & _ & _ & Hx); by destruct (Hx t ltac:(set_solver))|].
  destruct (match fromString _ with Some _ => _ | None => _ end); [|naive_solver].
  destruct (loopbackAddress (wt_Address t)); cbn [negb orb]; [|naive_solver].
  case_bool_decide as Ea; [split; [discriminate|]; intros (_ & _ & _ & Hx); by destruct (Hx t ltac:(set_solver))|].
  destruct ((wt_Source t =? sourceGhostunnel) || (wt_Source t =? sourceCaddy)) eqn:Es.
  - rewrite orb_true_iff, !bool_decide_eq_true in Es. rewrite IH. clear IH. split.
    + intros (H1 & H2 & H3 & H4). split_and!; try done.
      * intros (x & Hx & Hin). destruct (H4 x Hin) as [Hu _]. set_solver.
      * intros (x & Hx & Hin). destruct (H4 x Hin) as [_ Hu]. set_solver.
      * intros x [->|Hx]%elem_of_cons; [done|]. destruct (H4 x Hx). set_solver.
    + intros ((_ & H1) & (H2 & H3) & (H4 & H5) & H6). split_and!; try done.
      intros x Hx. destruct (H6 x ltac:(set_solver)). split; [|set_solver]. set_solver.
  - rewrite orb_false_iff, !bool_decide_eq_false in Es. unfold sourceGhostunnel, sourceCaddy in Es. naive_solver.
Qed.
Lemma validateWorkloads_spec c : validateWorkloads c = Ok tt <->
  (length (c_Workloads c) <= 512)%nat /\
  (c_SystemctlBinary c = "" /\ c_Workloads c = [] \/
   good_path (c_SystemctlBinary c) /\ base (c_SystemctlBinary c) = "systemctl") /\
  Forall (good_target c) (c_Workloads c) /\ NoDup (wt_Unit <$> c_Workloads c) /\ NoDup (wt_Address <$> c_Workloads c).
Proof.
  unfold validateWorkloads, maxWorkloads. destruct (512 <? _) eqn:E1.
  { apply Z.ltb_lt in E1. split; [discriminate|]. intros (? & _). lia. }
  apply Z.ltb_ge in E1.
  destruct ((c_SystemctlBinary c <>? "") && _) eqn:E2.
  { rewrite andb_true_iff, orb_true_iff, !negb_true_iff, !bool_decide_eq_false in E2. destruct E2 as [Hn Hb].
    split; [discriminate|]. intros (_ & [[? _]|[Hp Hs]] & _); [done|]. apply cleanAbsolute_spec in Hp. destruct Hb; congruence. }
  rewrite andb_false_iff, orb_false_iff, !negb_false_iff, !bool_decide_eq_true, cleanAbsolute_spec in E2.
  destruct (_ && (c_SystemctlBinary c =? "")) eqn:E3.
  { rewrite andb_true_iff, Z.ltb_lt, bool_decide_eq_true in E3. destruct E3 as [Hl He]. split; [discriminate|].
    intros (_ & [[_ Hw]|[Hp _]] & _); [rewrite Hw in Hl; cbn in Hl; lia|]. by apply good_path_nonempty in Hp. }
  rewrite andb_false_iff, Z.ltb_ge, bool_decide_eq_false in E3. rewrite check_targets_spec.
  assert (Hw : length (c_Workloads c) = 0%nat -> c_Workloads c = []) by (by destruct (c_Workloads c)).
  assert (Hs : c_SystemctlBinary c = "" /\ c_Workloads c = [] \/
    good_path (c_SystemctlBinary c) /\ base (c_SystemctlBinary c) = "systemctl").
  { destruct E2 as [He|E2]; [|by right]. left. split; [done|]. apply Hw. destruct E3; [lia|done]. }
  split; [intros (? & ? & ? & _)|intros (_ & _ & ? & ? & ?)]; split_and!; try done; first [lia|set_solver].
Qed.

Lemma domain_spec c :
  match trustDomainFromString (c_TrustDomain c) with
  | Some td => (td =? c_TrustDomain c) && (c_TrustDomain c <>? "")
  | None => false
  end = true <-> c_TrustDomain c <> "" /\ trustDomainFromString (c_TrustDomain c) = Some (c_TrustDomain c).
Proof.
  destruct (trustDomainFromString _) as [td|]; [|naive_solver]. bspec. naive_solver.
Qed.

Lemma server_spec c :
  match splitHostPort (c_ServerAddress c) with
  | Some (host, port) => (host <>? "") && (len host <=? 253) && validPort port
  | None => false
  end = true <-> exists host port n, splitHostPort (c_ServerAddress c) = Some (host, port) /\ host <> "" /\
    len host <= 253 /\ atoi port = Some n /\ 0 < n <= 65535.
Proof.
  destruct (splitHostPort _) as [[h p]|]; [|naive_solver]. bspec. rewrite validPort_spec. naive_solver.
Qed.

(** The two checks of the admin collection, around that of the nodes. *)
Lemma admin_spec c :
  let admin := (c_ServerAdminSocket c <>? "") || (c_SPIREServerBinary c <>? "") in
  admin && ((c_Node c <>? "eihort") || negb (cleanAbsolute (c_ServerAdminSocket c)) ||
            negb (cleanAbsolute (c_SPIREServerBinary c)) || (base (c_SPIREServerBinary c) <>? "spire-server")) = false /\
  (0 <? Z.of_nat (length (c_Nodes c))) && negb admin = false /\
  admin && (Z.of_nat (length (c_Nodes c)) =? 0) = false <-> admin_ok c \/ no_admin c.
Proof.
  cbv zeta. unfold admin_ok, no_admin. rewrite <- !cleanAbsolute_spec.
  assert (Hn : c_Nodes c = [] <-> Z.of_nat (length (c_Nodes c)) = 0) by (destruct (c_Nodes c); cbn; split; (done || lia)).
  destruct ((c_ServerAdminSocket c <>? "") || (c_SPIREServerBinary c <>? "")) eqn:Ea; cbn [andb negb].
  - rewrite !orb_false_iff, !negb_false_iff, !bool_decide_eq_true, andb_false_r, bool_decide_eq_false, Hn.
    rewrite orb_true_iff, !negb_true_iff, !bool_decide_eq_false in Ea. tauto.
  - rewrite orb_false_iff, !negb_false_iff, !bool_decide_eq_true in Ea. destruct Ea as [-> ->].
    rewrite andb_true_r, Z.ltb_ge, Hn. split; [intros (_ & ? & _); right; split_and!; try done; lia|].
    intros [(_ & Hx & _)|(_ & _ & ?)]; [discriminate Hx|]. split_and!; try done. lia.
Qed.

(** The configuration is accepted exactly when it keeps the contract of
    [good_config]: the exporter listens on loopback only, every path is clean
    and absolute, only [eihort] reads the server's admin socket and then with a
    named cohort, and the observed workloads are distinct loopback endpoints
    with identities of the configured trust domain. *)
Theorem identity_config_correct c : config_validate c = Ok tt <-> good_config c.
Proof.
  transitivity (validNode (c_Node c) = true /\
    (c_TrustDomain c <> "" /\ trustDomainFromString (c_TrustDomain c) = Some (c_TrustDomain c)) /\
    loopbackAddress (c_ListenAddress c) = true /\
    (exists host port n, splitHostPort (c_ServerAddress c) = Some (host, port) /\ host <> "" /\
      len host <= 253 /\ atoi port = Some n /\ 0 < n <= 65535) /\
    (cleanAbsolute (c_BundlePath c) = true /\ cleanAbsolute (c_WorkloadSocket c) = true) /\
    (admin_ok c \/ no_admin c) /\ (length (c_Nodes c) <= 128)%nat /\ check_nodes ∅ (c_Nodes c) = Ok tt /\
    validateWorkloads c = Ok tt).
  - rewrite <- domain_spec, <- server_spec, <- admin_spec, <- andb_true_iff. cbv zeta. unfold config_validate. split.
    + intros V. repeat (apply require_Ok in V as [? V]). apply reject_Ok in V as [? V]. apply reject_Ok in V as [Hl V].
      apply rbind_Ok in V as ([] & ? & V). do 2 apply reject_Ok in V as [? V].
      apply Z.ltb_ge in Hl. split_and!; try done; lia.
    + intros (-> & -> & -> & -> & -> & (-> & Hn & Ha) & Hl & -> & Hw). cbn [rbind]. rewrite Hn, Ha, Hw.
      destruct (128 <? _) eqn:E; [apply Z.ltb_lt in E; lia|done].
  - rewrite validNode_spec, loopbackAddress_spec, !cleanAbsolute_spec, check_nodes_spec, validateWorkloads_spec. split.
    + intros (? & ? & ? & ? & ? & ? & ? & (? & ? & _) & (? & ? & ? & ? & ?)). constructor; try done; by split_and!.
    + intros [? ? ? ? ? ? (? & ? & ?) ? (? & ? & ? & ?)]. split_and!; try done; (apply gc_domain0 || apply gc_paths0 || set_solver).
Qed.
End accepts.

(** ** What [systemctl] said *)

(** The lines between blank lines, [cur] being the block read so far. *)
Fixpoint blocks (cur : list string) (lines : list string) : list (list string) :=
  match lines with
  | [] => [cur]
  | line :: lines' => if line =? "" then cur :: blocks [] lines' else blocks (cur ++ [line]) lines'
  end.

(** The unit and the state a block gives: the values of its lines, if any. *)
Definition reads_block (b : list string) (id state : string) : Prop :=
  (forall u, u <> "" -> "Id=" +:+ u ∈ b <-> id = u) /\ (forall s, s <> "" -> "ActiveState=" +:+ s ∈ b <-> state = s).

Definition says (b : list string) (u s : string) : Prop := s <> "" /\ "Id=" +:+ u ∈ b /\ "ActiveState=" +:+ s ∈ b.

Lemma cut_key k v line key value : cut k line = Some (key, value) -> line = key +:+ String k value /\
  (v = line -> v = key +:+ String k value).
Proof.
  revert key. induction line as [|c line IH]; intros key H; cbn [cut] in H; [discriminate|].
  case_bool_decide as E; [injection H as <- <-; subst; done|].
  destruct (cut k line) as [[a b]|] eqn:Ec; [|discriminate]. injection H as <- <-.
  destruct (IH a eq_refl) as [-> _]. rewrite append_cons. done.
Qed.

Lemma reads_nil : reads_block [] "" "".
Proof. split; intros x Hx; (split; [intros H; by apply elem_of_nil in H|congruence]). Qed.

(** Reading one more line of the block. *)
Lemma reads_id b id state v : reads_block b id state -> id = "" -> reads_block (b ++ ["Id=" +:+ v]) v state.
Proof.
  intros [H1 H2] ->. split; intros x Hx; rewrite elem_of_app, list_elem_of_singleton.
  - rewrite H1 by done. split; [intros [?|E]; [congruence|]|intros ->; by right]. by apply append_inj_l in E.
  - rewrite H2 by done. split; [intros [?|E]; [done|discriminate E]|by left].
Qed.

Lemma reads_state b id state v : reads_block b id state -> state = "" -> reads_block (b ++ ["ActiveState=" +:+ v]) id v.
Proof.
  intros [H1 H2] ->. split; intros x Hx; rewrite elem_of_app, list_elem_of_singleton.
  - rewrite H1 by done. split; [intros [?|E]; [done|discriminate E]|by left].
  - rewrite H2 by done. split; [intros [?|E]; [congruence|]|intros ->; by right]. by apply append_inj_l in E.
Qed.

(** The table after some blocks, in terms of the blocks. *)
Definition table_ok (expected : gset string) (done : list (list string)) (res : gmap string string) : Prop :=
  dom res ⊆ expected /\ (forall u s, res !! u = Some s -> s <> "") /\
  forall u s, u <> "" -> res !! u = Some s <-> exists b, b ∈ done /\ says b u s.

Lemma commit_spec expected bs b id state res id' state' res' :
  reads_block b id state -> table_ok expected bs res -> commit expected id state res = Ok (id', state', res') ->
  id' = "" /\ state' = "" /\ table_ok expected (bs ++ [b]) res'.
Proof.
  intros [H1 H2] (T1 & T2 & T3) H. unfold commit in H. destruct (_ && _) eqn:E.
  - injection H as <- <- <-. bprop. split; [done|]. split; [done|]. split; [done|]. split; [done|].
    intros u s Hu. rewrite T3 by done.
    setoid_rewrite elem_of_app. setoid_rewrite list_elem_of_singleton. split; [naive_solver|].
    intros (x & [Hx| ->] & Hs); [eauto|]. destruct Hs as (Hs & Hi & _). apply H1 in Hi; congruence.
  - apply reject_Ok in H as [Hr [= <- <- <-]]. rewrite !orb_false_iff, !negb_false_iff in Hr. destruct Hr as [[Hi Hs] Hd]. bprop.
    assert (Hnone : res !! id = None).
    { destruct (res !! id) as [x|] eqn:Ex; [|done]. by destruct (T2 _ _ Ex). }
    split; [done|]. split; [done|]. split; [|split].
    + rewrite dom_insert_L. set_solver.
    + intros u s. destruct (decide (u = id)) as [->|Hne]; [rewrite lookup_insert_eq; naive_solver|].
      rewrite lookup_insert_ne by done. apply T2.
    + intros u s Hu. setoid_rewrite elem_of_app. setoid_rewrite list_elem_of_singleton.
      destruct (decide (u = id)) as [->|Hne].
      * rewrite lookup_insert_eq. split.
        -- intros [= <-]. exists b. split; [by right|]. split; [done|]. split; [by apply H1|by apply H2].
        -- intros (x & [Hx| ->] & Hy); [|destruct Hy as (Hy & _ & Hz); f_equal; by apply H2].
           assert (res !! id = Some s) by (apply T3; eauto). congruence.
      * rewrite lookup_insert_ne by done. rewrite T3 by done. split; [naive_solver|].
        intros (x & [Hx| ->] & Hy); [eauto|]. destruct Hy as (_ & Hy & _). apply H1 in Hy; congruence.
Qed.

Lemma activity_loop_spec expected lines : forall bs cur id state res id' state' res',
  reads_block cur id state -> table_ok expected bs res ->
  activity_loop expected id state res lines = Ok (id', state', res') ->
  exists bs' cur', bs ++ blocks cur lines = bs' ++ [cur'] /\ reads_block cur' id' state' /\ table_ok expected bs' res'.
Proof.
  induction lines as [|line lines IH]; intros bs cur id state res id' state' res' Hb Ht H; cbn [activity_loop blocks] in *.
  { injection H as <- <- <-. eauto. }
  destruct (line =? "") eqn:El; bprop.
  - apply rbind_Ok in H as ([[i s] r] & Hc & H). destruct (commit_spec _ _ _ _ _ _ _ _ _ Hb Ht Hc) as (-> & -> & Ht').
    destruct (IH _ _ _ _ _ _ _ _ reads_nil Ht' H) as (bs' & cur' & E & Hb' & Ht''). exists bs', cur'.
    rewrite <- app_assoc in E. done.
  - destruct (cut "=" line) as [[key value]|] eqn:Ec; [|discriminate]. apply (cut_key _ line) in Ec as [Ec _].
    destruct (key =? "Id") eqn:Ek; bprop.
    + apply reject_Ok in H as [Hi H]. bprop. subst. apply (IH _ _ _ _ _ _ _ _ (reads_id _ _ _ value Hb eq_refl) Ht H).
    + destruct (key =? "ActiveState") eqn:Ek'; bprop; [|discriminate].
      apply reject_Ok in H as [Hi H]. bprop. subst. apply (IH _ _ _ _ _ _ _ _ (reads_state _ _ _ value Hb eq_refl) Ht H).
Qed.

Lemma size_list_to_set (l : list string) : let X := list_to_set l : gset string in
  (size X <= length l)%nat /\ (size X = length l -> NoDup l).
Proof.
  induction l as [|x l [IH1 IH2]]; cbn -[size]; [split; [by rewrite size_empty|constructor]|].
  destruct (decide (x ∈ (list_to_set l : gset string))) as [Hx|Hx].
  - replace ({[x]} ∪ list_to_set l : gset string) with (list_to_set l : gset string) by set_solver. lia.
  - rewrite size_union, size_singleton by set_solver. split; [lia|]. intros E. constructor; [set_solver|apply IH2; lia].
Qed.

(** What the reader of [systemctl show] accepts describes exactly the
    configured units, each once and with a state; and a unit has a state
    exactly when some block of the output names both. *)
Theorem activity_sound raw targets res : parseWorkloadActivity raw targets = Ok res ->
  dom res = list_to_set (wt_Unit <$> targets) /\ NoDup (wt_Unit <$> targets) /\
  forall u s, u <> "" -> res !! u = Some s <-> exists b, b ∈ blocks [] (split newline raw) /\ says b u s.
Proof.
  intros H. unfold parseWorkloadActivity in H. apply reject_Ok in H as [_ H].
  set (expected := list_to_set (wt_Unit <$> targets) : gset string) in H.
  apply rbind_Ok in H as ([[id state] r] & Hl & H). apply rbind_Ok in H as ([[i s] r'] & Hc & H).
  apply reject_Ok in H as [Hn [= <-]]. rewrite negb_false_iff, bool_decide_eq_true in Hn.
  assert (H0 : table_ok expected [] ∅).
  { split; [set_solver|]. split; [intros ? ? Hx; by rewrite lookup_empty in Hx|]. intros u s' _. rewrite lookup_empty.
    split; [discriminate|]. intros (b & Hb & _). by apply elem_of_nil in Hb. }
  destruct (activity_loop_spec _ _ _ _ _ _ _ _ _ _ reads_nil H0 Hl) as (bs & cur & E & Hb & Ht).
  destruct (commit_spec _ _ _ _ _ _ _ _ _ Hb Ht Hc) as (_ & _ & (T1 & _ & T3)). cbn [app] in E. rewrite <- E in T3.
  assert (Hsz : (size (dom r') = length (wt_Unit <$> targets))%nat) by (rewrite size_dom, length_fmap; lia).
  destruct (size_list_to_set (wt_Unit <$> targets)) as [Hle Hnd]. fold expected in Hle, Hnd.
  pose proof (set_subseteq_size_eq (dom r') expected T1 ltac:(lia)) as Hd.
  split; [exact Hd|]. split; [|exact T3]. apply Hnd. rewrite <- Hd. lia.
Qed.

(** The output of [systemctl show] for units in given states. *)
Definition unit_lines (us : string * string) : list string := ["Id=" +:+ us.1; "ActiveState=" +:+ us.2; ""].
Definition printed (l : list (string * string)) : string := join (String newline "") (concat (unit_lines <$> l)).

Definition no_newline (s : string) : Prop := all_chars (fun c => c <>? newline) s = true.

Lemma activity_unit expected u s res lines : u ∈ expected -> s <> "" -> res !! u = None ->
  activity_loop expected "" "" res (unit_lines (u, s) ++ lines) = activity_loop expected "" "" (<[u := s]> res) lines.
Proof.
  intros Hu Hs Hr. cbn [app unit_lines activity_loop fst snd].
  change (cut "=" ("Id=" +:+ u)) with (Some ("Id", u)). change (cut "=" ("ActiveState=" +:+ s)) with (Some ("ActiveState", s)).
  change ("Id=" +:+ u =? "") with false. change ("ActiveState=" +:+ s =? "") with false. cbn -[commit].
  unfold commit. rewrite (bool_decide_eq_false_2 (s = "")), (bool_decide_eq_true_2 (u ∈ expected)), Hr by done.
  by rewrite andb_false_r.
Qed.

Lemma activity_units expected l : forall res, Forall (fun us => us.1 ∈ expected /\ us.2 <> "") l ->
  NoDup l.*1 -> (forall u, u ∈ l.*1 -> res !! u = None) ->
  activity_loop expected "" "" res (concat (unit_lines <$> l)) = Ok ("", "", list_to_map l ∪ res).
Proof.
  induction l as [|[u s] l IH]; intros res Hl Hn Hr; cbn [fmap list_fmap concat].
  { cbn. by rewrite (left_id_L ∅ (∪)). }
  apply Forall_cons in Hl as [[Hu Hs] Hl]. apply NoDup_cons in Hn as [Hn1 Hn].
  rewrite activity_unit; [|done..|apply Hr; set_solver]. rewrite IH; try done.
  - rewrite list_to_map_cons. do 2 f_equal. rewrite <- insert_union_l.
    by rewrite <- insert_union_r by (by apply not_elem_of_list_to_map_1).
  - intros x Hx. rewrite lookup_insert_ne; [apply Hr; set_solver|]. intros <-. done.
Qed.

(** What [systemctl show] prints for the configured units is read back as the
    state of each, in whatever order it lists them. *)
Theorem activity_roundtrip l targets : l <> [] -> l.*1 ≡ₚ wt_Unit <$> targets -> NoDup (wt_Unit <$> targets) ->
  Forall (fun us => no_newline us.1 /\ no_newline us.2 /\ us.2 <> "") l -> len (printed l) <= maxAdminBytes ->
  parseWorkloadActivity (printed l) targets = Ok (list_to_map l).
Proof.
  intros Hne Hp Hn Hl Hlen. unfold parseWorkloadActivity. rewrite (proj2 (Z.ltb_ge _ _) Hlen).
  assert (Hs : split newline (printed l) = concat (unit_lines <$> l)).
  { unfold printed. apply split_join; [by destruct l|]. apply Forall_concat, Forall_fmap.
    eapply Forall_impl; [exact Hl|]. intros [u s] (H1 & H2 & _). unfold unit_lines, no_newline in *. cbn [fst snd] in *.
    change (Forall (fun e => all_chars (fun c => c <>? newline) e = true) ["Id=" +:+ u; "ActiveState=" +:+ s; ""]).
    rewrite !Forall_cons, Forall_nil, !all_chars_append, H1, H2. done. }
  rewrite Hs. rewrite (activity_units _ l ∅).
  - cbn [rbind]. assert (Hc : forall e r, commit e "" "" r = Ok ("", "", r)) by done. rewrite Hc. cbn [rbind].
    rewrite (right_id_L ∅ (∪)), map_size_list_to_map by (by rewrite Hp).
    apply Permutation_length in Hp. rewrite !length_fmap in Hp. by rewrite Hp, bool_decide_eq_true_2.
  - apply Forall_forall. intros us Hus. rewrite Forall_forall in Hl. destruct (Hl us Hus) as (_ & _ & Hx).
    split; [|done]. apply elem_of_list_to_set. rewrite <- Hp. apply list_elem_of_fmap. eauto.
  - by rewrite Hp.
  - intros u _. apply lookup_empty.
Qed.

(** ** Command output *)
Definition concat_all (chunks : list string) : string := foldr String.append "" chunks.

Lemma write_chunks_spec chunks : forall buffer, len buffer <= maxAdminBytes ->
  let out := write_chunks (CappedOutput buffer false) chunks in
  if len (buffer +:+ concat_all chunks) <=? maxAdminBytes
  then out = CappedOutput (buffer +:+ concat_all chunks) false else co_exceeded out = true.
Proof.
  induction chunks as [|p chunks IH]; intros buffer Hb; cbn [write_chunks concat_all foldr].
  { rewrite append_nil_r. by rewrite (proj2 (Z.leb_le _ _) Hb). }
  unfold capped_write. cbn [co_buffer co_exceeded]. fold (concat_all chunks).
  pose proof (len_nonneg (concat_all chunks)) as Hc. destruct (_ <? len p) eqn:E.
  - apply Z.ltb_lt in E. rewrite !len_append. by destruct (_ <=? _) eqn:E2; [apply Z.leb_le in E2; lia|].
  - apply Z.ltb_ge in E. specialize (IH (buffer +:+ p)). rewrite append_assoc in IH. apply IH. rewrite len_append. lia.
Qed.

(** A command yields its whole output or none of it: everything it wrote, if
    it succeeded and wrote at most eight mebibytes, and otherwise an error,
    which for an oversized output is the limit whatever else went wrong. *)
Theorem runCommand_whole chunks runErr ctxErr :
  (forall out, runCommand chunks runErr ctxErr = Ok out <->
     runErr = false /\ out = concat_all chunks /\ len out <= maxAdminBytes) /\
  (maxAdminBytes < len (concat_all chunks) -> runCommand chunks runErr ctxErr = Err (ErrNew "admin_output_limit")).
Proof.
  pose proof (write_chunks_spec chunks "" ltac:(done)) as H. cbv zeta in H. rewrite append_nil_l in H. unfold runCommand.
  destruct (len (concat_all chunks) <=? maxAdminBytes) eqn:E.
  - rewrite H. apply Z.leb_le in E. cbn. split; [|lia]. intros out. rewrite orb_false_r.
    destruct runErr; [destruct ctxErr; naive_solver|]. split; [intros [= <-]; done|naive_solver].
  - rewrite H, orb_true_r. apply Z.leb_gt in E. split; [|done]. intros out. split; [discriminate|]. intros (_ & -> & ?). lia.
Qed.

(** ** What the SPIRE server said of the agents *)

(** [a] is the only record of the node's agent. *)
Definition sole_agent (c : Config) (agents : list agentRecord) (node : string) (a : agentRecord) : Prop :=
  let theirs b := ag_ID b = PublicID (c_TrustDomain c) ("/spire/agent/http_fqdn/" +:+ node) in
  exists pre post, agents = pre ++ a :: post /\ theirs a /\ Forall (fun b => ~ theirs b) (pre ++ post).

Definition current_agent (now : Z) (a : agentRecord) (expiry : Z) : Prop :=
  ag_AttestationType a = "http_fqdn" /\ ag_Banned a = Some false /\ ag_CanReattest a = Some true /\
  atoi (ag_Expires a) = Some expiry /\ Unix now < expiry /\ 0 < expiry <= 253402300799.

Lemma id_matches_spec i d p : id_matches i d p = true <-> i = PublicID d p.
Proof. destruct i. unfold id_matches. cbn. bspec. naive_solver. Qed.

Lemma filter_sole {A} (P : A -> Prop) `{Hdec : !forall x, Decision (P x)} (l : list A) a :
  filter P l = [a] <-> exists pre post, l = pre ++ a :: post /\ P a /\ Forall (fun b => ~ P b) (pre ++ post).
Proof.
  split.
  - revert a. induction l as [|x l IH]; intros a H; [discriminate|]. rewrite filter_cons in H. destruct (decide (P x)) as [Hx|Hx].
    + injection H as -> H. exists [], l. split; [done|]. split; [done|]. apply Forall_forall. intros b Hb Hp.
      assert (Hf : b ∈ filter P l) by (by apply list_elem_of_filter). rewrite H in Hf. by apply elem_of_nil in Hf.
    + destruct (IH a H) as (pre & post & -> & Ha & Hf). exists (x :: pre), post. split; [done|]. split; [done|]. by constructor.
  - intros (pre & post & -> & Ha & Hf). apply Forall_app in Hf as [H1 H2].
    assert (Hn : forall k, Forall (fun b => ~ P b) k -> filter P k = []).
    { induction k as [|x k IH]; intros Hk; [done|]. apply Forall_cons in Hk as [Hx Hk]. rewrite filter_cons_False by done. auto. }
    rewrite filter_app, (Hn pre H1), filter_cons_True, (Hn post H2) by done. done.
Qed.

Lemma sole_agent_filter c agents node a : sole_agent c agents node a <->
  filter (fun a => id_matches (ag_ID a) (c_TrustDomain c) ("/spire/agent/http_fqdn/" +:+ node) = true) agents = [a].
Proof. rewrite filter_sole. unfold sole_agent. by setoid_rewrite id_matches_spec. Qed.

Lemma agent_result_valid c now agents node : 0 <= Unix now ->
  ar_Node (agent_result c now agents node) = node /\
  (ar_Valid (agent_result c now agents node) = true <->
   exists a, sole_agent c agents node a /\ current_agent now a (ar_NotAfter (agent_result c now agents node))) /\
  0 <= ar_NotAfter (agent_result c now agents node) <= 253402300799.
Proof.
  intros Hnow. unfold agent_result. setoid_rewrite sole_agent_filter.
  destruct (filter _ agents) as [|a [|b l]] eqn:E; cbn.
  1,3: split; [done|]; split; [|lia]; split; [discriminate|]; intros (x & Hx & _); discriminate Hx.
  split; [done|]. unfold current_agent, expiry_limit. rewrite !andb_true_iff, !bool_decide_eq_true, Z.ltb_lt.
  destruct (atoi (ag_Expires a)) as [t|] eqn:Et; cbn; [|split; [|lia]; split; [lia|intros (x & _ & ?); lia]].
  destruct ((0 <? t) && (t <=? 253402300799)) eqn:Er; [|split; [|lia]; split; [lia|intros (x & _ & ?); lia]].
  rewrite andb_true_iff, Z.ltb_lt, Z.leb_le in Er. split; [|lia].
  split; [intros; exists a; naive_solver|]. intros (x & [= <-] & ?). naive_solver.
Qed.

Lemma notAfter_of c now agents node a t : sole_agent c agents node a -> current_agent now a t ->
  ar_NotAfter (agent_result c now agents node) = t.
Proof.
  rewrite sole_agent_filter. intros Ha (_ & _ & _ & Ht & _ & Hr).
  unfold agent_result. rewrite Ha, Ht. cbn. unfold expiry_limit.
  by rewrite (proj2 (Z.ltb_lt _ _) (proj1 Hr)), (proj2 (Z.leb_le _ _) (proj2 Hr)).
Qed.

(** The list of agents is clean exactly when it decodes and every node of the
    cohort has one record and no more, attested with the plugin, not banned,
    able to attest again and not expired; otherwise an error is reported along
    with one result per node, valid for the nodes that satisfy this. *)
Theorem parseAgents_correct raw c now rs e : 0 <= Unix now -> parseAgents raw c now = (rs, e) ->
  (e = None <-> exists agents, len raw <= maxAdminBytes /\ unmarshal_struct agents_fields None raw = Some (Some agents) /\
     forall node, node ∈ c_Nodes c -> exists a expiry, sole_agent c agents node a /\ current_agent now a expiry) /\
  (e <> Some (ErrNew "agents_json") -> exists agents, unmarshal_struct agents_fields None raw = Some (Some agents) /\
     ar_Node <$> rs = c_Nodes c /\
     forall r, r ∈ rs -> 0 <= ar_NotAfter r <= 253402300799 /\
       (ar_Valid r = true <-> exists a, sole_agent c agents (ar_Node r) a /\ current_agent now a (ar_NotAfter r))).
Proof.
  intros Hnow H. unfold parseAgents in H. destruct (maxAdminBytes <? len raw) eqn:El.
  { apply Z.ltb_lt in El. injection H as <- <-. split; [|done]. split; [discriminate|]. intros (? & ? & _). lia. }
  apply Z.ltb_ge in El. destruct (unmarshal_struct agents_fields None raw) as [[agents|]|].
  2,3: injection H as <- <-; split; [|done]; split; [discriminate|]; by intros (? & _ & ? & _).
  injection H as <- <-. split.
  - destruct (forallb _ _) eqn:Ef.
    + split; [|done]. intros _. exists agents. split; [done|]. split; [done|]. intros node Hn.
      rewrite forallb_forall in Ef. specialize (Ef (agent_result c now agents node)). rewrite <- list_elem_of_In in Ef.
      destruct (agent_result_valid c now agents node Hnow) as (_ & Hv & _). apply Hv in Ef as (a & Ha); [by eauto|].
      apply list_elem_of_fmap. eauto.
    + split; [discriminate|]. intros (x & _ & [= <-] & Hall). rewrite <- not_true_iff_false, forallb_forall in Ef. destruct Ef.
      intros r Hr. apply list_elem_of_In, list_elem_of_fmap in Hr as (node & -> & Hn).
      destruct (agent_result_valid c now agents node Hnow) as (_ & Hv & _). apply Hv.
      destruct (Hall node Hn) as (a & t & Ha & Ht). exists a. split; [done|]. by rewrite (notAfter_of _ _ _ _ _ _ Ha Ht).
  - intros _. exists agents. split; [done|]. split.
    + rewrite <- list_fmap_compose. etransitivity; [|apply list_fmap_id]. apply list_fmap_ext. intros i node _.
      apply (agent_result_valid c now agents node Hnow).
    + intros r Hr. apply list_elem_of_fmap in Hr as (node & -> & Hn).
      destruct (agent_result_valid c now agents node Hnow) as (-> & Hv & Hb). by split.
Qed.
