(* ===== verification/IdentityExporter.v ===== *)
(** * realm-identity-metrics: certificates and the exporter

    Models [certificates.go], [exporter.go], [workload_state.go] and the
    observation half of [workloads.go] of [src/pkgs/realm-identity-metrics]:
    the bundle reader, the choice of the canary certificate, the observation of
    a workload, what the exporter records and when it calls itself healthy.
    PEM and X.509 decoding and the outcomes of commands and connections are
    arguments, and so is every reading of the clock, in nanoseconds from the
    Unix epoch.  Sample values are integers; Go holds them as [float64], which
    is exact below [2^53].  [IdentityExposition] models their text. *)

From S2P Require Import Prelude GoStrings Encoding Json AgentConfig IdentityConfig.

Open Scope Z_scope.
Open Scope go_scope.

(** ** [certificates.go] *)
Record cert := Cert {
  ct_Raw : string; ct_NotBefore : Z; ct_NotAfter : Z;
  ct_IsCA : bool; ct_BasicConstraintsValid : bool; ct_KeyUsage : Z
}.
#[export] Instance cert_eq_dec : EqDecision cert.
Proof. solve_decision. Defined.

Definition fingerprint (c : cert) : string := hex_encode (Sha256.sum (ct_Raw c)).
Definition certCurrent (c : cert) (now : Z) : bool := negb (now <? ct_NotBefore c) && (now <? ct_NotAfter c).

Definition bundle_space (c : ascii) : bool := (code c =? 32) || (code c =? 13) || (code c =? 10) || (code c =? 9).
Fixpoint bundle_trim (s : string) : string :=
  match s with
  | String c s' => if bundle_space c then bundle_trim s' else s
  | EmptyString => EmptyString
  end.

Record pemBlock := PemBlock { pb_Type : string; pb_Headers : Z; pb_Bytes : string }.

(** [bytes.Count]: non-overlapping occurrences of a non-empty separator. *)
Fixpoint count_sub (fuel : nat) (s sep : string) : Z :=
  match fuel, s with
  | S fuel', String _ s' =>
      if hasPrefix s sep then 1 + count_sub fuel' (drop (String.length sep) s) sep else count_sub fuel' s' sep
  | _, _ => 0
  end.
Definition bytes_Count (s sep : string) : Z := count_sub (S (String.length s)) s sep.

Definition maxBundleBytes : Z := 1048576.
Definition begin_certificate : string := "-----BEGIN CERTIFICATE-----".
Definition KeyUsageCertSign : Z := 32.

Section bundle.
(* [pem.Decode] and [x509.ParseCertificate] *)
Variable pem_Decode : string -> option (pemBlock * string).
Variable parseCertificate : string -> option cert.

(** One turn of the loop needs one unit of fuel; each consumes a PEM block. *)
Fixpoint bundle_loop (fuel : nat) (raw : string) (certs : list cert) : result (list cert) :=
  match fuel with
  | O => Panic "out of fuel"
  | S fuel' =>
      let raw := bundle_trim raw in
      if raw =? "" then Ok certs
      else
        require hasPrefix raw begin_certificate else ErrNew "bundle_format";
        match pem_Decode raw with
        | None => Err (ErrNew "bundle_format")
        | Some (block, rest) =>
            let consumed := take (String.length raw - String.length rest) raw in
            reject (pb_Type block <>? "CERTIFICATE") || (pb_Headers block <>? 0) ||
                   (bytes_Count consumed "-----BEGIN " <>? 1) with ErrNew "bundle_format";
            match parseCertificate (pb_Bytes block) with
            | None => Err (ErrNew "bundle_certificate")
            | Some c =>
                reject negb (ct_IsCA c) || negb (ct_BasicConstraintsValid c) ||
                       (Z.land (ct_KeyUsage c) KeyUsageCertSign =? 0) with ErrNew "bundle_certificate";
                let certs' := if bool_decide (fingerprint c ∈ fingerprint <$> certs) then certs else certs ++ [c] in
                reject 64 <? Z.of_nat (length certs') with ErrNew "bundle_limit";
                bundle_loop fuel' rest certs'
            end
        end
  end.

Definition loadBundle (f : public_file) : result (list cert) :=
  match readPublicFile f maxBundleBytes with
  | Ok raw =>
      let! certs := bundle_loop (S (String.length raw)) raw [] in
      reject Z.of_nat (length certs) =? 0 with ErrNew "bundle_empty";
      Ok certs
  | _ => Err (ErrNew "bundle_read")
  end.
End bundle.

(** ** Times *)
Definition earlier (a b : Z) : Z :=
  if isZero b then a else if isZero a || (b <? a) then b else a.
Definition earliest (certs : list cert) : Z := foldl (fun t c => earlier t (ct_NotAfter c)) zeroTime certs.

(** [Time.Sub] saturates. *)
Definition timeSub (a b : Z) : Z := Z.max minInt64 (Z.min maxInt64 (a - b)).

(** ** [probeBootstrap] and [selectCanary] *)

(** What the TLS handshake hands to the authorizer: the peer and its chains. *)
Record handshake := Handshake { hs_peer : string; hs_chains : list (list cert) }.

(** The authorizer of both probes: exactly one identity, and a chain. *)
Definition authorize_chain (expected : string) (h : handshake) : option Z :=
  if hs_peer h =? expected then
    match hs_chains h with
    | (c :: chain) :: _ => Some (earliest (c :: chain))
    | _ => None
    end
  else None.

Section probe.
Context `{Spiffe}.

(** [dial] is the handshake the dialer completed up to the authorizer. *)
Definition probeBootstrap (c : Config) (dial : option handshake) (ctxErr : option error) : result Z :=
  require bool_decide (is_Some (trustDomainFromString (c_TrustDomain c))) else ErrNew "bootstrap_domain";
  match fromString ("spiffe://" +:+ c_TrustDomain c +:+ "/spire/server") with
  | None => Err (ErrNew "bootstrap_identity")
  | Some id =>
      match (h ← dial; authorize_chain (id_String id) h) with
      | Some validUntil => Ok validUntil
      | None => match ctxErr with Some e => Err e | None => Err (ErrNew "bootstrap_handshake") end
      end
  end.
End probe.

Record svid := Svid { sv_ID : string; sv_Certificates : list (option cert); sv_PrivateKey : bool }.

Section canary.
(* [x509svid.IDFromCert] *)
Variable idFromCert : cert -> option string.

Fixpoint select_loop (c : Config) (now : Z) (found : option (cert * svid)) (svids : list (option svid))
    : result (cert * svid) :=
  match svids with
  | [] => match found with Some f => Ok f | None => Err (ErrNew "canary_missing") end
  | None :: svids' => select_loop c now found svids'
  | Some s :: svids' =>
      if sv_ID s <>? canaryID c then select_loop c now found svids'
      else
        reject bool_decide (is_Some found) with ErrNew "canary_metadata";
        match sv_Certificates s with
        | Some ct :: _ =>
            reject (idFromCert ct <>? Some (canaryID c)) || negb (certCurrent ct now) with ErrNew "canary_metadata";
            select_loop c now (Some (ct, s)) svids'
        | _ => Err (ErrNew "canary_metadata")
        end
  end.

Definition selectCanary (c : Config) (svids : list (option svid)) (now : Z) : result (cert * svid) :=
  select_loop c now None svids.
End canary.

Record canaryMetadata := CanaryMetadata { cm_Cert : option cert; cm_SVID : option svid; cm_Bundle : bool }.

(** What the Workload API answered. *)
Record apiEnv := ApiEnv {
  ae_client : bool;
  ae_context : option (list (option svid));       (* [FetchX509Context] *)
  ae_ctxErr : option error;
  ae_bundles : bool;                              (* the context has a bundle set *)
  ae_bundle : bool;                               (* with a bundle for the domain *)
  ae_now : Z
}.

Definition fetchCanary `{Spiffe} (idFromCert : cert -> option string) (c : Config) (env : apiEnv) : result canaryMetadata :=
  require ae_client env else ErrNew "canary_connect";
  match ae_context env with
  | None => match ae_ctxErr env with Some e => Err e | None => Err (ErrNew "canary_fetch") end
  | Some svids =>
      let! found := selectCanary idFromCert c svids (ae_now env) in
      require bool_decide (is_Some (trustDomainFromString (c_TrustDomain c))) && ae_bundles env else ErrNew "canary_metadata";
      require ae_bundle env else ErrNew "canary_metadata";
      Ok (CanaryMetadata (Some found.1) (Some found.2) true)
  end.

(** ** [observeHolder] *)
Record holderObservation := Observation {
  ob_before : Z; ob_after : Z; ob_validUntil : Z; ob_fingerprint : string; ob_dormant : bool; ob_err : option error
}.
Definition no_observation : holderObservation := Observation zeroTime zeroTime zeroTime "" false None.
Definition observation_error (o : holderObservation) (e : error) : holderObservation :=
  Observation (ob_before o) (ob_after o) (ob_validUntil o) (ob_fingerprint o) (ob_dormant o) (Some e).

(** A response over a connection whose handshake reached the authorizer, or
    one that never ran it. *)
Record holderResponse := HolderResponse {
  hr_tls : option handshake; hr_status : Z; hr_body : string; hr_bodyErr : bool; hr_leaf : option cert
}.
Record holderEnv := HolderEnv {
  he_request : bool;                               (* the request could be built *)
  he_do : option holderResponse;                   (* [None]: the exchange failed *)
  he_ctxErr : option error;
  he_now1 : Z; he_now2 : Z; he_now3 : Z
}.

Definition maxHolderBodyBytes : Z := 1048576.

Section observe.
Context `{Spiffe}.

Definition wanted_status (source : string) : option Z :=
  if source =? sourceGhostunnel then Some 200 else if source =? sourceCaddy then Some 204 else None.

Definition observer_ready (m : canaryMetadata) (now : Z) : option cert :=
  match cm_SVID m, cm_Cert m with
  | Some s, Some ct => if sv_PrivateKey s && cm_Bundle m && certCurrent ct now then Some ct else None
  | _, _ => None
  end.

(** The end of the observation, once a response arrived. *)
Definition read_holder (env : holderEnv) (want : Z) (validUntil : Z) (chain : option Z) (r : holderResponse)
    : holderObservation :=
  let o := Observation zeroTime zeroTime validUntil "" false None in
  if hr_status r <>? want then observation_error o (ErrNew "workload_http_status")
  else
    let raw := limitReader (maxHolderBodyBytes + 1) (hr_body r) in
    if hr_bodyErr r || (maxHolderBodyBytes <? len raw) then
      observation_error o (default (ErrNew "workload_body") (he_ctxErr env))
    else
      match chain with
      | None => observation_error o (ErrNew "workload_chain")
      | Some expiry =>
          let validUntil := earlier validUntil expiry in
          match hr_leaf r with
          | None => observation_error (Observation zeroTime zeroTime validUntil "" false None) (ErrNew "workload_chain")
          | Some leaf =>
              let o := Observation (ct_NotBefore leaf) (ct_NotAfter leaf) validUntil (fingerprint leaf) false None in
              if negb (certCurrent leaf (he_now2 env)) || negb (he_now3 env <? validUntil)
              then observation_error o (ErrNew "workload_expired") else o
          end
      end.

Definition observeHolder (t : WorkloadTarget) (observer : canaryMetadata) (env : holderEnv) : holderObservation :=
  if negb (loopbackAddress (wt_Address t)) then observation_error no_observation (ErrNew "workload_address")
  else
    match wanted_status (wt_Source t) with
    | None => observation_error no_observation (ErrNew "workload_source")
    | Some want =>
        match observer_ready observer (he_now1 env) with
        | None => observation_error no_observation (ErrNew "workload_observer_unavailable")
        | Some oc =>
            match fromString (wt_Identity t) with
            | None => observation_error no_observation (ErrNew "workload_identity")
            | Some id =>
                let o := Observation zeroTime zeroTime (ct_NotAfter oc) "" false None in
                if negb (he_request env) then observation_error o (ErrNew "workload_request")
                else
                  let failed := observation_error o (default (ErrNew "workload_request") (he_ctxErr env)) in
                  match he_do env with
                  | None => failed
                  | Some r =>
                      match hr_tls r with
                      | None => read_holder env want (ct_NotAfter oc) None r
                      | Some h =>
                          (* a refused peer fails the handshake, and with it the exchange *)
                          match authorize_chain (id_String id) h with
                          | None => failed
                          | Some expiry => read_holder env want (ct_NotAfter oc) (Some expiry) r
                          end
                      end
                  end
            end
        end
    end.
End observe.

(** ** State of the exporter *)
Record sample := Sample { sm_name : string; sm_labels : list string; sm_value : Z }.
Record outcome := Outcome { oc_name : string; oc_samples : list sample; oc_err : option error; oc_validUntil : Z }.
Record collectorState := CollectorState {
  cs_samples : list sample; cs_success : bool; cs_successes : Z; cs_errors : Z;
  cs_completed : Z; cs_lastSuccess : Z; cs_validUntil : Z
}.
Definition collectorState_zero : collectorState := CollectorState [] false 0 0 zeroTime zeroTime zeroTime.

Record holderState := HolderState {
  hd_attempted : Z; hd_observed : Z; hd_rotated : Z; hd_before : Z; hd_after : Z; hd_validUntil : Z;
  hd_fingerprint : string; hd_success : bool; hd_dormant : bool; hd_successes : Z; hd_errors : Z
}.
Definition holderState_zero : holderState :=
  HolderState zeroTime zeroTime zeroTime zeroTime zeroTime zeroTime "" false false 0 0.

Record exporter := Exporter {
  e_config : Config; e_states : gmap string collectorState; e_holders : gmap string holderState;
  e_canaryFingerprint : string; e_rotation : Z
}.
Definition set_states (e : exporter) (m : gmap string collectorState) : exporter :=
  Exporter (e_config e) m (e_holders e) (e_canaryFingerprint e) (e_rotation e).
Definition set_holders (e : exporter) (m : gmap string holderState) : exporter :=
  Exporter (e_config e) (e_states e) m (e_canaryFingerprint e) (e_rotation e).

Definition freshnessLimit : Z := 65 * Second.

Definition newExporter (c : Config) : exporter :=
  let s := <["bundle" := collectorState_zero]> (<["bootstrap" := collectorState_zero]> {["canary" := collectorState_zero]}) in
  let s := if c_ServerAdminSocket c <>? ""
           then <["aliases" := collectorState_zero]> (<["agents" := collectorState_zero]> s) else s in
  let s := if 0 <? Z.of_nat (length (c_Workloads c)) then <["workloads" := collectorState_zero]> s else s in
  Exporter c s ∅ "" zeroTime.

Definition record (e : exporter) (o : outcome) (now : Z) : exporter :=
  let s := default collectorState_zero (e_states e !! oc_name o) in
  let ok := oc_err o =? None in
  set_states e (<[oc_name o := CollectorState (oc_samples o) ok
    (if ok then u64 (cs_successes s + 1) else cs_successes s)
    (if ok then cs_errors s else u64 (cs_errors s + 1))
    now (if ok then now else cs_lastSuccess s) (oc_validUntil o)]> (e_states e)).

(** An observation without an error must be a complete and current one; [t1] is
    the clock of that check, [now] that of the recording. *)
Definition check_observation (o : holderObservation) (t1 : Z) : option error :=
  if (ob_err o =? None) && negb (ob_dormant o) &&
     ((ob_fingerprint o =? "") || isZero (ob_before o) || negb (ob_before o <? ob_after o) ||
      isZero (ob_validUntil o) || negb (t1 <? ob_validUntil o))
  then Some (ErrNew "workload_metadata") else ob_err o.

Definition holder_next (s : holderState) (o : holderObservation) (err : option error) (now : Z) : holderState :=
  let ok := (err =? None) && negb (ob_dormant o) in
  if ok then
    HolderState now now
      (if (hd_fingerprint s <>? "") && (hd_fingerprint s <>? ob_fingerprint o) then now else hd_rotated s)
      (ob_before o) (ob_after o) (ob_validUntil o) (ob_fingerprint o) true (ob_dormant o && (err =? None))
      (u64 (hd_successes s + 1)) (hd_errors s)
  else
    HolderState now (hd_observed s) (hd_rotated s) zeroTime zeroTime zeroTime (hd_fingerprint s) false
      (ob_dormant o && (err =? None)) (hd_successes s) (if err <>? None then u64 (hd_errors s + 1) else hd_errors s).

Definition recordHolder (e : exporter) (t : WorkloadTarget) (o : holderObservation) (t1 now : Z) : option error * exporter :=
  let err := check_observation o t1 in
  let s := default holderState_zero (e_holders e !! wt_Unit t) in
  (err, set_holders e (<[wt_Unit t := holder_next s o err now]> (e_holders e))).

(** ** Freshness *)
Definition fresh (s : collectorState) (now : Z) : bool :=
  negb (isZero (cs_completed s)) && (timeSub now (cs_completed s) <=? freshnessLimit).
Definition successful (s : collectorState) (now : Z) : bool :=
  cs_success s && fresh s now && (isZero (cs_validUntil s) || (now <? cs_validUntil s)).
Definition holderFresh (s : holderState) (now : Z) : bool :=
  negb (isZero (hd_attempted s)) && (timeSub now (hd_attempted s) <=? freshnessLimit).
Definition holderSuccessful (s : holderState) (now : Z) : bool :=
  hd_success s && holderFresh s now && negb (isZero (hd_validUntil s)) && (now <? hd_validUntil s).

Definition healthy (e : exporter) (now : Z) : bool :=
  forallb (fun kv : string * collectorState => successful kv.2 now) (map_to_list (e_states e)) &&
  forallb (fun t => let s := default holderState_zero (e_holders e !! wt_Unit t) in
             (hd_dormant s && holderFresh s now) || holderSuccessful s now) (c_Workloads (e_config e)).

(** ** Collectors *)
Definition metric (name : string) (value : Z) (labels : list string) : sample := Sample name labels value.
Definition boolFloat (b : bool) : Z := if b then 1 else 0.
Definition unixOrZero (t : Z) : Z := if isZero t then 0 else Unix t.

Definition bundle_samples (node : string) (c : cert) : list sample :=
  let labels := ["node"; node; "certificate"; fingerprint c] in
  [metric "realm_bootstrap_bundle_certificate_not_after_seconds" (Unix (ct_NotAfter c)) labels;
   metric "realm_bootstrap_bundle_certificate_not_before_seconds" (Unix (ct_NotBefore c)) labels].

Definition bundle_outcome (c : Config) (loaded : result (list cert)) (now : Z) : outcome :=
  match loaded with
  | Ok certs =>
      Outcome "bundle"
        ((certs ≫= bundle_samples (c_Node c)) ++
         [metric "realm_bootstrap_bundle_certificates" (Z.of_nat (length certs)) ["node"; c_Node c];
          metric "realm_bootstrap_bundle_active_valid_certificates"
            (Z.of_nat (length (filter (fun ct => certCurrent ct now = true) certs))) ["node"; c_Node c]])
        None zeroTime
  | Err e => Outcome "bundle" [] (Some e) zeroTime
  | Panic m => Outcome "bundle" [] (Some (ErrNew m)) zeroTime
  end.

(** [probe] is the answer of [probeBootstrap] for the loaded certificates. *)
Definition collectBootstrap (e : exporter) (loaded : result (list cert)) (probe : list cert -> result Z)
    (now t1 t2 : Z) : exporter :=
  let e1 := record e (bundle_outcome (e_config e) loaded now) t1 in
  let r := let! certs := loaded in probe certs in
  record e1 (match r with
             | Ok validUntil => Outcome "bootstrap" [] None validUntil
             | Err err => Outcome "bootstrap" [] (Some err) zeroTime
             | Panic m => Outcome "bootstrap" [] (Some (ErrNew m)) zeroTime
             end) t2.

Definition canaryOutcome (e : exporter) (r : result canaryMetadata) (t1 t2 : Z) : outcome * exporter :=
  let failed err := (Outcome "canary" [] (Some err) zeroTime, e) in
  match r with
  | Err err => failed err
  | Panic m => failed (ErrNew m)
  | Ok md =>
      match cm_Cert md with
      | None => failed (ErrNew "canary_metadata")
      | Some ct =>
          if negb (certCurrent ct t1) then failed (ErrNew "canary_metadata")
          else
            let fp := fingerprint ct in
            let rotation := if (e_canaryFingerprint e <>? "") && (e_canaryFingerprint e <>? fp) then t2 else e_rotation e in
            let e' := Exporter (e_config e) (e_states e) (e_holders e) fp rotation in
            let labels := ["node"; c_Node (e_config e); "kind"; "canary"; "identity"; canaryID (e_config e)] in
            (Outcome "canary"
               ([metric "realm_identity_certificate_not_after_seconds" (Unix (ct_NotAfter ct)) labels;
                 metric "realm_identity_certificate_not_before_seconds" (Unix (ct_NotBefore ct)) labels] ++
                (if isZero rotation then []
                 else [metric "realm_identity_last_rotation_timestamp_seconds" (Unix rotation) labels]))
               None (ct_NotAfter ct), e')
      end
  end.

Definition agent_samples (c : Config) (r : agentResult) : list sample :=
  metric "realm_spire_agent_metadata_valid" (boolFloat (ar_Valid r)) ["node"; ar_Node r] ::
  (if 0 <? ar_NotAfter r
   then [metric "realm_identity_certificate_not_after_seconds" (ar_NotAfter r)
           ["node"; ar_Node r; "kind"; "agent"; "identity"; aliasID c (ar_Node r)]] else []).

(** Each node of the cohort, with what was found for it; the last result wins. *)
Definition found_agent (agents : list agentResult) (node : string) : agentResult :=
  let r := default (AgentResult "" 0 false) (last (filter (fun a => ar_Node a = node) agents)) in
  AgentResult node (ar_NotAfter r) (ar_Valid r).

Definition collectAgents (c : Config) (raw : result string) (now : Z) : outcome :=
  let '(agents, err) :=
    match raw with
    | Ok text => parseAgents text c now
    | Err e => ([], Some e)
    | Panic m => ([], Some (ErrNew m))
    end in
  let found := found_agent agents <$> c_Nodes c in
  Outcome "agents" (found ≫= agent_samples c) err
    (foldl (fun t r => if 0 <? ar_NotAfter r then earlier t (timeUnix (ar_NotAfter r)) else t) zeroTime found).

(** One round of the loop over the nodes: the outcome so far and the command. *)
Definition alias_step (c : Config) (o : outcome) (q : string * result string * Z) : outcome :=
  let '(node, raw, now) := q in
  let '(validUntil, valid) :=
    match raw with Ok text => aliasMetadata text c node now | _ => (zeroTime, false) end in
  let err := match raw with Ok _ => None | Err e => Some e | Panic m => Some (ErrNew m) end in
  Outcome (oc_name o)
    (oc_samples o ++ [metric "realm_spire_alias_matches_expected" (boolFloat valid) ["node"; node]])
    (if valid then oc_err o else Some (default (ErrNew "alias_metadata") err))
    (if valid then earlier (oc_validUntil o) validUntil else oc_validUntil o).

Definition collectAliases (c : Config) (commands : string -> result string * Z) : outcome :=
  foldl (alias_step c) (Outcome "aliases" [] None zeroTime)
    ((fun node => (node, (commands node).1, (commands node).2)) <$> c_Nodes c).

(** ** [collectWorkloads] *)
Record jobEnv := JobEnv {
  je_waitErr : option error;            (* the context ended before the canary was ready *)
  je_holder : holderEnv;
  je_ctxErr : option error;             (* the context after the observation *)
  je_check : Z; je_now : Z
}.

Section workloads.
Context `{Spiffe}.

Definition observe_job (state : string) (t : WorkloadTarget) (canary : result canaryMetadata) (env : jobEnv)
    : holderObservation :=
  let o :=
    if state =? "inactive" then Observation zeroTime zeroTime zeroTime "" true None
    else if state =? "active" then
      match je_waitErr env with
      | Some e => observation_error no_observation e
      | None => match canary with
                | Ok m => observeHolder t m (je_holder env)
                | _ => observation_error no_observation (ErrNew "workload_observer_unavailable")
                end
      end
    else observation_error no_observation (ErrNew "workload_unit_not_active") in
  if (ob_err o =? None) && negb (ob_dormant o) then
    match je_ctxErr env with Some e => observation_error o e | None => o end
  else o.

(** A worker records the observation and sends it with the error it got. *)
Definition run_job (states : gmap string string) (canary : result canaryMetadata) (jobs : string -> jobEnv)
    (e : exporter) (t : WorkloadTarget) : holderObservation * exporter :=
  let env := jobs (wt_Unit t) in
  let o := observe_job (default "" (states !! wt_Unit t)) t canary env in
  let '(err, e') := recordHolder e t o (je_check env) (je_now env) in
  (Observation (ob_before o) (ob_after o) (ob_validUntil o) (ob_fingerprint o) (ob_dormant o) err, e').

Definition collect_result (o : outcome) (ob : holderObservation) : outcome :=
  Outcome (oc_name o) (oc_samples o)
    (match ob_err ob with Some e => Some e | None => oc_err o end)
    (if negb (ob_dormant ob) && (ob_err ob =? None) then earlier (oc_validUntil o) (ob_validUntil ob) else oc_validUntil o).

Definition collect_results (obs : list holderObservation) : outcome :=
  foldl collect_result (Outcome "workloads" [] None zeroTime) obs.

Fixpoint run_jobs (states : gmap string string) (canary : result canaryMetadata) (jobs : string -> jobEnv)
    (e : exporter) (targets : list WorkloadTarget) : list holderObservation * exporter :=
  match targets with
  | [] => ([], e)
  | t :: targets' =>
      let '(o, e1) := run_job states canary jobs e t in
      let '(os, e2) := run_jobs states canary jobs e1 targets' in (o :: os, e2)
  end.

(** The state of the units, as the command prints it; reading it starts none. *)
Definition activity_args (c : Config) : list string :=
  ["show"; "--no-pager"; "--property=Id,ActiveState"; "--"] ++ (wt_Unit <$> c_Workloads c).

Definition workloadActivity (command : string -> list string -> result string) (c : Config) : result (gmap string string) :=
  let! raw := command (c_SystemctlBinary c) (activity_args c) in parseWorkloadActivity raw (c_Workloads c).

(** [order] is the order in which the workers record; [sent] the order in
    which their results arrive. *)
Definition collectWorkloads (e : exporter) (command : string -> list string -> result string) (canary : result canaryMetadata)
    (jobs : string -> jobEnv) (order : list WorkloadTarget)
    (sent : list holderObservation -> list holderObservation) : outcome * exporter :=
  match workloadActivity command (e_config e) with
  | Ok states =>
      let '(os, e') := run_jobs states canary jobs e order in (collect_results (sent os), e')
  | Err err =>
      (Outcome "workloads" [] (Some err) zeroTime,
       foldl (fun e t => (recordHolder e t (observation_error no_observation err)
                            (je_check (jobs (wt_Unit t))) (je_now (jobs (wt_Unit t)))).2) e (c_Workloads (e_config e)))
  | Panic m => (Outcome "workloads" [] (Some (ErrNew m)) zeroTime, e)
  end.
End workloads.

(** ** What is exported *)
Fixpoint labelValue (labels : list string) (key : string) : string :=
  match labels with
  | k :: v :: labels' => if k =? key then v else labelValue labels' key
  | _ => ""
  end.

Definition set_value (m : sample) (v : Z) : sample := Sample (sm_name m) (sm_labels m) v.

Definition agent_valid_name : string := "realm_spire_agent_metadata_valid".
Definition alias_name : string := "realm_spire_alias_matches_expected".
Definition active_name : string := "realm_bootstrap_bundle_active_valid_certificates".
Definition not_after_name : string := "realm_bootstrap_bundle_certificate_not_after_seconds".
Definition not_before_name : string := "realm_bootstrap_bundle_certificate_not_before_seconds".
Definition expiry_name : string := "realm_identity_certificate_not_after_seconds".

(** The maps the first loop of [currentSamples] fills. *)
Definition values_by (name key : string) (samples : list sample) : gmap string Z :=
  foldl (fun m s => if sm_name s =? name then <[labelValue (sm_labels s) key := sm_value s]> m else m) ∅ samples.
Definition expired_nodes (samples : list sample) (now : Z) : gset string :=
  foldl (fun X s => if (sm_name s =? expiry_name) && (sm_value s <=? Unix now)
                    then {[labelValue (sm_labels s) "node"]} ∪ X else X) ∅ samples.

Definition current_sample (s : collectorState) (now : Z) (m : sample) : sample :=
  let before := values_by not_before_name "certificate" (cs_samples s) in
  let after := values_by not_after_name "certificate" (cs_samples s) in
  if (sm_name m =? agent_valid_name) && bool_decide (labelValue (sm_labels m) "node" ∈ expired_nodes (cs_samples s) now)
  then set_value m 0
  else if (sm_name m =? alias_name) && negb (isZero (cs_validUntil s)) && negb (now <? cs_validUntil s) then set_value m 0
  else if sm_name m =? active_name then
    set_value m (Z.of_nat (length (filter
      (fun kv : string * Z => default 0 (before !! kv.1) <= Unix now /\ Unix now < kv.2) (map_to_list after))))
  else m.

Definition currentSamples (s : collectorState) (now : Z) : list sample :=
  if fresh s now then current_sample s now <$> cs_samples s
  else (fun m => set_value m 0) <$>
         filter (fun m => sm_name m = agent_valid_name \/ sm_name m = alias_name) (cs_samples s).

(** The samples of the observed workloads. *)
Definition holder_samples (node : string) (t : WorkloadTarget) (s : holderState) (now : Z) : list sample :=
  let labels := ["node"; node; "unit"; wt_Unit t; "identity"; wt_Identity t; "source"; wt_Source t] in
  [metric "realm_workload_svid_observation_success" (boolFloat (holderSuccessful s now)) labels;
   metric "realm_workload_svid_dormant" (boolFloat (hd_dormant s && holderFresh s now)) labels;
   metric "realm_workload_svid_last_attempt_timestamp_seconds" (unixOrZero (hd_attempted s)) labels;
   metric "realm_workload_svid_last_observed_timestamp_seconds" (unixOrZero (hd_observed s)) labels;
   metric "realm_workload_svid_observation_successes_total" (hd_successes s) labels;
   metric "realm_workload_svid_observation_errors_total" (hd_errors s) labels] ++
  (if holderSuccessful s now then
     [metric "realm_workload_svid_not_before_seconds" (Unix (hd_before s)) labels;
      metric "realm_workload_svid_not_after_seconds" (Unix (hd_after s)) labels] ++
     (if isZero (hd_rotated s) then []
      else [metric "realm_workload_svid_last_rotation_timestamp_seconds" (Unix (hd_rotated s)) labels])
   else []).

Definition holderSamples (c : Config) (states : gmap string holderState) (now : Z) : list sample :=
  c_Workloads c ≫= fun t => holder_samples (c_Node c) t (default holderState_zero (states !! wt_Unit t)) now.

Definition collector_samples (node name : string) (s : collectorState) (now : Z) : list sample :=
  let labels := ["node"; node; "collector"; name] in
  [metric "realm_identity_collector_success" (boolFloat (successful s now)) labels;
   metric "realm_identity_collector_successes_total" (cs_successes s) labels;
   metric "realm_identity_collector_errors_total" (cs_errors s) labels;
   metric "realm_identity_collector_last_success_timestamp_seconds" (unixOrZero (cs_lastSuccess s)) labels;
   metric "realm_identity_collector_last_collection_timestamp_seconds" (unixOrZero (cs_completed s)) labels] ++
  currentSamples s now.

Definition state_of (e : exporter) (name : string) : collectorState :=
  default collectorState_zero (e_states e !! name).

(** The samples [metrics] gathers, before they are grouped by name. *)
Definition gathered (e : exporter) (now : Z) : list sample :=
  holderSamples (e_config e) (e_holders e) now ++
  (slices_Sort (map_to_list (e_states e)).*1 ≫=
     fun name => collector_samples (c_Node (e_config e)) name (state_of e name) now) ++
  [metric "realm_bootstrap_bundle_server_trust_valid" (boolFloat (successful (state_of e "bootstrap") now))
     ["node"; c_Node (e_config e)]].

(** The families and their help texts. *)
Definition metricHelp : list (string * string) :=
  [("realm_workload_svid_observation_success",
    "One if this unit has a current successful observation. Ghostunnel describes its status watch only.");
   ("realm_workload_svid_dormant",
    "One if the latest current systemctl result reports this unit inactive. No certificate observation occurs.");
   ("realm_workload_svid_last_attempt_timestamp_seconds",
    "Unix time of the last completed observation attempt or dormant state read.");
   ("realm_workload_svid_last_observed_timestamp_seconds",
    "Unix time of the last successful public certificate observation, or zero.");
   ("realm_workload_svid_observation_successes_total",
    "Successful public certificate observations since process start.");
   ("realm_workload_svid_observation_errors_total",
    "Failed observation attempts since process start. Dormant units do not count as errors.");
   ("realm_workload_svid_not_before_seconds",
    "Observed public leaf start of validity as Unix time. Source labels identify the interface.");
   ("realm_workload_svid_not_after_seconds",
    "Observed public leaf expiry as Unix time. Ghostunnel status watches do not prove business certificate state.");
   ("realm_workload_svid_last_rotation_timestamp_seconds",
    "Unix time when this process observed a change in the TLS peer leaf fingerprint.");
   ("realm_identity_collector_success",
    "One if the latest collection succeeded and is fresh.");
   ("realm_identity_collector_successes_total",
    "Successful collections since process start.");
   ("realm_identity_collector_errors_total",
    "Failed collections since process start.");
   ("realm_identity_collector_last_success_timestamp_seconds",
    "Unix time of the last successful collection, or zero before success.");
   ("realm_identity_collector_last_collection_timestamp_seconds",
    "Unix time of the last completed collection, or zero before collection.");
   ("realm_bootstrap_bundle_server_trust_valid",
    "One if a fresh TLS 1.3 server handshake passed with the exact pinned bundle and server SPIFFE ID.");
   ("realm_bootstrap_bundle_certificates",
    "Number of distinct CA certificates in the configured bundle.");
   ("realm_bootstrap_bundle_active_valid_certificates",
    "Number of bundle CA certificates within their validity period. This count is not proof of server trust.");
   ("realm_bootstrap_bundle_certificate_not_after_seconds",
    "Public bundle CA expiration as Unix time.");
   ("realm_bootstrap_bundle_certificate_not_before_seconds",
    "Public bundle CA start of validity as Unix time.");
   ("realm_identity_certificate_not_after_seconds",
    "Certificate expiration as Unix time for the own canary or registered agent metadata.");
   ("realm_identity_certificate_not_before_seconds",
    "Own canary certificate start of validity as Unix time.");
   ("realm_identity_last_rotation_timestamp_seconds",
    "Unix time when this process observed its canary certificate change. Absent before a change.");
   ("realm_spire_agent_metadata_valid",
    "One if the expected http_fqdn agent has current metadata, is not banned, and can reattest.");
   ("realm_spire_alias_matches_expected",
    "One if exactly one stable alias entry has the expected parent and SPIFFE ID selector.")].

Definition metric_names : list string := Eval cbv in metricHelp.*1.

Definition metricNames : list string := slices_Sort metric_names.
Definition metricType (name : string) : string := if hasSuffix name "_total" then "counter" else "gauge".

(** The families of the exposition: name, type and samples. *)
Definition metrics (e : exporter) (now : Z) : list (string * string * list sample) :=
  (fun name => (name, metricType name, filter (fun m => sm_name m = name) (gathered e now))) <$> metricNames.

(** ** [safeReason] *)
Definition workload_reasons : list string :=
  ["workload_unit_metadata"; "workload_unit_not_active"; "workload_observer_unavailable"; "workload_address";
   "workload_identity"; "workload_source"; "workload_chain"; "workload_request"; "workload_http_status";
   "workload_body"; "workload_expired"; "workload_metadata"].
Definition collector_reasons : list string :=
  ["bundle_read"; "bundle_format"; "bundle_certificate"; "bundle_limit"; "bundle_empty"; "bootstrap_domain";
   "bootstrap_identity"; "bootstrap_handshake"; "bootstrap_chain"; "canary_connect"; "canary_fetch";
   "canary_metadata"; "canary_missing"; "admin_command"; "admin_output_limit"; "agents_json"; "agents_metadata";
   "alias_metadata"].

Definition safeReason (err : option error) : string :=
  match err with
  | None => "none"
  | Some e =>
      if error_is ErrDeadlineExceeded e then "timeout"
      else if error_is ErrCanceled e then "canceled"
      else match e with
           | ErrNew msg => if bool_decide (msg ∈ workload_reasons ++ collector_reasons) then msg else "collection_failed"
           | _ => "collection_failed"
           end
  end.

(** ** Runs of the exporter *)
Inductive event :=
| Collected (o : outcome) (now : Z)
| Observed (t : WorkloadTarget) (o : holderObservation) (t1 now : Z)
| CanarySeen (r : result canaryMetadata) (t1 t2 now : Z).

Definition apply_event (e : exporter) (ev : event) : exporter :=
  match ev with
  | Collected o now => record e o now
  | Observed t o t1 now => (recordHolder e t o t1 now).2
  | CanarySeen r t1 t2 now => let '(o, e') := canaryOutcome e r t1 t2 in record e' o now
  end.
Definition run (c : Config) (h : list event) : exporter := foldl apply_event (newExporter c) h.
