(* ===== verification/IdentityHealth.v ===== *)
(** * realm-identity-metrics: what the exporter reports

    The state of the exporter as a function of what was collected and observed:
    when it is healthy, what it counts, and that no sample outlives what it was
    measured from. *)

From S2P Require Import Prelude GoStrings Encoding Json AgentConfig IdentityConfig IdentityExporter.

Open Scope Z_scope.
Open Scope go_scope.

(** ** Histories *)

(** The verdict of one collection: whether it succeeded, until when it holds
    (the zero time: no limit) and when it was recorded. *)
Definition canary_verdict (r : result canaryMetadata) (t1 : Z) : bool * Z :=
  match r with
  | Ok md => match cm_Cert md with
             | Some ct => if certCurrent ct t1 then (true, ct_NotAfter ct) else (false, zeroTime)
             | None => (false, zeroTime)
             end
  | _ => (false, zeroTime)
  end.

Definition verdict (name : string) (ev : event) : option (bool * Z * Z) :=
  match ev with
  | Collected o now => if oc_name o =? name then Some (oc_err o =? None, oc_validUntil o, now) else None
  | CanarySeen r t1 _ now => if "canary" =? name then Some (canary_verdict r t1, now) else None
  | Observed _ _ _ _ => None
  end.
Definition verdicts (name : string) (h : list event) : list (bool * Z * Z) := omap (verdict name) h.

(** One attempt at a unit: what was seen, the clock of its check, the time. *)
Definition attempt (unit : string) (ev : event) : option (holderObservation * Z * Z) :=
  match ev with
  | Observed t o t1 now => if wt_Unit t =? unit then Some (o, t1, now) else None
  | _ => None
  end.
Definition attempts (unit : string) (h : list event) : list (holderObservation * Z * Z) := omap (attempt unit) h.

(** A complete observation of a certificate, and one of an inactive unit. *)
Definition seen (a : holderObservation * Z * Z) : Prop :=
  let '(o, t1, _) := a in
  ob_err o = None /\ ob_dormant o = false /\ ob_fingerprint o <> "" /\ ob_before o <> zeroTime /\
  ob_before o < ob_after o /\ ob_validUntil o <> zeroTime /\ t1 < ob_validUntil o.
Definition dormant (a : holderObservation * Z * Z) : Prop := ob_err a.1.1 = None /\ ob_dormant a.1.1 = true.
Definition failed (a : holderObservation * Z * Z) : Prop := ~ seen a /\ ~ dormant a.

#[export] Instance seen_dec a : Decision (seen a).
Proof. destruct a as [[o t1] n]. unfold seen. solve_decision. Defined.
#[export] Instance dormant_dec a : Decision (dormant a).
Proof. unfold dormant. solve_decision. Defined.
#[export] Instance failed_dec a : Decision (failed a).
Proof. unfold failed. solve_decision. Defined.

Definition collectors (c : Config) : list string :=
  ["bundle"; "bootstrap"; "canary"] ++ (if c_ServerAdminSocket c =? "" then [] else ["agents"; "aliases"]) ++
  (if c_Workloads c =? [] then [] else ["workloads"]).

(** The exporter's own events: outcomes of its collectors, at real times. *)
Definition event_ok (c : Config) (ev : event) : Prop :=
  match ev with
  | Collected o now => oc_name o ∈ collectors c /\ 0 <= now
  | CanarySeen _ _ _ now => 0 <= now
  | Observed t _ _ now => 0 <= now
  end.

(** ** The state after a history *)
Definition summary (vs : list (bool * Z * Z)) (s : collectorState) : Prop :=
  cs_successes s = u64 (Z.of_nat (length (filter (fun v => v.1.1 = true) vs))) /\
  cs_errors s = u64 (Z.of_nat (length (filter (fun v => v.1.1 = false) vs))) /\
  match last vs with
  | Some (ok, validUntil, now) => cs_success s = ok /\ cs_validUntil s = validUntil /\ cs_completed s = now
  | None => cs_success s = false /\ cs_completed s = zeroTime
  end.

Lemma u64_succ n : u64 (u64 (Z.of_nat n) + 1) = u64 (Z.of_nat (n + 1)).
Proof. unfold u64. rewrite wrap_add_l by lia. f_equal. lia. Qed.

Lemma record_lookup e o now name : state_of (record e o now) name =
  if oc_name o =? name then
    let s := state_of e name in let ok := oc_err o =? None in
    CollectorState (oc_samples o) ok (if ok then u64 (cs_successes s + 1) else cs_successes s)
      (if ok then cs_errors s else u64 (cs_errors s + 1)) now (if ok then now else cs_lastSuccess s) (oc_validUntil o)
  else state_of e name.
Proof.
  unfold record, state_of. cbn [e_states set_states]. destruct (decide (oc_name o = name)) as [<-|E].
  - by rewrite lookup_insert_eq, (bool_decide_eq_true_2 (oc_name o = oc_name o)).
  - by rewrite lookup_insert_ne, (bool_decide_eq_false_2 (oc_name o = name)).
Qed.

Lemma summary_snoc vs ok vu now s s' : summary vs s ->
  cs_success s' = ok -> cs_validUntil s' = vu -> cs_completed s' = now ->
  cs_successes s' = (if ok then u64 (cs_successes s + 1) else cs_successes s) ->
  cs_errors s' = (if ok then cs_errors s else u64 (cs_errors s + 1)) ->
  summary (vs ++ [(ok, vu, now)]) s'.
Proof.
  intros (H1 & H2 & _) E1 E2 E3 E4 E5. unfold summary. rewrite last_snoc, !filter_app, !length_app, E4, E5, H1, H2.
  destruct ok; cbn; rewrite ?u64_succ, ?Nat.add_0_r; by split_and!.
Qed.

Lemma canary_outcome_spec e r t1 t2 o e' : canaryOutcome e r t1 t2 = (o, e') ->
  oc_name o = "canary" /\ ((oc_err o =? None), oc_validUntil o) = canary_verdict r t1 /\
  e_states e' = e_states e /\ e_holders e' = e_holders e /\ e_config e' = e_config e.
Proof.
  unfold canaryOutcome, canary_verdict. destruct r as [md|err|m]; [|intros [= <- <-]; done..].
  destruct (cm_Cert md) as [ct|]; [|intros [= <- <-]; done]. destruct (certCurrent ct t1); intros [= <- <-]; done.
Qed.

Lemma run_snoc c h ev : run c (h ++ [ev]) = apply_event (run c h) ev.
Proof. unfold run. by rewrite foldl_app. Qed.

Lemma collector_summary c h name : summary (verdicts name h) (state_of (run c h) name).
Proof.
  induction h as [|ev h IH] using rev_ind.
  { assert (E : state_of (run c []) name = collectorState_zero); [|by rewrite E; split_and!].
    unfold run, state_of, newExporter. cbn [foldl e_states].
    destruct (negb _), (0 <? _); repeat (rewrite lookup_insert; case_decide; [done|]);
      rewrite lookup_singleton; by case_decide. }
  unfold verdicts. rewrite omap_app, run_snoc. fold (verdicts name h). destruct ev as [o now|t o t1 now|r t1 t2 now]; cbn [omap list_omap verdict apply_event].
  - rewrite record_lookup. destruct (oc_name o =? name) eqn:E; [|by rewrite app_nil_r].
    by eapply summary_snoc.
  - by rewrite app_nil_r.
  - destruct (canaryOutcome _ _ _ _) as [o e'] eqn:Ec. destruct (canary_outcome_spec _ _ _ _ _ _ Ec) as (Hn & Hv & Hs & _).
    rewrite record_lookup, Hn. assert (E' : state_of e' name = state_of (run c h) name) by (unfold state_of; by rewrite Hs).
    destruct ("canary" =? name) eqn:E; rewrite E'; [|by rewrite app_nil_r]. rewrite <- Hv. by eapply summary_snoc.
Qed.

(** ** Observed workloads *)
Inductive attempt_kind (a : holderObservation * Z * Z) : option error -> Prop :=
| KindSeen : seen a -> ob_dormant a.1.1 = false -> attempt_kind a None
| KindDormant : dormant a -> attempt_kind a None
| KindFailed e : failed a -> attempt_kind a (Some e).

Lemma check_kind o t1 now : attempt_kind (o, t1, now) (check_observation o t1).
Proof.
  unfold check_observation. destruct (ob_err o) as [e|] eqn:Ee.
  { rewrite bool_decide_eq_false_2 by done. cbn. constructor. unfold failed, seen, dormant. cbn. rewrite Ee. naive_solver. }
  rewrite bool_decide_eq_true_2 by done. destruct (ob_dormant o) eqn:Ed; cbn.
  { apply KindDormant. by split. }
  destruct (_ || _) eqn:E.
  - constructor. unfold failed, seen, dormant, isZero in *. cbn. rewrite Ed. split; [|naive_solver].
    rewrite !orb_true_iff, !negb_true_iff, !bool_decide_eq_true, !Z.ltb_ge in E. intros (_ & _ & ? & ? & ? & ? & ?).
    destruct E as [[[[?|?]|?]|?]|?]; (done || lia).
  - apply KindSeen; [|done]. unfold seen, isZero in *. rewrite Ee, Ed.
    rewrite !orb_false_iff, !negb_false_iff, !bool_decide_eq_false, !Z.ltb_lt in E.
    destruct E as [[[[? ?] ?] ?] ?]. by split_and!.
Qed.

(** The certificate of an attempt. *)
Definition fp (a : holderObservation * Z * Z) : string := ob_fingerprint a.1.1.

(** The time of the last change of certificate among complete observations. *)
Definition rotation_at (l : list (holderObservation * Z * Z)) (t : Z) : Prop :=
  (t = zeroTime /\ forall a b, a ∈ l -> b ∈ l -> fp a = fp b) \/
  exists pre a b post, l = pre ++ a :: b :: post /\ fp a <> fp b /\ t = b.2 /\ Forall (fun x => fp x = fp b) post.

Record holder_summary (l : list (holderObservation * Z * Z)) (s : holderState) : Prop := {
  hs_successes : hd_successes s = u64 (Z.of_nat (length (filter seen l)));
  hs_errors : hd_errors s = u64 (Z.of_nat (length (filter failed l)));
  hs_fingerprint : hd_fingerprint s = default "" (fp <$> last (filter seen l));
  hs_rotated : rotation_at (filter seen l) (hd_rotated s);
  hs_last : match last l with
            | None => hd_attempted s = zeroTime /\ hd_success s = false /\ hd_dormant s = false
            | Some a => hd_attempted s = a.2 /\ (hd_success s = true <-> seen a) /\ (hd_dormant s = true <-> dormant a) /\
                        (seen a -> hd_validUntil s = ob_validUntil a.1.1)
            end
}.

Lemma rotation_snoc l a t : rotation_at l t -> Forall (fun x => fp x <> "") l -> fp a <> "" ->
  rotation_at (l ++ [a])
    (if (default "" (fp <$> last l) <>? "") && (default "" (fp <$> last l) <>? fp a) then a.2 else t).
Proof.
  intros Hr Hl Ha. destruct (last l) as [b|] eqn:El; cbn.
  - apply last_Some in El as [l' ->]. apply Forall_app in Hl as [_ [Hb _]%Forall_cons].
    rewrite (bool_decide_eq_false_2 (fp b = "")) by done. cbn. case_bool_decide as E; cbn.
    + destruct Hr as [[-> Hall]|(pre & x & y & post & El & Hne & -> & Hp)].
      * left. split; [done|].
        assert (Hx : forall x, x ∈ (l' ++ [b]) ++ [a] -> fp x = fp a).
        { intros x [Hx| ->%list_elem_of_singleton]%elem_of_app; [|done]. rewrite <- E. apply Hall; [done|].
          apply elem_of_app. right. by apply list_elem_of_singleton. }
        intros x y H1 H2. by rewrite (Hx x H1), (Hx y H2).
      * right. exists pre, x, y, (post ++ [a]). rewrite El, <- app_assoc. split_and!; try done.
        apply Forall_app. split; [done|]. constructor; [|done].
        destruct (decide (post = [])) as [->|Hn].
        -- rewrite <- E. change (pre ++ [x; y]) with (pre ++ [x] ++ [y]) in El. rewrite app_assoc in El.
           apply app_inj_tail in El as [_ ->]. done.
        -- destruct (exists_last Hn) as (post' & z & ->). rewrite !app_comm_cons, app_assoc in El.
           apply app_inj_tail in El as [_ ->]. apply Forall_app in Hp as [_ [Hz _]%Forall_cons]. congruence.
    + right. exists l', b, a, []. rewrite <- app_assoc. by split_and!.
  - apply last_None in El as ->. destruct Hr as [[-> _]|(pre & x & y & post & El & _)]; [|by destruct pre].
    left. split; [done|]. intros x y ->%list_elem_of_singleton ->%list_elem_of_singleton. done.
Qed.

Lemma filter_seen_fp l : Forall (fun x => fp x <> "") (filter seen l).
Proof. apply Forall_forall. intros [[o t1] n] [H _]%list_elem_of_filter. by destruct H as (_ & _ & ? & _). Qed.

Lemma seen_not_dormant a : seen a -> ~ dormant a.
Proof. destruct a as [[o t1] n]. intros (_ & H & _) [_ Hd]. cbn in Hd. congruence. Qed.

Lemma holder_snoc l s o t1 now : holder_summary l s ->
  holder_summary (l ++ [(o, t1, now)]) (holder_next s o (check_observation o t1) now).
Proof.
  intros [H1 H2 H3 H4 _]. destruct (check_kind o t1 now) as [Hs Hd|Hd|e Hf]; unfold holder_next; cbn [fst snd] in *.
  - assert (Hnf : ~ failed (o, t1, now)) by (unfold failed; tauto).
    rewrite (bool_decide_eq_true_2 (@None error = None)), Hd by done. cbn [negb andb].
    constructor; cbn; rewrite ?filter_app, ?filter_cons_True, ?filter_cons_False, ?filter_nil by done.
    + by rewrite length_app, H1, u64_succ.
    + by rewrite app_nil_r.
    + by rewrite last_snoc.
    + rewrite H3. apply (rotation_snoc _ (o, t1, now)); [done|apply filter_seen_fp|]. by destruct Hs as (_ & _ & ? & _).
    + rewrite last_snoc. pose proof (seen_not_dormant _ Hs). split_and!; try done.
  - pose proof (fun Hs => seen_not_dormant _ Hs Hd) as Hns. assert (Hnf : ~ failed (o, t1, now)) by (unfold failed; tauto).
    destruct Hd as [He Hd']. cbn in He, Hd'. rewrite (bool_decide_eq_true_2 (@None error = None)), Hd' by done. cbn [negb andb].
    constructor; cbn; rewrite ?filter_app, ?filter_cons_False, ?filter_nil, ?app_nil_r by done; try done.
    rewrite last_snoc. split_and!; try done; by split.
  - destruct Hf as [Hns Hnd]. rewrite (bool_decide_eq_false_2 (Some e = None)) by done. cbn [negb andb].
    constructor; cbn; rewrite ?filter_app, ?(filter_cons_False seen), ?(filter_cons_True failed), ?filter_nil, ?app_nil_r by done; try done.
    + by rewrite length_app, H2, u64_succ.
    + rewrite last_snoc, andb_false_r. split_and!; try done; by split.
Qed.

Definition holder_of (e : exporter) (unit : string) : holderState := default holderState_zero (e_holders e !! unit).

Lemma holder_run c h unit : holder_summary (attempts unit h) (holder_of (run c h) unit).
Proof.
  induction h as [|ev h IH] using rev_ind.
  { assert (E : holder_of (run c []) unit = holderState_zero) by done. rewrite E. constructor; try done.
    left. split; [done|]. intros a b Ha. by apply elem_of_nil in Ha. }
  unfold attempts. rewrite omap_app, run_snoc. fold (attempts unit h).
  destruct ev as [o now|t o t1 now|r t1 t2 now]; cbn [omap list_omap attempt apply_event].
  - by rewrite app_nil_r.
  - unfold holder_of, recordHolder. cbn [snd e_holders set_holders]. destruct (decide (wt_Unit t = unit)) as [<-|E].
    + rewrite bool_decide_eq_true_2, lookup_insert_eq by done. by apply holder_snoc.
    + by rewrite bool_decide_eq_false_2, lookup_insert_ne, app_nil_r by done.
  - destruct (canaryOutcome _ _ _ _) as [o e'] eqn:Ec. destruct (canary_outcome_spec _ _ _ _ _ _ Ec) as (_ & _ & _ & Hh & _).
    rewrite app_nil_r. unfold holder_of, record. cbn [e_holders set_states]. by rewrite Hh.
Qed.

(** ** Health *)
Lemma timeSub_fresh now t : timeSub now t <= freshnessLimit <-> now - t <= freshnessLimit.
Proof. unfold timeSub, freshnessLimit, minInt64, maxInt64, Second. lia. Qed.

Lemma isZero_false t : 0 <= t -> isZero t = false.
Proof. intros H. unfold isZero. apply bool_decide_eq_false_2. unfold zeroTime, Second. lia. Qed.

Lemma new_dom c : dom (e_states (newExporter c)) = list_to_set (collectors c).
Proof.
  unfold newExporter, collectors. cbn [e_states].
  assert (Hw : (0 <? Z.of_nat (length (c_Workloads c))) = negb (c_Workloads c =? [])) by (by destruct (c_Workloads c)).
  rewrite Hw. destruct (c_Workloads c =? []), (c_ServerAdminSocket c =? ""); cbn -[dom]; rewrite !dom_insert_L, dom_singleton_L; set_solver.
Qed.

Lemma states_dom c h : Forall (event_ok c) h -> dom (e_states (run c h)) = list_to_set (collectors c).
Proof.
  induction h as [|ev h IH] using rev_ind; intros H; [apply new_dom|].
  apply Forall_app in H as [H [Hev _]%Forall_cons]. rewrite run_snoc. specialize (IH H).
  assert (Hins : forall e o now, dom (e_states e) = list_to_set (collectors c) -> oc_name o ∈ collectors c ->
    dom (e_states (record e o now)) = list_to_set (collectors c)).
  { intros e o now He Ho. unfold record. cbn [e_states set_states]. rewrite dom_insert_L, He. set_solver +Ho. }
  destruct ev as [o now|t o t1 now|r t1 t2 now]; cbn [apply_event].
  - apply Hins; [done|apply Hev].
  - done.
  - destruct (canaryOutcome _ _ _ _) as [o e'] eqn:Ec. destruct (canary_outcome_spec _ _ _ _ _ _ Ec) as (Hn & _ & Hs & _).
    apply Hins; [by rewrite Hs|]. rewrite Hn. unfold collectors. set_solver +.
Qed.

Lemma run_config c h : e_config (run c h) = c.
Proof.
  induction h as [|ev h IH] using rev_ind; [done|]. rewrite run_snoc. destruct ev as [o now|t o t1 now|r t1 t2 now]; try done.
  cbn [apply_event]. destruct (canaryOutcome _ _ _ _) as [o e'] eqn:Ec.
  destruct (canary_outcome_spec _ _ _ _ _ _ Ec) as (_ & _ & _ & _ & Hc). cbn. by rewrite Hc.
Qed.

(** A verdict or an attempt that still counts. *)
Definition verdict_holds (now : Z) (v : bool * Z * Z) : Prop :=
  v.1.1 = true /\ now - v.2 <= 65 * Second /\ (v.1.2 = zeroTime \/ now < v.1.2).
Definition attempt_holds (now : Z) (a : holderObservation * Z * Z) : Prop :=
  now - a.2 <= 65 * Second /\ (dormant a \/ seen a /\ now < ob_validUntil a.1.1).

Lemma last_In {A} (l : list A) x : last l = Some x -> x ∈ l.
Proof. intros [l' ->]%last_Some. set_solver. Qed.

Lemma successful_spec c h name now : Forall (event_ok c) h ->
  successful (state_of (run c h) name) now = true <->
  exists v, last (verdicts name h) = Some v /\ verdict_holds now v.
Proof.
  intros Hok. destruct (collector_summary c h name) as (_ & _ & Hs). unfold successful, fresh.
  destruct (last (verdicts name h)) as [[[ok vu] t]|] eqn:El.
  - destruct Hs as (-> & -> & ->).
    assert (Ht : isZero t = false).
    { apply last_In in El. apply list_elem_of_omap in El as (ev & Hev & Hv). rewrite Forall_forall in Hok. specialize (Hok _ Hev).
      apply isZero_false. destruct ev; cbn in Hv, Hok; try discriminate; case_bool_decide; naive_solver. }
    rewrite Ht, !andb_true_iff, orb_true_iff, Z.leb_le, timeSub_fresh, Z.ltb_lt. unfold isZero, verdict_holds, freshnessLimit.
    rewrite bool_decide_eq_true. split; [intros; eexists; naive_solver|]. intros (v & [= <-] & ?). naive_solver.
  - destruct Hs as (-> & _). split; [discriminate|]. by intros (v & ? & _).
Qed.

Lemma holder_healthy c h unit now : Forall (event_ok c) h ->
  let s := holder_of (run c h) unit in
  (hd_dormant s && holderFresh s now) || holderSuccessful s now = true <->
  exists a, last (attempts unit h) = Some a /\ attempt_holds now a.
Proof.
  intros Hok. cbv zeta. destruct (holder_run c h unit) as [_ _ _ _ Hs]. unfold holderSuccessful, holderFresh.
  destruct (last (attempts unit h)) as [a|] eqn:El.
  - destruct Hs as (-> & Hsucc & Hdorm & Hvu).
    assert (Ht : isZero a.2 = false).
    { apply last_In in El. apply list_elem_of_omap in El as (ev & Hev & Hv). rewrite Forall_forall in Hok. specialize (Hok _ Hev).
      apply isZero_false. destruct ev; cbn in Hv, Hok; try discriminate; case_bool_decide; naive_solver. }
    rewrite Ht. cbn [negb andb]. rewrite orb_true_iff, !andb_true_iff, Hsucc, Hdorm, Z.leb_le, timeSub_fresh, negb_true_iff, Z.ltb_lt.
    unfold attempt_holds, freshnessLimit. split.
    + intros [[? ?]|(((Hx & ?) & _) & ?)]; exists a; [naive_solver|]. rewrite (Hvu Hx) in *. naive_solver.
    + intros (b & [= <-] & Hf & [Hd|[Hx Hn]]); [by left|right]. rewrite (Hvu Hx). split_and!; try done.
      unfold isZero. apply bool_decide_eq_false_2. destruct a as [[o t1] n]. by destruct Hx as (_ & _ & _ & _ & _ & ? & _).
  - destruct Hs as (-> & -> & ->). cbn. split; [discriminate|]. by intros (a & ? & _).
Qed.

(** C32: The health endpoint is positive exactly when the last collection of every
    configured collector succeeded, was recorded within the last 65 seconds
    and rests on nothing that expired, and the last attempt at every workload,
    also within that time, found it inactive or saw a complete certificate
    that has not expired, whatever was collected before. *)
Theorem healthy_correct c h now : Forall (event_ok c) h ->
  healthy (run c h) now = true <->
  (forall name, name ∈ collectors c -> exists v, last (verdicts name h) = Some v /\ verdict_holds now v) /\
  (forall t, t ∈ c_Workloads c -> exists a, last (attempts (wt_Unit t) h) = Some a /\ attempt_holds now a).
Proof.
  intros Hok. unfold healthy. rewrite andb_true_iff, !forallb_forall, run_config. split; intros [H1 H2]; split.
  - intros name Hn. rewrite <- (successful_spec c h name now Hok).
    assert (Hd : name ∈ dom (e_states (run c h))) by (rewrite states_dom by done; by apply elem_of_list_to_set).
    apply elem_of_dom in Hd as [s Hs]. unfold state_of. rewrite Hs. apply (H1 (name, s)).
    apply list_elem_of_In, elem_of_map_to_list. done.
  - intros t Ht. rewrite <- (holder_healthy c h _ now Hok). apply H2. by apply list_elem_of_In.
  - intros [name s] Hn. apply list_elem_of_In, elem_of_map_to_list in Hn. cbn.
    assert (E : s = state_of (run c h) name) by (unfold state_of; by rewrite Hn). rewrite E, successful_spec by done.
    apply H1. apply (elem_of_list_to_set (C:=gset string)). rewrite <- (states_dom c h Hok). by apply elem_of_dom_2 in Hn.
  - intros t Ht. apply (holder_healthy c h _ now Hok), H2. by apply list_elem_of_In.
Qed.

(** What is counted and shown of a workload is a function of its attempts:
    the counters, modulo the width of the counter, are the numbers of complete
    and of failed attempts, inactive ones counting as neither, and the time of
    the last rotation is that of the last complete observation whose
    certificate differs from the complete one before it. *)
Theorem holder_counts c h t :
  let l := attempts (wt_Unit t) h in
  let s := holder_of (run c h) (wt_Unit t) in
  hd_successes s = Z.of_nat (length (filter seen l)) mod 2 ^ 64 /\
  hd_errors s = Z.of_nat (length (filter failed l)) mod 2 ^ 64 /\
  (length l = length (filter seen l) + length (filter dormant l) + length (filter failed l))%nat /\
  rotation_at (filter seen l) (hd_rotated s).
Proof.
  cbv zeta. destruct (holder_run c h (wt_Unit t)) as [H1 H2 _ H4 _]. split; [exact H1|]. split; [exact H2|]. split; [|exact H4].
  generalize (attempts (wt_Unit t) h). intros l. induction l as [|a l IH]; [done|]. rewrite !filter_cons.
  assert (Hf : failed a <-> ~ seen a /\ ~ dormant a) by done.
  pose proof (seen_not_dormant a). repeat case_decide; cbn; try lia; tauto.
Qed.

(** ** Samples *)

Lemma expired_nodes_spec samples now x : x ∈ samples -> sm_name x = expiry_name -> sm_value x <= Unix now ->
  labelValue (sm_labels x) "node" ∈ expired_nodes samples now.
Proof.
  intros Hx Hn Hv. induction samples as [|y samples IH] using rev_ind; [by apply elem_of_nil in Hx|].
  unfold expired_nodes. rewrite foldl_app. cbn [foldl]. fold (expired_nodes samples now).
  apply elem_of_app in Hx as [Hx|Hx%list_elem_of_singleton].
  - specialize (IH Hx). destruct (_ && _); set_solver +IH.
  - subst y. rewrite bool_decide_eq_true_2, (proj2 (Z.leb_le _ _) Hv) by done. cbn. set_solver +.
Qed.

(** No indicator outlives its evidence: a node is shown with valid metadata, or
    an alias as matching, only while the collection is fresh, none of the
    certificates collected with it for that node has expired, and for aliases
    the entry itself has not. *)
Theorem no_stale_samples s now m : m ∈ currentSamples s now -> sm_value m <> 0 ->
  sm_name m = "realm_spire_agent_metadata_valid" \/ sm_name m = "realm_spire_alias_matches_expected" ->
  cs_completed s <> zeroTime /\ now - cs_completed s <= 65 * Second /\ m ∈ cs_samples s /\
  (sm_name m = "realm_spire_agent_metadata_valid" ->
   forall x, x ∈ cs_samples s -> sm_name x = "realm_identity_certificate_not_after_seconds" ->
     labelValue (sm_labels x) "node" = labelValue (sm_labels m) "node" -> Unix now < sm_value x) /\
  (sm_name m = "realm_spire_alias_matches_expected" -> cs_validUntil s = zeroTime \/ now < cs_validUntil s).
Proof.
  intros Hm Hv Hname. unfold currentSamples in Hm. destruct (fresh s now) eqn:Ef.
  2: { apply list_elem_of_fmap in Hm as (x & -> & _). done. }
  unfold fresh in Ef. rewrite andb_true_iff, negb_true_iff, Z.leb_le, timeSub_fresh in Ef. destruct Ef as [Hz Hf].
  unfold isZero in Hz. apply bool_decide_eq_false in Hz. apply list_elem_of_fmap in Hm as (x & -> & Hx).
  split; [done|]. split; [done|]. unfold current_sample in *.
  destruct (_ && bool_decide (_ ∈ expired_nodes _ _)) eqn:E1; [done|].
  destruct (_ && negb (now <? cs_validUntil s)) eqn:E2; [done|].
  destruct (sm_name x =? active_name) eqn:E3.
  { bprop. cbn in Hname. rewrite E3 in Hname. destruct Hname as [H|H]; discriminate H. }
  split; [done|]. split.
  - intros Hn y Hy Hyn Hl. unfold agent_valid_name in E1. rewrite (bool_decide_eq_true_2 (sm_name x = _)) in E1 by done. cbn in E1.
    apply bool_decide_eq_false in E1. apply Z.nle_gt. intros Hle. apply E1. rewrite <- Hl. by apply expired_nodes_spec.
  - intros Hn. unfold alias_name in E2. rewrite (bool_decide_eq_true_2 (sm_name x = _)) in E2 by done. cbn in E2.
    rewrite andb_false_iff, !negb_false_iff, Z.ltb_lt in E2. unfold isZero in E2. rewrite bool_decide_eq_true in E2. done.
Qed.

(** A map filled from the certificates of a bundle. *)
Definition by_fingerprint (f : cert -> Z) (m : gmap string Z) (certs : list cert) : gmap string Z :=
  foldl (fun m ct => <[fingerprint ct := f ct]> m) m certs.

Lemma by_fingerprint_list f certs : NoDup (fingerprint <$> certs) ->
  map_to_list (by_fingerprint f ∅ certs) ≡ₚ (fun ct => (fingerprint ct, f ct)) <$> certs /\
  (forall ct, ct ∈ certs -> by_fingerprint f ∅ certs !! fingerprint ct = Some (f ct)) /\
  (forall k, k ∉ fingerprint <$> certs -> by_fingerprint f ∅ certs !! k = None).
Proof.
  induction certs as [|ct certs IH] using rev_ind; intros Hn.
  { split; [done|]. split; [intros ct Hct; by apply elem_of_nil in Hct|intros k _; apply lookup_empty]. }
  rewrite fmap_app in Hn. apply NoDup_app in Hn as (Hn & Hd & _). destruct (IH Hn) as (H1 & H2 & H3).
  assert (Hnew : fingerprint ct ∉ fingerprint <$> certs) by (intros Hx; apply (Hd _ Hx); set_solver).
  assert (E : by_fingerprint f ∅ (certs ++ [ct]) = <[fingerprint ct := f ct]> (by_fingerprint f ∅ certs)).
  { unfold by_fingerprint. by rewrite foldl_app. }
  rewrite E. split_and!.
  - rewrite map_to_list_insert by (by apply H3). rewrite fmap_app, H1. cbn. by rewrite Permutation_cons_append.
  - intros x Hx. destruct (decide (fingerprint x = fingerprint ct)) as [Ex|Ex].
    + apply elem_of_app in Hx as [Hx|Hx%list_elem_of_singleton]; [|subst; apply lookup_insert_eq].
      destruct Hnew. rewrite <- Ex. by apply list_elem_of_fmap_2.
    + rewrite lookup_insert_ne by done. apply H2. set_solver.
  - intros k Hk. rewrite fmap_app in Hk. rewrite lookup_insert_ne by set_solver. apply H3. set_solver.
Qed.

Lemma length_filter_ext {A} (P Q : A -> Prop) `{HP : !forall x, Decision (P x)} `{HQ : !forall x, Decision (Q x)} (l : list A) :
  (forall x, x ∈ l -> P x <-> Q x) -> length (filter P l) = length (filter Q l).
Proof.
  induction l as [|x l IH]; intros H; [done|]. rewrite !filter_cons. pose proof (H x ltac:(set_solver)).
  specialize (IH ltac:(set_solver)). repeat case_decide; cbn; try lia; tauto.
Qed.

Lemma length_filter_fmap {A B} (f : A -> B) (P : B -> Prop) `{HP : !forall x, Decision (P x)} (l : list A) :
  length (filter P (f <$> l)) = length (filter (fun x => P (f x)) l).
Proof. induction l as [|x l IH]; [done|]. cbn [fmap list_fmap]. rewrite !filter_cons. case_decide; cbn; by rewrite IH. Qed.

Lemma values_by_bundle node certs tail f name :
  (name = not_after_name /\ f = (fun ct => Unix (ct_NotAfter ct)) \/
   name = not_before_name /\ f = (fun ct => Unix (ct_NotBefore ct))) ->
  Forall (fun m => sm_name m <> name) tail ->
  values_by name "certificate" ((certs ≫= bundle_samples node) ++ tail) = by_fingerprint f ∅ certs.
Proof.
  intros Hn Ht. unfold values_by, by_fingerprint. rewrite foldl_app. generalize (∅ : gmap string Z).
  assert (Htail : forall m : gmap string Z, foldl (fun m s => if sm_name s =? name then <[labelValue (sm_labels s) "certificate" := sm_value s]> m else m) m tail = m).
  { induction Ht as [|x tail Hx _ IH]; intros m; [done|]. cbn [foldl]. rewrite bool_decide_eq_false_2 by done. apply IH. }
  induction certs as [|ct certs IH]; intros m; [apply Htail|]. rewrite bind_cons, foldl_app. cbn [foldl].
  rewrite <- IH. do 2 f_equal. destruct Hn as [[-> ->]|[-> ->]]; reflexivity.
Qed.

(** The times of an X.509 certificate are whole seconds. *)
Definition whole_seconds (ct : cert) : Prop := (Second | ct_NotBefore ct) /\ (Second | ct_NotAfter ct).

Lemma current_seconds ct now : whole_seconds ct ->
  certCurrent ct now = true <-> Unix (ct_NotBefore ct) <= Unix now /\ Unix now < Unix (ct_NotAfter ct).
Proof.
  intros [[a Ha] [b Hb]]. unfold certCurrent, Unix. rewrite andb_true_iff, negb_true_iff, Z.ltb_ge, Z.ltb_lt, Ha, Hb.
  unfold Second in *. rewrite !Z.div_mul by lia. pose proof (Z.div_mod now 1000000000). pose proof (Z.mod_pos_bound now 1000000000). lia.
Qed.

Lemma current_sample_name s now m : sm_name (current_sample s now m) = sm_name m.
Proof. unfold current_sample. by repeat case_match. Qed.

(** The number of valid certificates in the bundle is recomputed at every
    scrape: however long ago the bundle was read, within the freshness limit,
    the one sample of that name is the number of its certificates valid now. *)
Theorem bundle_count c certs t0 s now :
  NoDup (fingerprint <$> certs) -> Forall whole_seconds certs -> fresh s now = true ->
  cs_samples s = oc_samples (bundle_outcome c (Ok certs) t0) ->
  filter (fun m => sm_name m = active_name) (currentSamples s now) =
  [metric active_name (Z.of_nat (length (filter (fun ct => certCurrent ct now = true) certs))) ["node"; c_Node c]].
Proof.
  intros Hn Hw Hf Hs. unfold currentSamples. rewrite Hf, Hs. cbn [oc_samples bundle_outcome].
  set (tail := [metric "realm_bootstrap_bundle_certificates" _ _; _]).
  rewrite fmap_app, filter_app.
  assert (Hnone : filter (fun m => sm_name m = active_name) (current_sample s now <$> (certs ≫= bundle_samples (c_Node c))) = []).
  { clear. induction certs as [|x l IH]; [done|]. rewrite bind_cons, fmap_app, filter_app, IH. cbn [bundle_samples fmap list_fmap].
    by rewrite !filter_cons_False by (by rewrite current_sample_name). }
  rewrite Hnone. cbn [app]. unfold tail. cbn [fmap list_fmap].
  rewrite filter_cons_False by (by rewrite current_sample_name). rewrite filter_cons_True by (by rewrite current_sample_name).
  rewrite filter_nil. f_equal. unfold current_sample. cbn [sm_name metric].
  rewrite (bool_decide_eq_false_2 (_ = agent_valid_name)), (bool_decide_eq_false_2 (_ = alias_name)) by done.
  rewrite (bool_decide_eq_true_2 (_ = active_name)) by done. cbn [andb]. unfold set_value, metric. cbn [sm_labels]. do 2 f_equal.
  rewrite Hs. cbn [oc_samples bundle_outcome]. fold tail.
  rewrite (values_by_bundle _ _ _ (fun ct => Unix (ct_NotAfter ct)) not_after_name) by (repeat constructor; (by left) || done).
  rewrite (values_by_bundle _ _ _ (fun ct => Unix (ct_NotBefore ct)) not_before_name) by (repeat constructor; (by right) || done).
  destruct (by_fingerprint_list (fun ct => Unix (ct_NotAfter ct)) certs Hn) as (Hp & _ & _).
  destruct (by_fingerprint_list (fun ct => Unix (ct_NotBefore ct)) certs Hn) as (_ & Hb & _).
  rewrite Hp, length_filter_fmap. apply length_filter_ext. intros ct Hct. cbn [fst snd].
  rewrite (Hb ct Hct). cbn [default]. rewrite Forall_forall in Hw. by rewrite (current_seconds ct now (Hw ct Hct)).
Qed.
