(* ===== verification/IdentityObserve.v ===== *)
(** * realm-identity-metrics: what an observation rests on

    The bundle reader terminates and yields distinct authorities, the canary is
    the only certificate of its identity, an observed workload proved exactly
    the configured identity over a chain that had not expired, and the outcome
    of a round does not depend on the order in which its workers finish. *)

From S2P Require Import Prelude GoStrings Encoding Json AgentConfig IdentityConfig IdentityExporter.

Open Scope Z_scope.
Open Scope go_scope.

(** ** The bundle *)
Definition authority (c : cert) : Prop :=
  ct_IsCA c = true /\ ct_BasicConstraintsValid c = true /\ Z.land (ct_KeyUsage c) 32 <> 0.

Section bundle.
Context (pem_Decode : string -> option (pemBlock * string)) (parseCertificate : string -> option cert).

(** [pem.Decode] returns the remainder after the block it found. *)
Hypothesis pem_consumes : forall raw block rest,
  pem_Decode raw = Some (block, rest) -> (String.length rest < String.length raw)%nat.

Lemma bundle_trim_length s : (String.length (bundle_trim s) <= String.length s)%nat.
Proof. induction s as [|c s IH]; cbn; [done|]. destruct (bundle_space c); cbn; lia. Qed.

Definition bundle_ok (certs : list cert) : Prop :=
  NoDup (fingerprint <$> certs) /\ (length certs <= 64)%nat /\
  Forall (fun c => authority c /\ exists bytes, parseCertificate bytes = Some c) certs.

Lemma bundle_loop_spec fuel : forall raw certs, (String.length raw < fuel)%nat -> bundle_ok certs ->
  match bundle_loop pem_Decode parseCertificate fuel raw certs with
  | Ok certs' => bundle_ok certs' | Err _ => True | Panic _ => False
  end.
Proof.
  induction fuel as [|fuel IH]; intros raw certs Hl (Hn & Hlen & Hall); [lia|]. cbn [bundle_loop].
  pose proof (bundle_trim_length raw) as Ht. destruct (bundle_trim raw =? ""); [done|].
  destruct (hasPrefix _ _); [|done]. destruct (pem_Decode (bundle_trim raw)) as [[block rest]|] eqn:Ep; [|done].
  apply pem_consumes in Ep. destruct (_ || _); [done|]. destruct (parseCertificate (pb_Bytes block)) as [ct|] eqn:Ec; [|done].
  destruct (_ || _) eqn:Ea; [done|]. destruct (64 <? _) eqn:E64; [done|]. apply Z.ltb_ge in E64. apply IH; [lia|].
  case_bool_decide as Hf; [done|]. split; [|split; [lia|]].
  - rewrite fmap_app. apply NoDup_app. split; [done|]. split; [|apply NoDup_singleton].
    intros x Hx ->%list_elem_of_singleton. done.
  - apply Forall_app. split; [done|]. constructor; [|constructor]. split; [|eauto].
    rewrite !orb_false_iff, !negb_false_iff, bool_decide_eq_false in Ea. destruct Ea as [[? ?] ?]. by split_and!.
Qed.

(** Reading the bundle always ends, with an error or with between one and
    sixty-four distinct certificates, each parsed from the file, each that of
    an authority that may sign certificates. *)
Theorem loadBundle_correct f :
  is_panic (loadBundle pem_Decode parseCertificate f) = false /\
  forall certs, loadBundle pem_Decode parseCertificate f = Ok certs ->
    (1 <= length certs <= 64)%nat /\ NoDup (fingerprint <$> certs) /\
    Forall (fun c => authority c /\ exists bytes, parseCertificate bytes = Some c) certs.
Proof.
  unfold loadBundle. destruct (readPublicFile f maxBundleBytes) as [raw|e|m]; [|done..].
  pose proof (bundle_loop_spec (S (String.length raw)) raw [] ltac:(lia)) as H.
  destruct (bundle_loop _ _ _ raw []) as [certs|e|m]; cbn [rbind]; [|done|].
  - destruct H as (H1 & H2 & H3); [split_and!; [constructor|cbn; lia|constructor]|].
    destruct (Z.of_nat (length certs) =? 0) eqn:E; [done|]. bprop. split; [done|]. intros x [= <-]. split; [lia|done].
  - destruct H. split_and!; [constructor|cbn; lia|constructor].
Qed.
End bundle.

(** ** The canary *)
Section canary.
Context (idFromCert : cert -> option string) (c : Config) (now : Z).

Definition theirs (s : option svid) : Prop := exists v, s = Some v /\ sv_ID v = canaryID c.

Definition canary_svid (ct : cert) (s : svid) : Prop :=
  sv_ID s = canaryID c /\ (exists rest, sv_Certificates s = Some ct :: rest) /\
  idFromCert ct = Some (canaryID c) /\ ct_NotBefore ct <= now < ct_NotAfter ct.

Lemma certCurrent_spec ct : certCurrent ct now = true <-> ct_NotBefore ct <= now < ct_NotAfter ct.
Proof. unfold certCurrent. by bspec. Qed.

Lemma select_loop_spec svids : forall found ct s, select_loop idFromCert c now found svids = Ok (ct, s) <->
  (found = Some (ct, s) /\ Forall (fun x => ~ theirs x) svids) \/
  (found = None /\ exists pre post, svids = pre ++ Some s :: post /\ canary_svid ct s /\
     Forall (fun x => ~ theirs x) (pre ++ post)).
Proof.
  induction svids as [|[v|] svids IH]; intros found ct s; cbn [select_loop].
  - destruct found as [[ct' s']|]; split; [naive_solver| |naive_solver|].
    + intros [[[= -> ->] _]|[? _]]; [done|discriminate].
    + intros [[? _]|(_ & pre & post & E & _)]; [discriminate|]. by destruct pre.
  - assert (Hv : theirs (Some v) <-> sv_ID v = canaryID c) by (unfold theirs; naive_solver).
    destruct (decide (sv_ID v = canaryID c)) as [Ev|Ev].
    + rewrite bool_decide_eq_true_2 by done. cbn [negb]. destruct found as [f|]; cbn.
      { split; [discriminate|]. intros [[_ H]|[? _]]; [|discriminate]. apply Forall_cons in H as [H _]. tauto. }
      assert (Hhead : (exists pre post, Some v :: svids = pre ++ Some s :: post /\ canary_svid ct s /\
          Forall (fun x => ~ theirs x) (pre ++ post)) <-> canary_svid ct v /\ s = v /\ Forall (fun x => ~ theirs x) svids).
      { split; [|intros (? & -> & ?); by exists [], svids]. intros ([|x pre] & post & E & Hc & Hf).
        - injection E as -> ->. done.
        - injection E as <- ->. apply Forall_cons in Hf as [Hf _]. tauto. }
      rewrite Hhead. unfold canary_svid. destruct (sv_Certificates v) as [|[ct'|] rest] eqn:Ec.
      1,3: split; [discriminate|]; intros [[? _]|(_ & (_ & (r & Hr) & _) & _)]; discriminate.
      destruct (_ || _) eqn:E.
      * split; [discriminate|]. rewrite orb_true_iff, !negb_true_iff, bool_decide_eq_false in E.
        intros [[? _]|(_ & (_ & (r & [= -> _]) & Hi & Ht) & _)]; [discriminate|]. apply certCurrent_spec in Ht. destruct E; congruence.
      * rewrite orb_false_iff, !negb_false_iff, bool_decide_eq_true, certCurrent_spec in E. rewrite IH. split.
        -- intros [[[= -> ->] Hf]|[? _]]; [|discriminate]. right. split; [done|]. naive_solver.
        -- intros [[? _]|(_ & (_ & (r & [= -> _]) & _) & -> & Hf)]; [discriminate|]. by left.
    + rewrite bool_decide_eq_false_2 by done. cbn [negb]. rewrite IH, Forall_cons. split.
      * intros [[-> Hf]|(-> & pre & post & -> & Hc & Hf)]; [left; tauto|]. right. split; [done|]. exists (Some v :: pre), post.
        split; [done|]. split; [done|]. cbn. constructor; tauto.
      * intros [[-> [_ Hf]]|(-> & [|x pre] & post & E & Hc & Hf)]; [by left| |].
        -- injection E as -> ->. by destruct Hc as (? & _).
        -- injection E as <- ->. right. apply Forall_cons in Hf as [_ Hf]. eauto 10.
  - assert (Hv : ~ theirs None) by (intros (v & ? & _); discriminate). rewrite IH, Forall_cons. split.
    + intros [[-> Hf]|(-> & pre & post & -> & Hc & Hf)]; [left; tauto|]. right. split; [done|]. exists (None :: pre), post.
      split; [done|]. split; [done|]. by constructor.
    + intros [[-> [_ Hf]]|(-> & [|x pre] & post & E & Hc & Hf)]; [by left|discriminate|].
      injection E as <- ->. right. apply Forall_cons in Hf as [_ Hf]. eauto 10.
Qed.

(** The canary is found exactly when one SVID of the Workload API, and no
    other, has the observer's identity, and its leaf certificate carries that
    identity and is valid at the time. *)
Theorem selectCanary_correct svids ct s : selectCanary idFromCert c svids now = Ok (ct, s) <->
  exists pre post, svids = pre ++ Some s :: post /\ canary_svid ct s /\ Forall (fun x => ~ theirs x) (pre ++ post).
Proof. unfold selectCanary. rewrite select_loop_spec. naive_solver. Qed.
End canary.

(** ** The earliest of several times, the zero time standing for none *)
Lemma earlier_comm a b : earlier a b = earlier b a.
Proof. unfold earlier, isZero. repeat case_bool_decide; cbn; try congruence. destruct (Z.ltb_spec b a), (Z.ltb_spec a b); lia. Qed.

Lemma earlier_assoc a b c : earlier (earlier a b) c = earlier a (earlier b c).
Proof.
  unfold earlier, isZero.
  destruct (bool_decide_reflect (a = zeroTime)), (bool_decide_reflect (b = zeroTime)), (bool_decide_reflect (c = zeroTime));
    subst; cbn; rewrite ?bool_decide_eq_true_2 by done; cbn; rewrite ?bool_decide_eq_false_2 by done; cbn; try done.
  - by destruct (c <? b); rewrite bool_decide_eq_false_2.
  - destruct (Z.ltb_spec b a), (Z.ltb_spec c b); rewrite ?bool_decide_eq_false_2 by done; cbn;
      destruct (Z.ltb_spec c a), (Z.ltb_spec b a); try lia; destruct (Z.ltb_spec c b); lia.
Qed.

Lemma earlier_le a b : (a <> zeroTime -> earlier a b <= a) /\ (b <> zeroTime -> earlier a b <= b) /\
  (a <> zeroTime \/ b <> zeroTime -> earlier a b <> zeroTime).
Proof.
  unfold earlier, isZero. repeat case_bool_decide; cbn; try (destruct (Z.ltb_spec b a)); split_and!; intros; try lia; tauto.
Qed.

Lemma fold_earlier l : forall t, let r := foldl earlier t l in
  (t <> zeroTime -> r <= t /\ r <> zeroTime) /\ forall x, x ∈ l -> x <> zeroTime -> r <= x /\ r <> zeroTime.
Proof.
  induction l as [|y l IH]; intros t; cbn [foldl]; [split; [done|]; intros x Hx; by apply elem_of_nil in Hx|].
  destruct (IH (earlier t y)) as [H1 H2]. destruct (earlier_le t y) as (L1 & L2 & L3). split.
  - intros Ht. specialize (L1 Ht). destruct H1 as [H1 H1']; [by apply L3; left|]. split; [lia|done].
  - intros x [->|Hx]%elem_of_cons Hn; [|by apply H2]. specialize (L2 Hn). destruct H1 as [H1 H1']; [by apply L3; right|]. split; [lia|done].
Qed.

Lemma earliest_le certs c : c ∈ certs -> ct_NotAfter c <> zeroTime -> earliest certs <= ct_NotAfter c /\ earliest certs <> zeroTime.
Proof.
  intros Hc Hz. assert (E : earliest certs = foldl earlier zeroTime (ct_NotAfter <$> certs)).
  { unfold earliest. generalize zeroTime. clear. induction certs as [|x l IH]; intros t; [done|]. apply IH. }
  rewrite E. apply fold_earlier; [|done]. by apply list_elem_of_fmap_2.
Qed.

(** ** An observation *)
Lemma read_holder_ok env want vu chain r : ob_err (read_holder env want vu chain r) = None ->
  hr_status r = want /\ hr_bodyErr r = false /\ exists expiry leaf, chain = Some expiry /\ hr_leaf r = Some leaf /\
    certCurrent leaf (he_now2 env) = true /\ he_now3 env < earlier vu expiry /\
    read_holder env want vu chain r =
      Observation (ct_NotBefore leaf) (ct_NotAfter leaf) (earlier vu expiry) (fingerprint leaf) false None.
Proof.
  unfold read_holder. destruct (hr_status r <>? want) eqn:Es; [discriminate|]. bprop. destruct (_ || _) eqn:Eb; [discriminate|].
  apply orb_false_iff in Eb as [Eb _]. destruct chain as [expiry|]; [|discriminate]. destruct (hr_leaf r) as [leaf|]; [|discriminate].
  destruct (_ || _) eqn:E; [discriminate|]. intros _. apply orb_false_iff in E as [E1 E2].
  rewrite negb_false_iff in E1, E2. apply Z.ltb_lt in E2. split; [done|]. split; [done|]. eauto 10.
Qed.

Lemma authorize_chain_Some expected h t : authorize_chain expected h = Some t ->
  hs_peer h = expected /\ exists chain rest, hs_chains h = chain :: rest /\ chain <> [] /\ t = earliest chain.
Proof.
  unfold authorize_chain. case_bool_decide as E; [|discriminate]. destruct (hs_chains h) as [|[|c chain] rest]; [done|done|].
  intros [= <-]. split; [done|]. by exists (c :: chain), rest.
Qed.

Section observe.
Context `{Spiffe}.

(** An observation without an error is of the configured workload: its address
    is on the loopback, its peer proved exactly the configured identity, the
    observer had a current certificate, key and bundle of its own, the answer
    had the status of its source, and at the end neither the leaf, nor the
    observer's certificate, nor any certificate of the verified chain had
    expired.  What it reports is that leaf. *)
Theorem observeHolder_sound t m env : let o := observeHolder t m env in
  ob_err o = None ->
  exists id oc s r h chain rest leaf,
    loopback_port (wt_Address t) /\ fromString (wt_Identity t) = Some id /\
    cm_Cert m = Some oc /\ cm_SVID m = Some s /\ sv_PrivateKey s = true /\ cm_Bundle m = true /\
    he_do env = Some r /\ hr_tls r = Some h /\ hs_peer h = id_String id /\ hs_chains h = chain :: rest /\
    (wt_Source t = sourceGhostunnel /\ hr_status r = 200 \/ wt_Source t = sourceCaddy /\ hr_status r = 204) /\
    hr_leaf r = Some leaf /\ ct_NotBefore leaf <= he_now2 env < ct_NotAfter leaf /\
    (forall ct, ct ∈ oc :: chain -> ct_NotAfter ct <> zeroTime ->
       ob_validUntil o <= ct_NotAfter ct /\ he_now3 env < ct_NotAfter ct) /\
    o = Observation (ct_NotBefore leaf) (ct_NotAfter leaf) (ob_validUntil o) (fingerprint leaf) false None.
Proof.
  cbv zeta. unfold observeHolder. destruct (loopbackAddress (wt_Address t)) eqn:El; cbn [negb]; [|discriminate].
  apply loopbackAddress_spec in El. destruct (wanted_status (wt_Source t)) as [want|] eqn:Ew; [|discriminate].
  destruct (observer_ready m (he_now1 env)) as [oc|] eqn:Eo; [|discriminate].
  destruct (fromString (wt_Identity t)) as [id|] eqn:Ei; [|discriminate].
  destruct (he_request env); cbn [negb]; [|discriminate]. destruct (he_do env) as [r|] eqn:Ed; [|discriminate].
  destruct (hr_tls r) as [h|] eqn:Eh.
  2: { intros (_ & _ & x & l & Hc & _)%read_holder_ok. discriminate Hc. }
  destruct (authorize_chain (id_String id) h) as [expiry|] eqn:Ea; [|discriminate].
  apply authorize_chain_Some in Ea as (Hp & chain & rest & Hc & _ & ->).
  intros (Hst & _ & x & leaf & [= <-] & Hleaf & Hcur & Hnow & Eq)%read_holder_ok. rewrite Eq. cbn [ob_validUntil].
  unfold observer_ready in Eo. destruct (cm_SVID m) as [s|]; [|discriminate]. destruct (cm_Cert m) as [oc'|]; [|discriminate].
  destruct (_ && _) eqn:Er; [|discriminate]. injection Eo as ->. rewrite !andb_true_iff in Er. destruct Er as [[Hk Hb] _].
  exists id, oc, s, r, h, chain, rest, leaf. split_and!; try done.
  - unfold wanted_status in Ew. repeat case_bool_decide; naive_solver.
  - apply certCurrent_spec in Hcur. lia.
  - apply certCurrent_spec in Hcur. lia.
  - intros ct Hct Hz. destruct (earlier_le (ct_NotAfter oc) (earliest chain)) as (L1 & L2 & _).
    assert (Hle : earlier (ct_NotAfter oc) (earliest chain) <= ct_NotAfter ct); [|split; [done|lia]].
    apply elem_of_cons in Hct as [->|Hct]; [by apply L1|]. destruct (earliest_le chain ct Hct Hz) as [? Hne]. specialize (L2 Hne). lia.
Qed.
End observe.

(** ** The order of the results *)
Definition counted (ob : holderObservation) : Prop := ob_dormant ob = false /\ ob_err ob = None.
#[export] Instance counted_dec ob : Decision (counted ob).
Proof. unfold counted. solve_decision. Defined.

Lemma collect_fold obs : forall o, let r := foldl collect_result o obs in
  oc_validUntil r = foldl earlier (oc_validUntil o) (ob_validUntil <$> filter counted obs) /\
  (oc_err r = None <-> oc_err o = None /\ Forall (fun ob => ob_err ob = None) obs).
Proof.
  induction obs as [|ob obs IH]; intros o; cbn [foldl]; [split; [done|]; rewrite Forall_nil; tauto|].
  destruct (IH (collect_result o ob)) as [H1 H2]. cbv zeta in *. rewrite H1, H2, Forall_cons. clear.
  unfold collect_result. cbn [oc_validUntil oc_err]. split.
  - rewrite filter_cons. destruct (decide (counted ob)) as [[-> ->]|Hn]; [done|].
    destruct (negb (ob_dormant ob) && (ob_err ob =? None)) eqn:E; [|done]. destruct Hn.
    rewrite andb_true_iff, negb_true_iff, bool_decide_eq_true in E. done.
  - destruct (ob_err ob); naive_solver.
Qed.

Lemma fold_earlier_perm l k : l ≡ₚ k -> forall t, foldl earlier t l = foldl earlier t k.
Proof.
  induction 1 as [|x l k _ IH|x y l|l k m _ IH1 _ IH2]; intros t; cbn [foldl]; [done|apply IH| |by rewrite IH1].
  by rewrite !earlier_assoc, (earlier_comm x y).
Qed.

(** A round fails when some workload could not be observed, and otherwise
    holds until the first of the observed certificates expires, in whatever
    order the workers record and report. *)
Theorem workload_round_order obs sent : sent ≡ₚ obs ->
  (oc_err (collect_results sent) = None <-> forall ob, ob ∈ obs -> ob_err ob = None) /\
  oc_validUntil (collect_results sent) = oc_validUntil (collect_results obs) /\
  (forall ob, ob ∈ obs -> counted ob -> ob_validUntil ob <> zeroTime ->
     oc_validUntil (collect_results sent) <= ob_validUntil ob).
Proof.
  intros Hp. unfold collect_results. destruct (collect_fold sent (Outcome "workloads" [] None zeroTime)) as [H1 H2].
  destruct (collect_fold obs (Outcome "workloads" [] None zeroTime)) as [H3 _]. cbv zeta in *. cbn [oc_validUntil oc_err] in *.
  rewrite H2, H1, H3. assert (Hv : foldl earlier zeroTime (ob_validUntil <$> filter counted sent) =
    foldl earlier zeroTime (ob_validUntil <$> filter counted obs)) by (apply fold_earlier_perm; by rewrite Hp).
  split; [rewrite Hp, Forall_forall; naive_solver|]. split; [done|]. rewrite Hv. clear.
  intros ob Hob Hc Hz. apply fold_earlier; [|done]. by apply list_elem_of_fmap_2, list_elem_of_filter.
Qed.
