(* ===== verification/IdentityExamples.v ===== *)
(** * realm-identity-metrics: a concrete exporter

    The theorems on the exporter at a small deployment: one workload, one
    cohort node, a bundle of two authorities. *)

From S2P Require Import Prelude GoStrings Encoding Json AgentConfig IdentityConfig IdentityExporter.
From S2P Require Import IdentityHealth IdentityObserve.

Open Scope Z_scope.
Open Scope go_scope.

Module IdentityExamples.
Import ConfigExamples.

(** A parser of identifiers of the form [spiffe://domain/path]. *)
#[export] Instance plain_spiffe : Spiffe := {
  trustDomainFromString s := if s =? "" then None else Some s;
  fromString s :=
    if hasPrefix s "spiffe://" then
      match cut "/" (trimPrefix s "spiffe://") with
      | Some (d, p) => Some (SpiffeID s d ("/" +:+ p))
      | None => None
      end
    else None
}.

Definition matrix : WorkloadTarget := Target "matrix.service" "spiffe://nyaw.xyz/matrix" "127.0.0.1:9443" sourceCaddy.
Definition cfg : Config :=
  MkConfig "kaambl" "nyaw.xyz" "127.0.0.1:18494" "/var/lib/realm-spire/trust-bundle.pem" "eihort.nyaw.xyz:8081"
    "/run/spire/agent/public/api.sock" "" "" [] "/run/current-system/sw/bin/systemctl" [matrix].
Definition admin_cfg : Config :=
  MkConfig "eihort" "nyaw.xyz" "[::1]:18494" "/var/lib/realm-spire/trust-bundle.pem" "eihort.nyaw.xyz:8081"
    "/run/spire/agent/public/api.sock" "/run/spire/server/api.sock" "/run/current-system/sw/bin/spire-server" ["kaambl"] "" [].

(** The two configurations are accepted; listening on all addresses, or an
    admin socket on another node, is not. *)
Example configs_checked :
  config_validate cfg = Ok tt /\ config_validate admin_cfg = Ok tt /\
  is_ok (config_validate (MkConfig "kaambl" "nyaw.xyz" "0.0.0.0:18494" "/b" "h:1" "/w" "" "" [] "" [])) = false /\
  is_ok (config_validate (MkConfig "kaambl" "nyaw.xyz" "127.0.0.1:1" "/b" "h:1" "/w" "/s" "/spire-server" ["kaambl"] "" [])) = false.
Proof. vm_compute. done. Qed.

Definition activity : string := Eval vm_compute in printed [("matrix.service", "active")].

Lemma activity_roundtrip_witness : parseWorkloadActivity activity [matrix] = Ok (list_to_map [("matrix.service", "active")]).
Proof.
  change activity with (printed [("matrix.service", "active")]). apply activity_roundtrip.
  - discriminate.
  - reflexivity.
  - apply NoDup_singleton.
  - constructor; [|constructor]. split; [reflexivity|]. split; [reflexivity|discriminate].
  - vm_compute. discriminate.
Defined.

Lemma activity_sound_witness : exists res, parseWorkloadActivity activity [matrix] = Ok res /\
  dom res = list_to_set (wt_Unit <$> [matrix]).
Proof.
  exists (list_to_map [("matrix.service", "active")]). split; [vm_compute; reflexivity|].
  apply (activity_sound activity [matrix]). vm_compute. reflexivity.
Defined.

Definition agents_json : string := dq
  "{'agents':[{'id':{'trust_domain':'nyaw.xyz','path':'/spire/agent/http_fqdn/kaambl'},'attestation_type':'http_fqdn','banned':false,'can_reattest':true,'x509svid_expires_at':'1900000000'}]}".
Definition clock : Z := 1800000000 * Second.

Lemma parseAgents_correct_witness :
  exists agents, forall node, node ∈ c_Nodes admin_cfg ->
    exists a expiry, sole_agent admin_cfg agents node a /\ current_agent clock a expiry.
Proof.
  destruct (parseAgents_correct agents_json admin_cfg clock [AgentResult "kaambl" 1900000000 true] None) as [H _].
  - vm_compute. discriminate.
  - vm_compute. reflexivity.
  - destruct (proj1 H eq_refl) as (agents & _ & _ & Ha). exists agents. exact Ha.
Defined.

(** A banned agent is an error. *)
Example banned_agent : (parseAgents (dq
  "{'agents':[{'id':{'trust_domain':'nyaw.xyz','path':'/spire/agent/http_fqdn/kaambl'},'attestation_type':'http_fqdn','banned':true,'can_reattest':true,'x509svid_expires_at':'1900000000'}]}")
  admin_cfg clock).2 = Some (ErrNew "agents_metadata").
Proof. vm_compute. reflexivity. Qed.

(** ** A bundle *)
Definition ca1 : cert := Cert "first authority" 0 (1900000000 * Second) true true 96.
Definition ca2 : cert := Cert "second authority" 0 (1700000000 * Second) true true 96.
Definition whole (raw : string) : option (pemBlock * string) :=
  if hasPrefix raw begin_certificate then Some (PemBlock "CERTIFICATE" 0 raw, "") else None.
Definition bundle_file : public_file := PublicFile true true true 27 begin_certificate false.

Lemma whole_consumes raw block rest : whole raw = Some (block, rest) -> (String.length rest < String.length raw)%nat.
Proof.
  unfold whole. destruct (hasPrefix raw begin_certificate) eqn:E; [|discriminate]. intros [= _ <-].
  destruct raw; [discriminate E|]. cbn. lia.
Qed.

Lemma loadBundle_correct_witness : loadBundle whole (fun _ => Some ca1) bundle_file = Ok [ca1] /\
  NoDup (fingerprint <$> [ca1]).
Proof.
  assert (E : loadBundle whole (fun _ => Some ca1) bundle_file = Ok [ca1]) by (vm_compute; reflexivity).
  split; [exact E|].
  exact (proj1 (proj2 (proj2 (loadBundle_correct whole (fun _ => Some ca1) whole_consumes bundle_file) [ca1] E))).
Defined.

Definition bundle_state : collectorState :=
  CollectorState (oc_samples (bundle_outcome cfg (Ok [ca1; ca2]) (1600000000 * Second))) true 1 0
    (1600000000 * Second) (1600000000 * Second) zeroTime.

(** Both were valid when the bundle was read a minute ago, and still are. *)
Lemma bundle_count_witness :
  filter (fun m => sm_name m = active_name) (currentSamples bundle_state (1600000060 * Second)) =
  [metric active_name 2 ["node"; "kaambl"]].
Proof.
  refine (bundle_count cfg [ca1; ca2] (1600000000 * Second) bundle_state (1600000060 * Second) _ _ _ _).
  - apply (bool_decide_unpack _). vm_compute. exact I.
  - repeat constructor; apply Z.mod_divide; (discriminate || reflexivity).
  - vm_compute. reflexivity.
  - reflexivity.
Defined.

(** ** A round *)
Definition canary_cert : cert := Cert "canary" (1700000000 * Second) (1900000000 * Second) false false 0.
Definition canary_md : canaryMetadata :=
  CanaryMetadata (Some canary_cert) (Some (Svid (canaryID cfg) [Some canary_cert] true)) true.
Definition leaf : cert := Cert "matrix leaf" (1799990000 * Second) (1800090000 * Second) false false 0.
Definition holder_env : holderEnv :=
  HolderEnv true (Some (HolderResponse (Some (Handshake "spiffe://nyaw.xyz/matrix" [[leaf; ca1]])) 204 "" false (Some leaf)))
    None clock clock clock.
Definition observation : holderObservation := Eval vm_compute in observeHolder matrix canary_md holder_env.

Lemma observeHolder_sound_witness : exists l, ob_fingerprint observation = fingerprint l /\ clock < ct_NotAfter l.
Proof.
  destruct (observeHolder_sound matrix canary_md holder_env) as (id & oc & s & r & h & chain & rest & l & H).
  - vm_compute. reflexivity.
  - exists l. destruct H as (_ & _ & _ & _ & _ & _ & _ & _ & _ & _ & _ & _ & Hl & _ & E). split; [|exact (proj2 Hl)].
    exact (f_equal ob_fingerprint E).
Defined.

(** A peer with another identity is refused. *)
Example other_peer : ob_err (observeHolder matrix canary_md
  (HolderEnv true (Some (HolderResponse (Some (Handshake "spiffe://nyaw.xyz/other" [[leaf; ca1]])) 204 "" false (Some leaf)))
    None clock clock clock)) = Some (ErrNew "workload_request").
Proof. vm_compute. reflexivity. Qed.

Definition history : list event :=
  [Collected (bundle_outcome cfg (Ok [ca1; ca2]) clock) clock; Collected (Outcome "bootstrap" [] None zeroTime) clock;
   CanarySeen (Ok canary_md) clock clock clock; Observed matrix observation clock clock;
   Collected (collect_results [observation]) clock].

Lemma healthy_correct_witness :
  exists a, last (attempts "matrix.service" history) = Some a /\ attempt_holds (clock + 60 * Second) a.
Proof.
  assert (H : Forall (event_ok cfg) history).
  { repeat constructor; try (vm_compute; discriminate); apply list_elem_of_In; vm_compute; tauto. }
  destruct (proj1 (healthy_correct cfg history (clock + 60 * Second) H)) as [_ Hw]; [vm_compute; reflexivity|].
  apply (Hw matrix). apply list_elem_of_In. left. reflexivity.
Defined.

(** Seventy seconds later nothing is fresh. *)
Example stale : healthy (run cfg history) (clock + 70 * Second) = false.
Proof. vm_compute. reflexivity. Qed.

Lemma workload_round_order_witness : oc_err (collect_results [observation; no_observation]) = None.
Proof.
  apply (workload_round_order [no_observation; observation] [observation; no_observation]); [apply Permutation_swap|].
  intros ob [->|[->|H]%elem_of_cons]%elem_of_cons; [reflexivity|reflexivity|]. exfalso. exact (not_elem_of_nil _ H).
Defined.

(** ** A sample *)
Definition agents_state : collectorState :=
  Eval vm_compute in state_of (record (newExporter admin_cfg) (collectAgents admin_cfg (Ok agents_json) clock) clock) "agents".

Lemma no_stale_samples_witness : forall x, x ∈ cs_samples agents_state ->
  sm_name x = "realm_identity_certificate_not_after_seconds" -> labelValue (sm_labels x) "node" = "kaambl" ->
  Unix (clock + 60 * Second) < sm_value x.
Proof.
  destruct (no_stale_samples agents_state (clock + 60 * Second) (metric "realm_spire_agent_metadata_valid" 1 ["node"; "kaambl"]))
    as (_ & _ & _ & H & _).
  - apply list_elem_of_In. vm_compute. tauto.
  - discriminate.
  - left. reflexivity.
  - exact (H eq_refl).
Defined.
End IdentityExamples.
