(* ===== verification/IdentityExposition.v ===== *)
(** * The metrics endpoint of the identity exporter

    Models the writing half of [metrics] of
    [src/pkgs/realm-identity-metrics/exporter.go]: the help texts, [writeSample]
    and the families in the order of their names.  [metrics_text_exact] shows
    that a scrape reads every gathered sample and nothing else; in particular,
    everything that is gathered has an entry in [metricHelp]. *)

From S2P Require Import Prelude GoStrings GoFloat Encoding Exposition IdentityConfig IdentityExporter.

Open Scope Z_scope.
Open Scope go_scope.

(** The labels of a sample are keys and values in turn; the loop of
    [writeSample] reads past the end when the last key has no value. *)
Fixpoint label_pairs (labels : list string) : result (list (string * string)) :=
  match labels with
  | [] => Ok []
  | k :: v :: labels' => let! ls := label_pairs labels' in Ok ((k, v) :: ls)
  | [_] => Panic "index out of range"
  end.

Definition writeSample (m : sample) : result line :=
  let! ls := label_pairs (sm_labels m) in
  Ok (Entry (Series (sm_name m) ls (formatFloat (f64_of_Z (sm_value m))))).

Fixpoint writeSamples (l : list sample) : result (list line) :=
  match l with
  | [] => Ok []
  | m :: l' => let! x := writeSample m in let! xs := writeSamples l' in Ok (x :: xs)
  end.

(** The entry of a name that has none is the empty text. *)
Definition help_of (name : string) : string := default "" (snd <$> List.find (fun h => h.1 =? name) metricHelp).

Definition family_help (name kind : string) : list line :=
  [Comment (" HELP " +:+ name +:+ " " +:+ help_of name); Comment (" TYPE " +:+ name +:+ " " +:+ kind)].

Fixpoint write_families (l : list (string * string * list sample)) : result (list line) :=
  match l with
  | [] => Ok []
  | (name, kind, samples) :: l' =>
      let! xs := writeSamples samples in
      let! rest := write_families l' in
      Ok (family_help name kind ++ xs ++ rest)
  end.

Section text.
Variable quote_unicode : string -> string.

Definition metrics_text (e : exporter) (now : Z) : result string :=
  let! doc := write_families (metrics e now) in Ok (render quote_unicode doc).
End text.

(** ** Samples that can be written *)
Definition labels_ok (labels : list string) : Prop :=
  exists ls, label_pairs labels = Ok ls /\ Forall (fun l => name_ok l.1 /\ all_chars printable l.2 = true) ls.
Definition sample_ok (m : sample) : Prop := sm_name m ∈ metric_names /\ labels_ok (sm_labels m).

Definition series_of (m : sample) : series :=
  Series (sm_name m) (match label_pairs (sm_labels m) with Ok ls => ls | _ => [] end) (formatFloat (f64_of_Z (sm_value m))).

(** The texts of the configuration that become label values. *)
Definition plain (s : string) : Prop := all_chars printable s = true.
Record plain_config (c : Config) : Prop := {
  pl_node : plain (c_Node c);
  pl_domain : plain (c_TrustDomain c);
  pl_nodes : Forall plain (c_Nodes c);
  pl_workloads : Forall (fun t => plain (wt_Unit t) /\ plain (wt_Identity t) /\ plain (wt_Source t)) (c_Workloads c)
}.

(** What the collectors of a configuration record. *)
Definition produced (c : Config) (ev : event) : Prop :=
  match ev with
  | Collected o _ =>
      (exists loaded now, o = bundle_outcome c loaded now) \/ (exists err vu, o = Outcome "bootstrap" [] err vu) \/
      (exists raw now, o = collectAgents c raw now) \/ (exists commands, o = collectAliases c commands) \/
      (exists obs, o = collect_results obs) \/ (exists err, o = Outcome "workloads" [] (Some err) zeroTime)
  | _ => True
  end.

Definition states_ok (e : exporter) : Prop :=
  map_Forall (fun name s => plain name /\ Forall sample_ok (cs_samples s)) (e_states e).

Lemma plain_append s t : plain (s +:+ t) <-> plain s /\ plain t.
Proof. unfold plain. rewrite all_chars_append. apply andb_true_iff. Qed.

Lemma plain_fingerprint ct : plain (fingerprint ct).
Proof.
  eapply all_chars_impl; [|exact (proj2 (hex_encode_text (Sha256.sum (ct_Raw ct))))]. unfold lower_hex, is_digit, printable, in_range.
  intros c Hc. apply andb_true_iff. bspec. apply orb_true_iff in Hc as [Hc|Hc]; bprop; lia.
Qed.

Lemma plain_names n : n ∈ metric_names -> name_ok n.
Proof.
  revert n. apply Forall_forall. eapply (Forall_impl (fun n => bool_decide (n <> "") && all_chars name_char n = true)); [by repeat constructor|].
  intros n Hn. cbn beta in Hn. bprop. by split.
Qed.

Ltac label_values := eexists; split; [reflexivity|]; repeat first [apply Forall_nil_2 | apply Forall_cons; split; [split; [by split|]|]]; cbn [fst snd].

(** A sample of a known family with plain label values. *)
Ltac written := split; [by apply (bool_decide_unpack _); vm_compute|label_values; done].

(** ** Everything that is recorded can be written *)
Lemma bundle_ok c loaded now : plain_config c -> Forall sample_ok (oc_samples (bundle_outcome c loaded now)).
Proof.
  intros [Hn _ _ _]. destruct loaded as [certs|e|p]; cbn [bundle_outcome oc_samples]; [|constructor..]. apply Forall_app. split.
  - apply Forall_bind, Forall_true. intros ct. pose proof (plain_fingerprint ct).
    apply Forall_cons; split; [|apply Forall_singleton]; written.
  - apply Forall_cons; split; [|apply Forall_singleton]; written.
Qed.

Lemma agents_ok c raw now : plain_config c -> Forall sample_ok (oc_samples (collectAgents c raw now)).
Proof.
  intros [_ Hd Hn _]. unfold collectAgents. destruct (match raw with Ok _ => _ | Err _ => _ | Panic _ => _ end) as [agents err]. cbn [oc_samples].
  apply Forall_bind, Forall_fmap. eapply Forall_impl; [exact Hn|]. intros n Hp. cbn. unfold found_agent, agent_samples. cbn [ar_Node ar_NotAfter ar_Valid].
  apply Forall_cons; split; [written|]. case_match; [|constructor]. apply Forall_singleton.
  assert (plain (aliasID c n)) by (unfold aliasID; rewrite !plain_append; done). written.
Qed.

Lemma aliases_ok c commands : plain_config c -> Forall sample_ok (oc_samples (collectAliases c commands)).
Proof.
  intros [_ _ Hn _]. unfold collectAliases. assert (Hloop : forall ns o, Forall plain ns -> Forall sample_ok (oc_samples o) ->
    Forall sample_ok (oc_samples (foldl (alias_step c) o ((fun node => (node, (commands node).1, (commands node).2)) <$> ns)))); [|apply Hloop; [done|constructor]].
  induction ns as [|n ns IH]; intros o Hns Ho; [done|]. apply Forall_cons in Hns as [Hp Hns]. cbn [fmap list_fmap foldl]. apply IH; [done|].
  unfold alias_step. destruct (match _ with Ok _ => _ | Err _ => _ | Panic _ => _ end) as [vu valid]. cbn [oc_samples]. apply Forall_app. split; [done|].
  apply Forall_singleton. written.
Qed.

Lemma results_empty obs : oc_samples (collect_results obs) = [] /\ oc_name (collect_results obs) = "workloads".
Proof.
  unfold collect_results. assert (H : forall o, oc_samples (foldl collect_result o obs) = oc_samples o /\ oc_name (foldl collect_result o obs) = oc_name o); [|apply H].
  induction obs as [|x obs IH]; intros o; [done|]. cbn [foldl]. destruct (IH (collect_result o x)) as [-> ->]. done.
Qed.

Lemma alias_name_kept c commands : oc_name (collectAliases c commands) = "aliases".
Proof.
  unfold collectAliases. assert (H : forall l o, oc_name (foldl (alias_step c) o l) = oc_name o); [|apply H].
  induction l as [|[[n raw] now] l IH]; intros o; [done|]. cbn [foldl]. rewrite IH. unfold alias_step. by destruct (match raw with Ok _ => _ | Err _ => _ | Panic _ => _ end).
Qed.

Lemma canary_ok e r t1 t2 : plain_config (e_config e) -> oc_name (canaryOutcome e r t1 t2).1 = "canary" /\ Forall sample_ok (oc_samples (canaryOutcome e r t1 t2).1).
Proof.
  intros [Hn Hd _ _]. assert (Hid : plain (canaryID (e_config e))) by (unfold canaryID; rewrite !plain_append; done).
  unfold canaryOutcome. destruct r as [md|err|p]; [|by split..]. destruct (cm_Cert md) as [ct|]; [|by split].
  destruct (negb (certCurrent ct t1)); [by split|]. cbn [fst oc_name oc_samples]. split; [done|]. apply Forall_app. split; [|case_match; [constructor|apply Forall_singleton; written]].
  apply Forall_cons; split; [written|]. apply Forall_singleton. written.
Qed.

Lemma canary_states e r t1 t2 : e_config (canaryOutcome e r t1 t2).2 = e_config e /\ e_states (canaryOutcome e r t1 t2).2 = e_states e.
Proof. unfold canaryOutcome. repeat case_match; done. Qed.

(** The names and samples a history records. *)
Lemma record_ok e o now : states_ok e -> plain (oc_name o) -> Forall sample_ok (oc_samples o) -> states_ok (record e o now).
Proof. intros He Hn Ho. unfold states_ok, record. cbn [e_states set_states]. apply map_Forall_insert_2; [by split|done]. Qed.

Lemma produced_ok c ev : plain_config c -> produced c ev ->
  match ev with Collected o _ => plain (oc_name o) /\ Forall sample_ok (oc_samples o) | _ => True end.
Proof.
  intros Hc. destruct ev as [o now| |]; [|done..]. intros [(l & t & ->)|[(err & vu & ->)|[(raw & t & ->)|[(cmds & ->)|[(obs & ->)|(err & ->)]]]]].
  - split; [by destruct l|by apply bundle_ok].
  - by split.
  - split; [|by apply agents_ok]. unfold collectAgents. by destruct (match raw with Ok _ => _ | Err _ => _ | Panic _ => _ end).
  - split; [by rewrite alias_name_kept|by apply aliases_ok].
  - destruct (results_empty obs) as [-> ->]. by split.
  - by split.
Qed.

Lemma history_ok c h : plain_config c -> Forall (produced c) h -> states_ok (run c h) /\ e_config (run c h) = c.
Proof.
  intros Hc. unfold run. induction h as [|ev h IH] using rev_ind; intros Hh.
  - split; [|done]. unfold states_ok, newExporter. cbn [foldl e_states]. assert (Hz : forall n, plain n -> plain n /\ Forall sample_ok (cs_samples collectorState_zero)) by done.
    repeat case_match; repeat (apply map_Forall_insert_2; [by apply Hz|]); apply map_Forall_empty.
  - apply Forall_app in Hh as [Hh Hev]. apply Forall_cons in Hev as [Hev _]. destruct (IH Hh) as [He Hcfg]. rewrite foldl_app. cbn [foldl].
    apply produced_ok in Hev; [|done]. set (e := foldl apply_event (newExporter c) h) in *. destruct ev as [o now|t o t1 now|r t1 t2 now]; cbn [apply_event].
    + destruct Hev as [H1 H2]. split; [by apply record_ok|done].
    + done.
    + destruct (canary_ok e r t1 t2) as [Hn Hs]; [by rewrite Hcfg|]. pose proof (canary_states e r t1 t2) as (H1 & H2).
      destruct (canaryOutcome e r t1 t2) as [o e']. cbn [fst snd] in *. split; [|by rewrite <- Hcfg, <- H1]. apply record_ok; [by unfold states_ok; rewrite H2|by rewrite Hn|done].
Qed.

(** ** Everything that is gathered can be written *)
Lemma set_value_ok m v : sample_ok m -> sample_ok (set_value m v).
Proof. done. Qed.

Lemma current_ok s now : Forall sample_ok (cs_samples s) -> Forall sample_ok (currentSamples s now).
Proof.
  intros Hs. unfold currentSamples. case_match; apply Forall_fmap; rewrite Forall_forall in Hs; apply Forall_forall; intros m Hm; cbn.
  - unfold current_sample. repeat case_match; auto using set_value_ok.
  - apply list_elem_of_filter in Hm as [_ Hm]. auto using set_value_ok.
Qed.

Lemma holder_ok node t s now : plain node -> plain (wt_Unit t) -> plain (wt_Identity t) -> plain (wt_Source t) ->
  Forall sample_ok (holder_samples node t s now).
Proof.
  intros Hn Hu Hi Hs. unfold holder_samples. cbv zeta.
  assert (Hl : labels_ok ["node"; node; "unit"; wt_Unit t; "identity"; wt_Identity t; "source"; wt_Source t]) by (label_values; done).
  assert (Hm : forall name v, bool_decide (name ∈ metric_names) = true -> sample_ok (metric name v ["node"; node; "unit"; wt_Unit t; "identity"; wt_Identity t; "source"; wt_Source t]))
    by (intros name v Hname; split; [by apply bool_decide_eq_true in Hname|done]).
  repeat case_match; rewrite ?app_nil_r; repeat (apply Forall_cons; split; [by apply Hm|]); constructor.
Qed.

Lemma collector_ok node name s now : plain node -> plain name -> Forall sample_ok (cs_samples s) -> Forall sample_ok (collector_samples node name s now).
Proof.
  intros Hn Hname Hs. apply Forall_app. split; [|by apply current_ok]. repeat (apply Forall_cons; split; [written|]). constructor.
Qed.

Lemma gathered_ok c h now : plain_config c -> Forall (produced c) h -> Forall sample_ok (gathered (run c h) now).
Proof.
  intros Hc Hh. destruct (history_ok c h Hc Hh) as [He Hcfg]. destruct Hc as [Hn Hd Hns Hw]. unfold gathered. rewrite Hcfg. rewrite !Forall_app. split_and!.
  - apply Forall_bind. eapply Forall_impl; [exact Hw|]. intros t (H1 & H2 & H3). by apply holder_ok.
  - apply Forall_bind. rewrite sort_perm. apply Forall_fmap, Forall_forall. intros [name s] Hin. apply elem_of_map_to_list in Hin.
    destruct (He name s Hin) as [Hp Hs]. cbn. apply collector_ok; [done..|]. unfold state_of. by rewrite Hin.
  - apply Forall_singleton. written.
Qed.

(** ** The text *)
Lemma writeSamples_ok l : Forall sample_ok l -> writeSamples l = Ok (Entry <$> (series_of <$> l)).
Proof.
  induction 1 as [|m l [_ (ls & Hls & _)] HF IH]; [done|]. cbn [writeSamples fmap list_fmap]. unfold writeSample at 1, series_of at 1. rewrite Hls. cbn [rbind]. by rewrite IH.
Qed.

Lemma series_of_ok m : sample_ok m -> series_ok (series_of m).
Proof.
  intros [Hn (ls & Hls & HF)]. unfold series_of. rewrite Hls. split_and!; [by apply plain_names|done|]. cbn [se_value]. apply word_float.
Qed.

Lemma help_ok : Forall (fun name => Forall line_ok (family_help name (metricType name))) metric_names.
Proof. repeat (apply Forall_cons; split; [by repeat constructor|]). constructor. Qed.

(** Families of the names, with the samples of each. *)
Lemma families_written l names : Forall sample_ok l -> Forall (fun n => n ∈ metric_names) names ->
  exists doc, write_families ((fun name => (name, metricType name, filter (fun m => sm_name m = name) l)) <$> names) = Ok doc /\
    Forall line_ok doc /\ samples_of doc = series_of <$> (names ≫= fun name => filter (fun m => sm_name m = name) l).
Proof.
  intros Hl. induction 1 as [|name names Hn HF (doc & Hd & Hok & Hs)]; [by exists []|]. cbn [fmap list_fmap write_families].
  assert (Hf : Forall sample_ok (filter (fun m => sm_name m = name) l)).
  { rewrite Forall_forall in Hl. apply Forall_forall. intros m [_ Hm]%list_elem_of_filter. auto. }
  rewrite (writeSamples_ok _ Hf). cbn [rbind]. rewrite Hd. cbn [rbind]. eexists. split; [reflexivity|]. rewrite !Forall_app. split_and!.
  - pose proof help_ok as Hh. rewrite Forall_forall in Hh. by apply Hh.
  - apply Forall_fmap, Forall_fmap. eapply Forall_impl; [exact Hf|]. intros m Hm. by apply series_of_ok.
  - done.
  - rewrite bind_cons, fmap_app, <- Hs. by rewrite !samples_app, samples_of_samples.
Qed.

Lemma filter_all_true {A} (P : A -> Prop) `{!forall x, Decision (P x)} (l : list A) : Forall P l -> filter P l = l.
Proof. induction 1 as [|x l Hx HF IH]; [done|]. by rewrite filter_cons_True, IH. Qed.

(** Grouping by name keeps every sample of a named family. *)
Lemma group_perm (l : list sample) names : NoDup names ->
  (names ≫= fun name => filter (fun m => sm_name m = name) l) ≡ₚ filter (fun m => sm_name m ∈ names) l.
Proof.
  induction 1 as [|n names Hn HF IH].
  - induction l as [|m l IHl]; [done|]. rewrite filter_cons_False by (by apply not_elem_of_nil). done.
  - rewrite bind_cons, IH. clear IH HF. induction l as [|m l IHl]; [done|]. destruct (decide (sm_name m = n)) as [E|E].
    + rewrite (filter_cons_True (fun m => sm_name m = n)), (filter_cons_False (fun m => sm_name m ∈ names)), (filter_cons_True (fun m => sm_name m ∈ n :: names)) by set_solver.
      rewrite <- app_comm_cons. by rewrite IHl.
    + rewrite (filter_cons_False (fun m => sm_name m = n)) by done. destruct (decide (sm_name m ∈ names)).
      * rewrite (filter_cons_True (fun m => sm_name m ∈ names)), (filter_cons_True (fun m => sm_name m ∈ n :: names)) by set_solver. rewrite <- Permutation_middle. by rewrite IHl.
      * rewrite (filter_cons_False (fun m => sm_name m ∈ names)), (filter_cons_False (fun m => sm_name m ∈ n :: names)) by set_solver. done.
Qed.

(** A scrape of the exporter reads exactly the samples it gathered: whatever
    its collectors recorded, every sample belongs to a family with a help text,
    is written once with its labels and value, and is read back. *)
Theorem metrics_text_exact q c h now : plain_config c -> Forall (produced c) h ->
  exists text samples, metrics_text q (run c h) now = Ok text /\ scrape text = Some samples /\
    samples ≡ₚ series_of <$> gathered (run c h) now.
Proof.
  intros Hc Hh. pose proof (gathered_ok c h now Hc Hh) as Hg.
  destruct (families_written (gathered (run c h) now) metricNames Hg) as (doc & Hd & Hok & Hs).
  { apply Forall_forall. intros n. unfold metricNames. by rewrite sort_perm. }
  unfold metrics_text, metrics. rewrite Hd. cbn [rbind]. do 2 eexists. split; [done|]. split; [by apply scrape_render|]. rewrite Hs.
  apply fmap_Permutation. rewrite group_perm; [|unfold metricNames; rewrite sort_perm; by apply (bool_decide_unpack _); vm_compute].
  rewrite filter_all_true; [done|]. eapply Forall_impl; [exact Hg|]. intros m [Hm _]. unfold metricNames. by rewrite sort_perm.
Qed.

(** ** A concrete round *)
Module IdentityTextExamples.
Definition c : Config :=
  MkConfig "kaambl" "nyaw.xyz" "127.0.0.1:18494" "/var/lib/realm-spire/trust-bundle.pem" "eihort.nyaw.xyz:8081"
    "/run/spire/agent/public/api.sock" "" "" [] "/run/current-system/sw/bin/systemctl"
    [Target "matrix.service" "spiffe://nyaw.xyz/matrix" "127.0.0.1:9443" sourceCaddy].
Definition start : Z := 1763283123 * Second.
Definition history : list event :=
  [Collected (bundle_outcome c (Ok []) start) start;
   Observed (Target "matrix.service" "spiffe://nyaw.xyz/matrix" "127.0.0.1:9443" sourceCaddy)
     (Observation 0 (start + 600 * Second) (start + 600 * Second) "ab" false None) start start].

Lemma c_plain : plain_config c.
Proof. split; repeat constructor. Qed.

Lemma history_produced : Forall (produced c) history.
Proof. constructor; [left; by do 2 eexists|]. by repeat constructor. Qed.

Lemma metrics_text_exact_witness : exists text samples, metrics_text (fun s => s) (run c history) start = Ok text /\ scrape text = Some samples /\
  samples ≡ₚ series_of <$> gathered (run c history) start.
Proof. exact (metrics_text_exact (fun s => s) c history start c_plain history_produced). Defined.

(** The line of the observed expiry. *)
Example expiry_line : match metrics_text (fun s => s) (run c history) start with
  | Ok text => contains text (sample_line (fun s => s) (Series "realm_workload_svid_not_after_seconds"
      [("node", "kaambl"); ("unit", "matrix.service"); ("identity", "spiffe://nyaw.xyz/matrix"); ("source", "caddy_loaded")] "1.763283723e+09"))
  | _ => false
  end = true.
Proof. by vm_compute. Qed.
End IdentityTextExamples.
