(* ===== verification/IdentityServe.v ===== *)
(** * Identity exporter: rounds of collection, the handler and the command

    Models [collect], [handler] and [loop] of
    [src/pkgs/realm-identity-metrics/exporter.go] and [run] of [main.go].  The
    collectors of a round run concurrently and each records what it found under
    its own name, so a round is the sequence of what they record in some order. *)

From S2P Require Import Prelude GoStrings GoFlag Json Exposition IdentityConfig IdentityExporter IdentityExposition.

Open Scope Z_scope.
Open Scope go_scope.

(** ** [collect] *)

(** What an event records: a collector's state or a workload's. *)
Definition event_key (ev : event) : string + string :=
  match ev with
  | Collected o _ => inl (oc_name o)
  | Observed t _ _ _ => inr (wt_Unit t)
  | CanarySeen _ _ _ _ => inl "canary"
  end.

(** The collectors of a round, by configuration. *)
Definition round_keys (c : Config) : list (string + string) :=
  [inl "bundle"; inl "bootstrap"; inl "canary"] ++
  (if Z.of_nat (length (c_Workloads c)) =? 0 then [] else inl "workloads" :: ((fun t => inr (wt_Unit t)) <$> c_Workloads c)) ++
  (if c_ServerAdminSocket c =? "" then [] else [inl "agents"; inl "aliases"]).

(** A round: the events of the collectors in the order in which they record. *)
Definition is_round (c : Config) (l : list event) : Prop := Permutation (event_key <$> l) (round_keys c).
Definition collect (e : exporter) (l : list event) : exporter := foldl apply_event e l.

(** [loop]: one round at the start, then one per tick. *)
Definition loop (e : exporter) (rounds : list (list event)) : exporter := foldl collect e rounds.

(** ** [handler] *)
Record response := Response { rs_Status : Z; rs_Type : string; rs_Body : string }.

Definition StatusMethodNotAllowed : Z := 405.
Definition StatusServiceUnavailable : Z := 503.

(** [None]: a path the multiplexer has no handler for. *)
Definition handler (quote_unicode : string -> string) (e : exporter) (method path : string) (now : Z) : option (result response) :=
  if path =? "/metrics" then
    Some (if method <>? "GET" then Ok (Response StatusMethodNotAllowed "" "")
          else let! text := metrics_text quote_unicode e now in Ok (Response 200 "text/plain; version=0.0.4; charset=utf-8" text))
  else if path =? "/healthz" then
    Some (Ok (if negb (healthy e now)
              then Response StatusServiceUnavailable "text/plain; charset=utf-8" ("collection unavailable" +:+ String newline "")
              else Response 200 "text/plain; charset=utf-8" ("ok" +:+ String newline "")))
  else None.

(** ** [run] *)
Inductive mode := ServeMode | ValidateMode.
#[export] Instance mode_eq_dec : EqDecision mode.
Proof. solve_decision. Defined.

Definition usage : error := ErrNew "use realm-identity-metrics [serve|validate] --config FILE".

Definition split_mode (args : list string) : mode * list string :=
  match args with
  | name :: rest => if name =? "serve" then (ServeMode, rest) else if name =? "validate" then (ValidateMode, rest) else (ServeMode, args)
  | [] => (ServeMode, [])
  end.

(** The configuration to serve; [None] when it was only to be checked. *)
Definition run_command (read : string -> result Config) (listen : string -> option error) (args : list string) : result (option Config) :=
  let '(m, args) := split_mode args in
  match parseFlags ["config"] args with
  | Ok (values, rest) =>
      let path := default "" (values !! "config") in
      reject (Z.of_nat (length rest) <>? 0) || (path =? "") with usage;
      let! c := read path in
      if m =? ValidateMode then Ok None
      else match listen (c_ListenAddress c) with
           | Some _ => Err (ErrNew "cannot listen")
           | None => Ok (Some c)
           end
  | _ => Err usage
  end.

(** ** A round has one outcome *)
(** What the canary's outcome depends on, and changes. *)
Lemma canary_frame e r t1 t2 s h : canaryOutcome (Exporter (e_config e) s h (e_canaryFingerprint e) (e_rotation e)) r t1 t2 =
  ((canaryOutcome e r t1 t2).1,
   Exporter (e_config e) s h (e_canaryFingerprint (canaryOutcome e r t1 t2).2) (e_rotation (canaryOutcome e r t1 t2).2)).
Proof.
  unfold canaryOutcome. destruct r as [md|x|m]; [|done..]. destruct (cm_Cert md) as [ct|]; [|done]. by destruct (negb (certCurrent ct t1)).
Qed.

Lemma canary_keeps e r t1 t2 : e_config (canaryOutcome e r t1 t2).2 = e_config e /\ e_states (canaryOutcome e r t1 t2).2 = e_states e /\
  e_holders (canaryOutcome e r t1 t2).2 = e_holders e /\ oc_name (canaryOutcome e r t1 t2).1 = "canary".
Proof.
  unfold canaryOutcome. destruct r as [md|x|m]; [|done..]. destruct (cm_Cert md) as [ct|]; [|done]. by destruct (negb (certCurrent ct t1)).
Qed.

Lemma record_record e o1 n1 o2 n2 : oc_name o1 <> oc_name o2 -> record (record e o1 n1) o2 n2 = record (record e o2 n2) o1 n1.
Proof.
  intros Hne. unfold record, set_states. cbn [e_states e_config e_holders e_canaryFingerprint e_rotation].
  rewrite !lookup_insert_ne by done. by rewrite insert_insert_ne.
Qed.

Lemma holder_holder e t1 o1 a1 n1 t2 o2 a2 n2 : wt_Unit t1 <> wt_Unit t2 ->
  (recordHolder (recordHolder e t1 o1 a1 n1).2 t2 o2 a2 n2).2 = (recordHolder (recordHolder e t2 o2 a2 n2).2 t1 o1 a1 n1).2.
Proof.
  intros Hne. unfold recordHolder, set_holders. cbn [snd e_states e_config e_holders e_canaryFingerprint e_rotation].
  rewrite !lookup_insert_ne by done. by rewrite insert_insert_ne.
Qed.

(** A canary event, spelled as its effect on the parts of the state. *)
Lemma canary_event e r t1 t2 now : apply_event e (CanarySeen r t1 t2 now) =
  let '(o, e') := canaryOutcome e r t1 t2 in
  record (Exporter (e_config e) (e_states e) (e_holders e) (e_canaryFingerprint e') (e_rotation e')) o now.
Proof.
  cbn [apply_event]. destruct (canary_keeps e r t1 t2) as (H1 & H2 & H3 & _). destruct (canaryOutcome e r t1 t2) as [o e']. cbn [snd] in *.
  destruct e'. cbn in *. by subst.
Qed.

Lemma canary_collected e r t1 t2 now o n : oc_name o <> "canary" ->
  apply_event (apply_event e (CanarySeen r t1 t2 now)) (Collected o n) = apply_event (apply_event e (Collected o n)) (CanarySeen r t1 t2 now).
Proof.
  intros Hne. rewrite !canary_event. cbn [apply_event].
  pose proof (canary_frame e r t1 t2 (e_states (record e o n)) (e_holders e)) as E.
  change (Exporter (e_config e) _ (e_holders e) (e_canaryFingerprint e) (e_rotation e)) with (record e o n) in E at 1.
  rewrite E. clear E. destruct (canary_keeps e r t1 t2) as (_ & _ & _ & Hc). destruct (canaryOutcome e r t1 t2) as [oc e']. cbn [fst snd] in *.
  rewrite record_record by congruence. done.
Qed.

Lemma canary_observed e r t1 t2 now t o a n :
  apply_event (apply_event e (CanarySeen r t1 t2 now)) (Observed t o a n) = apply_event (apply_event e (Observed t o a n)) (CanarySeen r t1 t2 now).
Proof.
  rewrite !canary_event. cbn [apply_event].
  pose proof (canary_frame e r t1 t2 (e_states e) (e_holders (recordHolder e t o a n).2)) as E.
  change (Exporter (e_config e) (e_states e) _ (e_canaryFingerprint e) (e_rotation e)) with (recordHolder e t o a n).2 in E at 1.
  rewrite E. by destruct (canaryOutcome e r t1 t2) as [oc e'].
Qed.

Lemma apply_comm e x y : event_key x <> event_key y -> apply_event (apply_event e x) y = apply_event (apply_event e y) x.
Proof.
  intros Hk. destruct x as [o1 n1|u1 o1 a1 n1|r1 p1 q1 n1], y as [o2 n2|u2 o2 a2 n2|r2 p2 q2 n2]; cbn [event_key] in Hk.
  - apply record_record. congruence.
  - done.
  - symmetry. apply canary_collected. congruence.
  - done.
  - apply holder_holder. congruence.
  - symmetry. apply canary_observed.
  - apply canary_collected. congruence.
  - apply canary_observed.
  - done.
Qed.

Lemma collect_permutation l l' : Permutation l l' -> forall e, NoDup (event_key <$> l) -> collect e l = collect e l'.
Proof.
  induction 1 as [|x l l' Hp IH|x y l|l1 l2 l3 H12 IH12 H23 IH23]; intros e Hn; [done| | |].
  - apply NoDup_cons in Hn as [_ Hn]. cbn [collect foldl]. by apply IH.
  - cbn [fmap list_fmap] in Hn. apply NoDup_cons in Hn as [Hy _]. cbn [collect foldl]. rewrite apply_comm; [done|].
    intros E. apply Hy. rewrite E. by left.
  - rewrite IH12 by done. apply IH23. by rewrite <- H12.
Qed.

Lemma round_keys_nodup c : NoDup (wt_Unit <$> c_Workloads c) -> NoDup (round_keys c).
Proof.
  intros Hn. unfold round_keys. set (admin := if c_ServerAdminSocket c =? "" then _ else _).
  assert (Hadmin : NoDup admin /\ forall k, k ∈ admin -> k = inl "agents" \/ k = inl "aliases").
  { unfold admin. case_bool_decide; [split; [constructor|]; intros k Hk; by apply elem_of_nil in Hk|].
    split; [apply (bool_decide_unpack _); vm_compute; exact I|]. intros k [->|[->|Hk%elem_of_nil]%elem_of_cons]%elem_of_cons; [auto|auto|done]. }
  assert (Hwork : NoDup ((fun t => inr (wt_Unit t)) <$> c_Workloads c : list (string + string))).
  { change (NoDup ((inr ∘ wt_Unit : WorkloadTarget -> string + string) <$> c_Workloads c)). rewrite list_fmap_compose. by apply (NoDup_fmap_2 inr). }
  destruct Hadmin as [Ha1 Ha2]. set (work := if Z.of_nat _ =? 0 then _ else _).
  assert (Hw : NoDup work /\ forall k, k ∈ work -> k = inl "workloads" \/ exists u, k = inr u).
  { unfold work. case_bool_decide; [split; [constructor|]; intros k Hk; by apply elem_of_nil in Hk|]. split.
    - apply NoDup_cons. split; [|done]. by intros (t & ? & _)%list_elem_of_fmap.
    - intros k [->|(t & -> & _)%list_elem_of_fmap]%elem_of_cons; eauto. }
  destruct Hw as [Hw1 Hw2]. apply NoDup_app. split; [apply (bool_decide_unpack _); vm_compute; exact I|]. split.
  - intros k Hk [[->|[u ->]]%Hw2|[->| ->]%Ha2]%elem_of_app;
      repeat (apply elem_of_cons in Hk as [Hk|Hk]; [discriminate Hk|]); by apply elem_of_nil in Hk.
  - apply NoDup_app. split; [done|]. split; [|done]. intros k [->|[u ->]]%Hw2 [?|?]%Ha2; done.
Qed.

(** Whatever the order in which the concurrent collectors of a round finish,
    the exporter ends in the same state. *)
Theorem collect_order c e l l' : NoDup (wt_Unit <$> c_Workloads c) -> is_round c l -> Permutation l l' -> collect e l = collect e l'.
Proof.
  intros Hu Hr Hp. apply collect_permutation; [done|]. unfold is_round in Hr. rewrite Hr. by apply round_keys_nodup.
Qed.

(** ** Validation and the health endpoint *)

(** [validate] never listens; [serve] is the mode when none is named, with or
    without the word. *)
Lemma run_modes read listen args path c : parseFlags ["config"] args = Ok ({["config" := path]}, []) -> path <> "" ->
  read path = Ok c -> split_mode args = (ServeMode, args) ->
  run_command read listen ("validate" :: args) = Ok None /\
  run_command read listen ("serve" :: args) = run_command read listen args.
Proof.
  intros Hp Hne Hr Hs. unfold run_command. rewrite Hs. cbn [split_mode].
  change ("validate" =? "serve") with false. change ("validate" =? "validate") with true. change ("serve" =? "serve") with true. cbv iota.
  rewrite Hp. rewrite lookup_singleton_eq. cbn [default from_option id]. rewrite (bool_decide_eq_false_2 (path = "")) by done.
  change (Z.of_nat (length []) <>? 0) with false. cbn [orb]. by rewrite Hr.
Qed.

Module ServeRoundExamples.
Definition c : Config := config_defaults.
Definition found (name : string) : event := Collected (Outcome name [] None 0) 5.
Definition round : list event := [found "bundle"; found "bootstrap"; CanarySeen (Err ErrEOF) 1 2 3].

Lemma collect_order_witness : collect (newExporter c) round = collect (newExporter c) (rev round).
Proof.
  apply (collect_order c).
  - constructor.
  - unfold is_round. apply (bool_decide_unpack _). vm_compute. exact I.
  - apply Permutation_rev.
Defined.
End ServeRoundExamples.
