(* ===== verification/IdentityDaemon.v ===== *)
(** * Identity exporter: the daemon

    Models [serveListener] and [main] of
    [src/pkgs/realm-identity-metrics/main.go] with the collection loop of
    [exporter.go] beside them, as a transition system: the loop starts a round
    at once and after every tick, its collectors record in any order, requests
    are answered meanwhile, and a signal or the end of the server starts the
    shutdown.  The HTTP server is the standard library's; its
    timeouts are not modelled.

    [daemon_rounds] shows that what is served at any moment is a series of
    complete rounds and a part of the next; [daemon_returns] that the daemon
    returns with its listener closed and its loop ended, and that it can always
    be brought to return. *)

From S2P Require Import Prelude GoStrings Json IdentityConfig IdentityExporter IdentityExposition IdentityServe.

Open Scope Z_scope.
Open Scope go_scope.

(** The list without the first occurrence of an element. *)
Fixpoint remove_first `{EqDecision A} (x : A) (l : list A) : option (list A) :=
  match l with [] => None | y :: l' => if y =? x then Some l' else cons y <$> remove_first x l' end.

Lemma remove_first_Some `{EqDecision A} (x : A) l l' : remove_first x l = Some l' -> Permutation l (x :: l').
Proof.
  revert l'. induction l as [|y l IH]; intros l' H; [done|]. cbn in H. case_bool_decide as E; [by simplify_eq|].
  apply fmap_Some in H as (k & Hk & ->). rewrite (IH _ Hk). apply perm_swap.
Qed.

Lemma remove_first_head `{EqDecision A} (x : A) l : remove_first x (x :: l) = Some l.
Proof. cbn. by rewrite bool_decide_true. Qed.

(** [http.ErrServerClosed]. *)
Definition ErrServerClosed : error := ErrNew "http: Server closed".

(** A round waits for the collectors listed. *)
Inductive loop_state := Collecting (pending : list (string + string)) | Idle | LoopEnded.

(** Where [serveListener] is: at the select, before [Shutdown], before [Close],
    or at the wait for the loop. *)
Inductive stage := Selecting | ShuttingDown (err : option error) | Closing (err : option error) | Joining (err : option error).

Record daemon := Daemon {
  d_exporter : exporter;
  d_loop : loop_state;
  d_signalled : bool;           (* the parent context *)
  d_cancelled : bool;           (* the loop's context *)
  d_listening : bool;
  d_served : option error;      (* what [Serve] returned *)
  d_stage : stage;
  d_result : option (result unit) }.

Definition start_daemon (c : Config) : daemon :=
  Daemon (newExporter c) (Collecting (round_keys c)) false false true None Selecting None.

Inductive daemon_event :=
| Recorded (ev : event)
| Tick
| LoopReturns
| Get (method path : string) (now : Z)
| Signal
| ServeReturns (e : error)
| SelectServe
| SelectSignal
| Shutdown
| CloseServer
| Return.

Definition set_loop (d : daemon) (e : exporter) (l : loop_state) : daemon :=
  Daemon e l (d_signalled d) (d_cancelled d) (d_listening d) (d_served d) (d_stage d) (d_result d).
Definition set_stage (d : daemon) (cancelled listening : bool) (s : stage) (r : option (result unit)) : daemon :=
  Daemon (d_exporter d) (d_loop d) (d_signalled d) cancelled listening (d_served d) s r.

(** A round is over when the last collector has recorded. *)
Definition after_record (pending : list (string + string)) : loop_state :=
  match pending with [] => Idle | _ => Collecting pending end.

Definition final_result (err : option error) : result unit :=
  match err with
  | Some e => if error_is ErrServerClosed e then Ok tt else Err e
  | None => Ok tt
  end.

(** [None]: the event cannot happen in this state. *)
Definition daemon_step (d : daemon) (ev : daemon_event) : option daemon :=
  match d_result d with
  | Some _ => None
  | None =>
      match ev with
      | Recorded ev =>
          match d_loop d with
          | Collecting pending =>
              pending' ← remove_first (event_key ev) pending;
              Some (set_loop d (apply_event (d_exporter d) ev) (after_record pending'))
          | _ => None
          end
      | Tick => match d_loop d with Idle => Some (set_loop d (d_exporter d) (Collecting (round_keys (e_config (d_exporter d))))) | _ => None end
      | LoopReturns =>
          match d_loop d with Idle => if d_cancelled d then Some (set_loop d (d_exporter d) LoopEnded) else None | _ => None end
      | Get _ _ _ => if d_listening d then Some d else None
      | Signal =>
          Some (Daemon (d_exporter d) (d_loop d) true true (d_listening d) (d_served d) (d_stage d) (d_result d))
      | ServeReturns e =>
          match d_served d with
          | None => Some (Daemon (d_exporter d) (d_loop d) (d_signalled d) (d_cancelled d) false (Some e) (d_stage d) (d_result d))
          | Some _ => None
          end
      | SelectServe =>
          match d_stage d, d_served d with
          | Selecting, Some e => Some (set_stage d true (d_listening d) (ShuttingDown (Some e)) None)
          | _, _ => None
          end
      | SelectSignal =>
          match d_stage d with
          | Selecting => if d_signalled d then Some (set_stage d true (d_listening d) (ShuttingDown None) None) else None
          | _ => None
          end
      | Shutdown => match d_stage d with ShuttingDown err => Some (set_stage d (d_cancelled d) false (Closing err) None) | _ => None end
      | CloseServer => match d_stage d with Closing err => Some (set_stage d (d_cancelled d) false (Joining err) None) | _ => None end
      | Return =>
          match d_stage d, d_loop d with
          | Joining err, LoopEnded => Some (set_stage d true (d_listening d) (Joining err) (Some (final_result err)))
          | _, _ => None
          end
      end
  end.

Fixpoint daemon_run (d : daemon) (evs : list daemon_event) : option daemon :=
  match evs with [] => Some d | ev :: evs' => d' ← daemon_step d ev; daemon_run d' evs' end.

(** What a request in this state is answered. *)
Definition answer (quote_unicode : string -> string) (d : daemon) (ev : daemon_event) : option (result response) :=
  match ev with Get method path now => handler quote_unicode (d_exporter d) method path now | _ => None end.

(** [main]: the exit code; [None] while the daemon runs. *)
Definition main_exit (read : string -> result Config) (listen : string -> option error) (evs : list daemon_event)
    (args : list string) : option Z :=
  let code (r : result unit) := if is_ok r then 0 else 1 in
  match run_command read listen args with
  | Ok None => Some 0
  | Ok (Some c) => d ← daemon_run (start_daemon c) evs; code <$> d_result d
  | _ => Some 1
  end.

(** ** What is served *)

(** Complete rounds, and the part of the next that has been recorded. *)
Definition in_rounds (c : Config) (d : daemon) : Prop :=
  exists rounds partial, Forall (is_round c) rounds /\ d_exporter d = collect (loop (newExporter c) rounds) partial /\
    match d_loop d with
    | Collecting pending => pending <> [] /\ Permutation ((event_key <$> partial) ++ pending) (round_keys c)
    | _ => partial = []
    end.

Lemma apply_event_config e ev : e_config (apply_event e ev) = e_config e.
Proof.
  destruct ev as [o now|t o t1 now|r t1 t2 now]; [done|done|]. rewrite canary_event.
  by destruct (canaryOutcome e r t1 t2) as [o e'].
Qed.

Lemma collect_config e l : e_config (collect e l) = e_config e.
Proof. revert e. induction l as [|ev l IH]; intros e; [done|]. cbn. rewrite IH. apply apply_event_config. Qed.
Lemma loop_config e rounds : e_config (loop e rounds) = e_config e.
Proof. revert e. induction rounds as [|l rounds IH]; intros e; [done|]. cbn. rewrite IH. apply collect_config. Qed.

Lemma round_keys_nonempty c : round_keys c <> [].
Proof. done. Qed.

Lemma daemon_step_rounds c d ev d' : in_rounds c d -> daemon_step d ev = Some d' -> in_rounds c d'.
Proof.
  intros (rounds & partial & Hr & He & Hl) Hs. unfold daemon_step in Hs. destruct (d_result d); [done|].
  assert (Hsame : d_exporter d' = d_exporter d -> d_loop d' = d_loop d -> in_rounds c d').
  { intros E1 E2. exists rounds, partial. by rewrite E1, E2. }
  destruct ev as [ev| | |m p now| |e| | | | |].
  - destruct (d_loop d) as [pending| |] eqn:El; [|done..]. apply bind_Some in Hs as (pending' & Hp & [= <-]).
    destruct Hl as [_ Hl]. apply remove_first_Some in Hp. rewrite Hp in Hl.
    assert (Hsnoc : Permutation ((event_key <$> partial ++ [ev]) ++ pending') (round_keys c)).
    { rewrite fmap_app, <- app_assoc. cbn. exact Hl. }
    assert (Hc : apply_event (d_exporter d) ev = collect (loop (newExporter c) rounds) (partial ++ [ev])).
    { unfold collect. rewrite foldl_app. cbn. by rewrite He. }
    destruct pending' as [|k pending']; unfold in_rounds; cbn.
    + exists (rounds ++ [partial ++ [ev]]), []. split_and!; [|rewrite Hc; unfold loop; by rewrite foldl_app|done].
      apply Forall_app. split; [done|]. apply Forall_singleton. unfold is_round. by rewrite app_nil_r in Hsnoc.
    + exists rounds, (partial ++ [ev]). by split_and!.
  - destruct (d_loop d) eqn:El; [done| |done]. injection Hs as <-. exists rounds, []. subst partial. cbn. split_and!; [done|done|done|].
    rewrite He. cbn. by rewrite loop_config.
  - destruct (d_loop d) eqn:El; [done| |done]. destruct (d_cancelled d); [|done]. injection Hs as <-. by exists rounds, partial.
  - destruct (d_listening d); [|done]. injection Hs as <-. by exists rounds, partial.
  - injection Hs as <-. by apply Hsame.
  - destruct (d_served d); [done|]. injection Hs as <-. by apply Hsame.
  - destruct (d_stage d), (d_served d); try done. injection Hs as <-. by apply Hsame.
  - destruct (d_stage d); try done. destruct (d_signalled d); [|done]. injection Hs as <-. by apply Hsame.
  - destruct (d_stage d); try done. injection Hs as <-. by apply Hsame.
  - destruct (d_stage d); try done. injection Hs as <-. by apply Hsame.
  - destruct (d_stage d), (d_loop d) eqn:El; try done. injection Hs as <-. by apply Hsame.
Qed.

Lemma daemon_run_rounds c evs : forall d d', in_rounds c d -> daemon_run d evs = Some d' -> in_rounds c d'.
Proof.
  induction evs as [|ev evs IH]; intros d d' Hd Hr; cbn [daemon_run] in Hr; [by injection Hr as <-|].
  apply bind_Some in Hr as (d1 & Hs & Hr). eapply IH; [|done]. by eapply daemon_step_rounds.
Qed.

Lemma start_rounds c : in_rounds c (start_daemon c).
Proof. exists [], []. split_and!; [apply Forall_nil_2|done|by split]. Qed.

(** At any moment the daemon answers from the state that complete rounds of
    collection, and what collectors of one more round have recorded, leave
    behind; no collector records twice in a round. *)
Theorem daemon_rounds quote_unicode c evs d method path now : daemon_run (start_daemon c) evs = Some d ->
  exists rounds partial, Forall (is_round c) rounds /\ (event_key <$> partial) ⊆+ round_keys c /\
    answer quote_unicode d (Get method path now) =
      handler quote_unicode (collect (loop (newExporter c) rounds) partial) method path now.
Proof.
  intros Hr. destruct (daemon_run_rounds c _ _ _ (start_rounds c) Hr) as (rounds & partial & H1 & H2 & H3).
  exists rounds, partial. split_and!; [done| |cbn; by rewrite H2].
  destruct (d_loop d); [|subst; apply submseteq_nil_l..]. destruct H3 as [_ H3]. rewrite <- H3. by apply submseteq_inserts_r.
Qed.

(** ** The end *)
Definition daemon_inv (d : daemon) : Prop :=
  (d_stage d <> Selecting -> d_cancelled d = true) /\
  (d_loop d = LoopEnded -> d_cancelled d = true) /\
  match d_stage d with
  | Closing _ | Joining _ => d_listening d = false
  | _ => True
  end /\
  match d_stage d with
  | Selecting => True
  | ShuttingDown err | Closing err | Joining err => match err with Some e => d_served d = Some e | None => d_signalled d = true end
  end /\
  match d_result d with
  | Some r => exists err, d_stage d = Joining err /\ d_loop d = LoopEnded /\ r = final_result err
  | None => True
  end.

Lemma daemon_step_inv d ev d' : daemon_inv d -> daemon_step d ev = Some d' -> daemon_inv d'.
Proof.
  unfold daemon_inv. intros (H1 & H2 & H3 & H4 & H5) Hs. unfold daemon_step in Hs. destruct (d_result d) eqn:Er; [done|].
  destruct ev as [ev| | |m p now| |e| | | | |].
  - destruct (d_loop d) as [pending| |] eqn:El; [|done..]. apply bind_Some in Hs as (pending' & Hp & [= <-]). cbn. rewrite ?Er.
    split_and!; try done. by destruct pending'.
  - destruct (d_loop d) eqn:El; [done| |done]. injection Hs as <-. cbn. by rewrite ?Er.
  - destruct (d_loop d) eqn:El; [done| |done]. destruct (d_cancelled d) eqn:Ec; [|done]. injection Hs as <-. cbn. by rewrite Er, Ec.
  - destruct (d_listening d) eqn:El; [|done]. injection Hs as <-. by rewrite Er, El.
  - injection Hs as <-. cbn. rewrite ?Er. split_and!; try done. by destruct (d_stage d) as [|[]|[]|[]].
  - destruct (d_served d) eqn:Es; [done|]. injection Hs as <-. cbn. rewrite ?Er. split_and!; try done; by destruct (d_stage d) as [|[]|[]|[]].
  - destruct (d_stage d), (d_served d) eqn:Es; try done. injection Hs as <-. cbn. by split_and!.
  - destruct (d_stage d); try done. destruct (d_signalled d) eqn:Esig; [|done]. injection Hs as <-. cbn. by split_and!.
  - destruct (d_stage d) as [|err| |]; try done. injection Hs as <-. cbn. split_and!; try done. intros _. by apply H1.
  - destruct (d_stage d) as [| |err|]; try done. injection Hs as <-. cbn. split_and!; try done. intros _. by apply H1.
  - destruct (d_stage d) as [| | |err] eqn:Est, (d_loop d) eqn:El; try done. injection Hs as <-. cbn. rewrite El. split_and!; try done. eauto.
Qed.

Lemma daemon_run_inv evs : forall d d', daemon_inv d -> daemon_run d evs = Some d' -> daemon_inv d'.
Proof.
  induction evs as [|ev evs IH]; intros d d' Hd Hr; cbn [daemon_run] in Hr; [by injection Hr as <-|].
  apply bind_Some in Hr as (d1 & Hs & Hr). eapply IH; [|done]. by eapply daemon_step_inv.
Qed.

Definition event_for (key : string + string) : event :=
  match key with
  | inl name => Collected (Outcome name [] None 0) 0
  | inr unit => Observed (Target unit "" "" "") no_observation 0 0
  end.

(** [d'] can be reached from [d]. *)
Definition leads (d d' : daemon) : Prop := exists evs, daemon_run d evs = Some d'.

Lemma leads_refl d : leads d d.
Proof. by exists []. Qed.
Lemma leads_step d ev d1 d' : daemon_step d ev = Some d1 -> leads d1 d' -> leads d d'.
Proof. intros Hs [evs Hr]. exists (ev :: evs). cbn. by rewrite Hs. Qed.
Lemma leads_trans d d1 d' : leads d d1 -> leads d1 d' -> leads d d'.
Proof.
  intros [evs Hr]. revert d Hr. induction evs as [|ev evs IH]; intros d Hr Hl; cbn in Hr; [by injection Hr as <-|].
  apply bind_Some in Hr as (d2 & Hs & Hr). eapply leads_step; [done|]. by apply IH.
Qed.

(** A round can always be finished. *)
Lemma leads_idle pending : forall d, d_result d = None -> d_loop d = Collecting pending -> pending <> [] ->
  exists e, leads d (set_loop d e Idle).
Proof.
  induction pending as [|k pending IH]; intros d Hr Hl Hne; [done|].
  assert (Hk : event_key (event_for k) = k) by by destruct k.
  set (e1 := apply_event (d_exporter d) (event_for k)).
  assert (Hs : daemon_step d (Recorded (event_for k)) = Some (set_loop d e1 (after_record pending))).
  { unfold daemon_step. rewrite Hr, Hl, Hk, remove_first_head. done. }
  destruct pending as [|k' pending].
  - exists e1. eapply leads_step; [exact Hs|apply leads_refl].
  - destruct (IH (set_loop d e1 (Collecting (k' :: pending)))) as [e He]; [done..|]. exists e. eapply leads_step; [exact Hs|exact He].
Qed.

(** So can the shutdown, once the loop is between two rounds or over. *)
Lemma leads_joining d : d_result d = None -> daemon_inv d ->
  exists err l s, leads d (Daemon (d_exporter d) (d_loop d) s true l (d_served d) (Joining err) None).
Proof.
  intros Hr (H1 & _). destruct d as [ex lp sg ca li se st re]; cbn in *. subst re. destruct st as [|err|err|err].
  - exists None, false, true. eapply (leads_step _ Signal); [done|]. eapply (leads_step _ SelectSignal); [done|].
    eapply (leads_step _ Shutdown); [done|]. eapply (leads_step _ CloseServer); [done|]. apply leads_refl.
  - rewrite H1 by done. exists err, false, sg. eapply (leads_step _ Shutdown); [done|].
    eapply (leads_step _ CloseServer); [done|]. apply leads_refl.
  - rewrite H1 by done. exists err, false, sg. eapply (leads_step _ CloseServer); [done|]. apply leads_refl.
  - rewrite H1 by done. exists err, li, sg. apply leads_refl.
Qed.

Lemma leads_return d : d_result d = None -> daemon_inv d -> (forall p, d_loop d = Collecting p -> p <> []) ->
  exists d', leads d d' /\ d_result d' <> None.
Proof.
  intros Hr Hi Hp. destruct (leads_joining d Hr Hi) as (err & l & s & Hj).
  set (d1 := Daemon _ _ _ _ _ _ _ _) in Hj.
  assert (Hend : forall e, exists d', leads (set_loop d1 e Idle) d' /\ d_result d' <> None).
  { intros e. eexists. split; [eapply (leads_step _ LoopReturns); [done|]; eapply (leads_step _ Return); [done|]; apply leads_refl|done]. }
  destruct (d_loop d) as [pending| |] eqn:El.
  - destruct (leads_idle pending d1) as [e He]; [done|done|by apply Hp|]. destruct (Hend e) as (d' & H1 & H2).
    exists d'. split; [|done]. eapply leads_trans; [exact Hj|]. by eapply leads_trans.
  - destruct (Hend (d_exporter d)) as (d' & H1 & H2). exists d'. split; [|done]. by eapply leads_trans.
  - eexists. split; [eapply leads_trans; [exact Hj|]; eapply (leads_step _ Return); [done|]; apply leads_refl|done].
Qed.

(** When the daemon has returned, its listener is closed and its collection
    loop has ended; it fails only with an error of the server other than the
    one for a closed server.  From wherever it is it can be brought to return:
    no order of signals, requests, rounds and failures leaves it stuck. *)
Theorem daemon_returns c evs d : daemon_run (start_daemon c) evs = Some d ->
  (forall r, d_result d = Some r -> d_loop d = LoopEnded /\ d_listening d = false /\ d_cancelled d = true /\
    (r = Ok tt \/ exists e, d_served d = Some e /\ error_is ErrServerClosed e = false /\ r = Err e)) /\
  exists d', leads d d' /\ d_result d' <> None.
Proof.
  intros Hr. assert (Hi : daemon_inv d) by (eapply daemon_run_inv; [|exact Hr]; by unfold daemon_inv; split_and!).
  split.
  - intros r Hres. destruct Hi as (H1 & H2 & H3 & H4 & H5). rewrite Hres in H5. destruct H5 as (err & Est & El & ->).
    rewrite Est in H1, H3, H4. split_and!; [done|done|by apply H1|]. unfold final_result. destruct err as [e|]; [|by left].
    destruct (error_is ErrServerClosed e) eqn:Ee; [by left|right; eauto].
  - destruct (d_result d) as [r|] eqn:Hres; [exists d; split; [apply leads_refl|congruence]|].
    apply leads_return; [done|done|]. intros p Hp.
    destruct (daemon_run_rounds c _ _ _ (start_rounds c) Hr) as (rounds & partial & _ & _ & H3). rewrite Hp in H3. by destruct H3.
Qed.

(** ** A concrete daemon *)
Module DaemonExamples.
Import ServeRoundExamples.

Definition life : list daemon_event :=
  (Recorded <$> round) ++ [Get "GET" "/healthz" 9; Tick; Recorded (found "bootstrap"); Signal; SelectSignal; Shutdown;
    Recorded (found "bundle"); ServeReturns ErrServerClosed; CloseServer; Recorded (found "canary"); LoopReturns; Return].
Definition over : daemon := default (start_daemon c) (daemon_run (start_daemon c) life).

Lemma life_runs : daemon_run (start_daemon c) life = Some over.
Proof. vm_compute. reflexivity. Qed.

Example exits : main_exit (fun _ => Ok c) (fun _ => None) life ["--config"; "/etc/x.json"] = Some 0 /\
  main_exit (fun _ => Ok c) (fun _ => Some ErrEOF) life ["serve"; "--config"; "/etc/x.json"] = Some 1 /\
  main_exit (fun _ => Ok c) (fun _ => None) [] ["serve"; "--config"; "/etc/x.json"] = None.
Proof. vm_compute. done. Qed.

Lemma daemon_returns_witness : d_result over = Some (Ok tt) /\ d_listening over = false.
Proof.
  split; [vm_compute; reflexivity|].
  exact (proj1 (proj2 (proj1 (daemon_returns c life over life_runs) (Ok tt) ltac:(vm_compute; reflexivity)))).
Defined.

Lemma daemon_rounds_witness : exists rounds partial, Forall (is_round c) rounds /\ (event_key <$> partial) ⊆+ round_keys c /\
  answer (fun s => s) over (Get "GET" "/metrics" 9) = handler (fun s => s) (collect (loop (newExporter c) rounds) partial) "GET" "/metrics" 9.
Proof. apply (daemon_rounds (fun s => s) c life over "GET" "/metrics" 9 life_runs). Defined.
End DaemonExamples.
