(* ===== verification/HelperRegister.v ===== *)
(** * realm-helper: registration of the declared SPIRE entries

    Models [src/pkgs/realm-helper/spireregister.go]: the manifest and the state
    file, the entry identifiers, and the reconciliation of the SPIRE server with
    the declared entries.  The [spire-server] command line is a class with the
    behaviour the reconciler relies on; outcomes of file operations are
    arguments.  Progress messages on standard error are left out. *)

From S2P Require Import Prelude GoStrings Encoding Json AgentCgroup AgentNetwork.

Open Scope Z_scope.
Open Scope go_scope.

(** ** Manifest and state file *)
Record registration := Registration { rg_ParentID : string; rg_SpiffeID : string; rg_Selectors : list string }.
#[export] Instance registration_eq_dec : EqDecision registration.
Proof. solve_decision. Defined.

Definition registration_fields : list (field registration) :=
  [mk_field "parentID" rg_ParentID (fun r x => Registration x (rg_SpiffeID r) (rg_Selectors r)) dec_string;
   mk_field "spiffeID" rg_SpiffeID (fun r x => Registration (rg_ParentID r) x (rg_Selectors r)) dec_string;
   mk_field "selectors" rg_Selectors (fun r x => Registration (rg_ParentID r) (rg_SpiffeID r) x) (dec_slice dec_string "")].

(** [manifest]: node, then name, to entry. *)
Notation manifest := (gmap string (gmap string registration)).

Definition complete (r : registration) : bool :=
  negb ((rg_ParentID r =? "") || (rg_SpiffeID r =? "") || (Z.of_nat (length (rg_Selectors r)) =? 0)).

(** [os.ReadFile] of the manifest, then the decoder and the checks. *)
Definition readManifest (file : result string) : result manifest :=
  match file with
  | Ok raw =>
      match parse_all raw with
      | None => Err (ErrNew "parse manifest")
      | Some v =>
          match dec_map (dec_map (dec_struct false registration_fields) (Registration "" "" [])) ∅ ∅ v with
          | None => Err (ErrNew "parse manifest")
          | Some declared =>
              require forallb (fun ne : string * gmap string registration =>
                        forallb (fun e : string * registration => complete e.2) (map_to_list ne.2)) (map_to_list declared)
                else ErrNew "parentID, spiffeID and selectors are required";
              Ok declared
          end
      end
  | Err e => Err (ErrWrap "read manifest" e)
  | Panic m => Panic m
  end.

(** The state file: [None] when it does not exist. *)
Definition readState (readErr : option error) (file : option string) : result (list string) :=
  match file with
  | None => Ok []
  | Some raw =>
      match readErr with
      | Some e => Err (ErrWrap "read state" e)
      | None =>
          match (v ← parse_all raw; dec_slice dec_string "" [] v) with
          | Some ids => Ok ids
          | None => Err (ErrNew "parse state")
          end
      end
  end.

Definition state_text (ids : list string) : string := marshal (JArr (JStr <$> ids)).

(** ** Entry identifiers *)
Fixpoint hex_decode (s : string) : option string :=
  match s with
  | EmptyString => Some ""
  | String a (String b s') => x ← hexval a; y ← hexval b; r ← hex_decode s'; Some (String (char (x * 16 + y)) r)
  | String _ EmptyString => None
  end.

Definition set_byte (i : nat) (f : Z -> Z) (s : string) : string :=
  match drop i s with
  | String c rest => take i s +:+ String (char (f (code c))) rest
  | EmptyString => s
  end.

Definition slice (i j : nat) (s : string) : string := take (j - i) (drop i s).

Definition spireEntryID (node name : string) : result string :=
  match hex_decode "6ba7b8119dad11d180b400c04fd430c8" with
  | None => Panic "encoding/hex"
  | Some namespace =>
      let id := take 16 (Sha1.sum (namespace +:+ ("nyaw-realm:" +:+ node +:+ ":" +:+ name))) in
      let id := set_byte 6 (fun b => Z.lor (Z.land b 15) 80) id in
      let id := set_byte 8 (fun b => Z.lor (Z.land b 63) 128) id in
      Ok (hex_encode (slice 0 4 id) +:+ "-" +:+ hex_encode (slice 4 6 id) +:+ "-" +:+ hex_encode (slice 6 8 id) +:+ "-" +:+
          hex_encode (slice 8 10 id) +:+ "-" +:+ hex_encode (slice 10 16 id))
  end.

(** ** The server's command line *)
Definition show_args (socket id : string) : list string := ["entry"; "show"; "-socketPath"; socket; "-entryID"; id].
Definition delete_args (socket id : string) : list string := ["entry"; "delete"; "-socketPath"; socket; "-entryID"; id].
Definition apply_args (verb socket id : string) (e : registration) : list string :=
  ["entry"; verb; "-socketPath"; socket; "-entryID"; id; "-parentID"; rg_ParentID e; "-spiffeID"; rg_SpiffeID e;
   "-x509SVIDTTL"; "3600"] ++ (rg_Selectors e ≫= fun s => ["-selector"; s]).
Definition health_args (socket : string) : list string := ["healthcheck"; "-socketPath"; socket].

(** [cli s args] runs the server binary: [None] on exit status zero, otherwise
    the error and the output; [entries] is what the server holds. *)
Class SpireServer := {
  server : Type;
  cli : server -> list string -> option (error * string) * server;
  entries : server -> gmap string registration
}.

Section reconcile.
Context `{SpireServer} (socket : string).

Record world := World { rw_server : server; rw_state : option string }.
Definition set_server (w : world) (s : server) : world := World s (rw_state w).

Definition execute (args : list string) : SM world unit := fun w =>
  match cli (rw_server w) args with
  | (None, s) => (Ok tt, set_server w s)
  | (Some (e, output), s) =>
      let message := trimSpace output in
      (Err (if message =? "" then e else ErrWrap message e), set_server w s)
  end.

(** [wait], with [healthAttempts] tries. *)
Fixpoint wait_loop (attempts : nat) (last : error) : SM world unit :=
  match attempts with
  | O => sfail (ErrWrap "SPIRE server did not become healthy" last)
  | S attempts' => fun w =>
      match execute (health_args socket) w with
      | (Ok _, w') => (Ok tt, w')
      | (Err e, w') => wait_loop attempts' e w'
      | (Panic m, w') => (Panic m, w')
      end
  end.
Definition wait : SM world unit := wait_loop 30 (ErrNew "<nil>").

(** Whether a command succeeds, its error being dropped. *)
Definition succeeds (m : SM world unit) : SM world bool := fun w =>
  match m w with
  | (Ok _, w') => (Ok true, w')
  | (Err _, w') => (Ok false, w')
  | (Panic p, w') => (Panic p, w')
  end.

Definition wrapped {A} (msg : string) (m : SM world A) : SM world A := fun w =>
  match m w with (Err e, w') => (Err (ErrWrap msg e), w') | r => r end.

Definition apply (id node name : string) (e : registration) : SM world unit :=
  do! exists_ <- succeeds (execute (show_args socket id));
  let verb := if exists_ then "update" else "create" in
  wrapped (verb +:+ " entry " +:+ id +:+ " (" +:+ node +:+ "/" +:+ name +:+ ")") (execute (apply_args verb socket id e)).

(** The declared entries in the order of the two loops. *)
Definition declared_list (m : manifest) : list (string * string * registration) :=
  sortedKeys m ≫= fun node =>
    let entries := default ∅ (m !! node) in
    sortedKeys entries ≫= fun name =>
      match entries !! name with Some e => [(node, name, e)] | None => [] end.

Fixpoint apply_all (l : list (string * string * registration)) : SM world (list string) :=
  match l with
  | [] => sret []
  | (node, name, e) :: l' =>
      do! id <- slift (spireEntryID node name);
      run! apply id node name e;
      do! rest <- apply_all l';
      sret (id :: rest)
  end.

Fixpoint prune (keep : gset string) (previous : list string) : SM world unit :=
  match previous with
  | [] => sret tt
  | id :: previous' =>
      if bool_decide (id ∈ keep) then prune keep previous'
      else run! wrapped ("delete stale entry " +:+ id) (execute (delete_args socket id)); prune keep previous'
  end.

(** The files of one run: the manifest, and how the state file's read, the
    write of its replacement and the rename go. *)
Record runEnv := RunEnv {
  re_manifest : result string; re_readErr : option error; re_writeErr : option error; re_renameErr : option error
}.

Definition writeState (env : runEnv) (ids : list string) : SM world unit := fun w =>
  match re_writeErr env, re_renameErr env with
  | Some e, _ | None, Some e => (Err e, w)
  | None, None => (Ok tt, World (rw_server w) (Some (state_text ids)))
  end.

Definition reconcile_run (env : runEnv) : SM world unit :=
  do! desired <- slift (readManifest (re_manifest env));
  fun w =>
    (do! previous <- slift (readState (re_readErr env) (rw_state w));
     do! current <- apply_all (declared_list desired);
     run! prune (list_to_set current) previous;
     writeState env current) w.

Definition register_run (env : runEnv) : SM world unit := run! wait; reconcile_run env.
End reconcile.

(** ** Identifiers are name-based UUIDs *)
Definition entry_id (node name : string) : string :=
  match spireEntryID node name with Ok id => id | _ => "" end.

(** The bytes of the digest. *)
Lemma string_16 s : (16 <= String.length s)%nat -> exists b0 b1 b2 b3 b4 b5 b6 b7 b8 b9 b10 b11 b12 b13 b14 b15 : ascii,
  take 16 s = String b0 (String b1 (String b2 (String b3 (String b4 (String b5 (String b6 (String b7
    (String b8 (String b9 (String b10 (String b11 (String b12 (String b13 (String b14 (String b15 ""))))))))))))))).
Proof. intros H. do 16 (destruct s as [|? s]; [cbn in H; lia|]). cbn. eauto 20. Qed.

Lemma version_byte b : hex_encode (String (char (Z.lor (Z.land (code b) 15) 80)) "") =
  String "5" (String (hexchar (code b mod 16)) "").
Proof.
  apply (bool_decide_unpack _). apply Is_true_eq_left. revert b.
  apply (ascii_code_forall (fun b => bool_decide (hex_encode (String (char (Z.lor (Z.land (code b) 15) 80)) "") =
    String "5" (String (hexchar (code b mod 16)) "")))). vm_compute. reflexivity.
Qed.

Definition variant_char (b : ascii) : ascii := hexchar (8 + code b / 16 mod 4).

Lemma variant_byte b : hex_encode (String (char (Z.lor (Z.land (code b) 63) 128)) "") =
  String (variant_char b) (String (hexchar (code b mod 16)) "").
Proof.
  apply (bool_decide_unpack _). apply Is_true_eq_left. revert b.
  apply (ascii_code_forall (fun b => bool_decide (hex_encode (String (char (Z.lor (Z.land (code b) 63) 128)) "") =
    String (variant_char b) (String (hexchar (code b mod 16)) "")))). vm_compute. reflexivity.
Qed.

Lemma variant_cases b : variant_char b ∈ ["8"; "9"; "a"; "b"]%char.
Proof.
  apply (bool_decide_unpack _). apply Is_true_eq_left. revert b.
  apply (ascii_code_forall (fun b => bool_decide (variant_char b ∈ ["8"; "9"; "a"; "b"]%char))). vm_compute. reflexivity.
Qed.

Lemma hex_encode_append s t : hex_encode (s +:+ t) = hex_encode s +:+ hex_encode t.
Proof. induction s as [|c s IH]; [done|]. rewrite append_cons. cbn [hex_encode]. by rewrite IH, !append_cons. Qed.

(** Every entry identifier is a version 5 UUID in its canonical lower-case
    form, whatever the node and the name: 8-4-4-4-12 hexadecimal digits with
    the version digit 5 and the RFC 4122 variant. *)
Theorem spireEntryID_uuid node name : exists a b c v d e,
  spireEntryID node name = Ok (a +:+ "-" +:+ b +:+ "-5" +:+ c +:+ "-" +:+ String v d +:+ "-" +:+ e) /\
  hex_text 8 a /\ hex_text 4 b /\ hex_text 3 c /\ v ∈ ["8"; "9"; "a"; "b"]%char /\ hex_text 3 d /\ hex_text 12 e.
Proof.
  unfold spireEntryID. destruct (hex_decode _) as [ns|] eqn:En; [|discriminate En]. clear En.
  set (sum := Sha1.sum _). assert (Hl : (16 <= String.length sum)%nat) by (pose proof (sha1_len (ns +:+ ("nyaw-realm:" +:+ node +:+ ":" +:+ name))) as Hs; fold sum in Hs; unfold len in Hs; lia).
  destruct (string_16 sum Hl) as (b0&b1&b2&b3&b4&b5&b6&b7&b8&b9&b10&b11&b12&b13&b14&b15&->). clear.
  set (v6 := char (Z.lor (Z.land (code b6) 15) 80)). set (v8 := char (Z.lor (Z.land (code b8) 63) 128)).
  set (id := set_byte 8 _ (set_byte 6 _ _)).
  assert (Eid : id = String b0 (String b1 (String b2 (String b3 (String b4 (String b5 (String v6 (String b7
    (String v8 (String b9 (String b10 (String b11 (String b12 (String b13 (String b14 (String b15 "")))))))))))))))) by reflexivity.
  rewrite Eid. clear id Eid. unfold slice. cbn [drop take Nat.sub].
  assert (E6 : hex_encode (String v6 (String b7 "")) = "5" +:+ (String (hexchar (code b6 mod 16)) "" +:+ hex_encode (String b7 ""))).
  { change (String v6 (String b7 "")) with (String v6 "" +:+ String b7 ""). rewrite hex_encode_append. unfold v6. by rewrite version_byte. }
  assert (E8 : hex_encode (String v8 (String b9 "")) = String (variant_char b8) (String (hexchar (code b8 mod 16)) "" +:+ hex_encode (String b9 ""))).
  { change (String v8 (String b9 "")) with (String v8 "" +:+ String b9 ""). rewrite hex_encode_append. unfold v8. by rewrite variant_byte. }
  rewrite E6, E8. clearbody v6 v8. clear E6 E8.
  assert (Hd : forall b c, hex_text 3 (String (hexchar (code b mod 16)) "" +:+ hex_encode (String c ""))).
  { intros b c. destruct (hex_encode_text (String c "")) as [H1 H2]. rewrite append_cons, append_nil_l. split; [cbn [String.length]; by rewrite H1|].
    cbn [all_chars]. rewrite hexchar_lower, H2; [done|]. pose proof (code_range b). divlia. }
  eexists _, _, _, _, _, _. split; [reflexivity|]. split_and!; try apply Hd; try apply variant_cases.
  all: match goal with |- hex_text _ (hex_encode ?s) => exact (hex_encode_text s) end.
Qed.

(** ** What the reconciler relies on *)
Class SpireLaws `{SpireServer} : Prop := {
  show_keeps s k id o s' : cli s (show_args k id) = (o, s') -> entries s' = entries s;
  apply_ok s verb k id e s' : verb = "create" \/ verb = "update" ->
    cli s (apply_args verb k id e) = (None, s') -> entries s' = <[id := e]> (entries s);
  apply_fails s verb k id e x s' : verb = "create" \/ verb = "update" ->
    cli s (apply_args verb k id e) = (Some x, s') -> forall id', id' <> id -> entries s' !! id' = entries s !! id';
  delete_ok s k id s' : cli s (delete_args k id) = (None, s') -> is_Some (entries s !! id) /\ entries s' = delete id (entries s);
  delete_fails s k id x s' : cli s (delete_args k id) = (Some x, s') ->
    forall id', id' <> id -> entries s' !! id' = entries s !! id'
}.

(** The identifier [id] is declared for the entry [e]. *)
Definition declares (m : manifest) (id : string) (e : registration) : Prop :=
  exists node name es, m !! node = Some es /\ es !! name = Some e /\ entry_id node name = id.

Definition declared_id (x : string * string * registration) : string := entry_id x.1.1 x.1.2.
Definition declared_ids (m : manifest) : list string := declared_id <$> declared_list m.

(** No two declared entries share an identifier. *)
Definition distinct (m : manifest) : Prop := NoDup (declared_ids m).

Lemma spireEntryID_ok node name : spireEntryID node name = Ok (entry_id node name).
Proof. unfold entry_id. destruct (spireEntryID_uuid node name) as (a & b & c & v & d & e & -> & _). done. Qed.

Lemma declared_list_elem m node name e : (node, name, e) ∈ declared_list m <->
  exists es, m !! node = Some es /\ es !! name = Some e.
Proof.
  unfold declared_list. split.
  - intros (n & Hx & [es Hes]%sortedKeys_elem)%list_elem_of_bind. rewrite Hes in Hx. change (default ∅ (Some es)) with es in Hx.
    apply list_elem_of_bind in Hx as (na & Hx & [e' He']%sortedKeys_elem). rewrite He' in Hx.
    apply list_elem_of_singleton in Hx as [= -> -> ->]. eauto.
  - intros (es & Hes & He). apply list_elem_of_bind. exists node. split; [|by apply sortedKeys_elem; eexists].
    rewrite Hes. change (default ∅ (Some es)) with es. apply list_elem_of_bind. exists name. rewrite He.
    split; [by apply list_elem_of_singleton|apply sortedKeys_elem; by eexists].
Qed.

Lemma declares_elem m id e : declares m id e <-> exists x, x ∈ declared_list m /\ declared_id x = id /\ x.2 = e.
Proof.
  split.
  - intros (node & name & es & H1 & H2 & <-). exists (node, name, e). split; [apply declared_list_elem; eauto|done].
  - intros ([[node name] e'] & Hx & <- & <-). apply declared_list_elem in Hx as (es & H1 & H2). exists node, name, es. done.
Qed.

Lemma declared_ids_elem m id : id ∈ declared_ids m <-> exists e, declares m id e.
Proof.
  unfold declared_ids. rewrite list_elem_of_fmap. setoid_rewrite declares_elem. split.
  - intros (x & -> & Hx). exists x.2, x. done.
  - intros (e & x & Hx & <- & _). eauto.
Qed.

(** ** The state file keeps the identifiers *)
Lemma hex_text_plain n s : hex_text n s -> all_chars plain s = true.
Proof.
  intros [_ H]. eapply all_chars_impl; [|exact H]. intros c Hc. unfold lower_hex, is_digit, plain, in_range in *. bprop.
  all: bspec; lia.
Qed.

Lemma entry_id_plain node name : all_chars plain (entry_id node name) = true.
Proof.
  unfold entry_id. destruct (spireEntryID_uuid node name) as (a & b & c & v & d & e & -> & Ha & Hb & Hc & Hv & Hd & He).
  apply hex_text_plain in Ha, Hb, Hc, Hd, He. change (String v d) with (String v "" +:+ d).
  rewrite !all_chars_append, Ha, Hb, Hc, Hd, He. 
  repeat (apply elem_of_cons in Hv as [Hv|Hv]; [by subst v|]). by apply elem_of_nil in Hv.
Qed.

Lemma readState_text ids : Forall (fun id => all_chars plain id = true) ids ->
  readState None (Some (state_text ids)) = Ok ids.
Proof.
  intros Hp. unfold readState, state_text, parse_all. rewrite parse_marshal.
  - assert (E : dec_elems dec_string "" [] (JStr <$> ids) = Some ids).
    { clear Hp. induction ids as [|x l IH]; [done|]. cbn. cbn in IH. by rewrite IH. }
    cbn [mbind option_bind]. change (skip_ws "" =? "") with true. cbn [dec_slice mbind option_bind]. by rewrite E.
  - cbn [plainv]. by induction Hp.
  - cbn [jheight]. assert (E : foldr Z.max 0 (jheight <$> (JStr <$> ids)) = 0); [|rewrite E; unfold maxNestingDepth; lia].
    clear Hp. induction ids as [|x l IH]; [done|]. cbn. cbn in IH. lia.
Qed.

Lemma state_roundtrip m : readState None (Some (state_text (declared_ids m))) = Ok (declared_ids m).
Proof.
  apply readState_text, Forall_forall. intros id (x & -> & _)%list_elem_of_fmap. unfold declared_id. apply entry_id_plain.
Qed.


Section laws.
Context {SS : SpireServer} {SL : SpireLaws} (socket : string).

Lemma execute_state args w r w' : execute args w = (r, w') -> rw_state w' = rw_state w.
Proof. unfold execute. destruct (cli _ _) as [[[e o]|] s]; by intros [= <- <-]. Qed.

Lemma execute_cli args w r w' : execute args w = (r, w') ->
  exists o s, cli (rw_server w) args = (o, s) /\ rw_server w' = s /\ (r = Ok tt <-> o = None) /\ is_panic r = false.
Proof.
  unfold execute. destruct (cli _ _) as [[[e o]|] s]; intros [= <- <-]; eexists _, _; (split; [done|]); (split; [done|]); done.
Qed.

Lemma write_entry_spec verb msg id e w r w' : verb = "create" \/ verb = "update" ->
  wrapped msg (execute (apply_args verb socket id e)) w = (r, w') ->
  rw_state w' = rw_state w /\
  ((r = Ok tt /\ entries (rw_server w') = <[id := e]> (entries (rw_server w))) \/
   (is_ok r = false /\ forall id', id' <> id -> entries (rw_server w') !! id' = entries (rw_server w) !! id')).
Proof.
  intros Hv. unfold wrapped. destruct (execute _ w) as [r2 w2] eqn:E2.
  pose proof (execute_state _ _ _ _ E2) as S2. destruct (execute_cli _ _ _ _ E2) as (o2 & s2 & C2 & <- & R2 & P2).
  destruct r2 as [[]|e2|p]; [| |discriminate P2]; intros [= <- <-]; (split; [done|]); destruct o2 as [x|].
  - discriminate (proj1 R2 eq_refl).
  - left. by apply apply_ok in C2.
  - right. split; [done|]. by apply (apply_fails _ _ _ _ _ _ _ Hv C2).
  - discriminate (proj2 R2 eq_refl).
Qed.

Lemma apply_spec id node name e w r w' : apply socket id node name e w = (r, w') ->
  rw_state w' = rw_state w /\
  ((r = Ok tt /\ entries (rw_server w') = <[id := e]> (entries (rw_server w))) \/
   (is_ok r = false /\ forall id', id' <> id -> entries (rw_server w') !! id' = entries (rw_server w) !! id')).
Proof.
  unfold apply, sbind, succeeds. destruct (execute (show_args socket id) w) as [r1 w1] eqn:E1.
  pose proof (execute_state _ _ _ _ E1) as S1. destruct (execute_cli _ _ _ _ E1) as (o1 & s1 & C1 & <- & _ & P1).
  apply show_keeps in C1. rewrite <- S1, <- C1.
  destruct r1 as [[]|e1|p]; [| |discriminate P1]; apply write_entry_spec; auto.
Qed.

(** The effect of applying entries in turn. *)
Definition applied (l : list (string * string * registration)) (m : gmap string registration) : gmap string registration :=
  foldl (fun m x => <[declared_id x := x.2]> m) m l.

Lemma apply_all_spec l : forall w r w', apply_all socket l w = (r, w') ->
  rw_state w' = rw_state w /\
  (forall ids, r = Ok ids -> ids = declared_id <$> l /\ entries (rw_server w') = applied l (entries (rw_server w))) /\
  (forall id, id ∉ declared_id <$> l -> entries (rw_server w') !! id = entries (rw_server w) !! id).
Proof.
  induction l as [|[[node name] e] l IH]; intros w r w' H; cbn [apply_all] in H.
  { injection H as <- <-. split; [done|]. split; [by intros ids [= <-]|done]. }
  rewrite spireEntryID_ok in H. unfold sbind at 1 in H. cbn [slift] in H. unfold sbind at 1 in H.
  destruct (apply socket (entry_id node name) node name e w) as [r1 w1] eqn:E1. destruct (apply_spec _ _ _ _ _ _ _ E1) as [S1 Hr].
  assert (Hother : forall id, id ∉ declared_id <$> ((node, name, e) :: l) -> entries (rw_server w1) !! id = entries (rw_server w) !! id).
  { intros id Hid. assert (Hne : id <> entry_id node name) by (intros ->; apply Hid; left).
    destruct Hr as [[_ ->]|[_ Hr]]; [by apply lookup_insert_ne|by apply Hr]. }
  destruct r1 as [[]|e1|p].
  - destruct Hr as [[_ Hr]|[? _]]; [|discriminate]. unfold sbind in H. destruct (apply_all socket l w1) as [r2 w2] eqn:E2.
    destruct (IH _ _ _ E2) as (S2 & H2 & H3).
    assert (Hw : w' = w2 /\ (forall ids, r = Ok ids -> exists rest, r2 = Ok rest /\ ids = entry_id node name :: rest)).
    { destruct r2; injection H as <- <-; (split; [done|]); [|done..]. intros ids [= <-]. eauto. }
    destruct Hw as [-> Hids]. split; [congruence|]. split.
    + intros ids Hr'. destruct (Hids ids Hr') as (rest & -> & ->). destruct (H2 rest eq_refl) as [-> E]. split; [done|].
      rewrite E, Hr. done.
    + intros id Hid. rewrite H3; [by apply Hother|]. intros Hx. apply Hid. by right.
  - injection H as <- <-. split; [done|]. split; [done|exact Hother].
  - injection H as <- <-. split; [done|]. split; [done|exact Hother].
Qed.

Lemma prune_spec keep previous : forall w r w', prune socket keep previous w = (r, w') ->
  rw_state w' = rw_state w /\
  (forall id, id ∈ keep \/ id ∉ previous -> entries (rw_server w') !! id = entries (rw_server w) !! id) /\
  (r = Ok tt -> forall id, id ∈ previous -> id ∉ keep -> entries (rw_server w') !! id = None /\ is_Some (entries (rw_server w) !! id)).
Proof.
  induction previous as [|x previous IH]; intros w r w' H; cbn [prune] in H.
  { injection H as <- <-. split; [done|]. split; [done|]. intros _ id Hid. by apply elem_of_nil in Hid. }
  case_bool_decide as Hx.
  { destruct (IH _ _ _ H) as (S & H1 & H2). split; [done|]. split.
    - intros id Hid. apply H1. destruct Hid as [?|Hid]; [by left|]. right. intros Hy. apply Hid. by right.
    - intros Hr id [->|Hid]%elem_of_cons Hk; [done|]. by apply H2. }
  unfold sbind, wrapped in H. destruct (execute (delete_args socket x) w) as [r1 w1] eqn:E1.
  pose proof (execute_state _ _ _ _ E1) as S1. destruct (execute_cli _ _ _ _ E1) as (o1 & s1 & C1 & <- & R1 & P1).
  assert (Hne : forall id, id ∈ keep \/ id ∉ x :: previous -> id <> x).
  { intros id [Hk|Hk] ->; [done|]. apply Hk. by left. }
  destruct r1 as [[]|e1|p]; [| |discriminate P1].
  - rewrite (proj1 R1 eq_refl) in C1. apply delete_ok in C1 as [Hsome C1]. destruct (IH _ _ _ H) as (S & H1 & H2). split; [congruence|].
    rewrite C1 in *. split.
    + intros id Hid. rewrite H1; [by apply lookup_delete_ne, not_eq_sym, Hne|].
      destruct Hid as [?|Hid]; [by left|right; intros Hy; apply Hid; by right].
    + intros Hr id Hid Hk. destruct (decide (id ∈ previous)) as [Hp|Hp].
      * destruct (H2 Hr id Hp Hk) as [? Hs]. split; [done|]. destruct (decide (id = x)) as [->|Hd]; [done|].
        by rewrite lookup_delete_ne in Hs.
      * apply elem_of_cons in Hid as [->|?]; [|done]. rewrite H1 by (by right). split; [apply lookup_delete_eq|done].
  - injection H as <- <-. split; [done|]. split; [|discriminate]. intros id Hid.
    destruct o1 as [y|]; [by apply (delete_fails _ _ _ _ _ C1), Hne|]. discriminate (proj2 R1 eq_refl).
Qed.

(** Applying entries with distinct identifiers leaves each as declared. *)
Lemma applied_lookup l m : NoDup (declared_id <$> l) ->
  (forall x, x ∈ l -> applied l m !! declared_id x = Some x.2) /\
  (forall id, id ∉ declared_id <$> l -> applied l m !! id = m !! id).
Proof.
  induction l as [|x l IH] using rev_ind; intros Hn; [split; [intros x Hx; by apply elem_of_nil in Hx|done]|].
  rewrite fmap_app in *. apply NoDup_app in Hn as (Hn & Hd & _). destruct (IH Hn) as [H1 H2].
  assert (E : applied (l ++ [x]) m = <[declared_id x := x.2]> (applied l m)) by (unfold applied; by rewrite foldl_app).
  rewrite E. split.
  - intros y Hy. destruct (decide (declared_id y = declared_id x)) as [Ey|Ey].
    + apply elem_of_app in Hy as [Hy| ->%list_elem_of_singleton]; [|apply lookup_insert_eq].
      destruct (Hd (declared_id y)); [by apply list_elem_of_fmap_2|]. rewrite Ey. by apply list_elem_of_singleton.
    + rewrite lookup_insert_ne by done. apply H1. apply elem_of_app in Hy as [?| ->%list_elem_of_singleton]; done.
  - intros id Hid. rewrite lookup_insert_ne; [apply H2|]; intros Hx; apply Hid, elem_of_app; [by left|right].
    rewrite <- Hx. by apply list_elem_of_singleton.
Qed.

(** One successful run. *)
Lemma run_ok env w w' m : reconcile_run socket env w = (Ok tt, w') -> readManifest (re_manifest env) = Ok m ->
  distinct m ->
  exists previous, readState (re_readErr env) (rw_state w) = Ok previous /\
    rw_state w' = Some (state_text (declared_ids m)) /\
    (forall id e, declares m id e -> entries (rw_server w') !! id = Some e) /\
    (forall id, id ∉ declared_ids m -> id ∈ previous -> entries (rw_server w') !! id = None) /\
    (forall id, id ∉ declared_ids m -> id ∉ previous -> entries (rw_server w') !! id = entries (rw_server w) !! id).
Proof.
  intros H Hm Hd. unfold reconcile_run in H. rewrite Hm in H. unfold sbind at 1 in H. cbn [slift] in H.
  apply sbind_Ok in H as (previous & w0 & Hp & H). injection Hp as Hp <-. apply sbind_Ok in H as (current & w1 & H1 & H).
  apply sbind_Ok in H as ([] & w2 & H2 & H). destruct (apply_all_spec _ _ _ _ H1) as (S1 & Hc & _).
  destruct (Hc current eq_refl) as [-> E1]. clear Hc. fold (declared_ids m) in *.
  destruct (prune_spec _ _ _ _ _ H2) as (S2 & K1 & K2). specialize (K2 eq_refl).
  unfold writeState in H. destruct (re_writeErr env), (re_renameErr env); try discriminate H. injection H as <-. cbn [rw_server rw_state].
  destruct (applied_lookup (declared_list m) (entries (rw_server w)) Hd) as [A1 A2]. rewrite E1 in *.
  exists previous. split; [done|]. split; [done|]. split; [|split].
  - intros id e He. assert (Hk : id ∈ declared_ids m) by (apply declared_ids_elem; eauto).
    rewrite K1 by (left; by apply elem_of_list_to_set). apply declares_elem in He as (x & Hx & <- & <-). by apply A1.
  - intros id Hi Hp'. apply (K2 id Hp'). by rewrite elem_of_list_to_set.
  - intros id Hi Hp'. rewrite K1 by (by right). by apply A2.
Qed.

(** A failed run leaves the state file as it was. *)
Lemma failed_state env w r w' : reconcile_run socket env w = (r, w') -> is_ok r = false -> rw_state w' = rw_state w.
Proof.
  intros H Hr. unfold reconcile_run, sbind at 1 in H. destruct (readManifest _) as [m|e|p]; cbn [slift] in H; [|by injection H as <- <-..].
  unfold sbind at 1 in H. destruct (readState _ _) as [previous|e|p]; cbn [slift] in H; [|by injection H as <- <-..].
  unfold sbind at 1 in H. destruct (apply_all _ _ w) as [r1 w1] eqn:E1. destruct (apply_all_spec _ _ _ _ E1) as (S1 & _).
  destruct r1; [|by injection H as <- <-..]. unfold sbind in H. destruct (prune _ _ _ w1) as [r2 w2] eqn:E2.
  destruct (prune_spec _ _ _ _ _ E2) as (S2 & _). destruct r2; [|injection H as <- <-; congruence..].
  unfold writeState in H. destruct (re_writeErr env), (re_renameErr env); injection H as <- <-; (congruence || discriminate Hr).
Qed.

(** A run that fails leaves the state file as it was, and whatever neither the
    manifest declares nor the state file lists as it was on the server. *)
Theorem failed_run_frame env w r w' : reconcile_run socket env w = (r, w') -> is_ok r = false ->
  rw_state w' = rw_state w /\
  forall id, (forall m, readManifest (re_manifest env) = Ok m -> id ∉ declared_ids m) ->
    (forall previous, readState (re_readErr env) (rw_state w) = Ok previous -> id ∉ previous) ->
    entries (rw_server w') !! id = entries (rw_server w) !! id.
Proof.
  intros H Hr. unfold reconcile_run, sbind at 1 in H. destruct (readManifest _) as [m|e|p]; cbn [slift] in H; [|by injection H as <- <-..].
  unfold sbind at 1 in H. destruct (readState _ _) as [previous|e|p]; cbn [slift] in H; [|by injection H as <- <-..].
  unfold sbind at 1 in H. destruct (apply_all socket (declared_list m) w) as [r1 w1] eqn:E1.
  destruct (apply_all_spec _ _ _ _ E1) as (S1 & _ & K1).
  assert (F1 : forall id, id ∉ declared_ids m -> entries (rw_server w1) !! id = entries (rw_server w) !! id) by done.
  destruct r1 as [current|e|p]; [|injection H as <- <-; split; [done|]; intros id Hm _; by apply F1, Hm..].
  unfold sbind in H. destruct (prune socket _ previous w1) as [r2 w2] eqn:E2. destruct (prune_spec _ _ _ _ _ E2) as (S2 & K2 & _).
  assert (F2 : rw_state w2 = rw_state w /\ forall id, id ∉ declared_ids m -> id ∉ previous ->
    entries (rw_server w2) !! id = entries (rw_server w) !! id).
  { split; [congruence|]. intros id Hi Hp. rewrite K2 by (by right). by apply F1. }
  assert (Hw : w' = w2).
  { destruct r2; [|by injection H as <- <-..]. unfold writeState in H.
    destruct (re_writeErr env), (re_renameErr env); injection H as <- <-; (done || discriminate Hr). }
  subst w'. split; [apply F2|]. intros id Hm Hp. apply F2; auto.
Qed.

(** C36: An entry of the state file that is gone from the server, by hand or by an
    earlier run that failed after deleting it, blocks every later run that does
    not declare it again: the run fails and the state file keeps the entry. *)
Theorem missing_stale_blocks env w r w' m previous id : reconcile_run socket env w = (r, w') ->
  readManifest (re_manifest env) = Ok m -> readState (re_readErr env) (rw_state w) = Ok previous ->
  id ∈ previous -> id ∉ declared_ids m -> entries (rw_server w) !! id = None ->
  is_ok r = false /\ rw_state w' = rw_state w.
Proof.
  intros H Hm Hp Hid Hni Hnone. assert (Hr : is_ok r = false).
  { unfold reconcile_run in H. rewrite Hm in H. unfold sbind at 1 in H. cbn [slift] in H. rewrite Hp in H. unfold sbind at 1 in H. cbn [slift] in H.
    destruct r as [[]|e|p]; [|done..]. exfalso. apply sbind_Ok in H as (current & w1 & H1 & H).
    apply sbind_Ok in H as ([] & w2 & H2 & _). destruct (apply_all_spec _ _ _ _ H1) as (_ & Hc & K1).
    destruct (Hc current eq_refl) as [-> _]. destruct (prune_spec _ _ _ _ _ H2) as (_ & _ & K2).
    destruct (K2 eq_refl id Hid) as [_ [e He]]; [by rewrite elem_of_list_to_set|]. rewrite K1 in He by done. congruence. }
  split; [done|]. by eapply failed_state.
Qed.

(** Successful runs with given manifests, oldest first. *)
Inductive history (w0 : world) : list manifest -> world -> Prop :=
| HistoryNil : history w0 [] w0
| HistoryRun ms w env m w' : history w0 ms w -> readManifest (re_manifest env) = Ok m -> distinct m ->
    reconcile_run socket env w = (Ok tt, w') -> history w0 (ms ++ [m]) w'.

(** What a run reads back is what the run before it declared. *)
Lemma history_state w0 ms w err ids : rw_state w0 = None -> history w0 ms w -> readState err (rw_state w) = Ok ids ->
  ids = from_option declared_ids [] (last ms).
Proof.
  intros H0 Hh. destruct Hh as [|ms w env m w' _ Hm Hd H]; [rewrite H0; by intros [= <-]|]. rewrite last_snoc.
  destruct (run_ok _ _ _ _ H Hm Hd) as (p & _ & -> & _). unfold readState. destruct err; [done|].
  pose proof (state_roundtrip m) as R. unfold readState in R. rewrite R. by intros [= <-].
Qed.

(** C21: From a server with no state file, any series of successful runs leaves on
    the server exactly the last manifest's entries among those ever declared,
    as they are declared there, and every other entry as it was. *)
Theorem registrations_track w0 ms w : rw_state w0 = None -> history w0 ms w -> forall id,
  (forall m e, last ms = Some m -> declares m id e -> entries (rw_server w) !! id = Some e) /\
  ((exists m e, m ∈ ms /\ declares m id e) -> (forall m e, last ms = Some m -> ~ declares m id e) ->
    entries (rw_server w) !! id = None) /\
  ((forall m e, m ∈ ms -> ~ declares m id e) -> entries (rw_server w) !! id = entries (rw_server w0) !! id).
Proof.
  intros H0 Hh id. induction Hh as [|ms w env m w' Hh IH Hm Hd H].
  { split; [done|]. split; [|done]. intros (m & e & Hx & _). by apply elem_of_nil in Hx. }
  destruct (run_ok _ _ _ _ H Hm Hd) as (previous & Hp & _ & K1 & K2 & K3). apply (history_state w0 ms) in Hp as ->; [|done..].
  rewrite last_snoc. destruct IH as (I1 & I2 & I3).
  assert (Hin : forall m, id ∉ declared_ids m <-> forall e, ~ declares m id e).
  { intros m'. rewrite declared_ids_elem. naive_solver. }
  split; [|split].
  - intros ? e [= <-]. apply K1.
  - intros (m0 & e0 & H1 & H2) Hno. specialize (Hno m). assert (Hi : id ∉ declared_ids m) by (apply Hin; naive_solver).
    destruct (decide (id ∈ from_option declared_ids [] (last ms))) as [Hl|Hl]; [by apply K2|]. rewrite K3 by done.
    apply I2; [|intros m' e' El; rewrite El in Hl; by apply Hin].
    apply elem_of_app in H1 as [H1|H1%list_elem_of_singleton]; [eauto|]. subst m0. by destruct (Hno e0 eq_refl).
  - intros Hno. rewrite K3; [apply I3; intros m' e' Hm'; apply Hno, elem_of_app; by left|..].
    + apply Hin. intros e. apply Hno, elem_of_app. right. by apply list_elem_of_singleton.
    + destruct (last ms) as [m'|] eqn:El; [|apply not_elem_of_nil]. apply Hin. intros e.
      apply Hno, elem_of_app. left. by apply last_Some_elem_of.
Qed.

(** C37: An entry a failed run created is not in the state file, so a later run that
    no longer declares it leaves it on the server. *)
Theorem failed_run_orphans env1 env2 w r w1 w2 m previous id :
  reconcile_run socket env1 w = (r, w1) -> is_ok r = false ->
  readState (re_readErr env2) (rw_state w) = Ok previous -> id ∉ previous ->
  reconcile_run socket env2 w1 = (Ok tt, w2) -> readManifest (re_manifest env2) = Ok m -> distinct m -> id ∉ declared_ids m ->
  entries (rw_server w2) !! id = entries (rw_server w1) !! id.
Proof.
  intros H1 Hr Hp Hid H2 Hm Hd Hni. pose proof (failed_state _ _ _ _ H1 Hr) as Hs.
  destruct (run_ok _ _ _ _ H2 Hm Hd) as (previous' & Hp' & _ & _ & _ & K). rewrite Hs in Hp'. apply K; congruence.
Qed.
End laws.

(** ** When a run succeeds *)

(** Entries the server takes for the same registration. *)
Definition similar (a b : registration) : Prop :=
  rg_ParentID a = rg_ParentID b /\ rg_SpiffeID a = rg_SpiffeID b /\ Permutation (rg_Selectors a) (rg_Selectors b).

(** A server that answers: [show] and [delete] find the entries there are, and
    an entry it accepts is created or updated unless another is similar. *)
Class SpireAnswers {SS : SpireServer} := {
  accepts : registration -> Prop;
  show_exit s k id : (cli s (show_args k id)).1 = None <-> is_Some (entries s !! id);
  create_exit s k id e : entries s !! id = None -> accepts e ->
    (forall id' e', entries s !! id' = Some e' -> ~ similar e' e) -> (cli s (apply_args "create" k id e)).1 = None;
  update_exit s k id e : is_Some (entries s !! id) -> accepts e ->
    (forall id' e', id' <> id -> entries s !! id' = Some e' -> ~ similar e' e) -> (cli s (apply_args "update" k id e)).1 = None;
  delete_exit s k id : is_Some (entries s !! id) -> (cli s (delete_args k id)).1 = None
}.

Section answers.
Context {SS : SpireServer} {SL : SpireLaws} {SA : SpireAnswers} (socket : string).

Lemma execute_exit args w : (cli (rw_server w) args).1 = None -> (execute args w).1 = Ok tt.
Proof. unfold execute. by destruct (cli _ _) as [[[e o]|] s]. Qed.

Lemma wrapped_ok {A} msg (f : SM world A) w a : (f w).1 = Ok a -> (wrapped msg f w).1 = Ok a.
Proof. unfold wrapped. by destruct (f w) as [[] ?]. Qed.

(** No other entry of the server is similar to [e]. *)
Definition unclashed (s : server) (id : string) (e : registration) : Prop :=
  forall id' e', id' <> id -> entries s !! id' = Some e' -> ~ similar e' e.

Lemma apply_live id node name e w : accepts e -> unclashed (rw_server w) id e -> (apply socket id node name e w).1 = Ok tt.
Proof.
  intros Ha Hu. unfold apply, sbind, succeeds. destruct (execute (show_args socket id) w) as [r1 w1] eqn:E1.
  destruct (execute_cli _ _ _ _ E1) as (o1 & s1 & C1 & <- & R1 & P1). pose proof (show_exit (rw_server w) socket id) as Hs.
  rewrite C1 in Hs. cbn [fst] in Hs. apply show_keeps in C1. unfold unclashed in Hu. rewrite <- C1 in Hs, Hu.
  destruct r1 as [[]|e1|p]; [| |discriminate P1]; apply wrapped_ok, execute_exit.
  - apply update_exit; [by apply Hs, R1|done..].
  - destruct (entries (rw_server w1) !! id) eqn:El; [discriminate (proj2 R1 (proj2 Hs (mk_is_Some _ _ eq_refl)))|].
    apply create_exit; [done..|]. intros id' e' He'. apply (Hu id'); [congruence|done].
Qed.

Lemma apply_all_live l : forall w, NoDup (declared_id <$> l) ->
  (forall x, x ∈ l -> accepts x.2 /\ unclashed (rw_server w) (declared_id x) x.2) ->
  (forall x y, x ∈ l -> y ∈ l -> declared_id x <> declared_id y -> ~ similar x.2 y.2) ->
  (apply_all socket l w).1 = Ok (declared_id <$> l).
Proof.
  induction l as [|[[node name] e] l IH]; intros w Hn Ha Hs; [done|]. cbn [apply_all fmap list_fmap] in *.
  apply NoDup_cons in Hn as [Hni Hn]. change (declared_id (node, name, e)) with (entry_id node name) in *.
  rewrite spireEntryID_ok. unfold sbind at 1. cbn [slift]. unfold sbind at 1.
  destruct (Ha (node, name, e)) as [Ha1 Ha2]; [by left|]. pose proof (apply_live _ node name e w Ha1 Ha2) as Hl.
  change (declared_id (node, name, e)) with (entry_id node name) in Hl.
  destruct (apply _ _ _ _ _ w) as [r1 w1] eqn:E1. cbn [fst] in Hl. subst r1.
  destruct (apply_spec _ _ _ _ _ _ _ _ E1) as [_ [[_ Hw]|[? _]]]; [|done].
  unfold sbind. assert (Hr : (apply_all socket l w1).1 = Ok (declared_id <$> l)); [|by destruct (apply_all socket l w1) as [r2 w2]; cbn [fst] in Hr; subst r2].
  apply IH; [done| |].
  - intros x Hx. destruct (Ha x) as [? Hu]; [by right|]. split; [done|]. intros id' e' Hne. rewrite Hw.
    destruct (decide (id' = entry_id node name)) as [->|Hd]; [|rewrite lookup_insert_ne by done; by apply Hu].
    rewrite lookup_insert_eq. intros [= <-]. apply (Hs (node, name, e) x); [by left|by right|done].
  - intros x y Hx Hy. apply Hs; by right.
Qed.

Lemma prune_live keep previous : forall w, NoDup previous ->
  (forall id, id ∈ previous -> id ∉ keep -> is_Some (entries (rw_server w) !! id)) -> (prune socket keep previous w).1 = Ok tt.
Proof.
  induction previous as [|x previous IH]; intros w Hn Hp; [done|]. cbn [prune].
  apply NoDup_cons in Hn as [Hx Hn]. case_bool_decide as Hk; [apply IH; [done|]; intros id Hid; apply Hp; by right|].
  unfold sbind. destruct (Hp x) as [e He]; [by left|done|].
  pose proof (delete_exit (rw_server w) socket x (mk_is_Some _ _ He)) as Hd. unfold wrapped, execute.
  destruct (cli _ _) as [[y|] s] eqn:E; [done|]. apply IH; [done|]. intros id Hid Hik. cbn [set_server rw_server].
  apply delete_ok in E as [_ ->]. rewrite lookup_delete_ne by congruence. apply Hp; [by right|done].
Qed.

(** C30: A run succeeds, and so has the effect of a successful run, when the files
    can be read and written, the declared entries are acceptable and clash with
    nothing, and the entries of the state file that the manifest drops are still
    on the server. *)
Theorem reconcile_succeeds env w m previous :
  readManifest (re_manifest env) = Ok m -> readState (re_readErr env) (rw_state w) = Ok previous -> distinct m -> NoDup previous ->
  re_writeErr env = None -> re_renameErr env = None ->
  (forall id, id ∈ previous -> (forall e, ~ declares m id e) -> is_Some (entries (rw_server w) !! id)) ->
  (forall id e, declares m id e -> accepts e /\
     (forall id' e', id' <> id -> entries (rw_server w) !! id' = Some e' \/ declares m id' e' -> ~ similar e' e)) ->
  exists w', reconcile_run socket env w = (Ok tt, w').
Proof.
  intros Hm Hp Hd Hn Hw Hrn Hst Hok. unfold reconcile_run. rewrite Hm. unfold sbind at 1. cbn [slift]. rewrite Hp. unfold sbind at 1. cbn [slift].
  assert (Hdec : forall x, x ∈ declared_list m -> declares m (declared_id x) x.2) by (intros x Hx; apply declares_elem; eauto).
  assert (L1 : (apply_all socket (declared_list m) w).1 = Ok (declared_ids m)).
  { apply apply_all_live; [done| |].
    - intros x Hx. destruct (Hok _ _ (Hdec x Hx)) as [? H]. split; [done|]. intros id' e' Hne He. apply (H id'); auto.
    - intros x y Hx Hy Hne. destruct (Hok _ _ (Hdec y Hy)) as [_ H]. apply (H (declared_id x)); auto. }
  unfold sbind at 1. destruct (apply_all socket (declared_list m) w) as [r1 w1] eqn:E1. cbn [fst] in L1. subst r1.
  destruct (apply_all_spec _ _ _ _ _ E1) as (_ & _ & K1). fold (declared_ids m) in K1.
  assert (L2 : (prune socket (list_to_set (declared_ids m)) previous w1).1 = Ok tt).
  { apply prune_live; [done|]. intros id Hid Hk. rewrite elem_of_list_to_set in Hk. rewrite K1 by done. apply Hst; [done|].
    intros e He. apply Hk, declared_ids_elem. eauto. }
  unfold sbind. destruct (prune _ _ _ w1) as [r2 w2]. cbn [fst] in L2. subst r2. unfold writeState. rewrite Hw, Hrn. eauto.
Qed.
End answers.

(** ** A server in memory, and the properties at concrete runs *)
Module RegisterExamples.

Fixpoint selectors_of (args : list string) : list string :=
  match args with _ :: s :: args' => s :: selectors_of args' | _ => [] end.

(** It takes SPIFFE identities of its own trust domain, and no two similar
    entries. *)
Definition taken (s : gmap string registration) (id : string) (e : registration) : bool :=
  existsb (fun x : string * registration => (x.1 <>? id) && (rg_ParentID x.2 =? rg_ParentID e) &&
    (rg_SpiffeID x.2 =? rg_SpiffeID e) && bool_decide (Permutation (rg_Selectors x.2) (rg_Selectors e))) (map_to_list s).

Definition own (e : registration) : bool := hasPrefix (rg_SpiffeID e) "spiffe://nyaw.xyz/".

Definition mem_cli (s : gmap string registration) (args : list string) : option (error * string) * gmap string registration :=
  let failed := (Some (ErrNew "exit status 1", "Error"), s) in
  match args with
  | [_; verb; _; _; _; id] =>
      if bool_decide (is_Some (s !! id)) then (None, if verb =? "delete" then delete id s else s) else failed
  | _ :: verb :: _ :: _ :: _ :: id :: _ :: parent :: _ :: spiffe :: _ :: _ :: args' =>
      let e := Registration parent spiffe (selectors_of args') in
      if ((verb =? "update") && bool_decide (is_Some (s !! id)) || (verb =? "create") && negb (bool_decide (is_Some (s !! id)))) &&
         own e && negb (taken s id e)
      then (None, <[id := e]> s) else failed
  | _ => (None, s)
  end.

#[local] Instance mem_server : SpireServer := {| server := gmap string registration; cli := mem_cli; entries := fun s => s |}.

Lemma selectors_of_args l : selectors_of (l ≫= fun s => ["-selector"; s]) = l.
Proof. induction l as [|x l IH]; [done|]. cbn. by f_equal. Qed.

Lemma mem_apply s verb k id e : mem_cli s (apply_args verb k id e) =
  if ((verb =? "update") && bool_decide (is_Some (s !! id)) || (verb =? "create") && negb (bool_decide (is_Some (s !! id)))) &&
     own e && negb (taken s id e)
  then (None, <[id := e]> s) else (Some (ErrNew "exit status 1", "Error"), s).
Proof.
  destruct e as [p sp sel]. unfold apply_args, mem_cli. cbn [app rg_ParentID rg_SpiffeID rg_Selectors].
  by rewrite selectors_of_args.
Qed.

Lemma mem_delete s k id : mem_cli s (delete_args k id) =
  if bool_decide (is_Some (s !! id)) then (None, delete id s) else (Some (ErrNew "exit status 1", "Error"), s).
Proof. done. Qed.

#[local] Instance mem_laws : SpireLaws.
Proof.
  constructor; cbn [cli entries mem_server].
  - intros s k id o s'. cbn. case_bool_decide; by intros [= <- <-].
  - intros s verb k id e s' _. rewrite mem_apply. by destruct (_ && _ && _); intros [= <-].
  - intros s verb k id e x s' _. rewrite mem_apply. by destruct (_ && _ && _); intros [= <- <-].
  - intros s k id s'. rewrite mem_delete. by case_bool_decide; intros [= <-].
  - intros s k id x s'. rewrite mem_delete. by case_bool_decide; intros [= <- <-].
Qed.

Lemma not_taken s id e : (forall id' e', id' <> id -> s !! id' = Some e' -> ~ similar e' e) -> taken s id e = false.
Proof.
  intros H. unfold taken. apply not_true_iff_false. rewrite existsb_exists. intros ([id' e'] & Hin & Ht).
  apply list_elem_of_In, elem_of_map_to_list in Hin. cbn [fst snd] in Ht. bspec in Ht. destruct Ht as [[[H1 H2] H3] H4].
  apply (H id' e'); [done..|]. by split.
Qed.

#[local] Instance mem_answers : SpireAnswers.
Proof.
  refine {| accepts e := own e = true |}; cbn [cli entries mem_server].
  - intros s k id. cbn. by case_bool_decide.
  - intros s k id e Hn Ho Hu. rewrite mem_apply, Hn, Ho, not_taken; [done|]. intros id' e' _. apply Hu.
  - intros s k id e Hn Ho Hu. rewrite mem_apply, (bool_decide_eq_true_2 _ Hn), Ho, not_taken; done.
  - intros s k id Hs. rewrite mem_delete. by rewrite bool_decide_eq_true_2.
Defined.

Definition entry_json (spiffe selector : string) : json :=
  JObj [("parentID", JStr "spiffe://nyaw.xyz/agent/hastur"); ("spiffeID", JStr spiffe); ("selectors", JArr [JStr selector])].
Definition env_of (l : list (string * json)) : runEnv := RunEnv (Ok (marshal (JObj [("hastur", JObj l)]))) None None None.
Definition dns_json := entry_json "spiffe://nyaw.xyz/workload/dns" "systemd:id:dns.service".
Definition env1 := env_of [("dns", dns_json); ("mail", entry_json "spiffe://nyaw.xyz/workload/mail" "systemd:id:mail.service")].
Definition env2 := env_of [("dns", entry_json "spiffe://nyaw.xyz/workload/dns" "systemd:id:resolver.service")].
Definition env_foreign := env_of [("dns", dns_json); ("mail", entry_json "spiffe://example.org/mail" "systemd:id:mail.service")].
Definition env_empty := env_of [].
Definition manifest_of (env : runEnv) : manifest := match readManifest (re_manifest env) with Ok m => m | _ => ∅ end.

Definition by_hand : registration := Registration "spiffe://nyaw.xyz/agent/kaambl" "spiffe://nyaw.xyz/workload/extra" ["unix:uid:0"].
Definition w0 : world := World ({["by-hand" := by_hand]} : gmap string registration) None.
Definition socket := "/run/spire/server.sock".
Definition after (env : runEnv) (w : world) : world := (reconcile_run socket env w).2.
Definition dns_id := entry_id "hastur" "dns".
Definition mail_id := entry_id "hastur" "mail".

Lemma distinct_check m : bool_decide (NoDup (declared_ids m)) = true -> distinct m.
Proof. apply bool_decide_eq_true_1. Qed.

Lemma declares_check m node name es e : m !! node = Some es -> es !! name = Some e -> declares m (entry_id node name) e.
Proof. intros H1 H2. exists node, name, es. split; [exact H1|]. split; [exact H2|reflexivity]. Qed.

Lemma not_declared m id : bool_decide (id ∈ declared_ids m) = false -> id ∉ declared_ids m.
Proof. apply bool_decide_eq_false_1. Qed.

Lemma undeclared m id : bool_decide (id ∈ declared_ids m) = false -> forall e, ~ declares m id e.
Proof. intros H e He. apply (bool_decide_eq_false_1 _ H), declared_ids_elem. eauto. Qed.

Lemma history_step ms w env : history socket w0 ms w -> is_ok (readManifest (re_manifest env)) = true ->
  bool_decide (NoDup (declared_ids (manifest_of env))) = true -> is_ok (reconcile_run socket env w).1 = true ->
  history socket w0 (ms ++ [manifest_of env]) (after env w).
Proof.
  intros Hh Hm Hd Hr. apply (HistoryRun _ _ _ w env); [done| |by apply distinct_check|].
  - unfold manifest_of. by destruct (readManifest _).
  - unfold after. destruct (reconcile_run socket env w) as [[[]| |] w'] eqn:E; done.
Qed.

(** The mail entry is dropped, the dns entry updated, the one made by hand kept. *)
Lemma registrations_track_witness :
  entries (rw_server (after env2 (after env1 w0))) !! mail_id = None /\
  entries (rw_server (after env2 (after env1 w0))) !! dns_id =
    Some (Registration "spiffe://nyaw.xyz/agent/hastur" "spiffe://nyaw.xyz/workload/dns" ["systemd:id:resolver.service"]) /\
  entries (rw_server (after env2 (after env1 w0))) !! "by-hand" = Some by_hand.
Proof.
  assert (Hh : history socket w0 ([manifest_of env1] ++ [manifest_of env2]) (after env2 (after env1 w0))).
  { apply history_step; [apply (history_step []); [constructor|..]|..]; vm_compute; reflexivity. }
  pose proof (registrations_track socket w0 _ _ eq_refl Hh) as T. split; [|split].
  - apply (proj1 (proj2 (T mail_id))).
    + eexists (manifest_of env1), _. split; [left|]. eapply declares_check; vm_compute; reflexivity.
    + intros m e Hm. change (Some (manifest_of env2) = Some m) in Hm. apply Some_inj in Hm as <-. apply undeclared. vm_compute. reflexivity.
  - eapply (proj1 (T dns_id)); [reflexivity|]. eapply declares_check; vm_compute; reflexivity.
  - rewrite (proj2 (proj2 (T "by-hand"))); [vm_compute; reflexivity|]. intros m e Hm. apply undeclared.
    apply elem_of_cons in Hm as [->|Hm%list_elem_of_singleton]; [|subst m]; vm_compute; reflexivity.
Defined.

Lemma run_eta env w : reconcile_run socket env w = ((reconcile_run socket env w).1, after env w).
Proof. apply surjective_pairing. Qed.

(** The second declared entry is refused; the first stays on the server after
    a later run declares nothing at all. *)
Lemma failed_run_orphans_witness :
  entries (rw_server (after env_empty (after env_foreign w0))) !! dns_id =
    Some (Registration "spiffe://nyaw.xyz/agent/hastur" "spiffe://nyaw.xyz/workload/dns" ["systemd:id:dns.service"]).
Proof.
  rewrite (failed_run_orphans socket env_foreign env_empty w0 _ _ _ (manifest_of env_empty) [] dns_id (run_eta _ _));
    [vm_compute; reflexivity|..].
  - vm_compute. reflexivity.
  - reflexivity.
  - apply not_elem_of_nil.
  - rewrite run_eta. apply (f_equal (fun r => (r, _))). vm_compute. reflexivity.
  - vm_compute. reflexivity.
  - apply distinct_check. vm_compute. reflexivity.
  - apply not_declared. vm_compute. reflexivity.
Defined.

Definition stale : world := World (∅ : gmap string registration) (Some (state_text [mail_id])).

Lemma missing_stale_blocks_witness :
  is_ok (reconcile_run socket env2 stale).1 = false /\ rw_state (after env2 stale) = Some (state_text [mail_id]).
Proof.
  apply (missing_stale_blocks socket env2 stale _ _ (manifest_of env2) [mail_id] mail_id (run_eta _ _)).
  - vm_compute. reflexivity.
  - vm_compute. reflexivity.
  - by apply list_elem_of_singleton.
  - apply not_declared. vm_compute. reflexivity.
  - reflexivity.
Defined.

Lemma failed_run_frame_witness :
  is_ok (reconcile_run socket env_foreign w0).1 = false /\
  entries (rw_server (after env_foreign w0)) !! "by-hand" = Some by_hand.
Proof.
  split; [vm_compute; reflexivity|].
  rewrite (proj2 (failed_run_frame socket env_foreign w0 _ _ (run_eta _ _) ltac:(vm_compute; reflexivity)) "by-hand"); [vm_compute; reflexivity|..].
  - intros m Hm. replace m with (manifest_of env_foreign) by (unfold manifest_of; by rewrite Hm). apply not_declared. vm_compute. reflexivity.
  - intros previous [= <-]. apply not_elem_of_nil.
Defined.

Lemma dns_declared id e : declares (manifest_of env2) id e ->
  id = dns_id /\ e = Registration "spiffe://nyaw.xyz/agent/hastur" "spiffe://nyaw.xyz/workload/dns" ["systemd:id:resolver.service"].
Proof.
  intros (x & Hx & <- & <-)%declares_elem.
  replace (declared_list (manifest_of env2)) with
    [("hastur", "dns", Registration "spiffe://nyaw.xyz/agent/hastur" "spiffe://nyaw.xyz/workload/dns" ["systemd:id:resolver.service"])] in Hx
    by (vm_compute; reflexivity).
  apply list_elem_of_singleton in Hx as ->. split; reflexivity.
Qed.

Lemma reconcile_succeeds_witness : exists w', reconcile_run socket env2 w0 = (Ok tt, w').
Proof.
  apply (reconcile_succeeds socket env2 w0 (manifest_of env2) []).
  - vm_compute. reflexivity.
  - reflexivity.
  - apply distinct_check. vm_compute. reflexivity.
  - constructor.
  - reflexivity.
  - reflexivity.
  - intros id Hid. by apply elem_of_nil in Hid.
  - intros id e [-> ->]%dns_declared. split; [reflexivity|]. intros id' e' Hne [He|[-> _]%dns_declared]; [|done].
    change (({["by-hand" := by_hand]} : gmap string registration) !! id' = Some e') in He. apply lookup_singleton_Some in He as [_ <-]. intros [Hp _]. discriminate Hp.
Defined.
End RegisterExamples.
