(* ===== verification/HelperGate.v ===== *)
(** * The readiness gate between realm-agent and a workload's launcher

    Models the gate's protocol: the connections [controller.serve] of
    [src/pkgs/realm-agent/agent.go] accepts and answers, its client [gate] in
    the same file, and the client [waitAgent] of
    [src/pkgs/realm-helper/container.go].  Clocks, dial outcomes and what a peer
    sends are inputs. *)

From S2P Require Import Prelude GoStrings AgentConfig AgentCgroup AgentController.

Open Scope Z_scope.
Open Scope go_scope.

(** ** Reading the answer *)

(** What a connection delivers before it ends with an error or [io.EOF]. *)
Record stream := Stream { st_data : string; st_end : error }.

Definition newline : ascii := char 10.

(** [bufio.NewReader(io.LimitReader(conn, 4096)).ReadString('\n')] *)
Definition readString (s : stream) : string * option error :=
  let limited := limitReader 4096 (st_data s) in
  match cut newline limited with
  | Some (line, _) => (line +:+ String newline "", None)
  | None => (limited, Some (if 4096 <=? len (st_data s) then ErrEOF else st_end s))
  end.

(** ** [waitAgent] *)

(** One turn of the loop: the time of its test, and the connection when the
    dial succeeds. *)
Record attempt := Attempt { at_now : Z; at_conn : option stream }.

(** [None]: still waiting when the attempts end. *)
Fixpoint wait_agent_loop (deadline : Z) (l : list attempt) : option (result unit) :=
  match l with
  | [] => None
  | a :: l' =>
      if at_now a <? deadline then
        match at_conn a with
        | None => wait_agent_loop deadline l'
        | Some conn =>
            match readString conn with
            | (_, Some e) => Some (Err (ErrWrap "realm agent readiness" e))
            | (line, None) =>
                if line <>? ready_line then Some (Err (ErrNew ("realm agent refused readiness: " +:+ line))) else Some (Ok tt)
            end
        end
      else Some (Err (ErrNew "timed out waiting for Realm agent"))
  end.

Definition waitAgent (start : Z) (l : list attempt) : option (result unit) := wait_agent_loop (start + 60 * Second) l.

(** ** [gate] *)
Inductive poll :=
| PollConn (conn : stream)
| PollRetry
| PollDone (e : error).

Fixpoint gate (l : list poll) : option (result unit) :=
  match l with
  | [] => None
  | PollConn conn :: _ =>
      match readString conn with
      | (_, Some e) => Some (Err e)
      | (line, None) =>
          if line <>? ready_line then Some (Err (ErrNew ("agent refused: " +:+ trimSpace line))) else Some (Ok tt)
      end
  | PollRetry :: l' => gate l'
  | PollDone e :: _ => Some (Err e)
  end.

(** ** [controller.serve] *)
Section serve.
(** [error.Error]. *)
Context (text : error -> string).

Definition gate_reply (prepared : result unit) : string :=
  match prepared with
  | Ok _ => ready_line
  | Err e => "ERROR " +:+ text e +:+ String newline ""
  | Panic _ => ""
  end.

(** The handlers running, what each connection was sent, and which are closed. *)
Record serving := Serving { sv_active : gset nat; sv_sent : gmap nat string; sv_closed : gset nat }.

(** A connection is accepted; the handler of one ends, [prepare] having
    returned. *)
Inductive serve_event := Accepted (conn : nat) | Prepared (conn : nat) (r : result unit).

Definition serve_step (s : serving) (ev : serve_event) : serving :=
  match ev with
  | Accepted conn =>
      if (size (sv_active s) <? 16)%nat then Serving ({[conn]} ∪ sv_active s) (sv_sent s) (sv_closed s)
      else Serving (sv_active s) (sv_sent s) ({[conn]} ∪ sv_closed s)
  | Prepared conn r =>
      if bool_decide (conn ∈ sv_active s) then
        Serving (sv_active s ∖ {[conn]}) (<[conn := gate_reply r]> (sv_sent s)) ({[conn]} ∪ sv_closed s)
      else s
  end.

Definition serve_run (l : list serve_event) : serving := foldl serve_step (Serving ∅ ∅ ∅) l.
End serve.

(** ** Properties *)
Lemma limitReader_prefix s : forall n, exists r, s = limitReader n s +:+ r.
Proof.
  induction s as [|c s IH]; intros n; [by exists ""|]. cbn [limitReader]. destruct (n <=? 0); [by exists (String c s)|].
  destruct (IH (n - 1)) as [r Hr]. exists r. rewrite append_cons. by f_equal.
Qed.

Lemma cut_newline s a b : cut newline s = Some (a, b) -> s = a +:+ String newline b.
Proof.
  revert a. induction s as [|c s IH]; intros a H; cbn [cut] in H; [done|]. case_bool_decide as Hc; [by injection H as <- <-; subst c|].
  destruct (cut newline s) as [[a' b']|]; [|done]. injection H as <- <-. rewrite append_cons. f_equal. by apply IH.
Qed.

(** The answer is accepted exactly when it starts with the ready line. *)
Lemma readString_ready s : readString s = (ready_line, None) <-> hasPrefix (st_data s) ready_line = true.
Proof.
  unfold readString. rewrite hasPrefix_spec. destruct s as [data e]. cbn [st_data st_end]. split.
  - destruct (cut newline _) as [[line rest]|] eqn:E; [|done]. intros [= Hl]. destruct (limitReader_prefix data 4096) as [r Hr].
    apply cut_newline in E. rewrite E in Hr. exists (rest +:+ r). by rewrite Hr, <- Hl, !append_assoc, !append_cons, append_nil_l.
  - intros [r ->]. reflexivity.
Qed.

(** An attempt that cannot connect, before the deadline. *)
Definition fruitless (deadline : Z) (a : attempt) : Prop := at_now a < deadline /\ at_conn a = None.

Lemma waitAgent_ready start l : waitAgent start l = Some (Ok tt) <->
  exists pre now conn post, l = pre ++ Attempt now (Some conn) :: post /\
    Forall (fruitless (start + 60 * Second)) pre /\ now < start + 60 * Second /\
    hasPrefix (st_data conn) ready_line = true.
Proof.
  unfold waitAgent. set (d := start + 60 * Second). clearbody d. induction l as [|[now c] l IH].
  { split; [done|]. intros (pre & now & conn & post & H & _). by destruct pre. }
  cbn [wait_agent_loop at_now at_conn]. destruct (Z.ltb_spec now d) as [Hn|Hn]; [|split; [done|]].
  - destruct c as [conn|].
    + split.
      * intros H. exists [], now, conn, l. split; [done|]. split; [done|]. split; [done|]. apply readString_ready.
        destruct (readString conn) as [line [e|]]; [done|]. case_bool_decide; [by subst|done].
      * intros (pre & now' & conn' & post & Hl & Hp & _ & Hr). destruct pre as [|a pre].
        -- injection Hl as -> -> ->. apply readString_ready in Hr. by rewrite Hr, bool_decide_eq_true_2.
        -- injection Hl as <- ->. apply Forall_cons in Hp as [[_ Hc] _]. done.
    + rewrite IH. split.
      * intros (pre & now' & conn' & post & -> & Hp & H). exists (Attempt now None :: pre), now', conn', post.
        split; [done|]. split; [constructor; done|done].
      * intros (pre & now' & conn' & post & Hl & Hp & H). destruct pre as [|a pre]; [done|]. injection Hl as <- ->.
        apply Forall_cons in Hp as [_ Hp]. by exists pre, now', conn', post.
  - intros (pre & now' & conn' & post & Hl & Hp & Hd & _). destruct pre as [|a pre]; [injection Hl as -> -> ->; lia|].
    injection Hl as <- ->. apply Forall_cons in Hp as [[Hc _] _]. cbn in Hc. lia.
Qed.

(** [waitAgent] lets the launcher go on exactly when the first connection it
    gets, opened within a minute of the start, begins with the ready line. *)
Theorem waitAgent_correct start l : waitAgent start l = Some (Ok tt) <->
  exists pre now conn post, l = pre ++ Attempt now (Some conn) :: post /\
    Forall (fruitless (start + 60 * Second)) pre /\ now < start + 60 * Second /\
    hasPrefix (st_data conn) ready_line = true.
Proof. apply waitAgent_ready. Qed.

(** Consecutive tests are a failed dial's pause apart. *)
Fixpoint spaced (from : Z) (l : list attempt) : Prop :=
  match l with
  | [] => True
  | a :: l' => from <= at_now a /\ spaced (at_now a + Second / 10) l'
  end.

Lemma wait_agent_bound d l : forall from, spaced from l -> d <= from + Z.of_nat (length l - 1) * (Second / 10) -> l <> [] ->
  exists r, wait_agent_loop d l = Some r.
Proof.
  induction l as [|[now c] l IH]; intros from Hs Hd Hne; [done|]. destruct Hs as [Hf Hs].
  cbn [wait_agent_loop at_now at_conn length] in *. destruct (Z.ltb_spec now d) as [Hn|Hn]; [|eauto].
  destruct c as [conn|]; [destruct (readString conn) as [line [e|]]; [eauto|]; case_bool_decide; eauto|].
  change (Second / 10) with 100000000 in *. destruct l as [|a l]; [cbn [length] in Hd; lia|]. apply (IH (now + 100000000)); [done| |done].
  cbn [length] in *. lia.
Qed.

(** [waitAgent] returns after at most 601 turns of its loop, each failed dial
    being followed by its pause of a tenth of a second. *)
Theorem waitAgent_terminates start l : spaced start l -> (601 <= length l)%nat -> exists r, waitAgent start l = Some r.
Proof.
  intros Hs Hl. apply (wait_agent_bound _ _ start Hs); [|by destruct l; cbn in Hl; [lia|]].
  change (Second / 10) with 100000000. change Second with 1000000000. lia.
Qed.

Section serve_laws.
Context (text : error -> string).

(** No error text makes a refusal read as readiness. *)
Lemma reply_ready prepared e : readString (Stream (gate_reply text prepared) e) = (ready_line, None) <-> prepared = Ok tt.
Proof.
  rewrite readString_ready. cbn [st_data]. destruct prepared as [[]|x|m]; done.
Qed.

Lemma serve_run_snoc l ev : serve_run text (l ++ [ev]) = serve_step text (serve_run text l) ev.
Proof. unfold serve_run. by rewrite foldl_app. Qed.

Lemma serve_inv l : let s := serve_run text l in
  (size (sv_active s) <= 16)%nat /\
  (forall conn, conn ∈ sv_active s -> Accepted conn ∈ l) /\
  (forall conn d, sv_sent s !! conn = Some d -> exists r, Prepared conn r ∈ l /\ Accepted conn ∈ l /\ d = gate_reply text r).
Proof.
  induction l as [|ev l IH] using rev_ind; cbn zeta in *.
  { split; [vm_compute; lia|]. split; [intros conn H; by apply elem_of_empty in H|done]. }
  rewrite serve_run_snoc. set (s := serve_run text l) in *. destruct IH as (H1 & H2 & H3).
  assert (H2' : forall conn, conn ∈ sv_active s -> Accepted conn ∈ l ++ [ev]) by (intros; apply elem_of_app; auto).
  assert (H3' : forall conn d, sv_sent s !! conn = Some d ->
    exists r, Prepared conn r ∈ l ++ [ev] /\ Accepted conn ∈ l ++ [ev] /\ d = gate_reply text r).
  { intros conn d (r & ? & ? & ->)%H3. exists r. split_and!; [apply elem_of_app; auto..|done]. }
  assert (Hev : ev ∈ l ++ [ev]) by (apply elem_of_app; right; by apply list_elem_of_singleton).
  destruct ev as [conn|conn r]; cbn [serve_step].
  - destruct (Nat.ltb_spec (size (sv_active s)) 16) as [Hlt|Hlt]; cbn [sv_active sv_sent]; [|done].
    split; [|split; [|done]].
    + pose proof (size_union_alt {[conn]} (sv_active s)) as E. pose proof (subseteq_size (sv_active s ∖ {[conn]}) (sv_active s) ltac:(set_solver)).
      rewrite E, size_singleton. lia.
    + intros c [->%elem_of_singleton|?]%elem_of_union; auto.
  - case_bool_decide as Hc; [|done]. cbn [sv_active sv_sent]. split; [|split].
    + pose proof (subseteq_size (sv_active s ∖ {[conn]}) (sv_active s) ltac:(set_solver)). lia.
    + intros c [? _]%elem_of_difference. auto.
    + intros c d. destruct (decide (conn = c)) as [->|Hne]; [|rewrite lookup_insert_ne by done; apply H3'].
      rewrite lookup_insert_eq. intros [= <-]. exists r. auto.
Qed.

(** At most sixteen gate handlers run at once; a connection beyond them is
    closed and sent nothing. *)
Theorem serve_bounded l conn : (size (sv_active (serve_run text l)) <= 16)%nat /\
  (size (sv_active (serve_run text l)) = 16%nat ->
    let s := serve_run text (l ++ [Accepted conn]) in
    conn ∈ sv_closed s /\ sv_active s = sv_active (serve_run text l) /\ sv_sent s = sv_sent (serve_run text l)).
Proof.
  split; [apply serve_inv|]. intros E. cbn zeta. rewrite serve_run_snoc. cbn [serve_step]. rewrite E.
  cbn [Nat.ltb Nat.leb sv_closed sv_active sv_sent]. split; [set_solver|done].
Qed.

(** C24: A launcher passes the gate only when the agent accepted its connection and
    [prepare] succeeded for it. *)
Theorem gate_end_to_end l conn e start attempts :
  (forall a, a ∈ attempts -> match at_conn a with
     | Some c => c = Stream (default "" (sv_sent (serve_run text l) !! conn)) e | None => True end) ->
  waitAgent start attempts = Some (Ok tt) -> Accepted conn ∈ l /\ Prepared conn (Ok tt) ∈ l.
Proof.
  intros Ha (pre & now & c & post & -> & _ & _ & Hr)%waitAgent_ready.
  pose proof (Ha (Attempt now (Some c)) ltac:(apply elem_of_app; right; by left)) as Hc. cbn [at_conn] in Hc. subst c. cbn [st_data] in Hr.
  destruct (sv_sent (serve_run text l) !! conn) as [d|] eqn:E; [|done].
  destruct (serve_inv l) as (_ & _ & H). destruct (H conn d E) as (r & Hp & Hac & ->).
  apply (readString_ready (Stream (gate_reply text r) e)), reply_ready in Hr as ->. done.
Qed.
End serve_laws.

(** ** The properties at concrete runs *)
Module GateExamples.

(** A dial that fails every tenth of a second. *)
Definition failing (n : nat) (from : Z) : list attempt :=
  (fun i => Attempt (from + Z.of_nat i * (Second / 10)) None) <$> seq 0 n.

Lemma failing_spaced n : forall from, spaced from (failing n from).
Proof.
  induction n as [|n IH]; intros from; [done|]. unfold failing. cbn [seq fmap list_fmap spaced at_now]. split; [lia|].
  replace (from + Z.of_nat 0 * (Second / 10) + Second / 10) with (from + Second / 10) by lia.
  rewrite <- seq_shift, <- list_fmap_compose.
  replace ((_ ∘ S) <$> seq 0 n) with (failing n (from + Second / 10)); [apply IH|].
  apply list_fmap_ext. intros i j _. unfold compose. f_equal. lia.
Qed.

Lemma waitAgent_terminates_witness : exists r, waitAgent 0 (failing 601 0) = Some r.
Proof. apply waitAgent_terminates; [apply failing_spaced|vm_compute; lia]. Defined.

Definition text (e : error) : string := match e with ErrNew m => m | _ => "error" end.

Definition full : list serve_event := Accepted <$> seq 0 16.

Lemma serve_bounded_witness : 99%nat ∈ sv_closed (serve_run text (full ++ [Accepted 99])).
Proof. apply (serve_bounded text full 99). vm_compute. reflexivity. Defined.

Definition log : list serve_event :=
  [Accepted 1; Accepted 2; Prepared 2 (Err (ErrNew "READY")); Prepared 1 (Ok tt)].

Lemma gate_end_to_end_witness : Accepted 1 ∈ log /\ Prepared 1 (Ok tt) ∈ log.
Proof.
  apply (gate_end_to_end text log 1 ErrEOF 0 [Attempt 0 None; Attempt Second (Some (Stream ready_line ErrEOF))]).
  - intros a [->|[->|Ha%elem_of_nil]%elem_of_cons]%elem_of_cons; [done|vm_compute; reflexivity|done].
  - vm_compute. reflexivity.
Defined.
End GateExamples.
