(* ===== verification/HelperProcess.v ===== *)
(** * realm-helper: the process adapters

    Models the rest of [src/pkgs/realm-helper]: the command line of
    [main.go], socket activation ([activation.go]), [bridge.go], the accept loop of
    [proxy.go], the container entrypoint adapter
    ([container.go]) and [waitspire.go].  The environment, files, clocks and the
    outcomes of system calls are inputs; goroutines that serve a listener for
    the life of the process are recorded as bridges. *)

From S2P Require Import Prelude ActionLog GoStrings GoFlag Json NetIP AgentConfig AgentController HelperRegister HelperGate.

Open Scope Z_scope.
Open Scope go_scope.

(** ** [main.go] *)
Definition requireFlags (values : gmap string string) : option error :=
  match List.find (fun name => default "" (values !! name) =? "") (sortedKeys values) with
  | Some name => Some (ErrNew ("--" +:+ name +:+ " is required"))
  | None => None
  end.

(** The exit code and the error of a subcommand; the subcommands themselves are
    the arguments.  [main] never calls it without an argument. *)
Definition run (bridge register waitSpire : list string -> option error) (launch : list string -> Z * option error)
    (args : list string) : Z * option error :=
  match args with
  | [] => (2, Some (ErrNew "index out of range"))
  | name :: rest =>
      if name =? "bridge" then (0, bridge rest)
      else if name =? "launch" then launch rest
      else if name =? "spire-register" then (0, register rest)
      else if name =? "wait-spire-agent" then (0, waitSpire rest)
      else if (name =? "help") || (name =? "-h") || (name =? "--help") then (0, None)
      else (2, Some (ErrNew ("unknown subcommand " +:+ name)))
  end.

(** [main], on the arguments after the program's name. *)
Definition main_exit (bridge register waitSpire : list string -> option error) (launch : list string -> Z * option error)
    (args : list string) : Z :=
  if Z.of_nat (length args) =? 0 then 2
  else match run bridge register waitSpire launch args with
       | (code, Some _) => if code =? 0 then 1 else code
       | (code, None) => code
       end.

(** ** [activation.go] *)
Record activatedSocket := ActivatedSocket { as_name : string; as_fd : Z }.

Definition getenv (env : gmap string string) (name : string) : string := default "" (env !! name).

(** The digits up to the first that leaves 64 bits, [None] on another byte. *)
Fixpoint scan_digits (acc : Z) (s : string) : option Z :=
  match s with
  | EmptyString => Some acc
  | String c s' =>
      if is_digit c then
        let n := acc * 10 + (code c - 48) in
        if 2 ^ 64 <=? n then Some n else scan_digits n s'
      else None
  end.

(** The value [strconv.Atoi] returns beside its error: the nearest bound when
    the digits are out of range, zero when there is another byte. *)
Definition atoi_value (s : string) : Z :=
  let '(negative, digits) := if hasPrefix s "-" then (true, drop 1 s) else (false, trimPrefix s "+") in
  if digits =? "" then 0
  else match scan_digits 0 digits with
       | Some n => if negative then Z.max minInt64 (- n) else Z.min maxInt64 n
       | None => 0
       end.

(** The size of one element of the slice, and the largest allocation of the
    64-bit Linux runtime. *)
Definition socket_size : Z := 24.
Definition maxAlloc : Z := 2 ^ 48.

Definition socket_at (names : list string) (i : nat) : activatedSocket :=
  let name := match names !! i with
              | Some n => if n <>? "" then n else "fd" +:+ itoa (Z.of_nat i)
              | None => "fd" +:+ itoa (Z.of_nat i)
              end in
  ActivatedSocket name (3 + Z.of_nat i).

Definition activatedSockets (pid : Z) : SM (gmap string string) (list activatedSocket) := fun env =>
  let count := atoi_value (getenv env "LISTEN_FDS") in
  if (count <=? 0) || (getenv env "LISTEN_PID" <>? itoa pid)
  then (Err (ErrNew "not started by systemd socket activation"), env)
  else
    let names := split ":"%char (getenv env "LISTEN_FDNAMES") in
    let env' := delete "LISTEN_FDNAMES" (delete "LISTEN_FDS" (delete "LISTEN_PID" env)) in
    if maxAlloc <? count * socket_size then (Panic "makeslice: cap out of range", env')
    else (Ok (socket_at names <$> seq 0 (Z.to_nat count)), env').

(** ** [bridge.go] *)

(** A listener served for the life of the process. *)
Record bridge := Bridge { br_listener : string; br_target : string }.

(** [net.FileListener] on each descriptor in turn. *)
Fixpoint listen_all (fileListener : Z -> option error) (target : string) (l : list activatedSocket) : result (list bridge) :=
  match l with
  | [] => Ok []
  | s :: l' =>
      match fileListener (as_fd s) with
      | Some e => Err e
      | None => let! rest := listen_all fileListener target l' in Ok (Bridge (as_name s) target :: rest)
      end
  end.

(** Up to the wait for the first listener that fails. *)
Definition bridgeCommand (pid : Z) (fileListener : Z -> option error) (args : list string) : SM (gmap string string) (list bridge) :=
  do! parsed <- slift (parseFlags ["target"] args);
  let target := default "" (parsed.1 !! "target") in
  if target =? "" then sfail (ErrNew "--target is required")
  else
    do! sockets <- activatedSockets pid;
    if Z.of_nat (length sockets) =? 0 then sfail (ErrNew "no socket was passed by systemd")
    else slift (listen_all fileListener target sockets).

(** ** [proxy.go]: the accept loop; the splice itself is in [Splice] *)
Definition dialNetwork (target : string) : string := if hasPrefix target "/" then "unix" else "tcp".

(** [serveBridge] on the connections accepted until [Accept] fails: each is
    spliced when the dial succeeds and closed otherwise. *)
Inductive served := Proxied (client : nat) (network target : string) | Dropped (client : nat).

Fixpoint serveBridge (target : string) (l : list (nat * option error)) (acceptErr : error) : list served * error :=
  match l with
  | [] => ([], acceptErr)
  | (client, dialErr) :: l' =>
      let '(rest, e) := serveBridge target l' acceptErr in
      ((match dialErr with None => Proxied client (dialNetwork target) target | Some _ => Dropped client end) :: rest, e)
  end.

(** ** [container.go] *)
Record route := Route { rt_Port : Z; rt_Socket : string }.
Definition route_fields : list (field route) :=
  [mk_field "port" rt_Port (fun r x => Route x (rt_Socket r)) dec_int;
   mk_field "socket" rt_Socket (fun r x => Route (rt_Port r) x) dec_string].

Definition routesPath : string := "/realm/routes.json".
Definition backendPath : string := "/realm/backend/http.sock".

(** What the launcher did, in order. *)
Inductive action :=
| Listen (network address : string)
| Serve (address target : string)
| Remove (path : string)
| Chmod (path : string) (mode : Z)
| Start (command : list string).
#[export] Instance action_eq_dec : EqDecision action.
Proof. solve_decision. Defined.

(** [syscall.Wait4] on any child. *)
Inductive wait4 := Interrupted | WaitFailed (e : error) | Reaped (pid status : Z).

Record launchEnv := LaunchEnv {
  le_env : gmap string string; le_now : Z; le_attempts : list attempt; le_routes : result string;
  le_listen : string -> string -> option error; le_chmod : option error; le_start : option error; le_pid : Z; le_waits : list wait4
}.

(** Still running, or over with an exit code. *)
Inductive progress := Running | Exited (code : Z).

Definition readRoutes (file : result string) : result (list route) :=
  match file with
  | Ok raw =>
      match (v ← parse_all raw; dec_slice (dec_struct false route_fields) (Route 0 "") [] v) with
      | Some routes => Ok routes
      | None => Err (ErrNew ("parse " +:+ routesPath))
      end
  | Err e => Err (ErrWrap ("read " +:+ routesPath) e)
  | Panic m => Panic m
  end.

Fixpoint listen_routes (env : launchEnv) (l : list route) : SM (list action) unit :=
  match l with
  | [] => sret tt
  | r :: l' =>
      let address := "127.0.0.1:" +:+ itoa (rt_Port r) in
      run! act (Listen "tcp" address) (le_listen env "tcp" address);
      run! act (Serve address (rt_Socket r)) None;
      listen_routes env l'
  end.

Definition startContainerRoutes (env : launchEnv) : SM (list action) unit :=
  do! routes <- slift (readRoutes (le_routes env));
  run! listen_routes env routes;
  let port := getenv (le_env env) "REALM_INGRESS_PORT" in
  if port =? "" then sret tt
  else
    run! act (Remove backendPath) None;
    run! act (Listen "unix" backendPath) (le_listen env "unix" backendPath);
    run! act (Chmod backendPath 432) (le_chmod env);
    act (Serve backendPath (joinHostPort "127.0.0.1" port)) None.

(** [syscall.WaitStatus] on Linux. *)
Definition Signaled (w : Z) : bool := (Z.land w 127 <>? 127) && (Z.land w 127 <>? 0).
Definition Signal (w : Z) : Z := if Signaled w then Z.land w 127 else -1.
Definition ExitStatus (w : Z) : Z := if Z.land w 127 =? 0 then Z.land (Z.shiftr w 8) 255 else -1.

(** The child's status once it was collected, and how many others were before;
    [None] while it runs, and for ever once [wait4] failed. *)
Fixpoint reap (child : Z) (l : list wait4) : option (Z * nat) :=
  match l with
  | [] => None
  | Interrupted :: l' => reap child l'
  | WaitFailed _ :: _ => None
  | Reaped pid state :: l' =>
      if pid =? child then Some (state, O)
      else match reap child l' with Some (st, n) => Some (st, S n) | None => None end
  end.

Definition exit_code (state : Z) : Z := if Signaled state then 128 + Signal state else ExitStatus state.

Definition supervise (env : launchEnv) (args : list string) : SM (list action) progress :=
  run! act (Start args) (le_start env);
  sret (match reap (le_pid env) (le_waits env) with
        | Some (state, _) => Exited (exit_code state)
        | None => Running
        end).

Definition launchCommand (env : launchEnv) (args : list string) : SM (list action) progress :=
  if Z.of_nat (length args) =? 0 then sfail (ErrNew "launch requires a command")
  else
    let go := run! startContainerRoutes env; supervise env args in
    if getenv (le_env env) "REALM_AGENT_SOCKET" <>? "" then
      match waitAgent (le_now env) (le_attempts env) with
      | None => sret Running
      | Some r => run! slift r; go
      end
    else go.

(** ** [waitspire.go] *)

(** One turn: [kill(pid, 0)], [os.Stat] of the socket, and the health check's
    outcome within its timeout. *)
Record probe := Probe { pb_kill : option error; pb_stat : result Z; pb_check : option error }.

Definition ModeSocket : Z := 2 ^ 24.

Definition probe_healthy (p : probe) : bool :=
  match pb_stat p with
  | Ok mode => if Z.land mode ModeSocket =? 0 then false else negb (bool_decide (is_Some (pb_check p)))
  | _ => false
  end.

Fixpoint spire_wait (l : list probe) : option (result unit) :=
  match l with
  | [] => None
  | p :: l' =>
      match pb_kill p with
      | Some _ => Some (Err (ErrNew "SPIRE agent exited before its API became ready"))
      | None => if probe_healthy p then Some (Ok tt) else spire_wait l'
      end
  end.

Definition waitSpireAgentCommand (env : gmap string string) (l : list probe) (args : list string) : option (result unit) :=
  match parseFlags ["spire-agent"; "socket"] args with
  | Ok (values, rest) =>
      match requireFlags values with
      | Some e => Some (Err e)
      | None =>
          if Z.of_nat (length rest) <>? 0 then Some (Err (ErrNew "wait-spire-agent takes no positional arguments"))
          else match atoi (getenv env "MAINPID") with
               | Some pid => if pid <=? 0 then Some (Err (ErrNew "MAINPID must be a positive process ID")) else spire_wait l
               | None => Some (Err (ErrNew "MAINPID must be a positive process ID"))
               end
      end
  | Err e => Some (Err e)
  | Panic m => Some (Panic m)
  end.

(** ** [spireRegisterCommand] *)
Section register.
Context `{SpireServer}.

(** [files] are the manifest and the state file at the paths given; the server
    binary is the one of [SpireServer]. *)
Definition spireRegisterCommand (files : string -> string -> runEnv) (args : list string) : SM world unit :=
  do! parsed <- slift (parseFlags ["spire-server"; "socket"; "manifest"; "state"] args);
  let value name := default "" (parsed.1 !! name) in
  match requireFlags parsed.1 with
  | Some e => sfail e
  | None => register_run (value "socket") (files (value "manifest") (value "state"))
  end.
End register.

(** ** The signals [supervise] forwards *)
Definition forwarded_signals : list Z := [15; 2; 3; 1].   (* SIGTERM, SIGINT, SIGQUIT, SIGHUP *)
Definition signal_capacity : nat := 4.

(** The channel, what the child was sent and what [signal.Notify] dropped. *)
Record signals := Signals { sg_queue : list Z; sg_sent : list Z; sg_dropped : list Z }.

Inductive signal_event := Arrive (sig : Z) | Forward.

(** [Notify] does not block: a signal is dropped when the channel is full. *)
Definition signal_step (s : signals) (e : signal_event) : option signals :=
  match e with
  | Arrive sig =>
      if negb (bool_decide (sig ∈ forwarded_signals)) then Some s
      else if (length (sg_queue s) <? signal_capacity)%nat then Some (Signals (sg_queue s ++ [sig]) (sg_sent s) (sg_dropped s))
      else Some (Signals (sg_queue s) (sg_sent s) (sg_dropped s ++ [sig]))
  | Forward =>
      match sg_queue s with
      | sig :: queue => Some (Signals queue (sg_sent s ++ [sig]) (sg_dropped s))
      | [] => None
      end
  end.

Fixpoint signal_run (s : signals) (es : list signal_event) : option signals :=
  match es with [] => Some s | e :: es' => s' ← signal_step s e; signal_run s' es' end.

(** ** Properties of socket activation *)

(** Activation hands over exactly [LISTEN_FDS] descriptors from 3 upwards, in
    order, each under its name when it has one, and only to the process they are
    meant for; the variables are gone afterwards and nothing else changes. *)
Theorem activatedSockets_sound pid env l env' : activatedSockets pid env = (Ok l, env') ->
  getenv env "LISTEN_PID" = itoa pid /\ (0 < length l)%nat /\ Z.of_nat (length l) = atoi_value (getenv env "LISTEN_FDS") /\
  (forall i s, l !! i = Some s -> as_fd s = 3 + Z.of_nat i /\
     (forall n, split ":"%char (getenv env "LISTEN_FDNAMES") !! i = Some n -> n <> "" -> as_name s = n)) /\
  (forall k, env' !! k = if decide (k ∈ ["LISTEN_PID"; "LISTEN_FDS"; "LISTEN_FDNAMES"]) then None else env !! k).
Proof.
  unfold activatedSockets. set (count := atoi_value _). set (names := split _ _). destruct (_ || _) eqn:E; [done|].
  destruct (maxAlloc <? _); [done|]. intros [= <- <-]. apply orb_false_iff in E as [E1 E2]. apply negb_false_iff, bool_decide_eq_true in E2.
  apply Z.leb_gt in E1. rewrite length_fmap, length_seq. split; [done|]. split; [lia|]. split; [lia|]. split.
  - intros i s Hs. apply list_lookup_fmap_Some in Hs as (j & -> & Hj). apply lookup_seq in Hj as [-> _].
    cbn [Nat.add]. split; [done|]. intros n Hn Hne. unfold socket_at. rewrite Hn. cbn [as_name]. by rewrite bool_decide_eq_false_2.
  - intros k. destruct (decide _) as [Hk|Hk].
    + repeat (apply elem_of_cons in Hk as [->|Hk]; [by simplify_map_eq|]). by apply elem_of_nil in Hk.
    + rewrite !lookup_delete_ne; [done|..]; intros <-; apply Hk; set_solver.
Qed.

(** ** Properties of the launcher *)

(** How a process ends, and the status Linux reports for it. *)
Inductive ending := Exits (code : Z) | Killed (signal : Z) (core : bool).
Definition ends (e : ending) : Prop := match e with Exits c => 0 <= c < 256 | Killed s _ => 1 <= s < 127 end.
Definition wait_status (e : ending) : Z :=
  match e with Exits c => c * 256 | Killed s core => s + (if core then 128 else 0) end.

Lemma land_127 w : Z.land w 127 = w mod 128.
Proof. by apply (Z.land_ones w 7). Qed.

Lemma exit_code_ending e : ends e -> exit_code (wait_status e) = match e with Exits c => c | Killed s _ => 128 + s end.
Proof.
  unfold exit_code, Signal, ExitStatus, Signaled. rewrite !land_127. destruct e as [c|s core]; cbn [ends wait_status]; intros H.
  - rewrite (bool_decide_eq_true_2 (c * 256 mod 128 = 0)) by divlia. rewrite andb_false_r, Z.shiftr_div_pow2 by lia.
    change (2 ^ 8) with 256. rewrite Z.div_mul by done. change 255 with (Z.ones 8). rewrite Z.land_ones by done. by apply Z.mod_small.
  - assert (E : (s + (if core then 128 else 0)) mod 128 = s) by (destruct core; divlia). rewrite E, !bool_decide_eq_false_2 by lia. done.
Qed.

(** An outcome of [wait4] that leaves the child running. *)
Definition of_others (child : Z) (w : wait4) : Prop :=
  match w with Interrupted => True | WaitFailed _ => False | Reaped pid _ => pid <> child end.

Lemma reap_child child pre state post : Forall (of_others child) pre ->
  exists n, reap child (pre ++ Reaped child state :: post) = Some (state, n).
Proof.
  induction 1 as [|w pre Hw Hp [n IH]]; cbn [reap app]; [rewrite bool_decide_eq_true_2 by done; eauto|].
  destruct w as [|e|pid st]; [eauto|done|]. cbn in Hw. rewrite bool_decide_eq_false_2, IH by done. eauto.
Qed.

(** The helper exits as the application does, whatever orphans are collected
    and however often [wait4] is interrupted before: with its code when it
    exits, with 128 and the signal when it is killed. *)
Theorem supervise_status env args log pre e post : le_start env = None -> ends e ->
  le_waits env = pre ++ Reaped (le_pid env) (wait_status e) :: post -> Forall (of_others (le_pid env)) pre ->
  supervise env args log = (Ok (Exited match e with Exits c => c | Killed s _ => 128 + s end), log ++ [Start args]).
Proof.
  intros Hs He Hw Hp. unfold supervise, sbind, act. rewrite Hs, Hw.
  destruct (reap_child (le_pid env) pre (wait_status e) post Hp) as [n ->]. unfold sret. by rewrite exit_code_ending.
Qed.

Definition route_actions (r : route) : list action :=
  [Listen "tcp" ("127.0.0.1:" +:+ itoa (rt_Port r)); Serve ("127.0.0.1:" +:+ itoa (rt_Port r)) (rt_Socket r)].
Definition ingress_actions (port : string) : list action :=
  [Remove "/realm/backend/http.sock"; Listen "unix" "/realm/backend/http.sock"; Chmod "/realm/backend/http.sock" 432;
   Serve "/realm/backend/http.sock" ("127.0.0.1:" +:+ port)].

(** What the preparation may do: anything but start a program. *)
Definition preparing (a : action) : Prop := match a with Start _ => False | _ => True end.

Lemma logs_routes env l : logs preparing (listen_routes env l) (fun _ acts => acts = l ≫= route_actions).
Proof.
  induction l as [|r l IH]; cbn [listen_routes]; [eapply logs_weaken; [apply logs_ret|]; by intros ? ? [_ ->]|].
  eapply logs_weaken; [apply logs_step; [done|]; apply logs_step; [done|exact IH]|].
  intros b acts (l1 & -> & l2 & -> & ->). done.
Qed.

Lemma logs_routes_ingress env : logs preparing (startContainerRoutes env) (fun _ acts =>
  exists routes, readRoutes (le_routes env) = Ok routes /\
    acts = (routes ≫= route_actions) ++
      (let port := getenv (le_env env) "REALM_INGRESS_PORT" in if decide (port = "") then [] else ingress_actions port)).
Proof.
  unfold startContainerRoutes. set (port := getenv _ _). cbn zeta.
  eapply logs_weaken.
  - apply logs_value. intros routes Hr.
    apply (logs_bind _ _ _ (fun _ acts => acts = routes ≫= route_actions) (fun _ _ acts => acts = if decide (port = "") then [] else ingress_actions port));
      [apply logs_routes|]. intros _.
    destruct (decide (port = "")) as [E|E]; [rewrite (bool_decide_eq_true_2 _ E)|rewrite (bool_decide_eq_false_2 _ E)].
    + eapply logs_weaken; [apply logs_ret|]. by intros ? ? [_ ->].
    + eapply logs_weaken; [do 3 (apply logs_step; [done|]); by apply logs_act|].
      intros b acts (l1 & -> & l2 & -> & l3 & -> & ->). done.
  - intros b acts (routes & Hr & ? & l1 & l2 & -> & -> & ->). eauto.
Qed.

Lemma routes_spec env log r log' : startContainerRoutes env log = (r, log') ->
  exists acts, log' = log ++ acts /\ (forall c, Start c ∉ acts) /\
    (r = Ok tt -> exists routes, readRoutes (le_routes env) = Ok routes /\
       acts = (routes ≫= route_actions) ++
         (let port := getenv (le_env env) "REALM_INGRESS_PORT" in if decide (port = "") then [] else ingress_actions port)).
Proof.
  intros H. destruct (logs_routes_ingress env _ _ _ H) as (acts & -> & N & O). exists acts. split; [done|].
  split; [intros c Hc; by apply (proj1 (Forall_forall _ _) N _ Hc)|exact (O tt)].
Qed.

(** The application is started last: after the agent reported readiness when a
    gate is configured, with a listener for every route on the loopback address
    and the ingress socket, if one is asked for, already in place. *)
Theorem launch_order env args out log command : launchCommand env args [] = (out, log) -> Start command ∈ log ->
  command = args /\ args <> [] /\
  (getenv (le_env env) "REALM_AGENT_SOCKET" <> "" -> waitAgent (le_now env) (le_attempts env) = Some (Ok tt)) /\
  exists routes, readRoutes (le_routes env) = Ok routes /\
    log = (routes ≫= fun r => [Listen "tcp" ("127.0.0.1:" +:+ itoa (rt_Port r)); Serve ("127.0.0.1:" +:+ itoa (rt_Port r)) (rt_Socket r)]) ++
      (let port := getenv (le_env env) "REALM_INGRESS_PORT" in
       if decide (port = "") then []
       else [Remove "/realm/backend/http.sock"; Listen "unix" "/realm/backend/http.sock"; Chmod "/realm/backend/http.sock" 432;
             Serve "/realm/backend/http.sock" ("127.0.0.1:" +:+ port)]) ++
      [Start args].
Proof.
  intros H Hin. unfold launchCommand in H. case_bool_decide as Hl; [by injection H as <- <-; apply elem_of_nil in Hin|].
  set (go := sbind (startContainerRoutes env) _) in H.
  assert (Hgo : go [] = (out, log) /\ (getenv (le_env env) "REALM_AGENT_SOCKET" <> "" -> waitAgent (le_now env) (le_attempts env) = Some (Ok tt))).
  { case_bool_decide as Hs; cbn [negb] in H; [done|]. destruct (waitAgent _ _) as [[[]|e|p]|]; try done.
    all: injection H as <- <-; by apply elem_of_nil in Hin. }
  clear H. destruct Hgo as [H Hgate]. split_and!; try done; try (intros ->; done).
  - unfold go, sbind in H. destruct (startContainerRoutes env []) as [r1 l1] eqn:E1. destruct (routes_spec _ _ _ _ E1) as (acts & -> & N & _).
    destruct r1 as [[]|e|p]; [|injection H as <- <-; by destruct (N command)..]. unfold supervise, sbind, act in H.
    destruct (le_start env); injection H as <- <-; [by destruct (N command)|].
    apply elem_of_app in Hin as [Hin|Hin]; [by destruct (N command)|]. apply list_elem_of_singleton in Hin. congruence.
  - unfold go, sbind in H. destruct (startContainerRoutes env []) as [r1 l1] eqn:E1. destruct (routes_spec _ _ _ _ E1) as (acts & -> & N & O).
    destruct r1 as [[]|e|p]; [|injection H as <- <-; by destruct (N command)..]. destruct (O eq_refl) as (routes & Hr & ->). exists routes. split; [done|].
    unfold supervise, sbind, act in H. destruct (le_start env); injection H as <- <-; [by destruct (N command)|].
    cbn [app]. by rewrite <- app_assoc.
Qed.

(** ** Properties of the registration command *)

Section register_laws.
Context `{SpireServer} (files : string -> string -> runEnv).

(** A complete command line registers with the socket and the files it names. *)
Theorem register_command server socket manifest state w :
  server <> "" -> socket <> "" -> manifest <> "" -> state <> "" ->
  spireRegisterCommand files
    (option_args [("spire-server", server); ("socket", socket); ("manifest", manifest); ("state", state)] ++ []) w =
  register_run socket (files manifest state) w.
Proof.
  intros H1 H2 H3 H4. unfold spireRegisterCommand. rewrite parseFlags_roundtrip; [|repeat apply Forall_cons_2; [..|by apply Forall_nil_2]|done].
  2-5: split; [eexists _, _; (split; [reflexivity|]); by split_and!|apply (bool_decide_unpack _); by vm_compute].
  unfold sbind, slift. cbn [fst assign foldl snd].
  set (m := <["state" := state]> _).
  assert (Hk : sortedKeys m = ["manifest"; "socket"; "spire-server"; "state"]) by (unfold m; vm_compute; reflexivity).
  assert (Hm : m !! "manifest" = Some manifest /\ m !! "socket" = Some socket /\ m !! "spire-server" = Some server /\ m !! "state" = Some state)
    by (unfold m; split_and!; vm_compute; reflexivity).
  clearbody m.
  destruct Hm as (M1 & M2 & M3 & M4). unfold requireFlags. rewrite Hk. cbn [List.find]. rewrite M1, M2, M3, M4. cbn [default].
  by rewrite !bool_decide_false.
Qed.

(** Nothing is run for a command line with an option missing. *)
Theorem register_incomplete args w values rest name :
  parseFlags ["spire-server"; "socket"; "manifest"; "state"] args = Ok (values, rest) -> values !! name = Some "" ->
  is_ok (spireRegisterCommand files args w).1 = false /\ (spireRegisterCommand files args w).2 = w.
Proof.
  intros Hp Hn. unfold spireRegisterCommand. rewrite Hp. unfold sbind, slift, sfail. cbn [fst].
  destruct (requireFlags values) as [e|] eqn:E; [done|]. exfalso. unfold requireFlags in E.
  destruct (List.find _ (sortedKeys values)) eqn:Ef; [done|].
  assert (Hin : In name (sortedKeys values)) by (apply list_elem_of_In, sortedKeys_elem; eauto).
  pose proof (find_none _ _ Ef name Hin) as Hb. cbn in Hb. rewrite Hn in Hb. done.
Qed.
End register_laws.

(** ** Properties of signal forwarding *)

(** The signals of the four kinds, in the order they came. *)
Definition arrivals (es : list signal_event) : list Z :=
  omap (fun e => match e with Arrive sig => if bool_decide (sig ∈ forwarded_signals) then Some sig else None | Forward => None end) es.

Definition signals_inv (s : signals) (arrived : list Z) : Prop :=
  (sg_sent s ++ sg_queue s) `sublist_of` arrived /\ Forall (fun sig => sig ∈ forwarded_signals) (sg_sent s ++ sg_queue s) /\
  (length (sg_queue s) <= 4)%nat /\ length arrived = (length (sg_sent s ++ sg_queue s) + length (sg_dropped s))%nat /\
  (sg_dropped s = [] -> sg_sent s ++ sg_queue s = arrived) /\ (sg_dropped s <> [] -> (4 < length arrived)%nat).

Lemma signal_step_inv s e s' arrived : signals_inv s arrived -> signal_step s e = Some s' -> signals_inv s' (arrived ++ arrivals [e]).
Proof.
  intros (H1 & H2 & H3 & H4 & H5 & H6). destruct e as [sig|]; unfold arrivals; cbn [signal_step omap list_omap].
  - destruct (bool_decide (sig ∈ forwarded_signals)) eqn:Eb; cbn [negb].
    2: { intros [= <-]. by rewrite app_nil_r. }
    apply bool_decide_eq_true in Eb. destruct (length (sg_queue s) <? signal_capacity)%nat eqn:El; intros [= <-]; unfold signals_inv; cbn.
    + apply Nat.ltb_lt in El. unfold signal_capacity in El. rewrite !app_assoc, !length_app. cbn. rewrite length_app in H4. split_and!.
      * by apply sublist_app.
      * apply Forall_app. split; [done|by apply Forall_singleton].
      * lia.
      * lia.
      * intros Hd. by rewrite H5.
      * intros Hd. specialize (H6 Hd). lia.
    + apply Nat.ltb_ge in El. unfold signal_capacity in El. rewrite !length_app in *. cbn. split_and!; try done; try lia.
      * by apply sublist_inserts_r.
      * intros Hd. by destruct (sg_dropped s).
  - destruct (sg_queue s) as [|sig queue] eqn:Eq; [done|]. intros [= <-]. unfold signals_inv. cbn.
    rewrite app_nil_r, <- !app_assoc. cbn [app]. split_and!; try done. cbn in H3. lia.
Qed.

Lemma signal_run_inv es : forall s s' arrived, signals_inv s arrived -> signal_run s es = Some s' -> signals_inv s' (arrived ++ arrivals es).
Proof.
  induction es as [|e es IH]; intros s s' arrived Hi Hr; cbn [signal_run] in Hr; [injection Hr as <-; by rewrite app_nil_r|].
  apply bind_Some in Hr as (s1 & Hs & Hr). apply (IH _ _ (arrived ++ arrivals [e])) in Hr; [|by eapply signal_step_inv].
  rewrite <- app_assoc in Hr. unfold arrivals in *. by rewrite <- omap_app in Hr.
Qed.

(** Signals reach the application in order and once, and nothing else does;
    only one that comes while four wait is dropped, so that all of up to four
    signals are delivered or waiting. *)
Theorem signals_in_order es s : signal_run (Signals [] [] []) es = Some s ->
  (sg_sent s ++ sg_queue s) `sublist_of` arrivals es /\ Forall (fun sig => sig ∈ forwarded_signals) (sg_sent s) /\
  (length (sg_queue s) <= 4)%nat /\ length (arrivals es) = (length (sg_sent s ++ sg_queue s) + length (sg_dropped s))%nat /\
  ((length (arrivals es) <= 4)%nat -> sg_sent s ++ sg_queue s = arrivals es).
Proof.
  intros Hr. apply (signal_run_inv _ _ _ []) in Hr; [|unfold signals_inv; cbn; split_and!; try done; by auto using Forall_nil_2, Nat.le_0_l].
  cbn [app] in Hr.
  destruct Hr as (H1 & H2 & H3 & H4 & H5 & H6). split_and!; try done; [by apply Forall_app in H2 as [? _]|].
  intros Hl. destruct (sg_dropped s) eqn:Ed; [by apply H5|]. specialize (H6 ltac:(done)). lia.
Qed.

(** ** Properties of the wait for the SPIRE agent *)

(** The wait succeeds exactly when the agent's process is alive at every turn up
    to one at which its socket exists and the health check passes. *)
Theorem spire_wait_correct l : spire_wait l = Some (Ok tt) <->
  exists pre mode post, l = pre ++ Probe None (Ok mode) None :: post /\ Z.testbit mode 24 = true /\
    Forall (fun p => pb_kill p = None /\
      ~ exists mode, pb_stat p = Ok mode /\ Z.testbit mode 24 = true /\ pb_check p = None) pre.
Proof.
  assert (Hbit : forall mode, (Z.land mode ModeSocket =? 0) = negb (Z.testbit mode 24)).
  { intros mode. unfold ModeSocket. destruct (Z.testbit mode 24) eqn:Eb; cbn [negb].
    - apply bool_decide_eq_false. intros E. apply (f_equal (fun z => Z.testbit z 24)) in E. rewrite Z.land_spec, Eb in E. done.
    - apply bool_decide_eq_true, Z.bits_inj_0. intros n. rewrite Z.land_spec, Z.pow2_bits_eqb by done.
      destruct (Z.eqb_spec 24 n) as [<-|]; [by rewrite Eb|apply andb_false_r]. }
  assert (Hp : forall p, probe_healthy p = true <-> exists mode, pb_stat p = Ok mode /\ Z.testbit mode 24 = true /\ pb_check p = None).
  { intros [k st ch]. unfold probe_healthy. cbn [pb_stat pb_check]. destruct st as [mode|e|m]; [|naive_solver..]. rewrite Hbit.
    destruct (Z.testbit mode 24) eqn:Eb; cbn [negb]; [|split; [done|intros (? & [= <-] & ? & _); congruence]].
    destruct ch; [split; [done|naive_solver]|]. split; [eauto|done]. }
  induction l as [|p l IH]; [split; [done|]; intros (pre & mode & post & H & _); by destruct pre|]. cbn [spire_wait].
  destruct (pb_kill p) eqn:Ek.
  { split; [done|]. intros (pre & mode & post & Hl & _ & Hf). destruct pre; injection Hl as -> ->; [done|]. apply Forall_cons in Hf as [[? _] _]. congruence. }
  destruct (probe_healthy p) eqn:Eh.
  - split; [|done]. intros _. apply Hp in Eh as (mode & E1 & E2 & E3). exists [], mode, l. destruct p. cbn in *. by subst.
  - rewrite IH. split.
    + intros (pre & mode & post & -> & Hm & Hf). exists (p :: pre), mode, post. split; [done|]. split; [done|]. constructor; [|done].
      split; [done|]. rewrite <- Hp, Eh. done.
    + intros (pre & mode & post & Hl & Hm & Hf). destruct pre as [|q pre]; injection Hl as -> ->.
      * assert (probe_healthy (Probe None (Ok mode) None) = true) by (apply Hp; eauto). congruence.
      * apply Forall_cons in Hf as [_ Hf]. eauto 10.
Qed.

(** ** The properties at concrete inputs *)
Module ProcessExamples.

Definition activation : gmap string string :=
  {["LISTEN_PID" := "41"; "LISTEN_FDS" := "2"; "LISTEN_FDNAMES" := "http:"; "HOME" := "/"]}.

Lemma activatedSockets_sound_witness :
  getenv activation "LISTEN_PID" = "41" /\ (activatedSockets 41 activation).2 !! "LISTEN_FDS" = None.
Proof.
  destruct (activatedSockets_sound 41 activation [ActivatedSocket "http" 3; ActivatedSocket "fd1" 4] (activatedSockets 41 activation).2) as (H & _ & _ & _ & He).
  - vm_compute. reflexivity.
  - split; [exact H|]. rewrite He. reflexivity.
Defined.

Definition routes_json : string :=
  marshal (JArr [JObj [("port", JNum "5432"); ("socket", JStr "/realm/egress/db.sock")]]).
Definition orphaned : launchEnv :=
  LaunchEnv {["REALM_AGENT_SOCKET" := "/run/realm/gate.sock"; "REALM_INGRESS_PORT" := "8080"]} 0
    [Attempt 0 None; Attempt Second (Some (Stream ready_line ErrEOF))] (Ok routes_json) (fun _ _ => None) None None 7
    [Reaped 12 0; Interrupted; Reaped 7 15; Reaped 13 0].

Lemma supervise_status_witness : supervise orphaned ["/bin/app"] [] = (Ok (Exited 143), [Start ["/bin/app"]]).
Proof.
  apply (supervise_status orphaned ["/bin/app"] [] [Reaped 12 0; Interrupted] (Killed 15 false) [Reaped 13 0]); [done|done|done|].
  repeat constructor; done.
Defined.

Lemma launch_order_witness : exists routes, readRoutes (Ok routes_json) = Ok routes /\
  (launchCommand orphaned ["/bin/app"] []).2 =
    (routes ≫= fun r => [Listen "tcp" ("127.0.0.1:" +:+ itoa (rt_Port r)); Serve ("127.0.0.1:" +:+ itoa (rt_Port r)) (rt_Socket r)]) ++
    [Remove "/realm/backend/http.sock"; Listen "unix" "/realm/backend/http.sock"; Chmod "/realm/backend/http.sock" 432;
     Serve "/realm/backend/http.sock" "127.0.0.1:8080"; Start ["/bin/app"]].
Proof.
  destruct (launch_order orphaned ["/bin/app"] (launchCommand orphaned ["/bin/app"] []).1 (launchCommand orphaned ["/bin/app"] []).2 ["/bin/app"])
    as (_ & _ & _ & routes & Hr & Hl); [apply surjective_pairing|apply (bool_decide_unpack _); vm_compute; exact I|].
  exists routes. split; [exact Hr|]. rewrite Hl. reflexivity.
Defined.

Lemma signals_in_order_witness :
  [15; 1] `sublist_of` arrivals [Arrive 15; Arrive 17; Forward; Arrive 1] /\
  signal_run (Signals [] [] []) [Arrive 15; Arrive 17; Forward; Arrive 1] = Some (Signals [1] [15] []).
Proof.
  assert (H : signal_run (Signals [] [] []) [Arrive 15; Arrive 17; Forward; Arrive 1] = Some (Signals [1] [15] [])) by reflexivity.
  split; [exact (proj1 (signals_in_order _ _ H))|exact H].
Defined.
End ProcessExamples.
