(* ===== verification/PyStd.v ===== *)
(** * What the Python scripts use of the language

    Text (ASCII) and its numbers, and the members of a value [json.loads]
    returned.  Used by the models of [src/pkgs/adonbox-quota.py] and
    [src/script/oo7-session.py]. *)

From S2P Require Import Prelude GoStrings Json.

Open Scope Z_scope.
Open Scope go_scope.

(** ** Strings and numbers of Python *)
Definition py_space (c : ascii) : bool := in_range 9 13 c || in_range 28 32 c.

Fixpoint lstrip (s : string) : string :=
  match s with String c s' => if py_space c then lstrip s' else s | EmptyString => "" end.
Fixpoint rstrip (s : string) : string :=
  match s with
  | EmptyString => ""
  | String c s' => let r := rstrip s' in if (r =? "") && py_space c then "" else String c r
  end.
Definition strip (s : string) : string := rstrip (lstrip s).

(** [str.splitlines]. *)
Definition line_end (c : ascii) : bool := in_range 10 13 c || in_range 28 30 c.
Fixpoint splitlines (s : string) : list string :=
  match s with
  | EmptyString => []
  | String c s' =>
      if line_end c then
        match s' with
        | String d s'' => if (code c =? 13) && (code d =? 10) then "" :: splitlines s'' else "" :: splitlines s'
        | EmptyString => [""]
        end
      else match splitlines s' with h :: t => String c h :: t | [] => [String c ""] end
  end.

(** The digits of [int(s)], with single underscores between them. *)
Fixpoint int_digits (acc : Z) (digit : bool) (s : string) : option Z :=
  match s with
  | EmptyString => if digit then Some acc else None
  | String c s' =>
      if is_digit c then int_digits (acc * 10 + (code c - 48)) true s'
      else if (c =? "_"%char) && digit then int_digits acc false s' else None
  end.

Fixpoint count_digits (s : string) : Z :=
  match s with EmptyString => 0 | String c s' => (if is_digit c then 1 else 0) + count_digits s' end.

(** [int(s)]; the interpreter refuses more than 4300 digits. *)
Definition py_int (s : string) : option Z :=
  let s := strip s in
  if 4300 <? count_digits s then None else
  match s with
  | String c s' =>
      if c =? "-"%char then Z.opp <$> int_digits 0 false s'
      else if c =? "+"%char then int_digits 0 false s'
      else int_digits 0 false s
  | EmptyString => None
  end.

(** ** Values of [json.loads] *)

(** The value of the last member with a name. *)
Definition member_of (l : list (string * json)) (key : string) : option json :=
  snd <$> List.find (fun kv => kv.1 =? key) (rev l).

(** A number without fraction and exponent is an [int]. *)
Definition json_int (v : option json) : option Z :=
  match v with
  | Some (JNum lit) =>
      if all_chars (fun c => is_digit c || (c =? "-"%char)) lit then py_int lit else None
  | _ => None
  end.

Lemma lstrip_digits s : all_chars is_digit s = true -> lstrip s = s.
Proof.
  destruct s as [|c s]; [done|]. simpl. intros H. bprop. apply digit_cases in H.
  repeat (apply elem_of_cons in H as [-> | H]; [done|]). by apply elem_of_nil in H.
Qed.

Lemma rstrip_digits s : all_chars is_digit s = true -> rstrip s = s.
Proof.
  induction s as [|c s IH]; [done|]. simpl. intros H. bprop. rewrite IH by done.
  replace (py_space c) with false; [by rewrite andb_false_r|]. symmetry. apply digit_cases in H.
  repeat (apply elem_of_cons in H as [-> | H]; [done|]). by apply elem_of_nil in H.
Qed.

Lemma int_digits_spec s : forall acc b, all_chars is_digit s = true -> b = true \/ s <> "" ->
  int_digits acc b s = parse_digits acc s.
Proof.
  induction s as [|c s IH]; simpl; intros acc b H Hb; [by destruct Hb as [-> |]|]. bprop.
  rewrite H. apply IH; [done|by left].
Qed.

Lemma count_digits_len s : count_digits s <= len s.
Proof.
  induction s as [|c s IH]; [done|]. simpl count_digits. rewrite len_cons. destruct (is_digit c); lia.
Qed.

Lemma py_int_itoa n : 0 <= n < 10 ^ 100 -> py_int (itoa n) = Some n.
Proof.
  intros Hn. pose proof (itoa_digits n ltac:(lia)) as Hd. pose proof (itoa_nonempty n ltac:(lia)) as Hne.
  pose proof (len_itoa_le 100 n ltac:(lia) Hn) as Hl. pose proof (count_digits_len (itoa n)) as Hc.
  unfold py_int, strip. rewrite lstrip_digits, rstrip_digits by done.
  rewrite (proj2 (Z.ltb_ge 4300 _)) by lia.
  rewrite <- (parse_itoa_nonneg n) by lia. rewrite <- (int_digits_spec _ 0 false) by auto.
  destruct (itoa n) as [|c s]; [done|]. simpl in Hd. bprop.
  destruct (digit_not_sign c H) as [H1 H2]. by rewrite !bool_decide_false.
Qed.
