(* ===== verification/Quota.v ===== *)
(** * adonbox-quota: a monthly transfer quota

    Models [src/pkgs/adonbox-quota.py]: the reading of systemd's IP counters,
    the accounting of a snapshot, the state file and the loop that blocks, stops
    and starts the unit.  A Python exception is an error; what commands print
    and which calls fail are inputs.  Text is ASCII, which is what systemctl
    prints for these properties and what [json.dump] writes.  [json.loads] is
    the grammar of [Json]: Python also accepts [NaN] and [Infinity], which
    [save] never writes.

    [metering] shows what the count is worth: it never exceeds the traffic, and
    what it misses is bounded by what was transferred or recorded when counters
    were lost.  [quota_history] and [quota_fails_closed] show when the unit is
    started, stopped and blocked, over any history of processes. *)

From S2P Require Import Prelude GoStrings Json PyStd.

Open Scope Z_scope.
Open Scope go_scope.

(** ** The counters *)
Definition UNIT : string := "podman-adonbox.service".
Definition LIMIT : Z := 100000000000.
Definition UNAVAILABLE : Z := 2 ^ 64 - 1.

Definition parse_counter (raw_value : string) : result Z :=
  if (raw_value =? "") || (raw_value =? "[no data]") then Ok 0
  else match py_int raw_value with
       | None => Err (ErrNew "invalid literal for int()")
       | Some value => reject (value <? 0) || (UNAVAILABLE <=? value) with ErrNew "Invalid IP counter value"; Ok value
       end.

Record reading := Reading { rd_invocation : string; rd_ingress : Z; rd_egress : Z; rd_active : string }.

(** [dict] of the lines, each of which has to have an equals sign. *)
Fixpoint py_dict (lines : list string) (m : gmap string string) : result (gmap string string) :=
  match lines with
  | [] => Ok m
  | line :: lines' =>
      match cut "=" line with
      | Some (k, v) => py_dict lines' (<[k := v]> m)
      | None => Err (ErrNew "dictionary update sequence element has length 1; 2 is required")
      end
  end.

(** [show] is what the command prints. *)
Definition snapshot (show : result string) : result reading :=
  let! raw := show in
  let! values := py_dict (splitlines (strip raw)) ∅ in
  let! ingress := parse_counter (default "" (values !! "IPIngressBytes")) in
  let! egress := parse_counter (default "" (values !! "IPEgressBytes")) in
  Ok (Reading (default "" (values !! "InvocationID")) ingress egress (default "inactive" (values !! "ActiveState"))).

(** ** Accounting *)
Record usage := Usage { us_month : string; us_used : Z; us_invocation : string; us_ingress : Z; us_egress : Z }.

(** The bytes a counter adds: all of it when it was reset. *)
Definition counted (value old : Z) : Z := if old <=? value then value - old else value.

(** The count of the month so far. *)
Definition used_before (previous : option usage) (month : string) : Z :=
  match previous with Some p => if us_month p =? month then us_used p else 0 | None => 0 end.

(** The counter as it was recorded for the same invocation. *)
Definition old_counter (previous : option usage) (invocation : string) (direction : usage -> Z) : Z :=
  match previous with Some p => if us_invocation p =? invocation then direction p else 0 | None => 0 end.

Definition account (previous : option usage) (current : reading) (month : string) : usage :=
  let old := old_counter previous (rd_invocation current) in
  let used := used_before previous month in
  let used := used + counted (rd_ingress current) (old us_ingress) in
  let used := used + counted (rd_egress current) (old us_egress) in
  Usage month used (rd_invocation current) (rd_ingress current) (rd_egress current).

(** ** The state file *)

(** [datetime.strptime(s, "%Y-%m")]. *)
Definition valid_month (s : string) : bool :=
  match s with
  | String a (String b (String c (String d (String dash rest)))) =>
      all_chars is_digit (take 4 s) && (take 4 s <>? "0000") && (dash =? "-"%char) &&
      match rest with
      | String m "" => in_range 49 57 m
      | String "0" (String m "") => in_range 49 57 m
      | String "1" (String m "") => in_range 48 50 m
      | _ => false
      end
  | _ => false
  end.

Definition byte_count (v : option json) : result Z :=
  match json_int v with
  | Some n => reject n <? 0 with ErrNew "Invalid quota byte count"; Ok n
  | None => Err (ErrNew "Invalid quota byte count")
  end.

Definition load (file : option string) : result (option usage) :=
  match file with
  | None => Ok None
  | Some text =>
      match parse_all text with
      | Some (JObj l) =>
          match member_of l "month" with
          | Some (JStr month) =>
              reject negb (valid_month month) with ErrNew "time data does not match format";
              match member_of l "invocation" with
              | Some (JStr invocation) =>
                  let! used := byte_count (member_of l "used_bytes") in
                  let! ingress := byte_count (member_of l "ingress") in
                  let! egress := byte_count (member_of l "egress") in
                  Ok (Some (Usage month used invocation ingress egress))
              | _ => Err (ErrNew "Invalid quota invocation")
              end
          | _ => Err (ErrNew "strptime() argument 1 must be str")
          end
      | _ => Err (ErrNew "json")
      end
  end.

(** [json.dump] of a string: everything but printable ASCII is escaped. *)
Definition py_escape (c : ascii) : string :=
  let backslash d := String (char 92) (String d "") in
  if (code c =? 34) || (code c =? 92) then backslash c
  else if code c =? 10 then backslash "n"%char
  else if code c =? 13 then backslash "r"%char
  else if code c =? 9 then backslash "t"%char
  else if code c =? 12 then backslash "f"%char
  else if code c =? 8 then backslash "b"%char
  else if in_range 32 126 c then String c ""
  else u_escape (code c).

Fixpoint py_body (s : string) : string :=
  match s with EmptyString => "" | String c s' => py_escape c +:+ py_body s' end.
Definition py_quote (s : string) : string := String (char 34) (py_body s +:+ String (char 34) "").

(** [json.dump] of the state, with its separators, and the newline. *)
Definition dump (u : usage) : string :=
  let member name text := py_quote name +:+ ": " +:+ text in
  "{" +:+ join ", " [member "month" (py_quote (us_month u)); member "used_bytes" (itoa (us_used u));
    member "invocation" (py_quote (us_invocation u)); member "ingress" (itoa (us_ingress u));
    member "egress" (itoa (us_egress u))] +:+ "}" +:+ String (char 10) "".

(** ** The loop *)
Inductive action :=
| Saved (current : reading) (month : string)
| Ready
| Stop
| Start.

(** The state file, the marker [exhausted] and what was done so far. *)
Record world := World { w_file : option string; w_blocked : bool; w_log : list action }.

Definition set_file (text : string) (w : world) : world := World (Some text) (w_blocked w) (w_log w).
Definition set_blocked (b : bool) (w : world) : world := World (w_file w) b (w_log w).
Definition act (a : action) (w : world) : world := World (w_file w) (w_blocked w) (w_log w ++ [a]).

(** The replacement of the file is atomic; [save] can fail on either side of it. *)
Inductive save_outcome := SaveOk | SaveLost | SaveUnsynced.

(** What one round of the loop meets; a [bool] says that the call succeeds. *)
Record round := Round {
  r_exists : bool; r_show : result string; r_month : string; r_save : save_outcome; r_touch : bool;
  r_print : bool; r_stop : bool; r_unlink : bool; r_ready : bool; r_start : bool }.

Definition raising (ok : bool) : SM world unit := if ok then sret () else sfail (ErrNew "exception").
Definition modify (f : world -> world) : SM world unit := fun w => (Ok (), f w).

Definition save (current : reading) (month : string) (u : usage) (o : save_outcome) : SM world unit :=
  match o with
  | SaveLost => raising false
  | _ =>
      run! modify (fun w => act (Saved current month) (set_file (dump u) w));
      raising (match o with SaveOk => true | _ => false end)
  end.

Definition touch (ok : bool) : SM world unit := run! raising ok; modify (set_blocked true).
Definition unlink (ok : bool) : SM world unit := run! raising ok; modify (set_blocked false).
(** A command that fails may have been carried out. *)
Definition request (a : action) (ok : bool) : SM world unit := run! modify (act a); raising ok.

Definition do_round (announced : bool) (state : option usage) (r : round) : SM world usage :=
  run! raising (r_exists r);
  do! was_blocked <- (fun w => (Ok (w_blocked w), w));
  do! current <- slift (snapshot (r_show r));
  let month := r_month r in
  let state := account state current month in
  run! save current month state (r_save r);
  let exhausted := LIMIT <=? us_used state in
  run! (if exhausted then
          run! touch (r_touch r);
          if (rd_active current <>? "inactive") && (rd_active current <>? "failed")
          then run! raising (r_print r); request Stop (r_stop r) else sret ()
        else unlink (r_unlink r));
  run! (if announced then sret () else request Ready (r_ready r));
  run! (if negb exhausted && (was_blocked || negb announced) then request Start (r_start r) else sret ());
  sret state.

Fixpoint loop (announced : bool) (state : option usage) (rounds : list round) : SM world unit :=
  match rounds with
  | [] => sret ()
  | r :: rounds' => do! state' <- do_round announced state r; loop true (Some state') rounds'
  end.

(** One process: whether the file can be read, its rounds until it is stopped
    or raises, and the calls of the exception handler. *)
Record process := Process { p_read : bool; p_rounds : list round; p_touch : bool; p_stop : bool }.

(** The exception handler. *)
Definition handler (p : process) : SM world unit :=
  run! touch (p_touch p); run! request Stop (p_stop p); raising false.

Definition main (p : process) : SM world unit := fun w =>
  match (run! raising (p_read p); do! state <- (fun w => (load (w_file w), w)); loop false state (p_rounds p)) w with
  | (Ok _, w') => (Ok (), w')
  | (_, w') => handler p w'
  end.

(** The service is restarted whenever it ends. *)
Fixpoint history (ps : list process) (w : world) : world :=
  match ps with [] => w | p :: ps' => history ps' (main p w).2 end.

(** ** The state file is read back as it was written *)

(** Text both [json.dump] and [json.Marshal] write as it is. *)
Definition py_plain (c : ascii) : bool := plain c && (code c <>? 127).

Lemma py_plain_plain s : all_chars py_plain s = true -> all_chars plain s = true.
Proof. apply all_chars_impl. intros c H. unfold py_plain in H. by bprop. Qed.

Lemma py_body_plain s : all_chars py_plain s = true -> py_body s = s.
Proof.
  induction s as [|c s IH]; simpl; [done|]. intros H. bprop. rewrite IH by done.
  unfold py_plain, plain, in_range in H. bprop. unfold py_escape, in_range.
  rewrite !bool_decide_false by lia. simpl orb. cbv iota.
  rewrite (proj2 (Z.leb_le 32 (code c))), (proj2 (Z.leb_le (code c) 126)) by lia. done.
Qed.

Lemma py_quote_plain s : all_chars py_plain s = true -> py_quote s = quote s.
Proof.
  intros H. rewrite quote_plain by by apply py_plain_plain. unfold py_quote. by rewrite py_body_plain.
Qed.

Lemma digit_plain c : is_digit c = true -> py_plain c = true.
Proof.
  intros Hc. apply digit_cases in Hc.
  repeat (apply elem_of_cons in Hc as [-> | Hc]; [done|]). by apply elem_of_nil in Hc.
Qed.

Lemma in_range_digit lo hi c : in_range lo hi c = true -> 48 <= lo -> hi <= 57 -> is_digit c = true.
Proof. unfold is_digit, in_range. intros H H1 H2. bprop. apply andb_true_iff. split; apply Z.leb_le; lia. Qed.

Lemma valid_month_plain s : valid_month s = true -> all_chars py_plain s = true.
Proof.
  destruct s as [|a [|b [|c [|d [|dash rest]]]]]; try done. cbn [valid_month]. intros H.
  rewrite !andb_true_iff in H. destruct H as (((Hd & _) & Hdash) & Hm).
  apply bool_decide_eq_true in Hdash as ->.
  change (take 4 _) with (String a (String b (String c (String d "")))) in Hd.
  assert (Hrest : all_chars is_digit rest = true).
  { destruct rest as [|m rest]; [done|].
    destruct rest as [|n rest]; [by destruct m as [[] [] [] [] [] [] [] []]|].
    assert (Hn : rest = "" /\ is_digit m = true /\ is_digit n = true) by
      (destruct m as [[] [] [] [] [] [] [] []]; try done; destruct rest; try done;
       split_and!; try done; by eapply in_range_digit).
    destruct Hn as (-> & H1 & H2). simpl. by rewrite H1, H2. }
  apply (all_chars_impl is_digit py_plain) in Hd, Hrest; [|apply digit_plain..].
  simpl in Hd |- *. rewrite !andb_true_iff in Hd |- *. by destruct_and? Hd.
Qed.

Lemma byte_count_itoa n : 0 <= n < 10 ^ 100 -> byte_count (Some (JNum (itoa n))) = Ok n.
Proof.
  intros Hn. unfold byte_count, json_int.
  rewrite (all_chars_impl is_digit (fun c => is_digit c || (c =? "-"%char))).
  - rewrite py_int_itoa by done. by rewrite (proj2 (Z.ltb_ge n 0)) by lia.
  - by intros c ->.
  - apply itoa_digits. lia.
Qed.

(** [json.dump] separates with spaces. *)
Definition spaced (kv : string * json) : string := quote kv.1 +:+ ": " +:+ marshal kv.2.

Lemma value_space fuel depth s : value fuel depth (String " " s) = value fuel depth s.
Proof. rewrite <- (value_skip_ws _ _ s), <- value_skip_ws. done. Qed.

Lemma members_space fuel depth s : members fuel depth (String " " s) = members fuel depth s.
Proof. by destruct fuel. Qed.

Lemma members_spaced l : forall fuel depth rest,
  l <> [] -> Forall (fun kv => all_chars plain kv.1 = true /\ plainv kv.2) l ->
  (sum_list_with (fun kv => S (jsize kv.2)) l <= fuel)%nat ->
  depth + foldr Z.max 0 ((fun kv => jheight kv.2) <$> l) <= maxNestingDepth ->
  members fuel depth (join ", " (spaced <$> l) +:+ String "}" rest) = Some (l, rest).
Proof.
  induction l as [|[k v] l IH]; intros fuel depth rest Hne HF Hf Hh; [done|].
  inversion HF as [|? ? (Hk & Hp) HF']; subst.
  rewrite fmap_cons in Hh. cbn [sum_list_with foldr snd fst] in Hf, Hh, Hk, Hp.
  destruct fuel as [|fuel]; [lia|].
  assert (Hmem : forall tail, delimited tail = true ->
    spaced (k, v) +:+ tail = String (char 34) (k +:+ String (char 34) (String ":" (String " " (marshal v +:+ tail)))) /\
    value fuel depth (String " " (marshal v +:+ tail)) = Some (v, tail)).
  { intros tail Ht. split; [|rewrite value_space; apply value_marshal; [done|lia..|done]].
    unfold spaced. cbn [fst snd]. rewrite quote_plain by done. by rewrite !append_cons, !append_assoc. }
  destruct l as [|w l].
  - destruct (Hmem (String "}" rest)) as [E1 E2]; [done|].
    change (join ", " (spaced <$> [(k, v)])) with (spaced (k, v)). rewrite E1. cbn [members].
    simpl. rewrite string_lit_plain by done. simpl. rewrite E2. done.
  - change (join ", " (spaced <$> (k, v) :: w :: l)) with
      (spaced (k, v) +:+ ", " +:+ join ", " (spaced <$> w :: l)).
    specialize (IH fuel depth rest ltac:(done) HF' ltac:(lia) ltac:(lia)).
    rewrite append_assoc, append_assoc. revert IH. generalize (join ", " (spaced <$> w :: l) +:+ String "}" rest).
    intros tail IH. change (", " +:+ tail) with (String "," (String " " tail)).
    destruct (Hmem (String "," (String " " tail))) as [E1 E2]; [done|].
    rewrite E1. cbn [members]. simpl. rewrite string_lit_plain by done. simpl in E2 |- *.
    rewrite E2. simpl. rewrite members_space, IH. done.
Qed.

Definition scalar (v : json) : bool := match v with JNum _ | JStr _ => true | _ => false end.

Lemma value_spaced fuel kv l rest :
  Forall (fun kv => all_chars plain kv.1 = true /\ plainv kv.2 /\ scalar kv.2 = true) (kv :: l) ->
  (S (sum_list_with (fun kv => S (jsize kv.2)) (kv :: l)) <= fuel)%nat ->
  value fuel 0 (String "{" (join ", " (spaced <$> kv :: l) +:+ String "}" rest)) = Some (JObj (kv :: l), rest).
Proof.
  intros HF Hf. destruct fuel as [|fuel]; [lia|].
  assert (Hheight : foldr Z.max 0 ((fun kv => jheight kv.2) <$> kv :: l) = 0).
  { clear -HF. induction HF as [|[k v] l' (_ & _ & Hv) HF IH]; [done|]. rewrite fmap_cons. simpl foldr. rewrite IH.
    by destruct v. }
  pose proof (members_spaced (kv :: l) fuel 1 rest ltac:(done)
    ltac:(eapply Forall_impl; [exact HF|]; naive_solver) ltac:(lia) ltac:(rewrite Hheight; done)) as Hm.
  destruct (join_cons_head ", " (spaced kv) (spaced <$> l)) as [tail Hj].
  rewrite fmap_cons, Hj in Hm |- *. unfold spaced, quote in Hm |- *.
  rewrite !append_assoc, !append_cons in Hm |- *.
  rewrite value_open_object by done. change (0 + 1) with 1. by rewrite Hm.
Qed.

Lemma length_spaced l : Forall (fun kv => scalar kv.2 = true) l ->
  (sum_list_with (fun kv => S (jsize kv.2)) l <= String.length (join ", " (spaced <$> l)))%nat.
Proof.
  assert (Hk : forall kv, scalar kv.2 = true -> (S (jsize kv.2) <= String.length (spaced kv))%nat).
  { intros [k v] Hv. unfold spaced, quote. rewrite length_append. simpl. rewrite length_append. simpl.
    destruct v; simpl in *; try done; lia. }
  induction 1 as [|x l Hx HF IH]; [simpl; lia|]. specialize (Hk x Hx). destruct l as [|y l]; [simpl in *; lia|].
  change (join ", " (spaced <$> x :: y :: l)) with (spaced x +:+ ", " +:+ join ", " (spaced <$> y :: l)).
  rewrite !length_append. cbn [sum_list_with] in *. lia.
Qed.

Lemma parse_all_spaced kv l rest :
  Forall (fun kv => all_chars plain kv.1 = true /\ plainv kv.2 /\ scalar kv.2 = true) (kv :: l) ->
  skip_ws rest = "" ->
  parse_all ("{" +:+ join ", " (spaced <$> kv :: l) +:+ "}" +:+ rest) = Some (JObj (kv :: l)).
Proof.
  intros HF Hr. unfold parse_all, parse. rewrite append_cons, append_nil_l.
  change ("}" +:+ rest) with (String "}" rest). rewrite value_spaced; [|done|].
  - simpl. by rewrite Hr.
  - assert (HS : Forall (fun kv => scalar kv.2 = true) (kv :: l)) by
      (eapply Forall_impl; [exact HF|]; naive_solver).
    apply length_spaced in HS. revert HS. generalize (join ", " (spaced <$> kv :: l)). intros text HS.
    cbn [String.length]. rewrite length_append. cbn [String.length]. lia.
Qed.

(** ** Well-formed states *)

(** A state after at most [n] snapshots. *)
Definition wf_usage (n : Z) (u : usage) : Prop :=
  valid_month (us_month u) = true /\ all_chars py_plain (us_invocation u) = true /\
  0 <= us_used u <= n * (2 * UNAVAILABLE) /\ 0 <= us_ingress u < UNAVAILABLE /\ 0 <= us_egress u < UNAVAILABLE.

(** What systemd and the clock give: an invocation id of plain text, a month. *)
Definition wf_reading (current : reading) (month : string) : Prop :=
  valid_month month = true /\ all_chars py_plain (rd_invocation current) = true /\
  0 <= rd_ingress current < UNAVAILABLE /\ 0 <= rd_egress current < UNAVAILABLE.

Definition usage_members (u : usage) : list (string * json) :=
  [("month", JStr (us_month u)); ("used_bytes", JNum (itoa (us_used u))); ("invocation", JStr (us_invocation u));
   ("ingress", JNum (itoa (us_ingress u))); ("egress", JNum (itoa (us_egress u)))].

Lemma dump_spaced u :
  all_chars py_plain (us_month u) = true -> all_chars py_plain (us_invocation u) = true ->
  dump u = "{" +:+ join ", " (spaced <$> usage_members u) +:+ "}" +:+ String (char 10) "".
Proof.
  intros Hm Hi. unfold dump. rewrite (py_quote_plain (us_month u)), (py_quote_plain (us_invocation u)) by done. done.
Qed.

Lemma parse_dump u :
  all_chars py_plain (us_month u) = true -> all_chars py_plain (us_invocation u) = true ->
  0 <= us_used u -> 0 <= us_ingress u -> 0 <= us_egress u ->
  parse_all (dump u) = Some (JObj (usage_members u)).
Proof.
  intros Hm Hi H1 H2 H3. rewrite dump_spaced by done. apply parse_all_spaced; [|done].
  assert (HN : forall n, 0 <= n -> plainv (JNum (itoa n))) by (intros n Hn; by exists n).
  apply py_plain_plain in Hm, Hi.
  repeat (apply Forall_cons; split; [split_and!; [done|try (by apply HN); assumption|done]|]). apply Forall_nil_2.
Qed.

Lemma load_dump n u : wf_usage n u -> n <= 2 ^ 64 -> load (Some (dump u)) = Ok (Some u).
Proof.
  intros (Hm & Hi & Hu & Hin & Hout) Hn.
  assert (Hbig : n * (2 * UNAVAILABLE) < 10 ^ 100).
  { apply (Z.le_lt_trans _ (2 ^ 64 * (2 * UNAVAILABLE))); [|done].
    apply Z.mul_le_mono_nonneg_r; done. }
  assert (HU : UNAVAILABLE < 10 ^ 100) by done.
  assert (H1 : 0 <= us_used u < 10 ^ 100) by (clear -Hu Hbig; lia).
  assert (H2 : 0 <= us_ingress u < 10 ^ 100) by (clear -Hin HU; lia).
  assert (H3 : 0 <= us_egress u < 10 ^ 100) by (clear -Hout HU; lia).
  unfold load. rewrite parse_dump; [|by apply valid_month_plain|exact Hi|apply H1|apply H2|apply H3].
  change (member_of (usage_members u) "month") with (Some (JStr (us_month u))).
  change (member_of (usage_members u) "invocation") with (Some (JStr (us_invocation u))).
  change (member_of (usage_members u) "used_bytes") with (Some (JNum (itoa (us_used u)))).
  change (member_of (usage_members u) "ingress") with (Some (JNum (itoa (us_ingress u)))).
  change (member_of (usage_members u) "egress") with (Some (JNum (itoa (us_egress u)))).
  cbv iota. rewrite Hm, (byte_count_itoa _ H1), (byte_count_itoa _ H2), (byte_count_itoa _ H3). by destruct u.
Qed.

Lemma counted_range value old : 0 <= value -> 0 <= old -> 0 <= counted value old <= value.
Proof. unfold counted. intros ? ?. destruct (old <=? value) eqn:E; bprop; lia. Qed.

Definition wf_state (n : Z) (state : option usage) : Prop :=
  match state with Some u => wf_usage n u | None => 0 <= n end.

Lemma old_counter_nonneg n state invocation :
  wf_state n state ->
  0 <= old_counter state invocation us_ingress /\ 0 <= old_counter state invocation us_egress.
Proof.
  destruct state as [p|]; [|done]. intros (_ & _ & _ & H1 & H2). simpl. case_bool_decide; lia.
Qed.

Lemma used_before_range n state month : wf_state n state -> 0 <= used_before state month <= n * (2 * UNAVAILABLE).
Proof.
  unfold UNAVAILABLE. destruct state as [p|]; simpl; [|lia]. intros (_ & _ & H & _). unfold UNAVAILABLE in H. case_bool_decide; lia.
Qed.

Lemma account_wf n state current month :
  wf_state n state -> wf_reading current month -> wf_usage (n + 1) (account state current month).
Proof.
  intros Hs (Hm & Hi & Hin & Hout). destruct (old_counter_nonneg _ _ (rd_invocation current) Hs) as [H1 H2].
  pose proof (used_before_range _ _ month Hs).
  pose proof (counted_range (rd_ingress current) (old_counter state (rd_invocation current) us_ingress)).
  pose proof (counted_range (rd_egress current) (old_counter state (rd_invocation current) us_egress)).
  unfold account, wf_usage. cbn. split_and!; try done; lia.
Qed.

(** ** What the count is worth

    The counters systemd keeps for the unit, the state of the program, and
    beside them what really happened: [traffic] is every byte transferred,
    [pending] those since the last snapshot or loss, [lost] what a loss of the
    counters may hide and [closed] the counts of the months that ended. *)
Record meter := Meter {
  m_invocation : string; m_ingress : Z; m_egress : Z; m_state : option usage;
  m_traffic : Z; m_pending : Z; m_lost : Z; m_closed : Z }.

Inductive event :=
| Bytes (ingress egress : Z)
| Recreated
| Restarted (invocation : string)
| Sampled (month : string).

Definition recorded_invocation (state : option usage) : option string := us_invocation <$> state.

(** A loss of the counters within an invocation can hide the bytes of the
    recorded counters too: when as many are transferred before the next
    snapshot, the counter has passed the recorded value again. *)
Definition meter_step (m : meter) (e : event) : option meter :=
  let 'Meter i a b st t p l c := m in
  match e with
  | Bytes x y => if (0 <=? x) && (0 <=? y) then Some (Meter i (a + x) (b + y) st (t + x + y) (p + x + y) l c) else None
  | Recreated =>
      Some (Meter i 0 0 st t 0 (l + p + old_counter st i us_ingress + old_counter st i us_egress) c)
  | Restarted j =>
      if recorded_invocation st =? Some j then None else Some (Meter j 0 0 st t 0 (l + p) c)
  | Sampled month =>
      let st' := account st (Reading i a b "active") month in
      let ended := match st with Some u => if us_month u =? month then 0 else us_used u | None => 0 end in
      Some (Meter i a b (Some st') t 0 l (c + ended))
  end.

Fixpoint meter_run (m : meter) (es : list event) : option meter :=
  match es with [] => Some m | e :: es' => m' ← meter_step m e; meter_run m' es' end.

Definition meter_start (invocation : string) : meter := Meter invocation 0 0 None 0 0 0 0.
Definition m_count (m : meter) : Z := m_closed m + match m_state m with Some u => us_used u | None => 0 end.

(** What a lost counter hides once it has passed the recorded value. *)
Definition hidden (value old : Z) : Z := if old <=? value then 0 else old.

Definition meter_inv (m : meter) : Prop :=
  let old := old_counter (m_state m) (m_invocation m) in
  let next := counted (m_ingress m) (old us_ingress) + counted (m_egress m) (old us_egress) in
  0 <= m_ingress m /\ 0 <= m_egress m /\ 0 <= old us_ingress /\ 0 <= old us_egress /\
  match m_state m with Some u => 0 <= us_ingress u /\ 0 <= us_egress u | None => True end /\
  0 <= m_pending m /\ 0 <= m_lost m /\
  m_count m + next <= m_traffic m /\
  m_traffic m + hidden (m_ingress m) (old us_ingress) + hidden (m_egress m) (old us_egress) <=
    m_count m + next + m_lost m /\
  m_traffic m <= m_count m + m_lost m + m_pending m.

Lemma counted_grow value old x : 0 <= value -> 0 <= old -> 0 <= x ->
  counted (value + x) old <= counted value old + x /\
  x + hidden (value + x) old - counted (value + x) old <= hidden value old - counted value old.
Proof.
  unfold counted, hidden. intros. destruct (old <=? value) eqn:E1, (old <=? value + x) eqn:E2; bprop; lia.
Qed.

Lemma counted_self v : counted v v = 0.
Proof. unfold counted. rewrite Z.leb_refl. lia. Qed.
Lemma hidden_self v : hidden v v = 0.
Proof. unfold hidden. by rewrite Z.leb_refl. Qed.
Lemma hidden_nonneg value old : 0 <= old -> 0 <= hidden value old.
Proof. unfold hidden. destruct (old <=? value); lia. Qed.
Lemma counted_zero old : 0 <= old -> counted 0 old = 0.
Proof. unfold counted. intros. destruct (old <=? 0) eqn:E; bprop; lia. Qed.
Lemma hidden_zero old : 0 <= old -> hidden 0 old = old.
Proof. unfold hidden. intros. destruct (old <=? 0) eqn:E; bprop; lia. Qed.

Lemma old_counter_other st j f : recorded_invocation st <> Some j -> old_counter st j f = 0.
Proof. destruct st as [u|]; simpl; [|done]. intros H. rewrite bool_decide_false; [done|congruence]. Qed.

Lemma old_counter_recorded st i a b active month :
  let u := account st (Reading i a b active) month in
  old_counter (Some u) i us_ingress = a /\ old_counter (Some u) i us_egress = b.
Proof. simpl. by rewrite bool_decide_true. Qed.

#[local] Arguments old_counter : simpl never.
#[local] Arguments used_before : simpl never.

Lemma meter_step_inv m e m' : meter_inv m -> meter_step m e = Some m' -> meter_inv m'.
Proof.
  destruct m as [i a b st t p l c]. unfold meter_inv, m_count. cbn.
  intros (Ha & Hb & Ho1 & Ho2 & Hst & Hp & Hl & HU & HL & HB).
  pose proof (counted_range _ _ Ha Ho1). pose proof (counted_range _ _ Hb Ho2).
  destruct e as [x y| |j|month]; cbn.
  - destruct ((0 <=? x) && (0 <=? y)) eqn:E; [|done]. intros [= <-]. bprop. cbn.
    destruct (counted_grow a (old_counter st i us_ingress) x) as [G1 G2]; [done..|].
    destruct (counted_grow b (old_counter st i us_egress) y) as [G3 G4]; [done..|].
    split_and!; try done; lia.
  - intros [= <-]. cbn. rewrite !counted_zero, !hidden_zero by done. split_and!; try done; lia.
  - case_bool_decide as Hj; [done|]. intros [= <-]. cbn. rewrite !old_counter_other by done.
    rewrite !counted_self, !hidden_self. split_and!; try done; lia.
  - intros [= <-]. destruct (old_counter_recorded st i a b "active" month) as [R1 R2].
    cbn in R1, R2 |- *. rewrite R1, R2, !counted_self, !hidden_self.
    assert (Hused : c + match st with Some u => us_used u | None => 0 end =
      c + match st with Some u => if us_month u =? month then 0 else us_used u | None => 0 end + used_before st month).
    { unfold used_before. destruct st as [u|]; [case_bool_decide|]; lia. }
    pose proof (hidden_nonneg a (old_counter st i us_ingress)). pose proof (hidden_nonneg b (old_counter st i us_egress)).
    split_and!; try done; lia.
Qed.

Lemma meter_run_inv es : forall m m', meter_inv m -> meter_run m es = Some m' -> meter_inv m'.
Proof.
  induction es as [|e es IH]; simpl; intros m m' H Hr; [by simplify_eq|].
  destruct (meter_step m e) as [m1|] eqn:E; [|done]. eauto using meter_step_inv.
Qed.

(** C18: The count is never more than was transferred.  It falls short by no
    more than the bytes since the last snapshot and those lost with the
    counters. *)
Theorem metering invocation es m :
  meter_run (meter_start invocation) es = Some m ->
  m_count m <= m_traffic m <= m_count m + m_pending m + m_lost m.
Proof.
  intros H. apply meter_run_inv in H; [|by split_and!; vm_compute].
  destruct H as (Ha & Hb & Ho1 & Ho2 & _ & _ & _ & HU & _ & HB).
  pose proof (counted_range _ _ Ha Ho1). pose proof (counted_range _ _ Hb Ho2). lia.
Qed.

(** ** The loop *)

(** The state the saved snapshots amount to. *)
Definition saves (log : list action) : list (reading * string) :=
  omap (fun a => match a with Saved current month => Some (current, month) | _ => None end) log.
Definition ledger (log : list action) : option usage :=
  foldl (fun state s => Some (account state s.1 s.2)) None (saves log).

(** What a round asks for after it saved [u]. *)
Definition round_actions (announced was_blocked : bool) (current : reading) (u : usage) : list action :=
  let exhausted := LIMIT <=? us_used u in
  (if exhausted && ((rd_active current <>? "inactive") && (rd_active current <>? "failed")) then [Stop] else []) ++
  (if announced then [] else [Ready]) ++
  (if negb exhausted && (was_blocked || negb announced) then [Start] else []).

Lemma ledger_app l1 l2 :
  ledger (l1 ++ l2) = foldl (fun state s => Some (account state s.1 s.2)) (ledger l1) (saves l2).
Proof. unfold ledger, saves. by rewrite omap_app, foldl_app. Qed.

Lemma saves_actions announced was_blocked current u acts :
  acts `prefix_of` round_actions announced was_blocked current u -> saves acts = [].
Proof.
  intros [k Hk]. assert (H : saves (acts ++ k) = []).
  { rewrite <- Hk. unfold round_actions. by destruct (LIMIT <=? us_used u), announced, was_blocked, (_ && _). }
  unfold saves in H. rewrite omap_app in H. by apply app_eq_nil in H as [H _].
Qed.

(** A round either leaves file and log alone and raises, or saves the next
    state and goes through the actions for it, in order, until one raises. *)
Lemma do_round_spec announced state r w res w' :
  do_round announced state r w = (res, w') ->
  (is_ok res = false /\ w' = w) \/
  exists current acts, let u := account state current (r_month r) in
    snapshot (r_show r) = Ok current /\ w_file w' = Some (dump u) /\
    w_log w' = w_log w ++ Saved current (r_month r) :: acts /\
    acts `prefix_of` round_actions announced (w_blocked w) current u /\
    (forall u', res = Ok u' -> u' = u /\ w_blocked w' = (LIMIT <=? us_used u) /\
       acts = round_actions announced (w_blocked w) current u).
Proof.
  unfold do_round, sbind, raising, slift, sret, sfail. destruct (r_exists r); [|intros [= <- <-]; by left].
  destruct (snapshot (r_show r)) as [current|e|e]; [|intros [= <- <-]; by left..].
  unfold save, sbind, modify, raising, sret, sfail. intros H.
  destruct (r_save r); [|cbn in H; injection H as <- <-; by left|];
    (right; exists current; unfold round_actions; set (u := account state current (r_month r)) in * ).
  2: { exists []. cbn in H. injection H as <- <-. split_and!; try done. apply prefix_nil. }
  unfold touch, unlink, request, sbind, modify, raising, sret, sfail in H. cbv beta iota zeta in H. fold u in H.
  destruct (LIMIT <=? us_used u), ((rd_active current <>? "inactive") && (rd_active current <>? "failed")),
    (r_touch r), (r_print r), (r_stop r), (r_unlink r), announced, (r_ready r), (w_blocked w), (r_start r);
    cbn in H; injection H as <- <-; eexists; cbn; (split_and!; [done|done|by rewrite <- ?app_assoc| |]);
    try (by eexists); by intros u' [= <-].
Qed.

Lemma parse_counter_range raw n : parse_counter raw = Ok n -> 0 <= n < UNAVAILABLE.
Proof.
  unfold parse_counter. destruct (_ || _); [by intros [= <-]|]. destruct (py_int raw) as [v|]; [|done].
  destruct (_ || _) eqn:E; [done|]. intros [= <-]. bprop. lia.
Qed.

Lemma snapshot_range show current : snapshot show = Ok current ->
  0 <= rd_ingress current < UNAVAILABLE /\ 0 <= rd_egress current < UNAVAILABLE.
Proof.
  unfold snapshot. destruct show as [raw| |]; [|done..]. cbn [rbind].
  destruct (py_dict _ _) as [values| |]; [|done..]. cbn [rbind].
  destruct (parse_counter (default "" (values !! "IPIngressBytes"))) as [x| |] eqn:E1; [|done..]. cbn [rbind].
  destruct (parse_counter (default "" (values !! "IPEgressBytes"))) as [y| |] eqn:E2; [|done..].
  intros [= <-]. split; by eapply parse_counter_range.
Qed.

(** The month of the clock and the invocation id of systemd are plain text. *)
Definition wf_round (r : round) : bool :=
  valid_month (r_month r) &&
  match snapshot (r_show r) with Ok current => all_chars py_plain (rd_invocation current) | _ => true end.

Lemma wf_round_reading r current :
  wf_round r = true -> snapshot (r_show r) = Ok current -> wf_reading current (r_month r).
Proof.
  unfold wf_round. intros H Hs. rewrite Hs in H. apply andb_true_iff in H as [H1 H2].
  destruct (snapshot_range _ _ Hs). by unfold wf_reading.
Qed.

(** Every start was asked for with the count saved before it below the limit. *)
Definition starts_below (log : list action) : Prop :=
  forall pre post, log = pre ++ Start :: post -> exists u, ledger pre = Some u /\ us_used u < LIMIT.

(** The file holds the ledger of everything saved so far. *)
Definition world_inv (n : Z) (w : world) : Prop :=
  w_file w = dump <$> ledger (w_log w) /\ wf_state n (ledger (w_log w)) /\ starts_below (w_log w).

Lemma wf_state_mono n n' state : wf_state n state -> n <= n' -> wf_state n' state.
Proof.
  destruct state as [u|]; simpl; [|lia]. intros (H1 & H2 & H3 & H4) Hn. split_and!; try done; try lia.
  pose proof (Z.mul_le_mono_nonneg_r n n' (2 * UNAVAILABLE)). lia.
Qed.

Lemma starts_below_app log rest :
  starts_below log -> (forall pre post, rest = pre ++ Start :: post ->
    exists u, ledger (log ++ pre) = Some u /\ us_used u < LIMIT) -> starts_below (log ++ rest).
Proof.
  intros H1 H2 pre post E. apply app_eq_app in E as (k & [[-> E] | [-> E]]).
  - destruct k as [|a k]; [specialize (H2 [] post (eq_sym E)); by rewrite !app_nil_r in H2|]. injection E as <- ->. eauto.
  - eauto.
Qed.

Lemma round_start_below announced was_blocked current u pre post :
  pre ++ Start :: post `prefix_of` round_actions announced was_blocked current u -> us_used u < LIMIT.
Proof.
  intros [k Hk]. destruct (Z.ltb_spec (us_used u) LIMIT) as [|Hge]; [done|]. exfalso.
  assert (Hin : Start ∈ round_actions announced was_blocked current u) by (rewrite Hk; set_solver).
  unfold round_actions in Hin. rewrite (proj2 (Z.leb_le _ _) Hge) in Hin.
  destruct (_ && _), announced; set_solver.
Qed.

Lemma do_round_inv n announced state r w res w' :
  do_round announced state r w = (res, w') -> wf_round r = true ->
  world_inv n w -> state = ledger (w_log w) ->
  world_inv (n + 1) w' /\ (forall u, res = Ok u -> Some u = ledger (w_log w')).
Proof.
  intros Hr Hwf (Hfile & Hst & Hstart) ->.
  apply do_round_spec in Hr as [[Hres ->] | (current & acts & Hs & Hf & Hl & Hpre & Hok)].
  { split; [|by intros u ->]. split_and!; [done| |done]. apply (wf_state_mono n); [done|lia]. }
  pose proof (wf_round_reading _ _ Hwf Hs) as Hcur. pose proof (saves_actions _ _ _ _ _ Hpre) as Hacts.
  set (u := account (ledger (w_log w)) current (r_month r)) in *.
  assert (Hled : forall acts', saves acts' = [] -> ledger (w_log w ++ Saved current (r_month r) :: acts') = Some u).
  { intros acts' E. rewrite ledger_app. change (saves (Saved current (r_month r) :: acts')) with ((current, r_month r) :: saves acts'). by rewrite E. }
  split; [|intros u' ->; rewrite Hl, Hled by done; by destruct (Hok u' eq_refl) as [-> _]].
  unfold world_inv. rewrite Hf, Hl, Hled by done. split_and!; [done|by apply account_wf|].
  apply starts_below_app; [done|]. intros [|a pre] post E; [discriminate E|]. injection E as <- ->.
  exists u. split; [|by eapply round_start_below]. apply Hled.
  unfold saves in *. rewrite omap_app in Hacts. by apply app_eq_nil in Hacts as [-> _].
Qed.

Lemma loop_inv rounds : forall n announced state w res w',
  loop announced state rounds w = (res, w') -> Forall (fun r => wf_round r = true) rounds ->
  world_inv n w -> state = ledger (w_log w) -> world_inv (n + Z.of_nat (length rounds)) w'.
Proof.
  induction rounds as [|r rounds IH]; intros n announced state w res w' Hr Hwf Hw Hs.
  { injection Hr as _ <-. by rewrite Z.add_0_r. }
  apply Forall_cons in Hwf as [Hwf1 Hwf]. cbn [loop] in Hr. unfold sbind in Hr.
  destruct (do_round announced state r w) as [res1 w1] eqn:E.
  destruct (do_round_inv n _ _ _ _ _ _ E Hwf1 Hw Hs) as [Hinv Hok]. rewrite length_cons.
  replace (n + Z.of_nat (S (length rounds))) with (n + 1 + Z.of_nat (length rounds)) by lia.
  destruct res1 as [u| |]; [by eapply IH; [done..|apply Hok]| |];
    injection Hr as _ <-; destruct Hinv as (? & ? & ?);
    (split_and!; [done|eapply wf_state_mono; [done|lia]|done]).
Qed.

(** Neither the marker nor a stop concerns the ledger. *)
Lemma handler_inv n p w : world_inv n w -> world_inv n (handler p w).2.
Proof.
  intros (Hf & Hs & Hb). unfold handler. destruct (p_touch p); [|done].
  assert (Hled : ledger (w_log w ++ [Stop]) = ledger (w_log w)) by by rewrite ledger_app.
  assert (H : world_inv n (act Stop (set_blocked true w))).
  { unfold world_inv. cbn [w_file w_log act set_blocked]. rewrite Hled. split; [done|]. split; [done|].
    apply starts_below_app; [done|]. by intros [|? [|? ?]] post [=]. }
  by destruct (p_stop p).
Qed.

Lemma load_ledger n state : wf_state n state -> n <= 2 ^ 64 -> load (dump <$> state) = Ok state.
Proof. intros Hs Hn. destruct state as [u|]; [by eapply load_dump|done]. Qed.

Lemma main_inv n p w :
  Forall (fun r => wf_round r = true) (p_rounds p) -> n <= 2 ^ 64 ->
  world_inv n w -> world_inv (n + Z.of_nat (length (p_rounds p))) (main p w).2.
Proof.
  intros Hwf Hn Hw. pose proof Hw as (Hf & Hs & Hb).
  assert (Hmono : world_inv (n + Z.of_nat (length (p_rounds p))) w).
  { split_and!; [done| |done]. eapply wf_state_mono; [done|lia]. }
  unfold main. unfold sbind at 1.
  destruct (p_read p); cbn [raising sret sfail]; [|by apply handler_inv].
  unfold sbind at 1.
  assert (Hload : load (w_file w) = Ok (ledger (w_log w))).
  { rewrite Hf. by eapply load_ledger. }
  rewrite Hload. destruct (loop _ _ _ _) as [res w'] eqn:E.
  pose proof (loop_inv _ n _ _ _ _ _ E Hwf Hw eq_refl). destruct res; [done|by apply handler_inv..].
Qed.

Definition total_rounds (ps : list process) : Z := foldr Z.add 0 ((fun p => Z.of_nat (length (p_rounds p))) <$> ps).

Lemma total_rounds_nonneg ps : 0 <= total_rounds ps.
Proof.
  induction ps as [|p ps IH]; [done|].
  change (total_rounds (p :: ps)) with (Z.of_nat (length (p_rounds p)) + total_rounds ps). lia.
Qed.

Lemma history_inv ps : forall n w,
  Forall (fun p => Forall (fun r => wf_round r = true) (p_rounds p)) ps ->
  n + total_rounds ps <= 2 ^ 64 -> world_inv n w -> world_inv (n + total_rounds ps) (history ps w).
Proof.
  induction ps as [|p ps IH]; intros n w Hwf Hn Hw; [by rewrite Z.add_0_r|].
  apply Forall_cons in Hwf as [Hp Hwf]. cbn [history].
  change (total_rounds (p :: ps)) with (Z.of_nat (length (p_rounds p)) + total_rounds ps) in *.
  pose proof (total_rounds_nonneg ps). rewrite Z.add_assoc in *. apply IH; [done|done|].
  apply main_inv; [done|lia|done].
Qed.

Lemma world_inv_start b : world_inv 0 (World None b []).
Proof. split_and!; [done..|]. by intros [|? ?] post [=]. Qed.

(** The marker after rounds that went through. *)
Lemma loop_marker rounds : forall announced state w w',
  loop announced state rounds w = (Ok (), w') -> Forall (fun r => wf_round r = true) rounds -> rounds <> [] ->
  state = ledger (w_log w) ->
  exists u, ledger (w_log w') = Some u /\ w_blocked w' = (LIMIT <=? us_used u).
Proof.
  induction rounds as [|r rounds IH]; intros announced state w w' Hr Hwf Hne Hs; [done|]. clear Hne.
  apply Forall_cons in Hwf as [Hwf1 Hwf]. cbn [loop] in Hr. unfold sbind in Hr.
  destruct (do_round announced state r w) as [res1 w1] eqn:E. destruct res1 as [u| |]; [|discriminate Hr..].
  apply do_round_spec in E as [[Hres _] | (current & acts & _ & _ & Hl & Hpre & Hok)]; [discriminate Hres|].
  destruct (Hok u eq_refl) as (-> & Hb & _). pose proof (saves_actions _ _ _ _ _ Hpre) as Hacts.
  assert (Hled : ledger (w_log w1) = Some (account state current (r_month r))).
  { rewrite Hl, ledger_app, <- Hs. change (saves (Saved current (r_month r) :: acts)) with ((current, r_month r) :: saves acts).
    by rewrite Hacts. }
  destruct rounds as [|r' rounds]; [|by eapply IH].
  injection Hr as <-. eauto.
Qed.

Lemma handler_closes p w : p_touch p = true ->
  w_blocked (handler p w).2 = true /\ last (w_log (handler p w).2) = Some Stop.
Proof. intros H. unfold handler. rewrite H. by destruct (p_stop p); cbn; rewrite last_snoc. Qed.

Lemma history_snoc ps p w : history (ps ++ [p]) w = (main p (history ps w)).2.
Proof. revert w. induction ps as [|q ps IH]; intros w; [done|]. apply IH. Qed.

Lemma main_cases p w :
  (exists w1, main p w = handler p w1) \/
  (exists state w', load (w_file w) = Ok state /\ loop false state (p_rounds p) w = (Ok (), w') /\ main p w = (Ok (), w')).
Proof.
  unfold main, sbind. destruct (p_read p); [|by left; eexists]. cbn [raising sret].
  destruct (load (w_file w)) as [state| |]; [|by left; eexists..].
  destruct (loop false state (p_rounds p) w) as [[[]| |] w'] eqn:E; [|by left; eexists..].
  right. by exists state, w'.
Qed.

Lemma total_rounds_snoc ps p : total_rounds (ps ++ [p]) = total_rounds ps + Z.of_nat (length (p_rounds p)).
Proof.
  induction ps as [|q ps IH]; [by unfold total_rounds; simpl; rewrite Z.add_0_r|].
  change (total_rounds ((q :: ps) ++ [p])) with (Z.of_nat (length (p_rounds q)) + total_rounds (ps ++ [p])).
  change (total_rounds (q :: ps)) with (Z.of_nat (length (p_rounds q)) + total_rounds ps). lia.
Qed.

(** C17: Over any restarts, failing calls and interrupted saves the file is what
    accounting gives for the snapshots saved so far, each counted once, and
    the next process reads exactly that.  The unit is only ever started when
    the last count saved before is below the limit. *)
Theorem quota_history ps b :
  Forall (fun p => Forall (fun r => wf_round r = true) (p_rounds p)) ps -> total_rounds ps <= 2 ^ 64 ->
  let w := history ps (World None b []) in
  w_file w = dump <$> ledger (w_log w) /\ load (w_file w) = Ok (ledger (w_log w)) /\ starts_below (w_log w).
Proof.
  intros Hwf Hn w. destruct (history_inv ps 0 (World None b []) Hwf Hn (world_inv_start b)) as (Hf & Hs & Hb).
  fold w in Hf, Hs, Hb. split_and!; [done| |done]. rewrite Hf. by eapply load_ledger.
Qed.

(** C19: A process that raises leaves the unit blocked and has asked last to
    stop it, provided the marker can be written.  The unit is not left
    unblocked unless the count on disk is below the limit. *)
Theorem quota_fails_closed ps p b :
  Forall (fun p => Forall (fun r => wf_round r = true) (p_rounds p)) (ps ++ [p]) ->
  total_rounds (ps ++ [p]) <= 2 ^ 64 -> p_rounds p <> [] -> p_touch p = true ->
  let before := history ps (World None b []) in
  let w := history (ps ++ [p]) (World None b []) in
  (is_ok (main p before).1 = false -> w_blocked w = true /\ last (w_log w) = Some Stop) /\
  (w_blocked w = false -> exists u, load (w_file w) = Ok (Some u) /\ us_used u < LIMIT).
Proof.
  intros Hwf Hn Hne Ht before w.
  pose proof (history_inv _ 0 _ Hwf Hn (world_inv_start b)) as (Hf & Hs & _). fold w in Hf, Hs.
  apply Forall_app in Hwf as [Hwf Hp]. rewrite Forall_singleton in Hp. rewrite total_rounds_snoc in Hn.
  assert (Hps : total_rounds ps <= 2 ^ 64) by lia.
  pose proof (history_inv ps 0 _ Hwf Hps (world_inv_start b)) as (Hf0 & Hs0 & _). fold before in Hf0, Hs0.
  assert (Hw : w = (main p before).2) by apply history_snoc.
  destruct (main_cases p before) as [[w1 E] | (st & w1 & Hload & Hloop & E)].
  - rewrite E in Hw |- *. rewrite Hw. destruct (handler_closes p w1 Ht) as [H1 H2]. split; [done|].
    rewrite H1. done.
  - rewrite E in Hw |- *. simpl in Hw. rewrite Hw in *. split; [done|]. intros Hb.
    rewrite Hf0, (load_ledger _ _ Hs0) in Hload by lia. injection Hload as <-.
    destruct (loop_marker _ _ _ _ _ Hloop Hp Hne eq_refl) as (u & Hu & Hblock). exists u.
    rewrite Hf, Hu. rewrite Hu in Hs. rewrite Hblock in Hb. bprop. split; [|lia].
    rewrite total_rounds_snoc in Hs. by eapply load_dump.
Qed.

(** C38: When the state cannot be saved and the marker cannot be created
    either, the handler raises before it asks for the stop: nothing has
    changed and the unit keeps running. *)
Theorem full_disk_keeps_running p r rounds w :
  p_rounds p = r :: rounds -> r_save r = SaveLost -> p_touch p = false ->
  is_ok (main p w).1 = false /\ (main p w).2 = w.
Proof.
  intros Hr Hs Ht. unfold main, handler, touch, sbind. rewrite Hr, Ht. unfold raising, sfail, sret.
  destruct (p_read p); [|done]. destruct (load (w_file w)); [|done..]. cbn [loop]. unfold sbind.
  destruct (do_round false a r w) as [res w'] eqn:E.
  unfold do_round, sbind, raising, slift, sret, sfail, save in E. rewrite Hs in E.
  destruct (r_exists r), (snapshot (r_show r)); cbn in E; by injection E as <- <-.
Qed.

(** ** Examples *)
Module QuotaExamples.

Definition nl : string := String (char 10) "".
Definition shown (id ingress egress active : string) : string :=
  "InvocationID=" +:+ id +:+ nl +:+ "IPIngressBytes=" +:+ ingress +:+ nl +:+ "IPEgressBytes=" +:+ egress +:+ nl +:+
  "ActiveState=" +:+ active +:+ nl.

Definition round_of (text month : string) : round := Round true (Ok text) month SaveOk true true true true true true.

(** The first snapshot is below the limit; the second uses the quota up. *)
Definition day1 : round := round_of (shown "aa" "[no data]" "" "inactive") "2026-11".
Definition day2 : round := round_of (shown "aa" "99999999999" "1" "active") "2026-11".
Definition day3 : round := round_of (shown "bb" "0" "7" "inactive") "2026-12".
Definition full_disk : round := Round true (Ok (shown "bb" "5" "9" "active")) "2026-12" SaveLost true true true true true true.
Definition running (rounds : list round) : process := Process true rounds true true.

Example quota_run :
  w_log (history [running [day1; day2]; running [day3; full_disk]] (World None false [])) =
  [Saved (Reading "aa" 0 0 "inactive") "2026-11"; Ready; Start;
   Saved (Reading "aa" 99999999999 1 "active") "2026-11"; Stop;
   Saved (Reading "bb" 0 7 "inactive") "2026-12"; Ready; Start; Stop].
Proof. vm_compute. reflexivity. Qed.

Example state_text :
  w_file (history [running [day1; day2]] (World None false [])) =
  Some (dump (Usage "2026-11" 100000000000 "aa" 99999999999 1)).
Proof. vm_compute. reflexivity. Qed.

Example loads_reject : map (fun text => is_ok (load (Some text)))
  [dump (Usage "2026-13" 0 "" 0 0); dump (Usage "2026-11" (-1) "" 0 0); "[]"; ""; dump (Usage "2026-11" 0 "" 0 0)]
  = [false; false; false; false; true].
Proof. vm_compute. reflexivity. Qed.

(** Counters recreated by systemd: what was recorded is passed again unseen. *)
Definition recreated : list event :=
  [Restarted "aa"; Bytes 5 5; Sampled "2026-11"; Bytes 1 0; Recreated; Bytes 6 2; Sampled "2026-11"; Bytes 0 4].

Lemma metering_witness :
  exists m, meter_run (meter_start "") recreated = Some m /\ m_count m = 13 /\ m_traffic m = 23 /\
    m_pending m = 4 /\ m_lost m = 11 /\ m_count m <= m_traffic m <= m_count m + m_pending m + m_lost m.
Proof.
  eexists. split; [vm_compute; reflexivity|]. do 4 (split; [vm_compute; reflexivity|]).
  apply (metering "" recreated). vm_compute. reflexivity.
Defined.

Lemma quota_history_witness :
  let w := history [running [day1; day2]; running [day3; full_disk]] (World None false []) in
  w_file w = dump <$> ledger (w_log w) /\ load (w_file w) = Ok (ledger (w_log w)) /\ starts_below (w_log w).
Proof.
  apply (quota_history [running [day1; day2]; running [day3; full_disk]] false).
  - repeat constructor; vm_compute; reflexivity.
  - vm_compute. discriminate.
Defined.

Lemma quota_fails_closed_witness :
  let w := history ([running [day1; day2]] ++ [running [day3; full_disk]]) (World None false []) in
  w_blocked w = true /\ last (w_log w) = Some Stop.
Proof.
  apply (quota_fails_closed [running [day1; day2]] (running [day3; full_disk]) false).
  - repeat constructor; vm_compute; reflexivity.
  - vm_compute. discriminate.
  - discriminate.
  - reflexivity.
  - vm_compute. reflexivity.
Defined.

Lemma full_disk_witness :
  let p := Process true [full_disk] false true in
  let w := World (Some (dump (Usage "2026-12" 7 "bb" 0 7))) false [] in
  is_ok (main p w).1 = false /\ (main p w).2 = w.
Proof. apply (full_disk_keeps_running _ full_disk []); reflexivity. Defined.

End QuotaExamples.
