(* ===== verification/RustStd.v ===== *)
(** * What the Rust tools use of the standard library

    [PathBuf] up to the equality of its components, the validity of UTF-8, and
    the splitting of text into lines and words.  Used by the models of
    [src/pkgs/helix-file-watcher] and [src/pkgs/by-name/shpool-mux]. *)

From S2P Require Import Prelude GoStrings Json.

Open Scope Z_scope.
Open Scope go_scope.

(** ** Paths *)
Record path := Path { p_rooted : bool; p_components : list string }.
#[export] Instance path_eq_dec : EqDecision path.
Proof. solve_decision. Defined.
#[export] Instance path_countable : Countable path.
Proof.
  refine (inj_countable' (fun p => (p_rooted p, p_components p)) (fun x => Path x.1 x.2) _). by intros [].
Defined.

(** [PathBuf::from]: empty components are skipped, and a dot unless it leads a
    relative path. *)
Definition path_from (s : string) : path :=
  let parts := filter (fun c => c <> "") (split "/"%char s) in
  let rooted := hasPrefix s "/" in
  Path rooted (match parts with
               | "." :: rest => (if rooted then [] else ["."]) ++ filter (fun c => c <> ".") rest
               | _ => filter (fun c => c <> ".") parts
               end).

(** [Path::parent]: none for the root and for an empty path. *)
Definition parent (p : path) : option path :=
  match p_components p with [] => None | l => Some (Path (p_rooted p) (removelast l)) end.

(** ** Text *)

(** [str::lines]: the line feed, and a carriage return before it, are dropped;
    a final line feed starts no line. *)
Definition strip_cr (s : string) : string :=
  let n := String.length s in
  if (0 <? Z.of_nat n) && (drop (n - 1) s =? String (char 13) "") then take (n - 1) s else s.
Definition lines (s : string) : list string :=
  let parts := split (char 10) s in
  strip_cr <$> (if last parts =? Some "" then removelast parts else parts).

(** [split_whitespace().next()], for ASCII text. *)
Definition rust_space (c : ascii) : bool := in_range 9 13 c || (code c =? 32).
Fixpoint word_at (s : string) : string :=
  match s with String c s' => if rust_space c then "" else String c (word_at s') | EmptyString => "" end.
Fixpoint first_word (s : string) : option string :=
  match s with
  | EmptyString => None
  | String c s' => if rust_space c then first_word s' else Some (String c (word_at s'))
  end.

(** [sort_by_key], which is stable. *)
Section sort.
Context {A : Type} (key : A -> Z).
Fixpoint insert_by_key (x : A) (l : list A) : list A :=
  match l with [] => [x] | y :: l' => if key x <=? key y then x :: l else y :: insert_by_key x l' end.
Definition sort_by_key (l : list A) : list A := foldr insert_by_key [] l.

(** With two keys, the elements of the smaller come first and the order is kept
    otherwise. *)
Lemma sort_by_two_keys l : Forall (fun x => key x = 0 \/ key x = 1) l ->
  sort_by_key l = List.filter (fun x => key x =? 0) l ++ List.filter (fun x => key x =? 1) l.
Proof.
  induction 1 as [|x l Hx Hl IH]; [done|]. cbn [sort_by_key foldr]. fold (sort_by_key l). rewrite IH. cbn [List.filter].
  destruct Hx as [E | E]; rewrite E; cbn.
  - destruct (List.filter _ l) as [|y ys] eqn:Ef; cbn.
    + destruct (List.filter (fun x => key x =? 1) l) as [|y ys] eqn:E1; [done|]. cbn. rewrite E.
      assert (Hy : In y (List.filter (fun x => key x =? 1) l)) by (rewrite E1; by left). apply filter_In in Hy as [_ Hy]. bprop. by rewrite Hy.
    + rewrite E. assert (Hy : In y (List.filter (fun x => key x =? 0) l)) by (rewrite Ef; by left). apply filter_In in Hy as [_ Hy]. bprop. by rewrite Hy.
  - assert (Hz : Forall (fun y => key y = 0) (List.filter (fun x => key x =? 0) l)).
    { apply Forall_forall. intros y Hy. apply list_elem_of_In, filter_In in Hy as [_ Hy]. by bprop. }
    assert (Ho : Forall (fun y => key y = 1) (List.filter (fun x => key x =? 1) l)).
    { apply Forall_forall. intros y Hy. apply list_elem_of_In, filter_In in Hy as [_ Hy]. by bprop. }
    revert Hz Ho. generalize (List.filter (fun x => key x =? 0) l), (List.filter (fun x => key x =? 1) l).
    intros l0 l1 Hz Ho. induction Hz as [|y l0 Hy Hz IHz]; cbn.
    + destruct Ho as [|y l1 Hy Ho]; [done|]. cbn. by rewrite E, Hy.
    + rewrite E, Hy. cbn. by rewrite IHz.
Qed.
End sort.
