(* ===== verification/FileWatcher.v ===== *)
(** * helix-file-watcher: notifications for the open files of an editor

    Models [src/pkgs/helix-file-watcher/src/lib.rs]: the set of watched files,
    the directories watched for them, the filter in the watcher's callback and
    the polling of the event queue.  A path is compared by its components, as
    [PathBuf] is ([RustStd]).  What [canonicalize] and [exists] find is a function given
    with each call; which calls of the notification library fail and the order
    in which a set is iterated over are inputs.  The set of directories the
    library watches is kept with them: those watched and not unwatched, without
    those it dropped by itself, as it does for one that is deleted.  That an
    unwatch of a directory that is not watched fails is its documentation, and
    a hypothesis here ([unwatch_documented]).

    [reconcile_exact] shows what a successful call watches, [delivery_exact]
    that polling returns exactly the watched files that changed, and
    [stale_directory] what a failed call leaves behind for good. *)

From S2P Require Import Prelude GoStrings Json RustStd.

Open Scope Z_scope.
Open Scope go_scope.

(** What [exists] and [canonicalize] say at some moment. *)
Record filesystem := Filesystem { fs_exists : path -> bool; canonicalize : path -> option path }.

Definition canonicalize_or_path (fs : filesystem) (text : string) : path :=
  let p := path_from text in default p (canonicalize fs p).

(** ** Events *)
Inductive event_kind := AnyKind | Access | Create | Modify | Remove | OtherKind.
Record event := Event { ev_kind : event_kind; ev_paths : list path }.

Definition is_watched_file_event (e : event) : bool :=
  match ev_kind e with Create | Modify | Remove => true | _ => false end.

Definition canonicalized_is_watched (fs : filesystem) (watched : gset path) (p : path) : bool :=
  match canonicalize fs p with Some q => bool_decide (q ∈ watched) | None => false end.

(** The paths kept, and whether there are any. *)
Definition retain_watched_paths (fs : filesystem) (watched : gset path) (e : event) : event * bool :=
  let paths := List.filter (fun p => bool_decide (p ∈ watched) || canonicalized_is_watched fs watched p) (ev_paths e) in
  (Event (ev_kind e) paths, match paths with [] => false | _ => true end).

(** ** The watcher *)
Record watcher := Watcher {
  watched_paths : gset path;
  watched_dirs : gset path;
  library : gset path;             (* the directories the library watches *)
  queue : list event }.

Definition spawn_empty_watcher : watcher := Watcher ∅ ∅ ∅ [].

(** The callback: an error of the library is ignored. *)
Definition on_event (w : watcher) (fs : filesystem) (e : option event) : watcher :=
  match e with
  | Some e =>
      if is_watched_file_event e then
        let '(e', kept) := retain_watched_paths fs (watched_paths w) e in
        if kept then Watcher (watched_paths w) (watched_dirs w) (library w) (queue w ++ [e']) else w
      else w
  | None => w
  end.

(** ** [set_watched_files] *)

(** The outcomes of the library, an unwatch depending on what is watched, and the
    orders of the two differences. *)
Record outcomes := Outcomes { watch_ok : path -> bool; unwatch_ok : gset path -> path -> bool; watch_order : list path; unwatch_order : list path }.

Fixpoint watch_all (o : outcomes) (l : list path) (lib : gset path) : bool * gset path :=
  match l with
  | [] => (true, lib)
  | d :: l' => if watch_ok o d then watch_all o l' ({[d]} ∪ lib) else (false, lib)
  end.

Fixpoint unwatch_all (o : outcomes) (l : list path) (lib : gset path) : bool * gset path :=
  match l with
  | [] => (true, lib)
  | d :: l' => if unwatch_ok o lib d then unwatch_all o l' (lib ∖ {[d]}) else (false, lib)
  end.

Definition parents (paths : gset path) : gset path := list_to_set (omap parent (base.elements paths)).

(** An early return leaves the recorded directories as they were. *)
Definition reconcile_watched_dirs (w : watcher) (o : outcomes) : bool * watcher :=
  let next := parents (watched_paths w) in
  match watch_all o (watch_order o) (library w) with
  | (false, lib) => (false, Watcher (watched_paths w) (watched_dirs w) lib (queue w))
  | (true, lib) =>
      match unwatch_all o (unwatch_order o) lib with
      | (false, lib') => (false, Watcher (watched_paths w) (watched_dirs w) lib' (queue w))
      | (true, lib') => (true, Watcher (watched_paths w) next lib' (queue w))
      end
  end.

Definition set_watched_files (w : watcher) (fs : filesystem) (texts : list string) (o : outcomes) : bool * watcher :=
  let next : gset path := list_to_set (canonicalize_or_path fs <$> texts) in
  reconcile_watched_dirs (Watcher next (watched_dirs w) (library w) (queue w)) o.

(** The orders enumerate the differences of the sets. *)
Definition orders_of (w : watcher) (fs : filesystem) (texts : list string) (o : outcomes) : Prop :=
  let next := parents (list_to_set (canonicalize_or_path fs <$> texts)) in
  watch_order o ≡ₚ base.elements (next ∖ watched_dirs w) /\ unwatch_order o ≡ₚ base.elements (watched_dirs w ∖ next).

(** ** [recv_paths] *)

(** The path reported for one that changed. *)
Definition reported (fs : filesystem) (p : path) : option path := if fs_exists fs p then canonicalize fs p else Some p.

Definition collect_event_paths (fs : filesystem) (e : event) (paths : gset path) : gset path :=
  paths ∪ list_to_set (omap (reported fs) (ev_paths e)).

(** [into_string().ok()]: a path that is not UTF-8 is left out. *)
Definition is_text (p : path) : bool := forallb is_utf8 (p_components p).

(** [None] is the answer [#false] of an empty queue; the sender lives as long
    as the watcher, so that the channel is never disconnected. *)
Definition recv_paths (w : watcher) (fs : filesystem) : option (gset path) * watcher :=
  match queue w with
  | [] => (None, w)
  | l => (Some (filter (fun p => is_text p = true) (foldl (fun paths e => collect_event_paths fs e paths) ∅ l)),
          Watcher (watched_paths w) (watched_dirs w) (library w) [])
  end.

(** ** The watcher over time *)
Inductive step :=
| SetFiles (fs : filesystem) (texts : list string) (o : outcomes)
| Notify (fs : filesystem) (e : option event)
| Drop (d : path)
| Poll (fs : filesystem).

Definition do_step (w : watcher) (s : step) : watcher :=
  match s with
  | SetFiles fs texts o => (set_watched_files w fs texts o).2
  | Notify fs e => on_event w fs e
  | Drop d => Watcher (watched_paths w) (watched_dirs w) (library w ∖ {[d]}) (queue w)
  | Poll fs => (recv_paths w fs).2
  end.
Definition steps (w : watcher) (l : list step) : watcher := foldl do_step w l.

(** ** What a call watches *)
Lemma watch_all_spec o l lib ok lib' : watch_all o l lib = (ok, lib') ->
  lib ⊆ lib' /\ lib' ⊆ lib ∪ list_to_set l /\ (ok = true -> lib' = lib ∪ list_to_set l) /\ (Forall (fun d => watch_ok o d = true) l -> ok = true).
Proof.
  revert lib. induction l as [|d l IH]; intros lib; cbn [watch_all].
  - intros [= <- <-]. cbn. split_and!; try done; set_solver.
  - destruct (watch_ok o d) eqn:E.
    + intros H. destruct (IH _ H) as (H1 & H2 & H3 & H4). cbn. split_and!; [set_solver|set_solver| |].
      * intros Hok. rewrite (H3 Hok). set_solver.
      * intros Hf. apply Forall_cons in Hf as [_ Hf]. auto.
    + intros [= <- <-]. cbn. split_and!; [set_solver|set_solver|done|]. intros Hf. apply Forall_cons in Hf as [? _]. congruence.
Qed.

Lemma unwatch_all_spec o l lib ok lib' : NoDup l -> unwatch_all o l lib = (ok, lib') ->
  (ok = true -> lib' = lib ∖ list_to_set l) /\
  ((forall lib d, d ∈ lib -> unwatch_ok o lib d = true) -> Forall (fun d => d ∈ lib) l -> ok = true).
Proof.
  intros Hnd. revert lib. induction Hnd as [|d l Hd Hnd IH]; intros lib; cbn [unwatch_all].
  - intros [= <- <-]. split; [set_solver|done].
  - destruct (unwatch_ok o lib d) eqn:Eo.
    + intros H. destruct (IH _ H) as (H3 & H4). cbn. split; [intros Hok; rewrite (H3 Hok); set_solver|].
      intros Ho Hf. apply Forall_cons in Hf as [_ Hf]. apply H4; [done|]. rewrite Forall_forall in Hf |- *. set_solver.
    + intros [= <- <-]. split; [done|]. intros Ho Hf. apply Forall_cons in Hf as [Hf _]. by rewrite (Ho _ _ Hf) in Eo.
Qed.

(** A call that succeeds, with the library's watches as recorded, leaves
    exactly the directories of the watched files watched; it succeeds unless
    the library fails. *)
Theorem reconcile_exact w fs texts o ok w' : library w = watched_dirs w -> orders_of w fs texts o ->
  set_watched_files w fs texts o = (ok, w') ->
  watched_paths w' = list_to_set (canonicalize_or_path fs <$> texts) /\ queue w' = queue w /\
  (ok = true -> library w' = parents (watched_paths w') /\ watched_dirs w' = library w') /\
  ((forall d, watch_ok o d = true) -> (forall lib d, d ∈ lib -> unwatch_ok o lib d = true) -> ok = true).
Proof.
  intros Hlib [Hw Hu]. unfold set_watched_files, reconcile_watched_dirs. cbn [watched_paths library watched_dirs queue].
  set (next := parents _) in *. destruct (watch_all o (watch_order o) (library w)) as [ok1 lib1] eqn:E1.
  assert (Hnd : NoDup (unwatch_order o)) by (rewrite Hu; apply NoDup_elements).
  apply watch_all_spec in E1 as (_ & _ & H1 & H1').
  assert (Hws : (list_to_set (watch_order o) : gset path) = next ∖ watched_dirs w) by (rewrite Hw; apply list_to_set_elements_L).
  assert (Hus : (list_to_set (unwatch_order o) : gset path) = watched_dirs w ∖ next) by (rewrite Hu; apply list_to_set_elements_L).
  destruct ok1.
  - destruct (unwatch_all o (unwatch_order o) lib1) as [ok2 lib2] eqn:E2.
    apply unwatch_all_spec in E2 as (H2 & H2'); [|done]. rewrite (H1 eq_refl) in *. rewrite Hlib, Hws in *.
    assert (Hok : (forall lib d, d ∈ lib -> unwatch_ok o lib d = true) -> ok2 = true).
    { intros Ho. apply H2'; [done|]. apply Forall_forall. intros d Hd. rewrite Hu, elem_of_elements in Hd. set_solver. }
    destruct ok2; intros [= <- <-]; cbn; split_and!; try done; try (by intros; apply Hok).
    intros _. rewrite (H2 eq_refl), Hus. fold next.
    assert (E : (watched_dirs w ∪ next ∖ watched_dirs w) ∖ (watched_dirs w ∖ next) = next); [|by rewrite E].
    apply set_eq. intros x. destruct (decide (x ∈ next)), (decide (x ∈ watched_dirs w)); set_solver.
  - intros [= <- <-]. cbn. split_and!; try done. intros Ho _. apply H1'. apply Forall_forall. auto.
Qed.

(** ** What polling returns *)

(** A path of a reported change that is watched, when it is reported. *)
Definition relevant (w : watcher) (fs : filesystem) (p : path) : Prop :=
  p ∈ watched_paths w \/ exists q, canonicalize fs p = Some q /\ q ∈ watched_paths w.

(** A change of a file: it appeared, its contents changed or it went away.
    That it was read, or an event of another or of an unknown kind, is none. *)
Definition file_change (e : event) : Prop :=
  ev_kind e = Create \/ ev_kind e = Modify \/ ev_kind e = Remove.

(** [p] is a watched file that one of the steps reports as changed. *)
Definition changed (w : watcher) (l : list step) (p : path) : Prop :=
  exists pre fs e post, l = pre ++ Notify fs (Some e) :: post /\ file_change e /\ p ∈ ev_paths e /\ relevant (steps w pre) fs p.

(** The name under which [q] is known when the queue is read: its canonical
    name if the file is there, its own if it is gone.  A file that is there and
    has no canonical name is known under none. *)
Definition present_name (fs : filesystem) (q p : path) : Prop :=
  fs_exists fs q = true /\ canonicalize fs q = Some p \/ fs_exists fs q = false /\ p = q.

(** A path all of whose components are UTF-8. *)
Definition textual (p : path) : Prop := forall c, c ∈ p_components p -> is_utf8 c = true.

Lemma file_change_iff e : is_watched_file_event e = true <-> file_change e.
Proof. unfold is_watched_file_event, file_change. destruct (ev_kind e); naive_solver. Qed.

Lemma reported_iff fs q p : reported fs q = Some p <-> present_name fs q p.
Proof. unfold reported, present_name. destruct (fs_exists fs q); naive_solver. Qed.

Lemma is_text_iff p : is_text p = true <-> textual p.
Proof. unfold is_text, textual. rewrite forallb_forall. by setoid_rewrite list_elem_of_In. Qed.

Definition polls (s : step) : bool := match s with Poll _ => true | _ => false end.
Definition queued (w : watcher) (p : path) : Prop := exists e, e ∈ queue w /\ p ∈ ev_paths e.

Lemma retained_iff fs w p e : p ∈ ev_paths (retain_watched_paths fs (watched_paths w) e).1 <-> p ∈ ev_paths e /\ relevant w fs p.
Proof.
  unfold retain_watched_paths, relevant, canonicalized_is_watched. cbn. rewrite list_elem_of_In, filter_In, <- list_elem_of_In, orb_true_iff, bool_decide_eq_true.
  destruct (canonicalize fs p) as [q|]; [rewrite bool_decide_eq_true|]; naive_solver.
Qed.

Lemma on_event_queued w fs e p : queued (on_event w fs e) p <->
  queued w p \/ exists e', e = Some e' /\ file_change e' /\ p ∈ ev_paths e' /\ relevant w fs p.
Proof.
  unfold on_event. destruct e as [e|]; [|split; [by left|]; by intros [H | (x & [=] & _)]].
  destruct (is_watched_file_event e) eqn:Ek;
    [apply file_change_iff in Ek|split; [by left|]; intros [H | (x & [= <-] & H%file_change_iff & _)]; [done|congruence]].
  pose proof (fun p => retained_iff fs w p e) as Hret.
  destruct (retain_watched_paths fs (watched_paths w) e) as [e' kept] eqn:Er. cbn in Hret.
  assert (Hkept : kept = false -> ev_paths e' = []).
  { unfold retain_watched_paths in Er. injection Er as <- <-. cbn [ev_paths]. by destruct (List.filter _ _). }
  destruct kept; unfold queued; cbn.
  - setoid_rewrite elem_of_app. setoid_rewrite list_elem_of_singleton. split.
    + intros (x & [Hx | ->] & Hp); [left; eauto|right; exists e; by rewrite <- Hret].
    + intros [(x & Hx & Hp) | (x & [= <-] & _ & Hp)]; [eauto|]. exists e'. rewrite Hret. auto.
  - rewrite Hkept in Hret by done. split; [by left|]. intros [H | (x & [= <-] & _ & Hp)]; [done|]. apply Hret in Hp. by apply elem_of_nil in Hp.
Qed.

Lemma do_step_queue w s : polls s = false -> (forall fs e, s <> Notify fs e) -> queue (do_step w s) = queue w.
Proof.
  intros Hp Hn. destruct s as [fs texts o|fs e|d|fs]; cbn; [|by destruct (Hn fs e)|done|done].
  unfold set_watched_files, reconcile_watched_dirs. cbn. destruct (watch_all _ _ _) as [[] ?]; [|done]. by destruct (unwatch_all _ _ _) as [[] ?].
Qed.

Lemma changed_snoc w l s p : changed w (l ++ [s]) p <->
  changed w l p \/ exists fs e, s = Notify fs (Some e) /\ file_change e /\ p ∈ ev_paths e /\ relevant (steps w l) fs p.
Proof.
  split.
  - intros (pre & fs & e & post & E & H). destruct post as [|x post _] using rev_ind.
    + apply app_inj_tail in E as [-> ->]. right. eauto.
    + left. rewrite app_comm_cons, app_assoc in E. apply app_inj_tail in E as [-> _]. by exists pre, fs, e, post.
  - intros [(pre & fs & e & post & -> & H) | (fs & e & -> & H)].
    + exists pre, fs, e, (post ++ [s]). by rewrite <- app_assoc.
    + by exists l, fs, e, [].
Qed.

Lemma queue_changed w l p : Forall (fun s => polls s = false) l -> queue w = [] -> queued (steps w l) p <-> changed w l p.
Proof.
  intros Hl Hq. induction l as [|s l IH] using rev_ind.
  { split; [|intros (pre & fs & e & post & E & _); by destruct pre]. unfold queued. cbn. rewrite Hq. intros (e & He & _). by apply elem_of_nil in He. }
  apply Forall_app in Hl as [Hl Hs]. rewrite Forall_singleton in Hs. specialize (IH Hl). rewrite changed_snoc, <- IH.
  unfold steps. rewrite foldl_app. cbn [foldl]. fold (steps w l).
  destruct s as [fs texts o|fs e|d|fs]; [| | |done].
  - unfold queued. rewrite do_step_queue by done. naive_solver.
  - cbn [do_step]. rewrite on_event_queued. naive_solver.
  - unfold queued. cbn. naive_solver.
Qed.

Lemma queue_nonempty l : forall w, Forall (fun e => ev_paths e <> []) (queue w) -> Forall (fun e => ev_paths e <> []) (queue (steps w l)).
Proof.
  induction l as [|s l IH]; intros w Hw; [done|]. apply IH. destruct s as [fs texts o|fs e|d|fs].
  - by rewrite do_step_queue.
  - cbn. unfold on_event. destruct e as [e|]; [|done]. destruct (is_watched_file_event e); [|done].
    unfold retain_watched_paths. destruct (List.filter _ _) as [|p ps]; [done|]. cbn. apply Forall_app. split; [done|]. by apply Forall_singleton.
  - done.
  - cbn. unfold recv_paths. destruct (queue w) eqn:E; cbn; [by rewrite E|apply Forall_nil_2].
Qed.

Lemma collected_iff fs p l : forall acc, p ∈ foldl (fun paths e => collect_event_paths fs e paths) acc l <->
  p ∈ acc \/ exists e q, e ∈ l /\ q ∈ ev_paths e /\ reported fs q = Some p.
Proof.
  induction l as [|e l IH]; intros acc; cbn [foldl].
  - split; [by left|]. intros [H | (e & q & He & _)]; [done|by apply elem_of_nil in He].
  - rewrite IH. unfold collect_event_paths. rewrite elem_of_union, elem_of_list_to_set, list_elem_of_omap. setoid_rewrite elem_of_cons. naive_solver.
Qed.

(** C28: Polling returns exactly the watched files reported as created, modified
    or removed since the last poll, under the canonical name they have now or,
    when they are gone, the name of the report, and those whose name is no UTF-8
    left out; it says that there is nothing only when no watched file was
    reported.  Watched means watched when the change is reported, directly or
    under its canonical name.  Nothing is left in the queue. *)
Theorem delivery_exact w l fs answer w' : queue w = [] -> Forall (fun s => polls s = false) l ->
  recv_paths (steps w l) fs = (answer, w') ->
  queue w' = [] /\ (answer = None <-> forall p, ~ changed w l p) /\
  (forall paths p, answer = Some paths -> p ∈ paths <-> textual p /\ exists q, changed w l q /\ present_name fs q p).
Proof.
  intros Hq Hl Hr. pose proof (fun p => queue_changed w l p Hl Hq) as Hch. unfold queued in Hch. unfold recv_paths in Hr.
  assert (Hne : Forall (fun e => ev_paths e <> []) (queue (steps w l))) by (apply queue_nonempty; rewrite Hq; apply Forall_nil_2).
  destruct (queue (steps w l)) as [|e es] eqn:E; injection Hr as <- <-.
  - split_and!; [done| |done]. split; [|done]. intros _ p Hp. apply Hch in Hp as (x & Hx & _). by apply elem_of_nil in Hx.
  - split_and!; [done| |].
    + split; [done|]. intros Hno. exfalso. apply Forall_cons in Hne as [He _]. destruct (ev_paths e) as [|p ps] eqn:Ep; [done|].
      apply (Hno p), Hch. exists e. split; [by left|rewrite Ep; by left].
    + intros paths p [= <-]. pose proof (collected_iff fs p (e :: es) ∅) as Hc. cbn [foldl] in Hc. rewrite elem_of_filter, Hc, is_text_iff. setoid_rewrite reported_iff. split.
      * intros (Ht & [Hin | (x & q & Hx & Hp & Hrep)]); [by apply elem_of_empty in Hin|]. split; [done|]. exists q. split; [apply Hch; eauto|done].
      * intros (Ht & q & Hcq & Hrep). apply Hch in Hcq as (x & Hx & Hp). split; [done|]. right. eauto.
Qed.

(** ** A directory that is recorded and not watched *)
Definition stale (w : watcher) (d : path) : Prop := d ∈ watched_dirs w /\ d ∉ library w.

Lemma watch_all_stays o l lib d : d ∉ l -> d ∉ lib -> d ∉ (watch_all o l lib).2.
Proof.
  intros Hl Hlib. destruct (watch_all o l lib) as [ok lib'] eqn:E. apply watch_all_spec in E as (_ & H & _). set_solver.
Qed.

(** What the library documents of an unwatch. *)
Definition unwatch_documented (o : outcomes) : Prop := forall lib d, d ∉ lib -> unwatch_ok o lib d = false.

Lemma unwatch_all_fails o l lib d : unwatch_documented o -> d ∈ l -> d ∉ lib -> (unwatch_all o l lib).1 = false.
Proof.
  intros Ho. revert lib. induction l as [|x l IH]; intros lib Hd Hlib; [by apply elem_of_nil in Hd|]. cbn.
  destruct (unwatch_ok o lib x) eqn:Ex; [|done].
  apply elem_of_cons in Hd as [-> | Hd]; [by rewrite Ho in Ex|]. apply IH; [done|set_solver].
Qed.

Lemma unwatch_all_shrinks o l lib : (unwatch_all o l lib).2 ⊆ lib.
Proof.
  revert lib. induction l as [|x l IH]; intros lib; [done|]. cbn. destruct (unwatch_ok o lib x); [|done]. etrans; [apply IH|]. set_solver.
Qed.

(** C39: Once a directory is recorded as watched and is not, because the library
    dropped it or because a call failed half way, no later call watches it
    again: each of them fails, or wants files of that directory and leaves it
    unwatched. *)
Theorem stale_directory w d fs texts o ok w' : unwatch_documented o -> stale w d -> orders_of w fs texts o -> set_watched_files w fs texts o = (ok, w') ->
  stale w' d /\ (ok = true -> d ∈ parents (watched_paths w')).
Proof.
  intros Ho [Hd Hn] [Hw Hu]. unfold set_watched_files, reconcile_watched_dirs. cbn [watched_paths library watched_dirs queue].
  set (next := parents _) in *.
  assert (Hwl : d ∉ watch_order o) by (rewrite Hw, elem_of_elements; set_solver).
  pose proof (watch_all_stays o (watch_order o) (library w) d Hwl Hn) as Hlib.
  destruct (watch_all o (watch_order o) (library w)) as [ok1 lib1]. cbn in Hlib. destruct ok1; [|intros [= <- <-]; by split].
  pose proof (unwatch_all_shrinks o (unwatch_order o) lib1) as Hs.
  destruct (decide (d ∈ next)) as [Hin | Hout].
  - destruct (unwatch_all o (unwatch_order o) lib1) as [[] lib2]; cbn in Hs; intros [= <- <-]; (split; [split; [done|set_solver]|done]).
  - assert (Hdu : d ∈ unwatch_order o) by (rewrite Hu, elem_of_elements; set_solver).
    pose proof (unwatch_all_fails o (unwatch_order o) lib1 d Ho Hdu Hlib) as Hf.
    destruct (unwatch_all o (unwatch_order o) lib1) as [ok2 lib2]; cbn in Hs, Hf; subst ok2. intros [= <- <-]. split; [split; [done|set_solver]|done].
Qed.

(** ** A concrete editor *)
Module WatcherExamples.

Definition here : filesystem := Filesystem (fun _ => true) Some.
Definition always (w o : list path) : outcomes := Outcomes (fun _ => true) (fun lib d => bool_decide (d ∈ lib)) w o.
Definition dir (s : string) : path := path_from s.

Example components : path_from "/a//b/./c/" = Path true ["a"; "b"; "c"] /\ path_from "./a" = Path false ["."; "a"] /\
  parent (path_from "/a") = Some (Path true []) /\ parent (path_from "/") = None.
Proof. vm_compute. done. Qed.

(** Two files, and a change of one of them and of a file that is not open. *)
Definition opened : step := SetFiles here ["/w/a.rs"; "/w/sub/b.rs"] (always [dir "/w"; dir "/w/sub"] []).
Definition saved : step := Notify here (Some (Event Modify [dir "/w/a.rs"; dir "/w/other"])).

Lemma delivery_exact_witness :
  (recv_paths (steps spawn_empty_watcher [opened; saved]) here).1 = Some {[dir "/w/a.rs"]} /\
  exists q, changed spawn_empty_watcher [opened; saved] q /\ present_name here q (dir "/w/a.rs").
Proof.
  assert (Hr : (recv_paths (steps spawn_empty_watcher [opened; saved]) here).1 = Some {[dir "/w/a.rs"]}) by (vm_compute; reflexivity).
  split; [exact Hr|].
  apply (delivery_exact spawn_empty_watcher [opened; saved] here (Some {[dir "/w/a.rs"]})
    (recv_paths (steps spawn_empty_watcher [opened; saved]) here).2 eq_refl) with (paths := {[dir "/w/a.rs"]}).
  - repeat constructor.
  - rewrite <- Hr. apply surjective_pairing.
  - reflexivity.
  - by apply elem_of_singleton.
Defined.

Lemma reconcile_exact_witness :
  library (steps spawn_empty_watcher [opened]) = parents (watched_paths (steps spawn_empty_watcher [opened])).
Proof.
  apply (reconcile_exact spawn_empty_watcher here ["/w/a.rs"; "/w/sub/b.rs"] (always [dir "/w"; dir "/w/sub"] []) true
    (steps spawn_empty_watcher [opened])).
  - reflexivity.
  - split; apply (bool_decide_unpack _); vm_compute; exact I.
  - vm_compute. reflexivity.
  - reflexivity.
Defined.

(** The directory of an open file is deleted; closing the file fails from then on. *)
Definition deleted : watcher := steps spawn_empty_watcher [opened; Drop (dir "/w/sub")].

Lemma stale_directory_witness :
  let o := always [] [dir "/w/sub"] in
  (set_watched_files deleted here ["/w/a.rs"] o).1 = false /\ stale (set_watched_files deleted here ["/w/a.rs"] o).2 (dir "/w/sub").
Proof.
  split; [vm_compute; reflexivity|].
  apply (stale_directory deleted (dir "/w/sub") here ["/w/a.rs"] (always [] [dir "/w/sub"])
    (set_watched_files deleted here ["/w/a.rs"] (always [] [dir "/w/sub"])).1).
  - intros lib d Hd. by apply bool_decide_eq_false.
  - split; apply (bool_decide_unpack _); vm_compute; exact I.
  - split; apply (bool_decide_unpack _); vm_compute; exact I.
  - apply surjective_pairing.
Defined.
End WatcherExamples.
