(* ===== verification/ShpoolMux.v ===== *)
(** * shpool-mux: one terminal session slot per window

    Models [src/pkgs/by-name/shpool-mux/src/main.rs]: a window takes the lock of
    one of twenty slots and becomes the client of the session of that number.
    The environment, what opening and marking a lock file gives, and the output
    of [shpool list] (ASCII) are inputs; a lock file is its path.  An exclusive lock
    is had by at most one process, which keeps it over [exec] and until it ends.

    [slot_chosen] characterises the choice of one window; [windows_exclusive]
    shows, over all histories of windows that open and close, that no session
    of another window is killed or attached to by force. *)

From Stdlib Require Import Sorted.
From S2P Require Import Prelude GoStrings Json RustStd.

Open Scope Z_scope.
Open Scope go_scope.

Record environ := Environ { XDG_RUNTIME_DIR : option string; USER : option string;
                            HOME : option string; current_dir : option string }.

(** [PathBuf::join] with a relative path. *)
Definition join (dir : path) (text : string) : path :=
  Path (p_rooted dir) (p_components dir ++ p_components (path_from text)).

Definition lock_dir (e : environ) : path :=
  join (path_from (default "/tmp" (XDG_RUNTIME_DIR e))) ("shpool-" ++ default "user" (USER e) ++ "-locks").
Definition lock_path (e : environ) (i : Z) : path := join (lock_dir e) ("slot_" ++ itoa i ++ ".lock").

Definition cwd (e : environ) : string := default "/" (current_dir e).
Definition is_spawn_mode (e : environ) : bool :=
  match HOME e with Some h => negb (path_from (cwd e) =? path_from h) | None => true end.

(** The names in the first column, below the heading. *)
Definition get_running_sessions (listing : option string) : gset string :=
  match listing with
  | Some stdout => list_to_set (omap first_word (List.skipn 1 (lines stdout)))
  | None => ∅
  end.

Definition all_slots : list Z := seqZ 1 20.
Definition running (sessions : gset string) (i : Z) : bool := bool_decide (itoa i ∈ sessions).
Definition slots (spawn : bool) (sessions : gset string) : list Z :=
  if spawn then sort_by_key (fun i => if running sessions i then 1 else 0) all_slots else all_slots.

(** What the calls on a lock file give: opening it, locking it, and clearing its
    close-on-exec flag. *)
Record lock_calls := LockCalls { opens : path -> bool; flocks : path -> bool; setfds : path -> bool }.
Definition takes (c : lock_calls) (p : path) : bool := opens c p && flocks c p && setfds c p.

(** The commands waited for, and the command the process becomes with the lock
    it keeps; none when all slots are locked. *)
Record taken := Taken { tk_slot : Z; tk_lock : path; tk_killed : list (list string); tk_exec : list string }.

Fixpoint take_slot (e : environ) (c : lock_calls) (sessions : gset string) (l : list Z) : option taken :=
  match l with
  | [] => None
  | i :: rest =>
      if takes c (lock_path e i) then
        Some (Taken i (lock_path e i)
                (if is_spawn_mode e && running sessions i then [["shpool"; "kill"; itoa i]] else [])
                ["shpool"; "attach"; "-f"; itoa i; "--dir"; cwd e])
      else take_slot e c sessions rest
  end.

Definition main (e : environ) (c : lock_calls) (listing : option string) : option taken :=
  let sessions := get_running_sessions listing in
  take_slot e c sessions (slots (is_spawn_mode e) sessions).

(** ** Windows that open and close *)

(** A live client: the environment it was opened in and the slot of its session,
    whose lock it keeps. *)
Definition windows := gmap Z (environ * Z).
Definition unlocked (w : windows) (p : path) : bool := bool_decide (map_Forall (fun _ v => lock_path v.1 v.2 <> p) w).

Inductive window_event :=
  | Open (pid : Z) (e : environ) (can_open can_setfd : path -> bool) (listing : option string) (execs : bool)
  | Close (pid : Z).

(** A process that could not become the client panics, which gives up its lock. *)
Definition window_step (w : windows) (ev : window_event) : option windows :=
  match ev with
  | Open pid e can_open can_setfd listing execs =>
      if bool_decide (w !! pid = None) then
        Some (match main e (LockCalls can_open (unlocked w) can_setfd) listing with
              | Some t => if execs then <[pid := (e, tk_slot t)]> w else w
              | None => w
              end)
      else None
  | Close pid => Some (delete pid w)
  end.
Definition windows_run (evs : list window_event) : option windows :=
  foldl (fun acc ev => w ← acc; window_step w ev) (Some ∅) evs.

(** ** Lemmas *)

Lemma take_slot_first e c sessions l t : take_slot e c sessions l = Some t ->
  exists before after, l = before ++ tk_slot t :: after
    /\ Forall (fun j => takes c (lock_path e j) = false) before
    /\ takes c (lock_path e (tk_slot t)) = true
    /\ t = Taken (tk_slot t) (lock_path e (tk_slot t))
             (if is_spawn_mode e && running sessions (tk_slot t) then [["shpool"; "kill"; itoa (tk_slot t)]] else [])
             ["shpool"; "attach"; "-f"; itoa (tk_slot t); "--dir"; cwd e].
Proof.
  induction l as [|i rest IH]; cbn; [done|]. destruct (takes c (lock_path e i)) eqn:E.
  - intros [= <-]. by exists [], rest.
  - intros (before & after & -> & Hb & Ht & Hx)%IH. exists (i :: before), after. by repeat split; [constructor| |].
Qed.

Lemma take_slot_none e c sessions l : take_slot e c sessions l = None <-> Forall (fun j => takes c (lock_path e j) = false) l.
Proof.
  induction l as [|i rest IH]; cbn; [done|]. rewrite Forall_cons, <- IH. destruct (takes c (lock_path e i)); naive_solver.
Qed.

Lemma slots_spawn sessions :
  slots true sessions = List.filter (fun i => negb (running sessions i)) all_slots ++ List.filter (running sessions) all_slots.
Proof.
  unfold slots. rewrite sort_by_two_keys.
  - f_equal; apply filter_ext; intros i; by destruct (running sessions i).
  - apply Forall_forall. intros i _. destruct (running sessions i); auto.
Qed.

Lemma slots_elem spawn sessions i : i ∈ slots spawn sessions <-> 1 <= i <= 20.
Proof.
  assert (Ha : i ∈ all_slots <-> 1 <= i <= 20) by (unfold all_slots; rewrite elem_of_seqZ; lia).
  destruct spawn; [|done]. rewrite slots_spawn, elem_of_app, !list_elem_of_In, !filter_In, <- !list_elem_of_In, Ha.
  destruct (running sessions i); cbn; intuition congruence.
Qed.

(** The order of preference: in spawn mode a slot without a session comes before
    one with a session, and the lower number decides otherwise. *)
Definition preferred (spawn : bool) (sessions : gset string) (i j : Z) : Prop :=
  if spawn && negb (eqb (running sessions i) (running sessions j)) then running sessions j = true else i <= j.

Lemma all_slots_sorted : StronglySorted Z.le all_slots.
Proof. unfold all_slots. vm_compute. repeat (constructor; [|repeat constructor; done]). constructor. Qed.

Lemma filter_sorted (f : Z -> bool) l : StronglySorted Z.le l -> StronglySorted Z.le (List.filter f l).
Proof.
  induction 1 as [|x l Hl IH Hx]; cbn; [constructor|]. destruct (f x); [|done]. constructor; [done|].
  rewrite Forall_forall in Hx. apply Forall_forall. intros y Hy. apply list_elem_of_In, filter_In in Hy as [Hy _].
  by apply Hx, list_elem_of_In.
Qed.

Lemma sorted_after (i : Z) l1 l2 : StronglySorted Z.le (l1 ++ i :: l2) -> Forall (Z.le i) l2.
Proof. induction l1 as [|a l1 IH]; cbn; intros Hs; apply StronglySorted_inv in Hs as [Hs Hf]; auto. Qed.

Lemma two_runs (f : Z -> bool) A B before i after :
  StronglySorted Z.le A -> StronglySorted Z.le B -> Forall (fun x => f x = false) A -> Forall (fun x => f x = true) B ->
  A ++ B = before ++ i :: after ->
  Forall (fun j => if negb (eqb (f i) (f j)) then f j = true else i <= j) after.
Proof.
  intros SA SB HA HB E.
  assert (Hrun : forall v l1 l2, StronglySorted Z.le (l1 ++ i :: l2) -> Forall (fun x => f x = v) (l1 ++ i :: l2) ->
    f i = v /\ Forall (fun j => if negb (eqb (f i) (f j)) then f j = true else i <= j) l2).
  { intros v l1 l2 Hs Hv. apply sorted_after in Hs. apply Forall_app in Hv as [_ Hv]. apply Forall_cons in Hv as [Hi Hv].
    split; [done|]. apply Forall_forall. rewrite Forall_forall in Hs. rewrite Forall_forall in Hv. intros j Hj.
    rewrite (Hv j Hj), Hi. rewrite eqb_reflx. cbn. auto. }
  apply app_eq_inv in E as [(k & E1 & E2) | (k & E1 & E2)].
  - destruct k as [|k0 k]; cbn in E2.
    + subst B. by apply (Hrun true []).
    + injection E2 as <- ->. subst A. destruct (Hrun false before k SA HA) as [Hi Hk]. apply Forall_app. split; [done|].
      eapply Forall_impl; [exact HB|]. cbv beta. intros j Hj. by rewrite Hi, Hj.
  - by subst B; apply (Hrun true k).
Qed.

Lemma slots_preferred spawn sessions before i after :
  slots spawn sessions = before ++ i :: after -> Forall (preferred spawn sessions i) after.
Proof.
  destruct spawn; intros E.
  - rewrite slots_spawn in E.
    apply (two_runs (running sessions)) in E; auto using filter_sorted, all_slots_sorted.
    all: apply Forall_forall; intros x [_ Hx]%list_elem_of_In%filter_In; by destruct (running sessions x).
  - apply (sorted_after i before). rewrite <- E. apply all_slots_sorted.
Qed.

(** ** The properties *)

(** A window takes the slot it prefers among those whose lock file can be
    opened, locked and kept open, out of the slots 1 to 20: in spawn mode one
    without a session whenever there is such a slot, and the lowest number
    otherwise.  It becomes the client of that session, in its own directory,
    and runs nothing before that but the kill of an old session in the very slot
    it took, in spawn mode only.  It gives up exactly when no slot can be taken. *)
Theorem slot_chosen e c listing :
  let sessions := get_running_sessions listing in
  match main e c listing with
  | Some t =>
      1 <= tk_slot t <= 20 /\ tk_lock t = lock_path e (tk_slot t) /\ takes c (tk_lock t) = true
      /\ (forall j, 1 <= j <= 20 -> takes c (lock_path e j) = true -> preferred (is_spawn_mode e) sessions (tk_slot t) j)
      /\ tk_killed t = (if is_spawn_mode e && running sessions (tk_slot t) then [["shpool"; "kill"; itoa (tk_slot t)]] else [])
      /\ tk_exec t = ["shpool"; "attach"; "-f"; itoa (tk_slot t); "--dir"; cwd e]
  | None => forall j, 1 <= j <= 20 -> takes c (lock_path e j) = false
  end.
Proof.
  intros sessions. unfold main. fold sessions. destruct (take_slot _ _ _ _) as [t|] eqn:E.
  - apply take_slot_first in E as (before & after & El & Hb & Ht & ->). cbn [tk_slot tk_lock tk_killed tk_exec] in *.
    split; [|split; [done|split; [done|split; [|done]]]].
    + apply (slots_elem (is_spawn_mode e) sessions). rewrite El. set_solver.
    + intros j Hj Htj. apply (slots_elem (is_spawn_mode e) sessions) in Hj. pose proof (slots_preferred _ _ _ _ _ El) as Ha.
      rewrite El in Hj. rewrite Forall_forall in Ha. rewrite Forall_forall in Hb.
      apply elem_of_app in Hj as [Hj | Hj]; [by rewrite (Hb j Hj) in Htj|].
      apply elem_of_cons in Hj as [-> | Hj]; [|auto]. unfold preferred. rewrite eqb_reflx, andb_false_r. lia.
  - apply take_slot_none in E. rewrite Forall_forall in E. intros j Hj. by apply E, slots_elem.
Qed.

Lemma main_slot e c listing t : main e c listing = Some t ->
  0 <= tk_slot t /\ flocks c (lock_path e (tk_slot t)) = true
  /\ Forall (fun cmd => cmd = ["shpool"; "kill"; itoa (tk_slot t)]) (tk_killed t)
  /\ tk_exec t = ["shpool"; "attach"; "-f"; itoa (tk_slot t); "--dir"; cwd e].
Proof.
  intros E. unfold main in E. apply take_slot_first in E as (before & after & El & _ & Ht & ->).
  cbn [tk_slot tk_killed tk_exec] in *. split; [|split; [|split; [|done]]].
  - enough (1 <= tk_slot t <= 20) by lia. eapply slots_elem. rewrite El. set_solver.
  - unfold takes in Ht. by destruct (opens c _), (flocks c _).
  - destruct (_ && _); repeat constructor.
Qed.

Lemma lock_path_dir e e' i : lock_dir e = lock_dir e' -> lock_path e i = lock_path e' i.
Proof. unfold lock_path. by intros ->. Qed.

Definition locks_exclusive (w : windows) : Prop :=
  forall p q v v', w !! p = Some v -> w !! q = Some v' -> lock_path v.1 v.2 = lock_path v'.1 v'.2 -> p = q.
Definition slots_valid (w : windows) : Prop := map_Forall (fun _ v => 0 <= v.2) w.

Lemma window_step_exclusive w ev w' : locks_exclusive w /\ slots_valid w -> window_step w ev = Some w' -> locks_exclusive w' /\ slots_valid w'.
Proof.
  intros [Hx Hv]. destruct ev as [pid e o s listing execs | pid]; cbn.
  - case_bool_decide; [|done]. intros [= <-]. destruct (main _ _ _) as [t|] eqn:E; [|done]. destruct execs; [|done].
    apply main_slot in E as (H0 & Hf & _). cbn in Hf. unfold unlocked in Hf. apply bool_decide_eq_true in Hf.
    split; [|by apply map_Forall_insert_2].
    intros p q v v' [[<- <-] | [Hp Ep]]%lookup_insert_Some [[<- <-] | [Hq Eq]]%lookup_insert_Some; cbn; try done; [| |eauto].
    + intros El. by destruct (Hf q v' Eq).
    + intros El. by destruct (Hf p v Ep).
  - intros [= <-]. split; [|by apply map_Forall_delete].
    intros p q v v' [_ Ep]%lookup_delete_Some [_ Eq]%lookup_delete_Some. eauto.
Qed.

Lemma windows_run_exclusive evs w : windows_run evs = Some w -> locks_exclusive w /\ slots_valid w.
Proof.
  unfold windows_run. revert w. induction evs as [|ev evs IH] using rev_ind; cbn.
  - intros w [= <-]. split; [by intros p q v v' Hp|apply map_Forall_empty].
  - intros w. rewrite foldl_app. cbn. destruct (foldl _ _ evs) as [w0|]; [|done]. cbn. eauto using window_step_exclusive.
Qed.

(** C26: However windows are opened and closed, in whatever environments, and
    whatever the listings of sessions say: of the open windows that share a lock
    directory no two have the same session, and a window opened next, whether or
    not it is in spawn mode, neither kills the session of an open window nor
    attaches to it, although it attaches by force. *)
Theorem windows_exclusive evs w : windows_run evs = Some w ->
  (forall p q v v', w !! p = Some v -> w !! q = Some v' -> lock_dir v.1 = lock_dir v'.1 -> v.2 = v'.2 -> p = q)
  /\ (forall e can_open can_setfd listing t p v,
        main e (LockCalls can_open (unlocked w) can_setfd) listing = Some t ->
        w !! p = Some v -> lock_dir v.1 = lock_dir e ->
        ["shpool"; "kill"; itoa v.2] ∉ tk_killed t /\ tk_exec t !! 3%nat <> Some (itoa v.2)).
Proof.
  intros [Hx Hv]%windows_run_exclusive. split.
  - intros p q v v' Hp Hq Ed Es. eapply Hx; eauto. rewrite Es. by apply lock_path_dir.
  - intros e o s listing t p v E Hp Ed. apply main_slot in E as (H0 & Hf & Hk & ->). cbn in Hf. unfold unlocked in Hf.
    apply bool_decide_eq_true in Hf.
    assert (Hne : itoa (tk_slot t) <> itoa v.2).
    { intros Ei. apply itoa_inj in Ei. apply (Hf p v Hp). rewrite Ei. by apply lock_path_dir. }
    split; [|cbn; congruence]. rewrite Forall_forall in Hk. intros Hin. apply Hk in Hin. congruence.
Qed.

Module MuxExamples.
Definition at_home : environ := Environ (Some "/run/user/1000") (Some "elen") (Some "/home/elen") (Some "/home/elen/").
Definition at_project : environ := Environ (Some "/run/user/1000") (Some "elen") (Some "/home/elen") (Some "/home/elen/src").
Definition yes (_ : path) : bool := true.
Definition listing : string :=
  "NAME STARTED_AT STATUS" ++ String (char 10) "1 2026 attached" ++ String (char 10) "2 2026 disconnected" ++ String (char 10) "".

(** A window at home takes slot 1; one in a project skips the session that was
    left in slot 2 and takes slot 3; the next at home takes slot 2 over. *)
Definition opened : list window_event :=
  [Open 10 at_home yes yes None true; Open 11 at_project yes yes (Some listing) true; Open 12 at_home yes yes (Some listing) true].

Lemma windows_exclusive_witness :
  exists w, windows_run opened = Some w /\ (snd <$> w) !! 11 = Some 3 /\ (snd <$> w) !! 12 = Some 2
    /\ (forall p q v v', w !! p = Some v -> w !! q = Some v' -> lock_dir v.1 = lock_dir v'.1 -> v.2 = v'.2 -> p = q).
Proof.
  destruct (windows_run opened) as [w|] eqn:E; [|by vm_compute in E].
  exists w. split; [done|]. split; [|split; [|apply (windows_exclusive _ _ E)]].
  all: vm_compute in E; injection E as <-; vm_compute; reflexivity.
Defined.

(** With no slot left free of sessions, an old one is killed. *)
Definition all_running : string :=
  "NAME" ++ String.concat "" ((fun i => String (char 10) (itoa i ++ " x")) <$> all_slots).
Example spawn_kills :
  tk_killed <$> main at_project (LockCalls yes (fun p => negb (p =? lock_path at_home 1)) yes) (Some all_running) = Some [["shpool"; "kill"; "2"]].
Proof. vm_compute. reflexivity. Qed.
End MuxExamples.
