(* ===== verification/WgRefresh.v ===== *)
(** * wg-refresh: restarting WireGuard links whose peer moved

    Models [src/script/wg-refresh.nu]: for each node that is known by a name and
    not by static addresses, the resolved address is compared with the recorded
    one.  The answers of [dig] (without the link-local addresses), [ping] and
    [ip] are inputs; a command that fails raises, as in the block that catches it.  The state file is the
    record it holds, and holds none when it was just created.

    [refresh_exact] shows what a run records and restarts; [deferred_restart_lost]
    that a restart which is put off never happens. *)

From S2P Require Import Prelude GoStrings.

Open Scope Z_scope.
Open Scope go_scope.

Record node := Node { identifiers : option (list string); addrs : option (list string) }.

(** [dig] by node and host name, whether an address does not answer, and
    whether a device can be deleted. *)
Record answers := Answers { dig : string -> string -> option string; down : string -> bool; deletes : string -> bool }.

Inductive command := LinkDel (device : string) | NetworkctlReload.
Record world := World { state_file : option (gmap string string); commands : list command }.

Definition device_name (node_name : string) : string := "hts-" ++ node_name.

Definition nodes_to_check (hostname : string) (config : list (string * node)) : list (string * node) :=
  List.filter (fun n => negb (n.1 =? hostname) && bool_decide (is_Some (identifiers n.2)) && bool_decide (addrs n.2 = None)) config.

(** [ip link del] and, when it succeeds, the reload; a failure is logged. *)
Definition restart (a : answers) (device : string) : list command :=
  LinkDel device :: if deletes a device then [NetworkctlReload] else [].

Definition save_state (state : option (gmap string string)) (node_name new_ip : string) : option (gmap string string) :=
  Some (match state with None => {[node_name := new_ip]} | Some s => <[node_name := new_ip]> s end).

(** One node; [None] is an error that ends the script. *)
Definition process_node (a : answers) (n : string * node) (w : world) : option world :=
  match identifiers n.2 with
  | Some (host :: _) =>
      Some (match dig a n.1 host with
            | None => w
            | Some new_ip =>
                let state := state_file w in
                match s ← state; s !! n.1 with
                | None => World (save_state state n.1 new_ip) (commands w)
                | Some old_ip =>
                    if new_ip =? old_ip then w
                    else World (save_state state n.1 new_ip)
                           (commands w ++ if down a old_ip then restart a (device_name n.1) else [])
                end
            end)
  | _ => None
  end.

Fixpoint process_nodes (a : answers) (l : list (string * node)) (w : world) : bool * world :=
  match l with
  | [] => (true, w)
  | n :: l' => match process_node a n w with Some w' => process_nodes a l' w' | None => (false, w) end
  end.

Definition main (hostname : string) (config : list (string * node)) (a : answers) (w : world) : bool * world :=
  process_nodes a (nodes_to_check hostname config) w.

(** ** One run *)
Definition recorded (w : world) (name : string) : option string := s ← state_file w; s !! name.

(** What is resolved for a node. *)
Definition resolved (a : answers) (n : string * node) : option string :=
  match identifiers n.2 with Some (host :: _) => dig a n.1 host | _ => None end.

(** The commands a run issues for a node with a recorded address. *)
Definition moved (a : answers) (w : world) (n : string * node) : list command :=
  match resolved a n, recorded w n.1 with
  | Some new_ip, Some old_ip => if negb (new_ip =? old_ip) && down a old_ip then restart a (device_name n.1) else []
  | _, _ => []
  end.

Lemma save_recorded state name ip cs k :
  recorded (World (save_state state name ip) cs) k = if decide (name = k) then Some ip else s ← state; s !! k.
Proof.
  unfold recorded, save_state. cbn. destruct state as [s|]; cbn; destruct (decide (name = k)) as [<- | Hne].
  - by rewrite lookup_insert_eq.
  - by rewrite lookup_insert_ne.
  - by rewrite lookup_singleton_eq.
  - by rewrite lookup_singleton_ne.
Qed.

Lemma process_node_spec a n w w' : process_node a n w = Some w' ->
  commands w' = commands w ++ moved a w n
  /\ forall k, recorded w' k = if decide (n.1 = k) then match resolved a n with Some ip => Some ip | None => recorded w k end else recorded w k.
Proof.
  unfold process_node, moved, resolved. destruct (identifiers n.2) as [[|host hosts]|]; [done| |done]. intros [= <-].
  destruct (dig a n.1 host) as [ip|]; [|split; [by rewrite app_nil_r|intros k; by destruct (decide _)]].
  fold (recorded w n.1). destruct (recorded w n.1) as [old|] eqn:Eo; cbn [commands].
  - destruct (ip =? old) eqn:E; cbn [negb andb commands].
    + bprop. subst old. split; [by rewrite app_nil_r|]. intros k. destruct (decide (n.1 = k)) as [<- | _]; done.
    + split; [done|]. intros k. by rewrite save_recorded.
  - split; [by rewrite app_nil_r|]. intros k. by rewrite save_recorded.
Qed.

(** A node that is to be checked has a name to resolve. *)
Definition named (n : string * node) : Prop := match identifiers n.2 with Some [] | None => False | _ => True end.

Lemma moved_other a w w' n : recorded w' n.1 = recorded w n.1 -> moved a w' n = moved a w n.
Proof. unfold moved. by intros ->. Qed.

Lemma process_nodes_spec a l : forall w, NoDup l.*1 -> Forall named l ->
  exists w', process_nodes a l w = (true, w') /\ commands w' = commands w ++ concat (moved a w <$> l)
    /\ (forall k, k ∉ l.*1 -> recorded w' k = recorded w k)
    /\ Forall (fun n => recorded w' n.1 = match resolved a n with Some ip => Some ip | None => recorded w n.1 end) l.
Proof.
  induction l as [|n l IH]; intros w Hnd Hl.
  { exists w. cbn. rewrite app_nil_r. split; [done|]. split; [done|]. split; [done|apply Forall_nil_2]. }
  cbn in Hnd. apply NoDup_cons in Hnd as [Hn Hnd]. apply Forall_cons in Hl as [Hname Hl]. cbn [process_nodes].
  destruct (process_node a n w) as [w1|] eqn:E.
  2: { unfold named in Hname. unfold process_node in E. by destruct (identifiers n.2) as [[|]|]. }
  apply process_node_spec in E as [Ec Er]. destruct (IH w1 Hnd Hl) as (w' & -> & Hc & Hother & Hall).
  assert (Hsame : forall m, m ∈ l -> recorded w1 m.1 = recorded w m.1).
  { intros m Hm. rewrite Er. destruct (decide (n.1 = m.1)) as [E | _]; [|done]. destruct Hn. rewrite E. by apply list_elem_of_fmap_2. }
  exists w'. split; [done|]. split; [|split].
  - rewrite Hc, Ec, <- app_assoc. cbn. do 3 f_equal. apply list_fmap_ext. intros i m Hm%list_elem_of_lookup_2. by apply moved_other, Hsame.
  - intros k Hk. cbn in Hk. rewrite Hother, Er by set_solver. destruct (decide (n.1 = k)); [set_solver|done].
  - constructor.
    + rewrite Hother, Er by done. by rewrite decide_True.
    + rewrite Forall_forall in Hall |- *. intros m Hm. by rewrite (Hall m Hm), (Hsame m Hm).
Qed.

Lemma nodes_to_check_elem hostname config n : n ∈ nodes_to_check hostname config <->
  n ∈ config /\ n.1 <> hostname /\ is_Some (identifiers n.2) /\ addrs n.2 = None.
Proof.
  unfold nodes_to_check. rewrite list_elem_of_In, filter_In, <- list_elem_of_In, !andb_true_iff, negb_true_iff, !bool_decide_eq_true.
  rewrite bool_decide_eq_false. tauto.
Qed.

Lemma nodes_to_check_NoDup hostname config : NoDup config.*1 -> NoDup (nodes_to_check hostname config).*1.
Proof.
  unfold nodes_to_check. induction config as [|n config IH]; cbn; [done|]. intros [Hn Hnd]%NoDup_cons.
  destruct (_ && _); [|auto]. cbn. apply NoDup_cons. split; [|auto]. rewrite list_elem_of_fmap. intros (m & Em & Hm). apply Hn. rewrite Em.
  apply list_elem_of_In, filter_In in Hm as [Hm _]. by apply list_elem_of_fmap_2, list_elem_of_In.
Qed.

Lemma nodes_named hostname config : Forall (fun n => identifiers n.2 <> Some []) config -> Forall named (nodes_to_check hostname config).
Proof.
  intros Hc. rewrite Forall_forall in Hc. apply Forall_forall. intros n (Hn & _ & [ids Hi] & _)%nodes_to_check_elem.
  apply Hc in Hn. unfold named. rewrite Hi in *. by destruct ids.
Qed.

(** A run, over a configuration in which every list of identifiers names a
    host, completes.  It records what each node that it checks resolved to, keeps
    the record of the others and of those that did not resolve, and restarts
    exactly the links of the checked nodes whose resolved address differs from
    the recorded one while that does not answer, in the order of the
    configuration.  A node without a record is recorded and not restarted. *)
Theorem refresh_exact hostname config a w : NoDup config.*1 -> Forall (fun n => identifiers n.2 <> Some []) config ->
  let checked := nodes_to_check hostname config in
  exists w', main hostname config a w = (true, w')
    /\ commands w' = commands w ++ concat (moved a w <$> checked)
    /\ (forall n, n ∈ checked -> recorded w' n.1 = match resolved a n with Some ip => Some ip | None => recorded w n.1 end)
    /\ (forall k, k ∉ checked.*1 -> recorded w' k = recorded w k).
Proof.
  intros Hnd Hc checked.
  destruct (process_nodes_spec a checked w) as (w' & E & Hcm & Ho & Hr); [by apply nodes_to_check_NoDup|by apply nodes_named|].
  exists w'. rewrite Forall_forall in Hr. auto.
Qed.

(** ** Later runs *)
Definition runs (hostname : string) (config : list (string * node)) (l : list answers) (w : world) : world :=
  foldl (fun w a => (main hostname config a w).2) w l.

Lemma fst_unique {A B} (l : list (A * B)) x y : NoDup l.*1 -> x ∈ l -> y ∈ l -> x.1 = y.1 -> x = y.
Proof.
  intros Hnd Hx Hy E. apply list_elem_of_lookup in Hx as [i Hi], Hy as [j Hj].
  assert (i = j) as <-; [|congruence]. eapply (NoDup_lookup l.*1 i j x.1); [done|..]; rewrite list_lookup_fmap; [by rewrite Hi|rewrite Hj; cbn; congruence].
Qed.

Lemma device_name_inj a b : device_name a = device_name b -> a = b.
Proof. unfold device_name. cbn. intros E. by injection E. Qed.

(** A node for which nothing is issued has its link left alone by the run. *)
Lemma link_left_alone a w l n : NoDup l.*1 -> n ∈ l -> moved a w n = [] -> LinkDel (device_name n.1) ∉ concat (moved a w <$> l).
Proof.
  intros Hnd Hn Hm Hin. apply list_elem_of_In, in_concat in Hin as (cs & Hcs & Hd). apply list_elem_of_In, list_elem_of_fmap in Hcs as (m & -> & Hml).
  assert (Hmn : m.1 = n.1).
  { apply device_name_inj. unfold moved, restart in Hd. destruct (resolved a m), (recorded w m.1); try done.
    destruct (_ && _); [|done]. destruct Hd as [Hd | Hd]; [congruence|]. destruct (deletes a _); [by destruct Hd|done]. }
  apply (fst_unique l) in Hmn; [|done..]. subst m. by rewrite Hm in Hd.
Qed.

Lemma unchanged_not_moved a w n ip : recorded w n.1 = Some ip -> resolved a n = Some ip \/ resolved a n = None -> moved a w n = [].
Proof. unfold moved. intros -> [-> | ->]; [|done]. by rewrite (bool_decide_eq_true_2 (ip = ip)). Qed.

(** C40: When a peer has moved while its old address still answers, the restart
    of its link is put off: the run issues none for it.  It records the new
    address all the same, and so no later run restarts the link while the peer
    stays where it is, whether or not the old address answers then. *)
Theorem deferred_restart_lost hostname config n w first later old new :
  NoDup config.*1 -> Forall (fun n => identifiers n.2 <> Some []) config -> n ∈ nodes_to_check hostname config ->
  recorded w n.1 = Some old -> resolved first n = Some new -> new <> old -> down first old = false ->
  Forall (fun a => resolved a n = Some new \/ resolved a n = None) later ->
  exists issued, commands (runs hostname config (first :: later) w) = commands w ++ issued
    /\ LinkDel (device_name n.1) ∉ issued /\ recorded (runs hostname config (first :: later) w) n.1 = Some new.
Proof.
  intros Hnd Hc Hn Hold Hnew Hne Hup Hlater. pose proof (nodes_to_check_NoDup hostname config Hnd) as Hcn.
  pose proof (nodes_named hostname config Hc) as Hnamed.
  assert (Hrun : forall a w, moved a w n = [] -> exists issued, commands (main hostname config a w).2 = commands w ++ issued
    /\ LinkDel (device_name n.1) ∉ issued
    /\ recorded (main hostname config a w).2 n.1 = match resolved a n with Some ip => Some ip | None => recorded w n.1 end).
  { intros a v Hm. unfold main. destruct (process_nodes_spec a (nodes_to_check hostname config) v Hcn Hnamed) as (w' & -> & Hcm & _ & Hr).
    rewrite Forall_forall in Hr. eexists. split; [exact Hcm|]. split; [by apply link_left_alone|by apply Hr]. }
  cbn [runs foldl]. fold (runs hostname config later (main hostname config first w).2).
  destruct (Hrun first w) as (i1 & Ec & Hi1 & Er).
  { unfold moved. by rewrite Hnew, Hold, Hup, andb_false_r. }
  rewrite Hnew in Er. revert Ec Er. generalize (main hostname config first w).2. revert i1 Hi1. clear Hnew Hup Hold.
  induction Hlater as [|a later Ha Hlater IH]; intros i1 Hi1 v Ec Er; [by exists i1|]. cbn [runs foldl].
  destruct (Hrun a v) as (i2 & Ec2 & Hi2 & Er2); [by eapply unchanged_not_moved|].
  apply (IH (i1 ++ i2)); [set_solver|by rewrite Ec2, Ec, app_assoc|]. rewrite Er2. by destruct Ha as [-> | ->].
Qed.

(** ** A peer that moves *)
Module RefreshExamples.
Definition config : list (string * node) :=
  [("kaambl", Node (Some ["kaambl.local"]) None); ("eihort", Node (Some ["eihort.local"]) (Some ["2001:db8::1"])); ("hastur", Node (Some ["hastur.local"]) None)].
Definition resolves (ip : string) (unreachable : bool) : answers :=
  Answers (fun n _ => if n =? "kaambl" then Some ip else None) (fun _ => unreachable) (fun _ => true).
Definition known : world := World (Some {["kaambl" := "fd00::1"]}) [].

Lemma refresh_exact_witness : exists w',
  main "hastur" config (resolves "fd00::2" true) known = (true, w') /\ commands w' = [LinkDel "hts-kaambl"; NetworkctlReload].
Proof.
  destruct (refresh_exact "hastur" config (resolves "fd00::2" true) known) as (w' & E & Hc & _).
  - apply (bool_decide_unpack _). vm_compute. exact I.
  - apply (bool_decide_unpack _). vm_compute. exact I.
  - exists w'. split; [exact E|]. rewrite Hc. vm_compute. reflexivity.
Defined.

Lemma deferred_witness : exists issued,
  commands (runs "hastur" config [resolves "fd00::2" false; resolves "fd00::2" true] known) = [] ++ issued /\ LinkDel "hts-kaambl" ∉ issued.
Proof.
  destruct (deferred_restart_lost "hastur" config ("kaambl", Node (Some ["kaambl.local"]) None) known
    (resolves "fd00::2" false) [resolves "fd00::2" true] "fd00::1" "fd00::2") as (issued & Hc & Hd & _).
  - apply (bool_decide_unpack _). vm_compute. exact I.
  - apply (bool_decide_unpack _). vm_compute. exact I.
  - apply nodes_to_check_elem. split; [by left|]. split; [done|]. by split; [eexists|].
  - vm_compute. reflexivity.
  - vm_compute. reflexivity.
  - done.
  - done.
  - constructor; [left; vm_compute; reflexivity|constructor].
  - exists issued. split; [exact Hc|exact Hd].
Defined.
End RefreshExamples.
