(* ===== verification/Oo7Session.v ===== *)
(** * oo7-session: credentials and readiness of the desktop keyring

    Models [src/script/oo7-session.py]: the readiness check of the Secret
    Service with its retries, the guards before the service is started, the
    verified backup of the keyrings and the enrolment of the credential.
    [CheckError] is an error and any other Python exception a panic, which the
    retries do not catch.  What commands print, what is found on disk and which
    calls fail are inputs; text is ASCII and [json.loads] is the grammar of
    [Json].

    [readiness_exact] and [ready_exact] show when the service counts as ready,
    [enroll_safe] what can become of a stored credential, and [backup_verified]
    what a reported backup holds. *)

From S2P Require Import Prelude GoStrings Json PyStd.

Open Scope Z_scope.
Open Scope go_scope.

Definition CREDENTIAL : string := "oo7.keyring-encryption-password".
Definition SERVICE : string := "org.freedesktop.secrets".
Definition ROOT : string := "/org/freedesktop/secrets".
Definition COLLECTION : string := "org.freedesktop.Secret.Collection".

Record settings := Settings {
  uid : Z; default_keyring : string; required_keyrings : list string;
  busctl : string; systemctl : string; systemd_creds : string; ask_password : string }.

Definition CheckError {A} (msg : string) : result A := Err (ErrNew msg).

(** A command exits, or the call raises: it timed out or could not be started. *)
Inductive reply := Exit (status : Z) (stdout : string) | Raises.

Definition run (r : reply) : result string :=
  match r with
  | Exit status stdout => if status =? 0 then Ok stdout else CheckError "A required command failed. Check the service status."
  | Raises => Panic "subprocess"
  end.

(** [list(dict.fromkeys(l))]: the first of equal names stays. *)
Fixpoint fromkeys (seen : list string) (l : list string) : list string :=
  match l with
  | [] => []
  | x :: l' => if bool_decide (x ∈ seen) then fromkeys seen l' else x :: fromkeys (x :: seen) l'
  end.
Definition keyring_names (c : settings) : list string := fromkeys [] (default_keyring c :: required_keyrings c).

(** ** Values of Python *)

(** [value["data"]] and [value[0]]. *)
Definition data_of (out : string) : result json :=
  match parse_all out with
  | Some (JObj l) => match member_of l "data" with Some d => Ok d | None => Panic "KeyError" end
  | Some _ => Panic "TypeError"
  | None => Panic "JSONDecodeError"
  end.
Definition index0 (v : json) : result json :=
  match v with
  | JArr (x :: _) => Ok x
  | JStr (String ch _) => Ok (JStr (String ch ""))
  | _ => Panic "IndexError"
  end.

(** An argument of a command is a string. *)
Definition as_arg (v : json) : result string := match v with JStr s => Ok s | _ => Panic "TypeError" end.

(** What a [for] loop goes over. *)
Fixpoint chars (s : string) : list json :=
  match s with String ch s' => JStr (String ch "") :: chars s' | EmptyString => [] end.
Definition iterate (v : json) : result (list json) :=
  match v with
  | JArr l => Ok l
  | JStr s => Ok (chars s)
  | JObj l => Ok ((fun kv => JStr kv.1) <$> l)
  | _ => Panic "TypeError"
  end.
Definition hashable (v : json) : bool := match v with JArr _ | JObj _ => false | _ => true end.

(** Truth; a number is false when it has no other digit than zeros before its
    exponent. *)
Fixpoint nonzero (lit : string) : bool :=
  match lit with
  | String ch s => if (ch =? "e"%char) || (ch =? "E"%char) then false else in_range 49 57 ch || nonzero s
  | EmptyString => false
  end.
Definition truth (v : json) : bool :=
  match v with
  | JNull => false | JBool b => b | JNum lit => nonzero lit | JStr s => negb (s =? "")
  | JArr l => match l with [] => false | _ => true end
  | JObj l => match l with [] => false | _ => true end
  end.

Definition upper (ch : ascii) : ascii := if in_range 97 122 ch then char (code ch - 32) else ch.
Definition label_of (name : string) : string :=
  match name with String ch s => String (upper ch) s | EmptyString => "" end.

(** ** The bus *)
Section bus.
Context (c : settings) (exec : list string -> reply).

Definition call_args (destination path interface method : string) (args : list string) : list string :=
  [busctl c; "--user"; "--timeout=2"; "--json=short"; "call"; destination; path; interface; method] ++ args.
Definition property_args (owner path interface name : string) : list string :=
  [busctl c; "--user"; "--timeout=2"; "--json=short"; "get-property"; owner; path; interface; name].

Definition command (args : list string) : result json := let! output := run (exec args) in data_of output.
Definition call (destination path interface method : string) (args : list string) : result json :=
  command (call_args destination path interface method args).
Definition property (owner path interface name : string) : result json := command (property_args owner path interface name).

Definition DBUS : string := "org.freedesktop.DBus".
Definition DBUS_PATH : string := "/org/freedesktop/DBus".

(** The constructor of [Bus]: the owner of the service name, which is the
    expected process.  The bus reports the process as an integer. *)
Definition Bus (expected_pid : Z) : result string :=
  let! reply := call DBUS DBUS_PATH DBUS "GetNameOwner" ["s"; SERVICE] in
  let! owner := index0 reply in
  let! owner := as_arg owner in
  let! reply := call DBUS DBUS_PATH DBUS "GetConnectionUnixProcessID" ["s"; owner] in
  let! pid := index0 reply in
  if json_int (Some pid) =? Some expected_pid then Ok owner
  else CheckError "The Secret Service owner is not the oo7 systemd process.".

Definition default_collection (owner : string) : result json :=
  let! reply := call owner ROOT "org.freedesktop.Secret.Service" "ReadAlias" ["s"; "default"] in index0 reply.

(** The collections with their labels, in order. *)
Fixpoint labels (owner : string) (collections : list json) : result (list (json * string)) :=
  match collections with
  | [] => Ok []
  | v :: l =>
      let! path := as_arg v in
      let! label := property owner path COLLECTION "Label" in
      if hashable label then let! rest := labels owner l in Ok ((label, path) :: rest) else Panic "TypeError"
  end.
Definition matching (by_label : list (json * string)) (label : string) : list string :=
  omap (fun e => match e.1 with JStr l => if l =? label then Some e.2 else None | _ => None end) by_label.

Fixpoint select (owner : string) (by_label : list (json * string)) (names : list string) (selected : gmap string string)
    : result (gmap string string) :=
  match names with
  | [] => Ok selected
  | name :: rest =>
      match matching by_label (label_of name) with
      | [path] =>
          let! locked := property owner path COLLECTION "Locked" in
          if truth locked then CheckError "A required collection is locked. Check its password."
          else select owner by_label rest (<[name := path]> selected)
      | _ => CheckError "A required collection is missing or duplicated."
      end
  end.

Definition check_ready (owner : string) : result unit :=
  let! reply := property owner ROOT "org.freedesktop.Secret.Service" "Collections" in
  let! collections := iterate reply in
  let! by_label := labels owner collections in
  let! selected := select owner by_label (keyring_names c) ∅ in
  match selected !! default_keyring c with
  | Some target =>
      let! current := default_collection owner in
      match current with
      | JStr path => if path =? target then Ok tt else CheckError "The default alias points to the wrong collection."
      | _ => CheckError "The default alias points to the wrong collection."
      end
  | None => Panic "KeyError"
  end.

(** One attempt of [ready]. *)
Definition attempt (pid : Z) : result unit := let! owner := Bus pid in check_ready owner.
End bus.

(** [MAINPID], or what systemctl prints; a string of digits is decimal. *)
Definition expected_pid (post_start : bool) (mainpid : option string) (show : reply) : result Z :=
  let! value := if post_start then Ok (default "" mainpid) else let! out := run show in Ok (strip out) in
  if (value =? "") || negb (all_chars is_digit value) then CheckError "The oo7 process is not running."
  else match py_int value with
       | Some pid => if pid <=? 0 then CheckError "The oo7 process is not running." else Ok pid
       | None => Panic "ValueError"
       end.

(** The loop over the attempts, each with its answers and the clock, in
    milliseconds, read when it has failed; [None] while it goes on. *)
Fixpoint ready_loop (c : settings) (pid deadline : Z) (tries : list ((list string -> reply) * Z)) : option (result unit) :=
  match tries with
  | [] => None
  | (exec, now) :: rest =>
      match attempt c exec pid with
      | Err e => if deadline <=? now then Some (Err e) else ready_loop c pid deadline rest
      | r => Some r
      end
  end.

Definition ready (c : settings) (post_start : bool) (start : Z) (mainpid : option string) (show : reply)
    (tries : list ((list string -> reply) * Z)) : option (result unit) :=
  let deadline := start + (if post_start then 45000 else 0) in
  match expected_pid post_start mainpid show with
  | Ok pid => ready_loop c pid deadline tries
  | Err e => Some (Err e)
  | Panic p => Some (Panic p)
  end.

(** ** When an attempt succeeds *)

(** What a Secret Service says of itself. *)
Record view := View {
  v_owner : string; v_pid : Z; v_collections : list string;
  v_label : string -> string; v_locked : string -> bool; v_default : string }.

Lemma fromkeys_elem l : forall seen x, x ∈ fromkeys seen l <-> x ∈ l /\ x ∉ seen.
Proof.
  induction l as [|y l IH]; intros seen x; cbn; [set_solver|]. case_bool_decide; rewrite ?elem_of_cons, IH; [set_solver|].
  destruct (decide (x = y)) as [-> |]; set_solver.
Qed.
Lemma keyring_names_elem c x : x ∈ keyring_names c <-> x ∈ default_keyring c :: required_keyrings c.
Proof. unfold keyring_names. rewrite fromkeys_elem. set_solver. Qed.

Section readiness.
Context (c : settings) (exec : list string -> reply) (v : view).

Definition prints (args : list string) (d : json) : Prop :=
  exists out l, exec args = Exit 0 out /\ parse_all out = Some (JObj l) /\ member_of l "data" = Some d.

(** The commands print the view. *)
Record serves : Prop := Serves {
  serves_owner : prints (call_args c DBUS DBUS_PATH DBUS "GetNameOwner" ["s"; SERVICE]) (JArr [JStr (v_owner v)]);
  serves_pid : prints (call_args c DBUS DBUS_PATH DBUS "GetConnectionUnixProcessID" ["s"; v_owner v]) (JArr [JNum (itoa (v_pid v))]);
  serves_range : 0 <= v_pid v < 2 ^ 32;
  serves_collections : prints (property_args c (v_owner v) ROOT "org.freedesktop.Secret.Service" "Collections") (JArr (JStr <$> v_collections v));
  serves_label p : p ∈ v_collections v -> prints (property_args c (v_owner v) p COLLECTION "Label") (JStr (v_label v p));
  serves_locked p : p ∈ v_collections v -> prints (property_args c (v_owner v) p COLLECTION "Locked") (JBool (v_locked v p));
  serves_default : prints (call_args c (v_owner v) ROOT "org.freedesktop.Secret.Service" "ReadAlias" ["s"; "default"]) (JArr [JStr (v_default v)]) }.

(** Each required keyring is the one collection with its label, and unlocked;
    the default alias is the collection of the default keyring. *)
Definition labelled (name : string) : list string := List.filter (fun p => v_label v p =? label_of name) (v_collections v).
Definition session_ready (pid : Z) : Prop :=
  v_pid v = pid
  /\ (forall name, name ∈ default_keyring c :: required_keyrings c -> exists p, labelled name = [p] /\ v_locked v p = false)
  /\ labelled (default_keyring c) = [v_default v].

Lemma prints_command args d : prints args d -> command exec args = Ok d.
Proof. intros (out & l & E & Ep & Em). unfold command. rewrite E. change (run (Exit 0 out)) with (Ok out). unfold data_of. cbn [rbind]. by rewrite Ep, Em. Qed.

Lemma labels_view l (Hs : serves) : (forall p, p ∈ l -> p ∈ v_collections v) ->
  labels c exec (v_owner v) (JStr <$> l) = Ok ((fun p => (JStr (v_label v p), p)) <$> l).
Proof.
  induction l as [|p l IH]; intros Hl; [done|]. cbn. unfold property.
  rewrite (prints_command _ _ (serves_label Hs p (Hl p ltac:(by left)))). cbn. rewrite IH; [done|]. intros q Hq. apply Hl. by right.
Qed.

Lemma matching_view l label : matching ((fun p => (JStr (v_label v p), p)) <$> l) label = List.filter (fun p => v_label v p =? label) l.
Proof. unfold matching. induction l as [|p l IH]; [done|]. cbn. destruct (v_label v p =? label); cbn; by rewrite IH. Qed.

(** The loop over the names, for a view. *)
Definition selectable (name : string) : bool :=
  match labelled name with [p] => negb (v_locked v p) | _ => false end.

Lemma select_view names (Hs : serves) : forall selected,
  let r := select c exec (v_owner v) ((fun p => (JStr (v_label v p), p)) <$> v_collections v) names selected in
  if forallb selectable names then
    exists selected', r = Ok selected' /\ forall name, selected' !! name = if decide (name ∈ names) then head (labelled name) else selected !! name
  else exists msg, r = CheckError msg.
Proof.
  induction names as [|name names IH]; intros selected; cbn [forallb select].
  { eexists. split; [done|]. intros name. destruct (decide (name ∈ [])) as [Hn | _]; [by apply elem_of_nil in Hn|done]. }
  rewrite matching_view. fold (labelled name).
  destruct (selectable name) eqn:Esel; unfold selectable in Esel; destruct (labelled name) as [|p [|q l]] eqn:El; try done; cbn [andb]; try (by eexists).
  2: { unfold property. assert (Hp : p ∈ v_collections v).
       { assert (Hin : In p (labelled name)) by (rewrite El; by left). by apply filter_In in Hin as [Hin%list_elem_of_In _]. }
       rewrite (prints_command _ _ (serves_locked Hs p Hp)). cbn. destruct (v_locked v p); [by eexists|done]. }
  assert (Hp : p ∈ v_collections v).
  { assert (Hin : In p (labelled name)) by (rewrite El; by left). by apply filter_In in Hin as [Hin%list_elem_of_In _]. }
  unfold property. rewrite (prints_command _ _ (serves_locked Hs p Hp)). cbn [rbind truth]. apply negb_true_iff in Esel. rewrite Esel.
  specialize (IH (<[name := p]> selected)). cbv zeta in IH. destruct (forallb selectable names); [|done].
  destruct IH as (selected' & -> & Hl). eexists. split; [done|]. intros k. rewrite Hl.
  destruct (decide (k ∈ names)) as [Hk | Hk]; [by rewrite decide_True by (by right)|].
  destruct (decide (name = k)) as [<- | Hne]; [rewrite lookup_insert_eq, decide_True by (by left); by rewrite El|].
  rewrite lookup_insert_ne, decide_False by (done || set_solver). done.
Qed.

Lemma selectable_iff name : selectable name = true <-> exists p, labelled name = [p] /\ v_locked v p = false.
Proof. clear c exec.
  unfold selectable. destruct (labelled name) as [|p [|q l]]; [naive_solver| |naive_solver].
  rewrite negb_true_iff. naive_solver.
Qed.

Definition readyb (pid : Z) : bool :=
  (v_pid v =? pid) && forallb selectable (keyring_names c) && (labelled (default_keyring c) =? [v_default v]).

Lemma readyb_iff pid : readyb pid = true <-> session_ready pid.
Proof. clear exec.
  unfold readyb, session_ready. rewrite !andb_true_iff, !bool_decide_eq_true, forallb_forall.
  setoid_rewrite <- keyring_names_elem. setoid_rewrite <- selectable_iff. setoid_rewrite <- list_elem_of_In. tauto.
Qed.

Lemma Bus_view (Hs : serves) pid :
  Bus c exec pid = if v_pid v =? pid then Ok (v_owner v) else CheckError "The Secret Service owner is not the oo7 systemd process.".
Proof.
  unfold Bus, call. rewrite (prints_command _ _ (serves_owner Hs)). cbn [rbind index0 as_arg].
  rewrite (prints_command _ _ (serves_pid Hs)). cbn [rbind index0].
  assert (Hj : json_int (Some (JNum (itoa (v_pid v)))) = Some (v_pid v)).
  { pose proof (serves_range Hs). unfold json_int. rewrite (all_chars_impl is_digit (fun c => is_digit c || (c =? "-"%char))).
    - apply py_int_itoa. lia.
    - by intros ch ->.
    - apply itoa_digits. lia. }
  rewrite Hj. repeat case_bool_decide; congruence.
Qed.

Lemma attempt_view (Hs : serves) pid :
  if readyb pid then attempt c exec pid = Ok tt else exists msg, attempt c exec pid = CheckError msg.
Proof.
  unfold readyb, attempt. rewrite (Bus_view Hs). destruct (v_pid v =? pid); cbn [andb rbind]; [|by eexists].
  unfold check_ready, property at 1 2. rewrite (prints_command _ _ (serves_collections Hs)). cbn [rbind iterate].
  rewrite (labels_view _ Hs) by done. cbn [rbind]. pose proof (select_view (keyring_names c) Hs ∅) as Hsel. cbv zeta in Hsel.
  destruct (forallb selectable (keyring_names c)) eqn:Eall; [|destruct Hsel as [msg ->]; by eexists].
  destruct Hsel as (selected & -> & Hl). cbn [rbind andb]. rewrite Hl, decide_True by (apply keyring_names_elem; by left).
  assert (Hd : selectable (default_keyring c) = true).
  { rewrite forallb_forall in Eall. apply Eall, list_elem_of_In, keyring_names_elem. by left. }
  apply selectable_iff in Hd as (p & Ep & _). rewrite Ep. cbn [head].
  unfold default_collection, call. rewrite (prints_command _ _ (serves_default Hs)). cbn [rbind index0].
  destruct (decide (v_default v = p)) as [-> | Hne].
  - by rewrite !bool_decide_eq_true_2.
  - rewrite !bool_decide_eq_false_2 by congruence. by eexists.
Qed.
End readiness.

(** Against a Secret Service, an attempt succeeds exactly when the service
    is the expected process, each required keyring is the one collection with
    its label and is unlocked, and the default alias is the collection of the
    default keyring.  It fails with [CheckError] otherwise, and so is retried. *)
Theorem readiness_exact c exec v pid : serves c exec v ->
  (attempt c exec pid = Ok tt <-> session_ready c v pid)
  /\ (attempt c exec pid <> Ok tt -> exists msg, attempt c exec pid = CheckError msg).
Proof.
  intros Hs. rewrite <- readyb_iff. pose proof (attempt_view c exec v Hs pid) as Ha.
  destruct (readyb c v pid); [by rewrite Ha|]. destruct Ha as [msg ->]. split; [done|]. by eexists.
Qed.

(** ** The retries *)

(** Attempts are made one after the other: the clock does not go back, and
    there are 250 milliseconds between the failures of two attempts. *)
Fixpoint paced (last : Z) (tries : list ((list string -> reply) * Z)) : Prop :=
  match tries with [] => True | (_, now) :: rest => last <= now /\ paced (now + 250) rest end.

Lemma ready_loop_waits c pid deadline tries : forall last, paced last tries ->
  ready_loop c pid deadline tries = None -> tries = [] \/ last + 250 * (Z.of_nat (length tries) - 1) < deadline.
Proof.
  induction tries as [|[exec now] tries IH]; intros last Hp Hr; [by left|]. right. destruct Hp as [Hl Hp]. cbn [ready_loop] in Hr.
  destruct (attempt c exec pid); [done| |done]. destruct (deadline <=? now) eqn:E; [done|]. apply Z.leb_gt in E.
  destruct (IH _ Hp Hr) as [-> | H]; cbn [length]; lia.
Qed.

Lemma ready_loop_answer c pid deadline tries r : ready_loop c pid deadline tries = Some r ->
  exists before exec now after, tries = before ++ (exec, now) :: after /\ attempt c exec pid = r
    /\ Forall (fun t => (exists e, attempt c t.1 pid = Err e) /\ t.2 < deadline) before
    /\ (forall e, r = Err e -> deadline <= now).
Proof.
  induction tries as [|[exec now] tries IH]; cbn [ready_loop]; [done|]. destruct (attempt c exec pid) as [u|e|p] eqn:Ea.
  - intros [= <-]. exists [], exec, now, tries. repeat split; [done|apply Forall_nil_2|done].
  - destruct (deadline <=? now) eqn:E.
    + intros [= <-]. exists [], exec, now, tries. repeat split; [done|apply Forall_nil_2|]. intros _ _. by apply Z.leb_le.
    + intros (before & ex & nw & after & -> & Hr & Hb & He)%IH. exists ((exec, now) :: before), ex, nw, after.
      repeat split; [done| |done]. constructor; [|done]. split; [by eexists|]. by apply Z.leb_gt.
  - intros [= <-]. exists [], exec, now, tries. repeat split; [done|apply Forall_nil_2|done].
Qed.

(** Readiness is reported only by an attempt that succeeded for the process
    systemd names, after attempts that all failed with [CheckError] before the
    deadline.  A failure with [CheckError] is reported only past the deadline,
    which is 45 seconds after the start for the command that follows the start
    of the service and at once for the others: at most 181 attempts are made
    after the start, and one otherwise. *)
Theorem ready_exact c post_start start mainpid show tries : paced start tries ->
  match ready c post_start start mainpid show tries with
  | None => (length tries <= if post_start then 180 else 0)%nat
  | Some r =>
      (forall pid, expected_pid post_start mainpid show = Ok pid ->
         exists before exec now after, tries = before ++ (exec, now) :: after /\ attempt c exec pid = r
           /\ Forall (fun t => (exists e, attempt c t.1 pid = Err e) /\ t.2 < start + (if post_start then 45000 else 0)) before
           /\ (forall e, r = Err e -> start + (if post_start then 45000 else 0) <= now))
      /\ (r = Ok tt -> exists pid, expected_pid post_start mainpid show = Ok pid /\ 0 < pid)
  end.
Proof.
  intros Hp. unfold ready. set (deadline := start + _).
  assert (Hpos : forall pid, expected_pid post_start mainpid show = Ok pid -> 0 < pid).
  { intros pid E. unfold expected_pid in E. apply rbind_Ok in E as (value & _ & E). destruct (_ || _); [done|].
    destruct (py_int value) as [n|]; [|done]. destruct (n <=? 0) eqn:En; [done|]. injection E as <-. by apply Z.leb_gt. }
  destruct (expected_pid post_start mainpid show) as [pid| |]; [|by split..].
  destruct (ready_loop c pid deadline tries) as [r|] eqn:E.
  - split; [|eauto]. intros pid' [= <-]. by apply ready_loop_answer.
  - destruct (ready_loop_waits _ _ _ _ _ Hp E) as [-> | H]; [cbn; lia|]. subst deadline. destruct post_start; lia.
Qed.

(** ** Before the start of the service *)
Definition no_secret_service_owner (c : settings) (exec : list string -> reply) : result unit :=
  let! output := run (exec (call_args c DBUS DBUS_PATH DBUS "NameHasOwner" ["s"; SERVICE])) in
  let! data := data_of output in
  let! owned := index0 data in
  if truth owned then CheckError "A Secret Service is already running. Do not replace it during migration." else Ok tt.

(** The credential directory, whether the credential is a file and its size, and
    whether the file of a keyring is a file and a symbolic link. *)
Record disk := Disk {
  credential_dir : option string; credential_file : bool; credential_size : Z;
  keyring_file : string -> bool; keyring_link : string -> bool }.

Fixpoint keyrings_present (d : disk) (names : list string) : result unit :=
  match names with
  | [] => Ok tt
  | name :: rest =>
      if negb (keyring_file d name) || keyring_link d name then CheckError ("Required keyring file " ++ name ++ ".keyring is missing.")
      else keyrings_present d rest
  end.

Definition prepare (c : settings) (exec : list string -> reply) (d : disk) : result unit :=
  if default "" (credential_dir d) =? "" then CheckError "The systemd credential directory is missing."
  else if negb (credential_file d) || negb ((0 <? credential_size d) && (credential_size d <=? 65536)) then
    CheckError "The keyring credential is missing, empty, or too large."
  else let! _ := keyrings_present d (keyring_names c) in no_secret_service_owner c exec.

(** ** Private directories *)

(** Whether it can be created, what it is then, and whether its mode can be set. *)
Record directory := Directory { mkdir_ok : bool; dir_link : bool; dir_uid : Z; dir_chmod_ok : bool }.

Definition secure_directory (getuid : Z) (d : directory) : result unit :=
  if mkdir_ok d then
    if dir_link d || negb (dir_uid d =? getuid) then CheckError "The private directory has an unsafe owner or symbolic link."
    else if dir_chmod_ok d then Ok tt else Panic "OSError"
  else Panic "OSError".

(** ** Enrolment *)

(** What is at a path; a file with its mode and whether its contents were
    synchronised. *)
Inductive entry := Missing | Symlink | Occupied | File (contents : string) (mode : Z) (synced : bool).
#[export] Instance entry_eq_dec : EqDecision entry.
Proof. solve_decision. Defined.

(** The values the destination has had, the last first, and what the temporary
    directory holds, while there is one. *)
Record store := Store { destinations : list entry; temporary : option entry }.
Definition destination (s : store) : entry := default Missing (head (destinations s)).
Definition set_destination (e : entry) (s : store) : store := Store (e :: destinations s) (temporary s).
Definition set_temporary (t : option entry) (s : store) : store := Store (destinations s) t.

(** The outcomes of the calls, in order.  [meanwhile] is what another process
    puts at the destination before the credential is published. *)
Record enroll_calls := EnrollCalls {
  e_directory : directory; e_password : reply; e_confirm : reply; e_mkdtemp : bool; e_encrypt : reply;
  e_chmod : bool; e_fsync : bool; meanwhile : option entry; e_publish : bool; e_dirsync : bool; e_cleanup : bool }.

(** [subprocess.run(check=True)]. *)
Definition ask (r : reply) : result string :=
  match r with Exit status stdout => if status =? 0 then Ok stdout else Panic "CalledProcessError" | Raises => Panic "OSError" end.

Definition check_call (ok : bool) (f : store -> store) : SM store unit := fun s => if ok then (Ok tt, f s) else (Panic "OSError", s).

(** [os.replace] takes the place of anything but a directory, [os.link] of nothing. *)
Definition publish (replace ok : bool) : SM store unit := fun s =>
  match temporary s with
  | Some e =>
      if ok && (if replace then negb (destination s =? Occupied) else destination s =? Missing)
      then (Ok tt, set_temporary (if replace then Some Missing else Some e) (set_destination e s))
      else (Panic "OSError", s)
  | None => (Panic "OSError", s)
  end.

Section enroll.
(** What the tool writes for a password, and what it leaves when it fails. *)
Context (seal : string -> string) (partial : entry).

(** The tool encrypts its input into a file of the temporary directory. *)
Definition encrypt (k : enroll_calls) (password : string) : SM store unit := fun s =>
  match run (e_encrypt k) with
  | Ok _ => (Ok tt, set_temporary (Some (File (seal password) 0 false)) s)
  | Err e => (Err e, set_temporary (Some partial) s)
  | Panic p => (Panic p, set_temporary (Some partial) s)
  end.

Definition with_mode (mode : Z) (e : entry) : entry := match e with File b _ y => File b mode y | e => e end.
Definition with_sync (e : entry) : entry := match e with File b m _ => File b m true | e => e end.
Definition on_temporary (f : entry -> entry) (s : store) : store := set_temporary (f <$> temporary s) s.

(** The body of the [with] block and its exit, which removes the directory. *)
Definition save_credential (k : enroll_calls) (replace : bool) (password : string) : SM store unit :=
  do! _ <- encrypt k password;
  do! _ <- check_call (e_chmod k) (on_temporary (with_mode 384));
  do! _ <- check_call (e_fsync k) (on_temporary with_sync);
  do! _ <- check_call true (fun s => match meanwhile k with Some e => set_destination e s | None => s end);
  do! _ <- publish replace (e_publish k);
  check_call (e_dirsync k) (fun s => s).
Definition in_temporary_directory (k : enroll_calls) (body : SM store unit) : SM store unit := fun s =>
  if e_mkdtemp k then
    let '(r, s') := body (set_temporary (Some Missing) s) in
    if e_cleanup k then (r, set_temporary None s') else (Panic "OSError", s')
  else (Panic "OSError", s).

Definition enroll (getuid : Z) (k : enroll_calls) (replace : bool) : SM store unit := fun s =>
  (do! _ <- slift (secure_directory getuid (e_directory k));
   do! _ <- slift (if destination s =? Symlink then CheckError "The credential path is a symbolic link."
                   else if negb (destination s =? Missing) && negb replace then
                     CheckError "The credential exists. Use enroll --replace only to update its password."
                   else Ok tt);
   do! password <- slift (ask (e_password k));
   do! confirm <- slift (ask (e_confirm k));
   do! _ <- slift (if (password =? "") || negb (password =? confirm) then
                     CheckError "The passwords are empty or do not match. No credential was saved."
                   else Ok tt);
   in_temporary_directory k (save_credential k replace password)) s.
End enroll.

(** What another process puts at the destination. *)
Definition others (k : enroll_calls) : list entry := match meanwhile k with Some e => [e] | None => [] end.

Lemma save_credential_spec seal partial k replace password s r s' :
  save_credential seal partial k replace password s = (r, s') ->
  exists added, destinations s' = added ++ destinations s
    /\ (added = [] \/ added = others k \/
        added = File (seal password) 384 true :: others k
        /\ (replace = false -> destination (Store (others k ++ destinations s) None) = Missing))
    /\ (r = Ok tt -> added = File (seal password) 384 true :: others k).
Proof.
  unfold save_credential, encrypt, check_call, sbind. destruct (run (e_encrypt k)) as [out| |].
  2, 3: intros [= <- <-]; exists []; split_and!; by auto.
  destruct (e_chmod k); [|intros [= <- <-]; exists []; split_and!; by auto].
  destruct (e_fsync k); [|intros [= <- <-]; exists []; split_and!; by auto].
  cbn [on_temporary set_temporary temporary fmap option_fmap option_map with_mode with_sync destinations].
  set (s1 := match meanwhile k with Some e => _ | None => _ end).
  assert (Hd : destinations s1 = others k ++ destinations s) by (subst s1; unfold others; by destruct (meanwhile k)).
  assert (Ht : temporary s1 = Some (File (seal password) 384 true)) by (subst s1; by destruct (meanwhile k)).
  clearbody s1. unfold publish. rewrite Ht. destruct (e_publish k && _) eqn:Ep.
  2: { intros [= <- <-]. exists (others k). split_and!; by auto. }
  apply andb_true_iff in Ep as [_ Ep]. intros E. exists (File (seal password) 384 true :: others k).
  assert (Hs' : destinations s' = File (seal password) 384 true :: destinations s1) by (destruct (e_dirsync k), replace; by injection E as <- <-).
  rewrite Hs', Hd. split; [done|]. split; [|done]. right. right. split; [done|]. intros ->. bprop.
  unfold destination in *. cbn. by rewrite <- Hd.
Qed.

(** The command stops before it has written anything, or gets to the temporary
    directory with a password. *)
Lemma enroll_cases seal partial getuid k replace s r s' : enroll seal partial getuid k replace s = (r, s') ->
  (r <> Ok tt /\ s' = s)
  \/ exists password, password <> "" /\ e_password k = Exit 0 password /\ e_confirm k = Exit 0 password
      /\ destination s <> Symlink /\ (replace = false -> destination s = Missing)
      /\ in_temporary_directory k (save_credential seal partial k replace password) s = (r, s').
Proof.
  unfold enroll, sbind, slift. destruct (secure_directory getuid (e_directory k)) as [u| |]; [|intros [= <- <-]; by left..].
  destruct (destination s =? Symlink) eqn:El; [intros [= <- <-]; by left|].
  destruct (negb (destination s =? Missing) && negb replace) eqn:Ex; [intros [= <- <-]; by left|].
  unfold ask. destruct (e_password k) as [st p|]; [|intros [= <- <-]; by left].
  destruct (st =? 0) eqn:Es1; [|intros [= <- <-]; by left].
  destruct (e_confirm k) as [st2 p2|]; [|intros [= <- <-]; by left].
  destruct (st2 =? 0) eqn:Es2; [|intros [= <- <-]; by left].
  destruct ((p =? "") || negb (p =? p2)) eqn:Epw; [intros [= <- <-]; by left|].
  intros E. right. exists p. apply orb_false_iff in Epw as [Hp0 Hp]. bprop. subst.
  split_and!; try done. intros ->. rewrite andb_true_r in Ex. by bprop.
Qed.

(** C27: Whatever calls fail, wherever the process is interrupted and whatever
    another process does, the stored credential is at every moment what it was,
    what that process put there, or a complete ciphertext of a password that is
    not empty and was typed twice, private to its owner and on disk.  Without
    [--replace] the latter never takes the place of anything.  Success means
    that it was stored.  Nothing is left in the temporary directory unless its
    removal fails. *)
Theorem enroll_safe seal partial getuid k replace s r s' : temporary s = None ->
  enroll seal partial getuid k replace s = (r, s') ->
  exists added, destinations s' = added ++ destinations s
    /\ (added = [] \/ exists password, password <> "" /\ e_password k = Exit 0 password /\ e_confirm k = Exit 0 password
          /\ destination s <> Symlink
          /\ (added = others k \/
              added = File (seal password) 384 true :: others k
              /\ (replace = false -> destination s = Missing /\ default Missing (meanwhile k) = Missing)))
    /\ (r = Ok tt -> exists password, added = File (seal password) 384 true :: others k)
    /\ (e_cleanup k = true -> temporary s' = None).
Proof.
  intros Ht [[Hr ->] | (p & Hp & E1 & E2 & Hl & Hx & E)]%enroll_cases; [exists []; split_and!; by auto|].
  unfold in_temporary_directory in E. destruct (e_mkdtemp k); [|injection E as <- <-; exists []; split_and!; by auto].
  destruct (save_credential _ _ _ _ _ _) as [r1 s1] eqn:Es. apply save_credential_spec in Es as (added & Ed & Hadd & Hok).
  cbn [destinations set_temporary] in Ed.
  assert (Hd : destinations s' = destinations s1) by (destruct (e_cleanup k); by injection E as <- <-).
  exists added. rewrite Hd, Ed. split; [done|]. split; [|split].
  - destruct Hadd as [-> | Hadd]; [by left|]. right. exists p. split_and!; try done.
    destruct Hadd as [-> | (-> & Hm)]; [by left|]. right. split; [done|]. intros ->. specialize (Hm eq_refl). split; [auto|].
    unfold destination, others in Hm. by destruct (meanwhile k).
  - intros ->. exists p. apply Hok. destruct (e_cleanup k); congruence.
  - intros Hc. rewrite Hc in E. by injection E as <- <-.
Qed.

(** ** Backup *)
Inductive node := NFile (contents : string) | NDir | NLink | NSpecial.
#[export] Instance node_eq_dec : EqDecision node.
Proof. solve_decision. Defined.

Section backup.
Context (sha256 : string -> string).

(** The hashes of the files below a directory.  The order in which they are
    visited decides which of two messages is given, and nothing else. *)
Fixpoint snapshot_of (l : list (string * node)) (acc : gmap string string) : result (gmap string string) :=
  match l with
  | [] => Ok acc
  | (path, n) :: l' =>
      match n with
      | NLink => CheckError "The keyring directory contains a symbolic link. Back up manually."
      | NFile b => snapshot_of l' (<[path := sha256 b]> acc)
      | NDir => snapshot_of l' acc
      | NSpecial => CheckError "The keyring directory contains a special file."
      end
  end.
Definition snapshot (t : gmap string node) : result (gmap string string) := snapshot_of (map_to_list t) ∅.

(** A tree with the modes of its entries, and the new directory: the copy, the
    mode of its root, and the manifest with its mode. *)
Notation moded := (gmap string (node * Z)).
Record saved := Saved { copy : option moded; copy_mode : Z; manifest : option (json * Z); reported : bool }.
Definition nothing_saved : saved := Saved None 0 None false.

(** What is found and which calls fail: the source directory and its tree before
    and after the copy, the directory of backups, and what the copy gives. *)
Record backup_calls := BackupCalls {
  source_link : bool; source_dir : bool; b_root : directory; b_mkdtemp : bool;
  tree_before : gmap string node; b_copied : option (moded * Z); tree_after : gmap string node;
  b_chmod : string -> bool; b_root_chmod : bool; b_manifest : bool; b_manifest_chmod : bool }.

Definition private_mode (n : node) : Z := match n with NDir => 448 | _ => 384 end.
Fixpoint chmod_all (ok : string -> bool) (l : list string) (t : moded) : result unit * moded :=
  match l with
  | [] => (Ok tt, t)
  | path :: l' =>
      if ok path then chmod_all ok l' (alter (fun e => (e.1, private_mode e.1)) path t)
      else (Panic "OSError", t)
  end.

Definition manifest_value (files : gmap string string) : json :=
  JObj [("verified", JBool true); ("files", JObj ((fun kv => (kv.1, JStr kv.2)) <$> map_to_list files))].

(** The manifest is created under the umask 077. *)
Definition finish (k : backup_calls) (before : gmap string string) : SM saved unit := fun s =>
  match copy s with
  | Some t =>
      let '(r, t') := chmod_all (b_chmod k) (map_to_list t).*1 t in
      let s1 := Saved (Some t') (copy_mode s) None false in
      match r with
      | Ok _ =>
          if b_root_chmod k then
            let s2 := Saved (Some t') 448 None false in
            if b_manifest k then
              let s3 := Saved (Some t') 448 (Some (manifest_value before, 384)) false in
              if b_manifest_chmod k then (Ok tt, Saved (Some t') 448 (Some (manifest_value before, 384)) true) else (Panic "OSError", s3)
            else (Panic "OSError", s2)
          else (Panic "OSError", s1)
      | Err e => (Err e, s1)
      | Panic p => (Panic p, s1)
      end
  | None => (Panic "OSError", s)
  end.

Definition backup (getuid : Z) (k : backup_calls) : SM saved unit :=
  do! _ <- slift (if source_link k || negb (source_dir k) then CheckError "The existing keyring directory is missing or unsafe." else Ok tt);
  do! _ <- slift (secure_directory getuid (b_root k));
  do! before <- slift (snapshot (tree_before k));
  do! _ <- slift (if bool_decide (before = ∅) then CheckError "The keyring directory is empty. No backup was made." else Ok tt);
  do! copied <- slift (if b_mkdtemp k then match b_copied k with Some t => Ok t | None => Panic "OSError" end else Panic "OSError");
  do! _ <- fun s => (Ok tt, Saved (Some copied.1) copied.2 (manifest s) (reported s));
  do! after <- slift (snapshot (tree_after k));
  do! _ <- slift (if bool_decide (before = after) then Ok tt else CheckError "The keyrings changed during backup. Stop writers and try again.");
  do! taken <- slift (snapshot (fst <$> copied.1));
  do! _ <- slift (if bool_decide (before = taken) then Ok tt else CheckError "The keyrings changed during backup. Stop writers and try again.");
  finish k before.
End backup.

Definition file_at (t : gmap string node) (p : string) : option string := n ← t !! p; match n with NFile b => Some b | _ => None end.
Definition plain_node (n : node) : Prop := match n with NFile _ | NDir => True | _ => False end.

Lemma snapshot_of_spec sha256 l : forall acc files, NoDup l.*1 -> snapshot_of sha256 l acc = Ok files ->
  Forall (fun e => plain_node e.2) l
  /\ forall p, files !! p = match (list_to_map l : gmap string node) !! p with Some (NFile b) => Some (sha256 b) | _ => acc !! p end.
Proof.
  induction l as [|[q n] l IH]; intros acc files; cbn [snapshot_of fmap list_fmap fst].
  { intros _ [= <-]. split; [apply Forall_nil_2|]. intros p. cbn. by rewrite lookup_empty. }
  intros [Hq Hnd]%NoDup_cons E. cbn [list_to_map foldr]. fold (list_to_map l : gmap string node).
  assert (Hnone : (list_to_map l : gmap string node) !! q = None) by (by apply not_elem_of_list_to_map_1).
  destruct n as [b| | |]; [| |done|done]; (apply IH in E as [Hf Hl]; [|done]); (split; [by constructor|]); intros p; rewrite Hl.
  - destruct (decide (q = p)) as [<- | Hne].
    + by rewrite Hnone, !lookup_insert_eq.
    + by rewrite !lookup_insert_ne by done.
  - destruct (decide (q = p)) as [<- | Hne]; [by rewrite Hnone, lookup_insert_eq|by rewrite lookup_insert_ne by done].
Qed.

(** A snapshot is the hashes of the files of a tree of files and directories. *)
Lemma snapshot_spec sha256 t files : snapshot sha256 t = Ok files ->
  map_Forall (fun _ n => plain_node n) t /\ forall p, files !! p = sha256 <$> file_at t p.
Proof.
  intros [Hf Hl]%snapshot_of_spec; [|apply NoDup_fst_map_to_list]. split.
  - intros p n Hn. rewrite Forall_forall in Hf. apply (Hf (p, n)). by apply elem_of_map_to_list.
  - intros p. rewrite Hl, list_to_map_to_list. unfold file_at. destruct (t !! p) as [[]|]; cbn; by rewrite ?lookup_empty.
Qed.

Lemma chmod_all_spec ok l : forall t r t', chmod_all ok l t = (r, t') ->
  fst <$> t' = fst <$> t
  /\ forall u, r = Ok u -> forall p e, t' !! p = Some e -> p ∈ l -> e.2 = private_mode e.1.
Proof.
  assert (Hkeep : forall l t r t' p, chmod_all ok l t = (r, t') ->
    (forall e, t !! p = Some e -> e.2 = private_mode e.1) -> forall e, t' !! p = Some e -> e.2 = private_mode e.1).
  { clear l. induction l as [|q l IH]; intros t r t' p; cbn [chmod_all]; [by intros [= <- <-]|].
    destruct (ok q); [|by intros [= <- <-]]. intros E Ht. eapply IH; [exact E|]. intros e He.
    apply lookup_alter_Some in He as [(<- & e0 & _ & ->) | (_ & He)]; auto. }
  induction l as [|q l IH]; intros t r t'; cbn [chmod_all].
  { intros [= <- <-]. split; [done|]. intros u _ p e _ Hp. by apply elem_of_nil in Hp. }
  destruct (ok q); [|intros [= <- <-]; by split]. intros E. destruct (IH _ _ _ E) as [Hfst Hmode]. split.
  - rewrite Hfst. apply map_eq. intros p. rewrite !lookup_fmap. destruct (decide (q = p)) as [<- | Hne].
    + rewrite lookup_alter_eq. by destruct (t !! q).
    + by rewrite lookup_alter_ne.
  - intros u Hr p e He [-> | Hp]%elem_of_cons; [|by eapply Hmode]. eapply Hkeep; [exact E| |exact He].
    intros e0 He0. rewrite lookup_alter_eq in He0. destruct (t !! q); [|done]. by injection He0 as <-.
Qed.

(** A manifest stands for a verified copy. *)
Definition verified_copy (sha256 : string -> string) (k : backup_calls) (s : saved) : Prop :=
  exists files t, manifest s = Some (manifest_value files, 384) /\ files <> ∅ /\ copy s = Some t /\ copy_mode s = 448
    /\ map_Forall (fun _ e => plain_node e.1 /\ e.2 = private_mode e.1) t
    /\ forall p, files !! p = sha256 <$> file_at (fst <$> t) p
        /\ sha256 <$> file_at (tree_before k) p = files !! p /\ sha256 <$> file_at (tree_after k) p = files !! p.

Lemma finish_spec k before s r s' t : finish k before s = (r, s') -> manifest s = None -> reported s = false -> copy s = Some t ->
  (manifest s' = None /\ r <> Ok tt /\ reported s' = false)
  \/ (exists t', copy s' = Some t' /\ copy_mode s' = 448 /\ manifest s' = Some (manifest_value before, 384)
      /\ fst <$> t' = fst <$> t /\ map_Forall (fun _ e => e.2 = private_mode e.1) t' /\ (r = Ok tt <-> reported s' = true)).
Proof.
  intros E Hm Hr Hc. unfold finish in E. rewrite Hc in E. destruct (chmod_all _ _ _) as [rc t'] eqn:Ec.
  apply chmod_all_spec in Ec as [Hfst Hmode].
  destruct rc as [u| |]; [|injection E as <- <-; by left..]. destruct (b_root_chmod k); [|injection E as <- <-; by left].
  destruct (b_manifest k); [|injection E as <- <-; by left]. right. exists t'.
  assert (Hall : map_Forall (fun _ e => e.2 = private_mode e.1) t').
  { intros p e He. eapply Hmode; [done..|]. assert (Hp : is_Some ((fst <$> t) !! p)) by (rewrite <- Hfst, lookup_fmap, He; by eexists).
    rewrite lookup_fmap, fmap_is_Some in Hp. destruct Hp as [e0 He0]. apply list_elem_of_fmap. exists (p, e0). split; [done|]. by apply elem_of_map_to_list. }
  destruct (b_manifest_chmod k); injection E as <- <-; by split_and!.
Qed.

(** A manifest is written only into a directory whose copy of the keyrings
    has the files of the source, by their hashes, as they were before and after
    the copy: at least one file, no symbolic link and no special file, and
    everything private to the owner.  Success is reported exactly when that is
    complete, and without a manifest the command fails. *)
Theorem backup_verified sha256 getuid k r s' : backup sha256 getuid k nothing_saved = (r, s') ->
  (manifest s' <> None -> verified_copy sha256 k s')
  /\ (manifest s' = None -> r <> Ok tt) /\ (r = Ok tt <-> reported s' = true).
Proof.
  unfold backup, sbind, slift. destruct (_ || _); [by intros [= <- <-]|].
  destruct (secure_directory _ _); [|by intros [= <- <-]..].
  destruct (snapshot sha256 (tree_before k)) as [before| |] eqn:E0; [|by intros [= <- <-]..].
  case_bool_decide as Hne; [by intros [= <- <-]|].
  destruct (b_mkdtemp k); [|by intros [= <- <-]]. destruct (b_copied k) as [[t mode]|]; [|by intros [= <- <-]]. cbn [fst snd].
  destruct (snapshot sha256 (tree_after k)) as [after| |] eqn:E1; [|by intros [= <- <-]..].
  case_bool_decide; [subst after|by intros [= <- <-]].
  destruct (snapshot sha256 (fst <$> t)) as [taken| |] eqn:E2; [|by intros [= <- <-]..].
  case_bool_decide; [subst taken|by intros [= <- <-]].
  intros E. apply snapshot_spec in E0 as [_ H0], E1 as [_ H1], E2 as [Hp H2].
  eapply finish_spec in E as [(-> & Hr & Hrep) | (t' & Hc & Hmode & Hm & Hfst & Hall & Hr)]; [| |done..].
  - split; [done|]. split; [done|]. rewrite Hrep. naive_solver.
  - rewrite Hm. split; [|split; [done|done]]. intros _. exists before, t'. split_and!; try done.
    + intros p e He. split; [|by eapply Hall]. apply (Hp p). rewrite <- Hfst, lookup_fmap, He. done.
    + intros p. rewrite Hfst. split; [apply H2|]. split; [by rewrite H0|by rewrite H1].
Qed.

(** ** The command *)
Inductive subcommand := Condition | Prepare | PostStart | Ready | Backup | Enroll.
#[export] Instance subcommand_eq_dec : EqDecision subcommand.
Proof. solve_decision. Defined.

(** The choices of the argument parser. *)
Definition subcommand_of (s : string) : option subcommand :=
  if s =? "condition" then Some Condition else if s =? "prepare" then Some Prepare
  else if s =? "post-start" then Some PostStart else if s =? "ready" then Some Ready
  else if s =? "backup" then Some Backup else if s =? "enroll" then Some Enroll else None.

(** What the process finds. *)
Record machine := Machine {
  getuid : Z; m_exec : list string -> reply; m_disk : disk; m_start : Z; m_mainpid : option string;
  m_tries : list ((list string -> reply) * Z); m_backup : backup_calls; m_enroll : enroll_calls }.

Definition active_args (c : settings) : list string := [systemctl c; "--user"; "is-active"; "--quiet"; "graphical-session.target"].
Definition show_args (c : settings) : list string :=
  [systemctl c; "--user"; "show"; "oo7-daemon.service"; "--property=MainPID"; "--value"].

(** The return value; [None] while the service is waited for. *)
Definition main (seal : string -> string) (partial : entry) (sha256 : string -> string)
    (c : settings) (m : machine) (cmd : subcommand) (replace : bool) (st : store * saved) : option (result Z) * (store * saved) :=
  let zero (r : result unit) : result Z := let! _ := r in Ok 0 in
  if negb (getuid m =? uid c) then (Some (CheckError "Run this command as the configured user, without sudo."), st)
  else if replace && negb (cmd =? Enroll) then (Some (CheckError "The --replace option is only valid with enroll."), st)
  else match cmd with
       | Condition =>
           (Some (match m_exec m (active_args c) with Exit status _ => Ok (if status =? 0 then 0 else 1) | Raises => Panic "subprocess" end), st)
       | Prepare => (Some (zero (prepare c (m_exec m) (m_disk m))), st)
       | PostStart => (zero <$> ready c true (m_start m) (m_mainpid m) (m_exec m (show_args c)) (m_tries m), st)
       | Ready => (zero <$> ready c false (m_start m) (m_mainpid m) (m_exec m (show_args c)) (m_tries m), st)
       | Backup => let '(r, s') := backup sha256 (getuid m) (m_backup m) st.2 in (Some (zero r), (st.1, s'))
       | Enroll => let '(r, s') := enroll seal partial (getuid m) (m_enroll m) replace st.1 in (Some (zero r), (s', st.2))
       end.

(** The status of the process: every exception gives 1. *)
Definition exit_status (r : result Z) : Z := match r with Ok status => status | _ => 1 end.

(** Only the configured user changes anything, and each command only its own part. *)
Lemma main_confined seal partial sha256 c m cmd replace st r st' :
  main seal partial sha256 c m cmd replace st = (r, st') ->
  (st'.1 <> st.1 -> cmd = Enroll /\ getuid m = uid c) /\ (st'.2 <> st.2 -> cmd = Backup /\ getuid m = uid c /\ replace = false).
Proof.
  unfold main. destruct (getuid m =? uid c) eqn:Eu; cbn [negb]; [|by intros [= <- <-]].
  destruct (replace && negb (cmd =? Enroll)) eqn:Er; [by intros [= <- <-]|]. bprop.
  destruct cmd; try by intros [= <- <-].
  - destruct (backup _ _ _ _) as [r' s']. intros [= <- <-]. cbn. split; [done|]. intros _. split_and!; try done. by destruct replace.
  - destruct (enroll _ _ _ _ _ _) as [r' s']. intros [= <- <-]. cbn. by split.
Qed.

Lemma keyrings_present_spec d names : keyrings_present d names = Ok tt <->
  Forall (fun name => keyring_file d name = true /\ keyring_link d name = false) names.
Proof.
  induction names as [|name names IH]; cbn; [by split|]. rewrite Forall_cons, <- IH.
  destruct (keyring_file d name), (keyring_link d name); cbn; naive_solver.
Qed.

(** The service is started only with a credential of a plausible size, with the
    files of all required keyrings, and while the name is not owned. *)
Theorem prepare_sound c exec d : prepare c exec d = Ok tt ->
  credential_dir d <> None /\ credential_file d = true /\ 0 < credential_size d <= 65536
  /\ Forall (fun name => keyring_file d name = true /\ keyring_link d name = false) (default_keyring c :: required_keyrings c)
  /\ no_secret_service_owner c exec = Ok tt.
Proof.
  unfold prepare. case_bool_decide as Hd; [done|]. destruct (credential_file d); [|done]. cbn [negb orb].
  destruct ((0 <? credential_size d) && (credential_size d <=? 65536)) eqn:Es; [|done]. cbn [negb].
  intros ([] & Hk & Ho)%rbind_Ok. apply keyrings_present_spec in Hk. apply andb_true_iff in Es as [H1%Z.ltb_lt H2%Z.leb_le].
  split_and!; try done; [by destruct (credential_dir d)|]. rewrite Forall_forall in Hk |- *. intros name Hn. by apply Hk, keyring_names_elem.
Qed.

(** ** A concrete session *)
Module SessionExamples.
Definition c : settings := Settings 1000 "login" ["work"] "busctl" "systemctl" "systemd-creds" "ask".
Definition data (d : json) : reply := Exit 0 (marshal (JObj [("type", JStr "v"); ("data", d)])).

(** Two keyrings, the second of them locked or not. *)
Definition service (locked : bool) : view :=
  View ":1.7" 42 ["/c/1"; "/c/2"] (fun p => if p =? "/c/1" then "Login" else "Work") (fun p => (p =? "/c/2") && locked) "/c/1".
Definition bus (v : view) (args : list string) : reply :=
  if args =? call_args c DBUS DBUS_PATH DBUS "GetNameOwner" ["s"; SERVICE] then data (JArr [JStr (v_owner v)])
  else if args =? call_args c DBUS DBUS_PATH DBUS "GetConnectionUnixProcessID" ["s"; v_owner v] then data (JArr [JNum (itoa (v_pid v))])
  else if args =? property_args c (v_owner v) ROOT "org.freedesktop.Secret.Service" "Collections" then data (JArr (JStr <$> v_collections v))
  else if args =? call_args c (v_owner v) ROOT "org.freedesktop.Secret.Service" "ReadAlias" ["s"; "default"] then data (JArr [JStr (v_default v)])
  else match List.find (fun p => args =? property_args c (v_owner v) p COLLECTION "Label") (v_collections v) with
       | Some p => data (JStr (v_label v p))
       | None =>
           match List.find (fun p => args =? property_args c (v_owner v) p COLLECTION "Locked") (v_collections v) with
           | Some p => data (JBool (v_locked v p))
           | None => Exit 1 ""
           end
       end.

Ltac printed := eexists _, _; split; [vm_compute; reflexivity|split; vm_compute; reflexivity].
Ltac each_collection := intros p Hp; repeat (apply elem_of_cons in Hp as [-> | Hp]; [printed|]); by apply elem_of_nil in Hp.

Lemma bus_serves locked : serves c (bus (service locked)) (service locked).
Proof. destruct locked; (constructor; [printed|printed|done|printed|each_collection|each_collection|printed]). Qed.

Lemma readiness_exact_witness :
  session_ready c (service false) 42 /\ exists msg, attempt c (bus (service true)) 42 = CheckError msg.
Proof.
  split.
  - apply (readiness_exact c (bus (service false)) (service false) 42 (bus_serves false)). vm_compute. reflexivity.
  - apply (readiness_exact c (bus (service true)) (service true) 42 (bus_serves true)). vm_compute. done.
Defined.

(** Unlocked between the first attempt and the second. *)
Definition tries : list ((list string -> reply) * Z) := [(bus (service true), 20); (bus (service false), 300)].
Lemma ready_exact_witness : ready c true 0 (Some "42") Raises tries = Some (Ok tt) /\
  exists pid, expected_pid true (Some "42") Raises = Ok pid /\ 0 < pid.
Proof.
  assert (E : ready c true 0 (Some "42") Raises tries = Some (Ok tt)) by (vm_compute; reflexivity). split; [exact E|].
  assert (Hp : paced 0 tries) by (cbn; lia).
  pose proof (ready_exact c true 0 (Some "42") Raises tries Hp) as H. rewrite E in H. apply H. reflexivity.
Defined.

(** Another enrolment gets in between: it is kept. *)
Definition private : directory := Directory true false 1000 true.
Definition typed (other : option entry) : enroll_calls :=
  EnrollCalls private (Exit 0 "hunter2") (Exit 0 "hunter2") true (Exit 0 "") true true other true true true.
Definition sealed (p : string) : string := "sealed:" ++ p.
Lemma enroll_safe_witness :
  (enroll sealed Missing 1000 (typed None) false (Store [Missing] None)).1 = Ok tt
  /\ destination (enroll sealed Missing 1000 (typed (Some (File "first" 384 true))) false (Store [Missing] None)).2 = File "first" 384 true
  /\ temporary (enroll sealed Missing 1000 (typed None) false (Store [Missing] None)).2 = None.
Proof.
  split; [vm_compute; reflexivity|]. split; [vm_compute; reflexivity|].
  destruct (enroll_safe sealed Missing 1000 (typed None) false (Store [Missing] None)
    (enroll sealed Missing 1000 (typed None) false (Store [Missing] None)).1
    (enroll sealed Missing 1000 (typed None) false (Store [Missing] None)).2 eq_refl (surjective_pairing _)) as (added & _ & _ & _ & Ht).
  apply Ht. reflexivity.
Defined.

Definition keyrings : gmap string node := {["v1" := NDir; "v1/login.keyring" := NFile "k"]}.
Definition copies (after : gmap string node) : backup_calls :=
  BackupCalls false true private true keyrings (Some ((fun n => (n, 511)) <$> keyrings, 511)) after (fun _ => true) true true true.
Lemma backup_verified_witness :
  (backup sealed 1000 (copies keyrings) nothing_saved).1 = Ok tt
  /\ (backup sealed 1000 (copies ∅) nothing_saved).1 <> Ok tt
  /\ verified_copy sealed (copies keyrings) (backup sealed 1000 (copies keyrings) nothing_saved).2.
Proof.
  split; [vm_compute; reflexivity|]. split; [vm_compute; done|].
  apply (backup_verified sealed 1000 (copies keyrings) (backup sealed 1000 (copies keyrings) nothing_saved).1
    (backup sealed 1000 (copies keyrings) nothing_saved).2 (surjective_pairing _)). vm_compute. done.
Defined.
End SessionExamples.
